(** * numpyeigen: the binding compiler of [codegen_function.py]

    A shallow embedding of the binding-description compiler: the statement
    recognisers, the structural parser [NpeFunction._parse], the semantic
    pass [NpeFunction._validate], the code generator [codegen_ast] and the
    driver under [__main__], followed by the properties of the design
    document that can be stated on them.

    Conventions.
    - Python [str] is [string] (a sequence of bytes); [lower] and [strip]
      are the ASCII parts of [str.lower] and [str.strip].
    - Python exceptions are values of [exn]; a computation that may raise
      returns a [result].
    - [out_file.write] appends to the text written so far; the generator
      runs in a writer monad that keeps the text written before a raise.
    - Python lists indexed by a possibly negative [int] use [Py.index]. *)

From Stdlib Require Import ZArith String Ascii List Lia DecimalString Bool.
From stdpp Require Import gmap strings list.

Local Open Scope string_scope.
Local Open Scope Z_scope.
(* [++] is list concatenation throughout; strings use [+:+]. *)
#[local] Disable Notation "_ ++ _" : string_scope.

(** ** Python strings *)

Module Py.

Definition nl : string := String (ascii_of_nat 10) EmptyString.
Definition dq : string := String (ascii_of_nat 34) EmptyString.

(** [len(s)] *)
Definition len (s : string) : Z := Z.of_nat (String.length s).

(** [str.isspace] on one ASCII character: TAB LF VT FF CR, FS GS RS US
    and SPACE. *)
Definition isspace (c : ascii) : bool :=
  let n := nat_of_ascii c in
  ((9 <=? n)%nat && (n <=? 13)%nat) || ((28 <=? n)%nat && (n <=? 32)%nat).

Fixpoint lstrip (s : string) : string :=
  match s with
  | EmptyString => EmptyString
  | String c r => if isspace c then lstrip r else s
  end.

Fixpoint rstrip (s : string) : string :=
  match s with
  | EmptyString => EmptyString
  | String c r =>
      match rstrip r with
      | EmptyString => if isspace c then EmptyString else String c EmptyString
      | r' => String c r'
      end
  end.

(** [s.strip()] *)
Definition strip (s : string) : string := rstrip (lstrip s).

Definition lower_ascii (c : ascii) : ascii :=
  let n := nat_of_ascii c in
  if ((65 <=? n)%nat && (n <=? 90)%nat) then ascii_of_nat (n + 32) else c.

(** [s.lower()] *)
Fixpoint lower (s : string) : string :=
  match s with
  | EmptyString => EmptyString
  | String c r => String (lower_ascii c) (lower r)
  end.

(** [s.startswith(p)] *)
Definition startswith (s p : string) : bool := String.prefix p s.

Fixpoint rev_acc (s acc : string) : string :=
  match s with
  | EmptyString => acc
  | String c r => rev_acc r (String c acc)
  end.

Definition rev (s : string) : string := rev_acc s EmptyString.

(** [s.endswith(p)] *)
Definition endswith (s p : string) : bool := String.prefix (rev p) (rev s).

(** [s[n:]] for [n >= 0] *)
Fixpoint drop (n : nat) (s : string) : string :=
  match n, s with
  | O, _ => s
  | S _, EmptyString => EmptyString
  | S k, String _ r => drop k r
  end.

(** [s[:-1]] *)
Fixpoint drop_last (s : string) : string :=
  match s with
  | EmptyString => EmptyString
  | String c EmptyString => EmptyString
  | String c r => String c (drop_last r)
  end.

(** [s.replace(a, b)] for one character [a] *)
Fixpoint replace_char (a : ascii) (b : string) (s : string) : string :=
  match s with
  | EmptyString => EmptyString
  | String c r =>
      (if Ascii.eqb c a then b else String c EmptyString) +:+ replace_char a b r
  end.

(** ["%d" % z] *)
Definition str_of_int (z : Z) : string := NilZero.string_of_int (Z.to_int z).

(** [sep.join(l)] *)
Fixpoint join (sep : string) (l : list string) : string :=
  match l with
  | [] => ""
  | [x] => x
  | x :: r => x +:+ sep +:+ join sep r
  end.

(** [str(l)] for a list of strings that need no escaping (no quote, no
    backslash, printable): every element in single quotes. *)
Definition repr_list (l : list string) : string :=
  "[" +:+ join ", " (map (fun s => "'" +:+ s +:+ "'") l) +:+ "]".

(** [l[i]] for a Python [int] index: negative indices count from the end;
    [None] stands for IndexError. *)
Definition index {A} (l : list A) (i : Z) : option A :=
  let n := Z.of_nat (length l) in
  if (0 <=? i) && (i <? n) then l !! Z.to_nat i
  else if (- n <=? i) && (i <? 0) then l !! Z.to_nat (n + i)
  else None.

(** The list after [l[i] = x] (same index convention). *)
Definition set_index {A} (l : list A) (i : Z) (x : A) : option (list A) :=
  let n := Z.of_nat (length l) in
  if (0 <=? i) && (i <? n) then Some (<[Z.to_nat i := x]> l)
  else if (- n <=? i) && (i <? 0) then Some (<[Z.to_nat (n + i) := x]> l)
  else None.

Fixpoint has_slash (p : string) : bool :=
  match p with
  | EmptyString => false
  | String c r => Ascii.eqb c "/"%char || has_slash r
  end.

(** [os.path.basename(p)]: what follows the last slash. *)
Fixpoint basename (p : string) : string :=
  match p with
  | EmptyString => EmptyString
  | String c r =>
      if has_slash r then basename r
      else if Ascii.eqb c "/"%char then r else p
  end.

(** [s.split(sep)] for a separator that is not empty: the pieces between
    the occurrences of [sep], taken from the left.  [skip] counts the
    characters still to pass of an occurrence that was found, and [cur]
    is the piece read so far. *)
Fixpoint split_go (sep : string) (skip : nat) (cur s : string) : list string :=
  match s with
  | EmptyString => [cur]
  | String c r =>
      match skip with
      | S k => split_go sep k cur r
      | O =>
          if String.prefix sep s then
            cur :: split_go sep (String.length sep - 1) "" r
          else split_go sep 0 (cur +:+ String c EmptyString) r
      end
  end.

Definition split (s sep : string) : list string := split_go sep 0 "" s.

End Py.

(** ** Exceptions *)

Inductive exn : Type :=
| ParseError (msg : string)
| SemanticError (msg : string)
| AssertionError
| KeyError (key : string)
| IndexError
| TypeError.

Inductive result (A : Type) : Type :=
| Ok (a : A)
| Raise (e : exn).
Arguments Ok {A} a.
Arguments Raise {A} e.

Definition rbind {A B} (r : result A) (k : A -> result B) : result B :=
  match r with
  | Ok a => k a
  | Raise e => Raise e
  end.

Declare Scope result_scope.
Delimit Scope result_scope with result.
Notation "'let*' x ':=' r 'in' k" := (rbind r (fun x => k))
  (at level 10, x pattern, r at level 100, k at level 200) : result_scope.
Notation "'do*' r 'in' k" := (rbind r (fun _ => k))
  (at level 10, r at level 100, k at level 200) : result_scope.

(** [assert c] *)
Definition py_assert (c : bool) : result unit :=
  if c then Ok tt else Raise AssertionError.

Local Open Scope result_scope.

(** ** The type catalog and the statement names *)

(** [NUMPY_ARRAY_TYPES_TO_CPP]: array-type identifier, then the C++ scalar
    type, the short code and the numpy name. *)
Definition NUMPY_ARRAY_TYPES_TO_CPP : list (string * (string * string * string)) :=
  [ ("dense_f32", ("float", "f32", "float32"));
    ("dense_f64", ("double", "f64", "float64"));
    ("dense_f128", ("__float128", "f128", "float128"));
    ("dense_i8", ("std::int8_t", "i8", "int8"));
    ("dense_i16", ("std::int16_t", "i16", "int16"));
    ("dense_i32", ("std::int32_t", "i32", "int32"));
    ("dense_i64", ("std::int64_t", "i64", "int64"));
    ("dense_u8", ("std::uint8_t", "u8", "uint8"));
    ("dense_u16", ("std::uint16_t", "u16", "uint16"));
    ("dense_u32", ("std::uint32_t", "u32", "uint32"));
    ("dense_u64", ("std::uint64_t", "u64", "uint64"));
    ("dense_c64", ("std::complex<float>", "c64", "complex64"));
    ("dense_c128", ("std::complex<double>", "c128", "complex128"));
    ("dense_c256", ("std::complex<__float128>", "c256", "complex256"));
    ("sparse_f32", ("float", "f32", "float32"));
    ("sparse_f64", ("double", "f64", "float64"));
    ("sparse_f128", ("__float128", "f128", "float128"));
    ("sparse_i8", ("std::int8_t", "i8", "int8"));
    ("sparse_i16", ("std::int16_t", "i16", "int16"));
    ("sparse_i32", ("std::int32_t", "i32", "int32"));
    ("sparse_i64", ("std::int64_t", "i64", "int64"));
    ("sparse_u8", ("std::uint8_t", "u8", "uint8"));
    ("sparse_u16", ("std::uint16_t", "u16", "uint16"));
    ("sparse_u32", ("std::uint32_t", "u32", "uint32"));
    ("sparse_u64", ("std::uint64_t", "u64", "uint64"));
    ("sparse_c64", ("std::complex<float>", "c64", "complex64"));
    ("sparse_c128", ("std::complex<double>", "c128", "complex128"));
    ("sparse_c256", ("std::complex<__float128>", "c256", "complex256")) ].

(** [NUMPY_ARRAY_TYPES = list(NUMPY_ARRAY_TYPES_TO_CPP.keys())] *)
Definition NUMPY_ARRAY_TYPES : list string := map fst NUMPY_ARRAY_TYPES_TO_CPP.

(** [NUMPY_ARRAY_TYPES_TO_CPP[k]]; a missing key raises KeyError. *)
Fixpoint assoc {V} (k : string) (l : list (string * V)) : option V :=
  match l with
  | [] => None
  | (k', v) :: r => if String.eqb k k' then Some v else assoc k r
  end.

Definition catalog (k : string) : result (string * string * string) :=
  match assoc k NUMPY_ARRAY_TYPES_TO_CPP with
  | Some v => Ok v
  | None => Raise (KeyError k)
  end.

Definition MATCHES_TOKEN := "npe_matches".
Definition ARG_TOKEN := "npe_arg".
Definition DEFAULT_ARG_TOKEN := "npe_default_arg".
Definition BEGIN_CODE_TOKEN := "npe_begin_code".
Definition END_CODE_TOKEN := "npe_end_code".
Definition FUNCTION_TOKEN := "npe_function".
Definition DTYPE_TOKEN := "npe_dtype".
Definition DOC_TOKEN := "npe_doc".
Definition COMMENT_TOKEN := "//".

(** [x in l] for a list of strings *)
Definition str_in (x : string) (l : list string) : bool :=
  existsb (String.eqb x) l.

Definition is_numpy_type (typestr : string) : bool :=
  str_in (Py.lower typestr) NUMPY_ARRAY_TYPES.

Definition is_sparse_type (type_name : string) : bool :=
  is_numpy_type type_name && Py.startswith type_name "sparse_".

Definition is_dense_type (type_name : string) : bool :=
  is_numpy_type type_name && Py.startswith type_name "dense_".

(** ** Statement recognisers *)

Definition consume_token (line token : string) (line_number : Z)
    (case_sensitive : bool) : result string :=
  let check_line := if case_sensitive then line else Py.lower line in
  let check_token := if case_sensitive then token else Py.lower token in
  if negb (Py.startswith check_line check_token) then
    Raise (ParseError ("Missing '" +:+ token +:+ "' at line "
                       +:+ Py.str_of_int line_number))
  else Ok (Py.drop (String.length token) line).

Definition consume_eol (line : string) (line_number : Z) : result string :=
  if negb (Py.len (Py.strip line) =? 0) then
    Raise (ParseError ("Expected end-of-line after ')' token on line "
                       +:+ Py.str_of_int line_number +:+ ". Got '"
                       +:+ Py.strip line +:+ "'"))
  else Ok (Py.strip line).

(** [consume_call_statement]: [Ok None] is the [False] returned when
    [throw] is off and the line does not start with the call. *)
Definition consume_call_statement (token line : string) (line_number : Z)
    (throw : bool) : result (option string) :=
  match (let* line1 := consume_token (Py.strip line) token line_number true in
         do* consume_token (Py.strip line1) "(" line_number true in
         Ok line1) with
  | Ok line1 => Ok (Some line1)
  | Raise (ParseError _) =>
      if throw then
        Raise (ParseError ("Got invalid token at line "
                           +:+ Py.str_of_int line_number +:+ ". Expected `"
                           +:+ token +:+ "`"))
      else Ok None
  | Raise e => Raise e
  end.

(** The truth value Python gives to what [consume_call_statement] returns
    with [throw=False]: [False] and the empty string are false. *)
Definition is_call (token line : string) (line_number : Z) : bool :=
  match consume_call_statement token line line_number false with
  | Ok (Some r) => negb (String.eqb r "")
  | _ => false
  end.

(** ** The binding model *)

Module NpeFileReader.
(** The reader over the lines that [file.readline()] returns (each with
    its end-of-line character, none of them empty). *)
Record t : Type := mk {
  lines : list string;
  line_number : Z
}.

(** [__init__] *)
Definition init (text_lines : list string) : t :=
  {| lines := text_lines; line_number := 0 |}.

(** [readline]: counts the line. *)
Definition readline (r : t) : string * t :=
  match lines r with
  | [] => ("", {| lines := []; line_number := line_number r + 1 |})
  | l :: rest => (l, {| lines := rest; line_number := line_number r + 1 |})
  end.

(** [__next__], which [for line in file_reader] calls: it reads from the
    file itself and leaves [line_number] alone; [None] is StopIteration. *)
Definition next (r : t) : option (string * t) :=
  match lines r with
  | [] => None
  | l :: rest =>
      if Py.len l =? 0 then None
      else Some (l, {| lines := rest; line_number := line_number r |})
  end.
End NpeFileReader.

Module NpeArgument.
(** [group] holds a reference to the argument's group (its index in
    [_input_type_groups]) or [None]. *)
Record t : Type := mk {
  name : string;
  is_matches : bool;
  name_or_type : list string;
  line_number : Z;
  is_sparse : bool;
  is_dense : bool;
  default_value : option string;
  group : option Z;
  matches_name : string
}.

(** [__init__] *)
Definition init (name : string) (is_matches : bool)
    (name_or_type : list string) (line_number : Z)
    (default_value : option string) : t :=
  {| name := name; is_matches := is_matches; name_or_type := name_or_type;
     line_number := line_number; is_sparse := false; is_dense := false;
     default_value := default_value; group := None; matches_name := "" |}.

(** The property [is_numpy_type] of an argument. *)
Definition is_numpy_type (a : t) : bool := is_sparse a || is_dense a.

Definition set_is_matches (b : bool) (a : t) : t :=
  mk (name a) b (name_or_type a) (line_number a) (is_sparse a) (is_dense a)
     (default_value a) (group a) (matches_name a).
Definition set_matches_name (m : string) (a : t) : t :=
  mk (name a) (is_matches a) (name_or_type a) (line_number a) (is_sparse a)
     (is_dense a) (default_value a) (group a) m.
Definition set_group (g : option Z) (a : t) : t :=
  mk (name a) (is_matches a) (name_or_type a) (line_number a) (is_sparse a)
     (is_dense a) (default_value a) g (matches_name a).
Definition set_layout (sp de : bool) (a : t) : t :=
  mk (name a) (is_matches a) (name_or_type a) (line_number a) sp de
     (default_value a) (group a) (matches_name a).
End NpeArgument.

Module NpeArgumentGroup.
(** [arguments] lists the member arguments by name: the generator reads
    nothing but [.name] from the members of a group. *)
Record t : Type := mk {
  arguments : list string;
  types : list string
}.
End NpeArgumentGroup.

Module NpeFunction.
Record t : Type := mk {
  name : string;
  _input_type_groups : list NpeArgumentGroup.t;
  _argument_name_to_group : gmap string Z;
  _argument_names : list string;
  _arguments : gmap string NpeArgument.t;
  _source_code : string;
  _preamble : string;
  _docstr : string
}.

(** The fields as [__init__] sets them before parsing. *)
Definition empty : t :=
  {| name := ""; _input_type_groups := []; _argument_name_to_group := ∅;
     _argument_names := []; _arguments := ∅; _source_code := "";
     _preamble := ""; _docstr := "" |}.

Definition set_name (v : string) (f : t) : t :=
  mk v (_input_type_groups f) (_argument_name_to_group f) (_argument_names f)
     (_arguments f) (_source_code f) (_preamble f) (_docstr f).
Definition set_groups (v : list NpeArgumentGroup.t) (f : t) : t :=
  mk (name f) v (_argument_name_to_group f) (_argument_names f)
     (_arguments f) (_source_code f) (_preamble f) (_docstr f).
Definition set_name_to_group (v : gmap string Z) (f : t) : t :=
  mk (name f) (_input_type_groups f) v (_argument_names f)
     (_arguments f) (_source_code f) (_preamble f) (_docstr f).
Definition set_argument_names (v : list string) (f : t) : t :=
  mk (name f) (_input_type_groups f) (_argument_name_to_group f) v
     (_arguments f) (_source_code f) (_preamble f) (_docstr f).
Definition set_arguments (v : gmap string NpeArgument.t) (f : t) : t :=
  mk (name f) (_input_type_groups f) (_argument_name_to_group f)
     (_argument_names f) v (_source_code f) (_preamble f) (_docstr f).
Definition set_source_code (v : string) (f : t) : t :=
  mk (name f) (_input_type_groups f) (_argument_name_to_group f)
     (_argument_names f) (_arguments f) v (_preamble f) (_docstr f).
Definition set_preamble (v : string) (f : t) : t :=
  mk (name f) (_input_type_groups f) (_argument_name_to_group f)
     (_argument_names f) (_arguments f) (_source_code f) v (_docstr f).
Definition set_docstr (v : string) (f : t) : t :=
  mk (name f) (_input_type_groups f) (_argument_name_to_group f)
     (_argument_names f) (_arguments f) (_source_code f) (_preamble f) v.

(** The generators [arguments] and [array_arguments] look an argument
    record up by name when its turn comes; every loop over them is written
    out as a loop over [_argument_names] ([validate_mix],
    [validate_matches], [fold_arguments], [wfor_arguments]). *)

Definition num_args (f : t) : Z := Z.of_nat (length (_argument_names f)).
Definition argument_groups (f : t) := _input_type_groups f.
Definition docstring (f : t) := _docstr f.
End NpeFunction.

(** ** The structural parser *)

Section Parser.

(** [tokenize_npe_line stmt_token line line_number] with the default
    [max_iters] and [split_token]: the ordered, stripped arguments of the
    statement, or a ParseError.  The source obtains them by running the C
    preprocessor named by CPP_COMMAND as a subprocess, so the function is
    taken as a parameter here. *)
Variable tokenize_npe_line : string -> string -> Z -> result (list string).

Import NpeFunction.

(** The inner function of [_parse_arg_statement]. *)
Definition _parse_matches_statement (line : string) (line_number : Z)
    : result string :=
  let* line1 := consume_token (Py.strip line) MATCHES_TOKEN line_number false in
  let* line2 := consume_token (Py.strip line1) "(" line_number true in
  let line3 := Py.strip line2 in
  if negb (Py.endswith line3 ")") then
    Raise (ParseError ("Missing ')' for matches() token at line "
                       +:+ Py.str_of_int line_number))
  else Ok (Py.drop_last line3).

(** [for type_str in var_types: if not is_numpy_type(type_str): raise] *)
Fixpoint check_numpy_types (stmt_token : string) (line_number : Z)
    (var_types : list string) : result unit :=
  match var_types with
  | [] => Ok tt
  | type_str :: r =>
      if negb (is_numpy_type type_str) then
        Raise (ParseError ("Got invalid type, `" +:+ type_str +:+ "` in "
          +:+ stmt_token +:+ "() at line " +:+ Py.str_of_int line_number
          +:+ ". If multiple types are specified, they must be one of "
          +:+ Py.repr_list NUMPY_ARRAY_TYPES))
      else check_numpy_types stmt_token line_number r
  end.

(** [self._input_type_groups[group_id]] *)
Definition get_group (self : t) (group_id : Z) : result NpeArgumentGroup.t :=
  match Py.index (_input_type_groups self) group_id with
  | Some g => Ok g
  | None => Raise IndexError
  end.

(** Assignment to a field of [self._input_type_groups[group_id]]. *)
Definition update_group (self : t) (group_id : Z)
    (f : NpeArgumentGroup.t -> NpeArgumentGroup.t) : result t :=
  let* g := get_group self group_id in
  match Py.set_index (_input_type_groups self) group_id (f g) with
  | Some l => Ok (set_groups l self)
  | None => Raise IndexError
  end.

(** [self._input_type_groups[group_id].arguments.append(var_meta)] *)
Definition group_append (self : t) (group_id : Z) (member : string) : result t :=
  update_group self group_id
    (fun g => NpeArgumentGroup.mk (NpeArgumentGroup.arguments g ++ [member])
                                  (NpeArgumentGroup.types g)).

(** [l[0]] *)
Definition first (l : list string) : result string :=
  match l with
  | [] => Raise IndexError
  | x :: _ => Ok x
  end.

(** [var_types.pop()]: the last element and the list without it. *)
Definition list_pop (l : list string) : result (string * list string) :=
  match rev l with
  | [] => Raise IndexError
  | x :: r => Ok (x, rev r)
  end.

(** The branch of [_parse_arg_statement] for a list of array types:
    the binding afterwards and [group_id]. *)
Definition declare_array_types (self : t) (stmt_token : string)
    (line_number : Z) (var_name : string) (var_types : list string)
    : result (t * Z) :=
  do* check_numpy_types stmt_token line_number var_types in
  match _argument_name_to_group self !! var_name with
  | Some group_id =>
      (* a matches() came before the group's own statement *)
      let* g := get_group self group_id in
      do* py_assert (length (NpeArgumentGroup.types g) =? 0)%nat in
      let* self := update_group self group_id
        (fun g => NpeArgumentGroup.mk (NpeArgumentGroup.arguments g) var_types) in
      let* self := group_append self group_id var_name in
      Ok (self, group_id)
  | None =>
      (* NpeArgumentGroup(types=var_types); its [arguments] are set below *)
      let var_group := NpeArgumentGroup.mk [] var_types in
      let self := set_groups (_input_type_groups self ++ [var_group]) self in
      let group_id := Z.of_nat (length (_input_type_groups self)) - 1 in
      let self :=
        set_name_to_group (<[var_name := group_id]> (_argument_name_to_group self)) self in
      let* self := update_group self group_id
        (fun g => NpeArgumentGroup.mk [var_name] (NpeArgumentGroup.types g)) in
      Ok (self, group_id)
  end.

(** The branch of [_parse_arg_statement] for a single token that is not
    an array type: the binding, the argument record and [group_id]. *)
Definition declare_single_type (self : t) (line_number : Z)
    (var_name : string) (var_types : list string) (var_meta : NpeArgument.t)
    : result (t * NpeArgument.t * Z) :=
  do* py_assert (length var_types =? 1)%nat in
  if Py.startswith (hd "" var_types) MATCHES_TOKEN then
    let var_meta := NpeArgument.set_is_matches true var_meta in
    let* matches_name := _parse_matches_statement (hd "" var_types) line_number in
    match _argument_name_to_group self !! matches_name with
    | Some group_id =>
        let self :=
          set_name_to_group (<[var_name := group_id]> (_argument_name_to_group self)) self in
        let* self := group_append self group_id var_name in
        Ok (self, var_meta, group_id)
    | None =>
        (* [group_id] is computed before the new group is appended *)
        let group_id := Z.of_nat (length (_input_type_groups self)) - 1 in
        let self :=
          set_name_to_group (<[var_name := group_id]> (_argument_name_to_group self)) self in
        let self :=
          set_name_to_group (<[matches_name := group_id]> (_argument_name_to_group self)) self in
        let var_meta := NpeArgument.set_matches_name matches_name var_meta in
        let var_group := NpeArgumentGroup.mk [var_name] [] in
        let self := set_groups (_input_type_groups self ++ [var_group]) self in
        Ok (self, var_meta, group_id)
    end
  else Ok (self, var_meta, -1).

Definition _parse_arg_statement (self : t) (line : string) (line_number : Z)
    (is_default : bool) : result (t * (string * list string * option string)) :=
  let stmt_token := if is_default then DEFAULT_ARG_TOKEN else ARG_TOKEN in
  let* tokens := tokenize_npe_line stmt_token (Py.strip line) line_number in
  let* var_name := first tokens in
  let var_types0 := tail tokens in
  let* (var_value, var_types) :=
    if is_default then
      let* (v, l) := list_pop var_types0 in Ok (Some v, l)
    else Ok (None, var_types0) in
  let var_meta :=
    NpeArgument.init var_name false var_types line_number var_value in
  let* (self, var_meta, group_id) :=
    if (length var_types =? 0)%nat then
      Raise (ParseError (stmt_token +:+ "(" +:+ Py.dq +:+ var_name +:+ Py.dq
                         +:+ ") got no type arguments"))
    else if (1 <? length var_types)%nat
            || ((length var_types =? 1)%nat
                && is_numpy_type (hd "" var_types)) then
      let* (self, group_id) :=
        declare_array_types self stmt_token line_number var_name var_types in
      Ok (self, var_meta, group_id)
    else declare_single_type self line_number var_name var_types var_meta in
  let* grp :=
    if 0 <=? group_id then
      do* get_group self group_id in Ok (Some group_id)
    else Ok None in
  let var_meta := NpeArgument.set_group grp var_meta in
  let self := set_argument_names (_argument_names self ++ [var_name]) self in
  let self := set_arguments (<[var_name := var_meta]> (_arguments self)) self in
  Ok (self, (var_name, var_types, var_value)).

Definition _parse_doc_statement (self : t) (line : string) (line_number : Z)
    (skip : bool) : result t :=
  if negb skip then Ok self
  else
    let* tokens := tokenize_npe_line DOC_TOKEN line line_number in
    match tokens with
    | [] => Raise (ParseError ("Got " +:+ DOC_TOKEN +:+ " statement at line "
               +:+ Py.str_of_int line_number +:+ " but no documentation string."))
    | [tok] => Ok (set_docstr tok self)
    | _ => Raise (ParseError ("Got more than one documentation token at in "
               +:+ DOC_TOKEN +:+ " statement at line " +:+ Py.str_of_int line_number
               +:+ ". Did you forget quotes around the docstring?"))
    end.

(** Inner functions of [_parse]. *)

(** With more than one token the source builds its message from
    [tokens[1, :]], which raises TypeError on a list. *)
Definition _parse_npe_function_statement (line : string) (line_number : Z)
    : result string :=
  let* tokens := tokenize_npe_line FUNCTION_TOKEN line line_number in
  if (1 <? length tokens)%nat then Raise TypeError
  else match tokens with
       | [] => Raise IndexError
       | binding_name :: _ => Ok binding_name
       end.

Definition _parse_begin_code_statement (line : string) (line_number : Z)
    : result unit :=
  let* line := consume_token (Py.strip line) BEGIN_CODE_TOKEN line_number false in
  let* line := consume_token (Py.strip line) "(" line_number true in
  let* line := consume_token (Py.strip line) ")" line_number true in
  do* consume_eol (Py.strip line) line_number in Ok tt.

Definition _parse_end_code_statement (line : string) (line_number : Z)
    : result unit :=
  let* line := consume_token (Py.strip line) END_CODE_TOKEN line_number false in
  let* line := consume_token (Py.strip line) "(" line_number true in
  let* line := consume_token (Py.strip line) ")" line_number true in
  do* consume_eol (Py.strip line) line_number in Ok tt.

(** The error of phase 1 for a statement met before the binding's name. *)
Definition before_function (token : string) (line_number : Z) : exn :=
  ParseError ("Got `" +:+ token +:+ "` statement before `" +:+ FUNCTION_TOKEN
              +:+ "` at line " +:+ Py.str_of_int line_number).

(** First loop of [_parse] (the lines before the binding's name).  [ln] is
    [file_reader.line_number], which iteration does not change.  Returns
    the binding, [binding_start_line_number] and the lines not yet read. *)
Fixpoint parse_seek (ln : Z) (self : t) (lines : list string)
    : result (t * Z * list string) :=
  match lines with
  | [] => Ok (self, -1, [])
  | line :: rest =>
      if Py.len line =? 0 then Ok (self, -1, lines)
      else if Py.len (Py.strip line) =? 0 then parse_seek ln self rest
      else if is_call ARG_TOKEN line (ln + 1) then
        Raise (before_function ARG_TOKEN (ln + 1))
      else if is_call DEFAULT_ARG_TOKEN line (ln + 1) then
        Raise (before_function DEFAULT_ARG_TOKEN (ln + 1))
      else if is_call BEGIN_CODE_TOKEN line (ln + 1) then
        Raise (before_function BEGIN_CODE_TOKEN (ln + 1))
      else if is_call END_CODE_TOKEN line (ln + 1) then
        Raise (before_function END_CODE_TOKEN (ln + 1))
      else if is_call DTYPE_TOKEN line (ln + 1) then
        Raise (before_function DTYPE_TOKEN (ln + 1))
      else if is_call DOC_TOKEN line (ln + 1) then
        Raise (before_function DOC_TOKEN (ln + 1))
      else if is_call FUNCTION_TOKEN line (ln + 1) then
        let* binding_name := _parse_npe_function_statement line (ln + 1) in
        Ok (set_name binding_name self, ln + 1, rest)
      else parse_seek ln (set_preamble (_preamble self +:+ line) self) rest
  end.

(** Second loop of [_parse] (argument and documentation statements up to
    the begin-code statement).  Returns the binding,
    [code_start_line_number] and the lines not yet read. *)
Fixpoint parse_declare (ln : Z) (self : t) (parsing_doc : bool)
    (doc_lines : string) (lines : list string) : result (t * Z * list string) :=
  match lines with
  | [] => Ok (self, -1, [])
  | line :: rest =>
      if Py.len line =? 0 then Ok (self, -1, lines)
      else if is_call ARG_TOKEN line (ln + 1) then
        let* (self, _) := _parse_arg_statement self line (ln + 1) false in
        let* self := _parse_doc_statement self doc_lines (ln + 1) parsing_doc in
        parse_declare ln self false doc_lines rest
      else if is_call DEFAULT_ARG_TOKEN line (ln + 1) then
        let* (self, _) := _parse_arg_statement self line (ln + 1) true in
        let* self := _parse_doc_statement self doc_lines (ln + 1) parsing_doc in
        parse_declare ln self false doc_lines rest
      else if is_call DOC_TOKEN line (ln + 1) then
        if negb (String.eqb (_docstr self) "") then
          Raise (ParseError ("Multiple `" +:+ DOC_TOKEN
            +:+ "` statements for one function at line "
            +:+ Py.str_of_int (ln + 1) +:+ "."))
        else parse_declare ln self true (doc_lines +:+ line) rest
      else if is_call BEGIN_CODE_TOKEN line (ln + 1) then
        do* _parse_begin_code_statement line (ln + 1) in
        let* self := _parse_doc_statement self doc_lines (ln + 1) parsing_doc in
        Ok (self, ln + 1, rest)
      else if parsing_doc then
        parse_declare ln self parsing_doc (doc_lines +:+ line) rest
      else if Py.len (Py.strip line) =? 0 then
        parse_declare ln self parsing_doc doc_lines rest
      else if Py.startswith (Py.lower (Py.strip line)) COMMENT_TOKEN then
        parse_declare ln self parsing_doc doc_lines rest
      else
        Raise (ParseError ("Unexpected tokens at line "
                           +:+ Py.str_of_int (ln + 1) +:+ ": " +:+ line))
  end.

(** Third loop of [_parse] (the body up to the end of the input).  Returns
    the binding and [reached_end_token]. *)
Fixpoint parse_body (ln : Z) (self : t) (reached_end_token : bool)
    (lines : list string) : result (t * bool) :=
  match lines with
  | [] => Ok (self, reached_end_token)
  | line :: rest =>
      if Py.len line =? 0 then Ok (self, reached_end_token)
      else if is_call END_CODE_TOKEN line (ln + 1) then
        do* _parse_end_code_statement line (ln + 1) in
        parse_body ln self true rest
      else if negb reached_end_token then
        parse_body ln (set_source_code (_source_code self +:+ line) self)
                   reached_end_token rest
      else if reached_end_token && negb (Py.len (Py.strip line) =? 0) then
        Raise (ParseError ("Expected end of file after " +:+ END_CODE_TOKEN
          +:+ "(). Line " +:+ Py.str_of_int (ln + 1) +:+ ": " +:+ line))
      else parse_body ln self reached_end_token rest
  end.

Definition _parse (self : t) (file_reader : NpeFileReader.t) : result t :=
  let ln := NpeFileReader.line_number file_reader in
  let* (self, binding_start_line_number, rest) :=
    parse_seek ln self (NpeFileReader.lines file_reader) in
  if binding_start_line_number <? 0 then
    Raise (ParseError ("Invalid binding file. Must begin with "
                       +:+ FUNCTION_TOKEN +:+ "(<function_name>)."))
  else
  let* (self, code_start_line_number, rest) :=
    parse_declare ln self false "" rest in
  if code_start_line_number <? 0 then
    Raise (ParseError ("Invalid binding file. Must does not contain a "
                       +:+ BEGIN_CODE_TOKEN +:+ "() statement."))
  else
  let* (self, reached_end_token) := parse_body ln self false rest in
  if negb reached_end_token then
    Raise (ParseError ("Unexpected EOF. Binding file must end with a "
                       +:+ END_CODE_TOKEN +:+ "() statement."))
  else Ok self.

(** ** The semantic pass *)

Definition mix_message (arg : NpeArgument.t) : string :=
  "Input Variable " +:+ NpeArgument.name arg +:+ " (line "
  +:+ Py.str_of_int (NpeArgument.line_number arg)
  +:+ ") has a mix of sparse and dense types.".

Definition mix_error (arg : NpeArgument.t) : exn :=
  SemanticError (mix_message arg).

Definition unmatched_message (arg : NpeArgument.t) (matches_name : string)
    : string :=
  "Input Variable " +:+ NpeArgument.name arg +:+ " (line "
  +:+ Py.str_of_int (NpeArgument.line_number arg)
  +:+ ") was declared with type " +:+ matches_name
  +:+ " but was unmatched with a numpy type.".

Definition unmatched_error (arg : NpeArgument.t) (matches_name : string) : exn :=
  SemanticError (unmatched_message arg matches_name).

(** [self._arguments[arg_name]] *)
Definition get_argument (self : t) (arg_name : string) : result NpeArgument.t :=
  match _arguments self !! arg_name with
  | Some a => Ok a
  | None => Raise (KeyError arg_name)
  end.

(** The inner loop of the first pass over one argument's type tokens. *)
Fixpoint check_uniform (arg : NpeArgument.t) (is_sparse is_dense : bool)
    (type_names : list string) : result unit :=
  match type_names with
  | [] => Ok tt
  | type_name :: r =>
      if negb (Bool.eqb (is_sparse_type type_name) is_sparse)
         || negb (Bool.eqb (is_dense_type type_name) is_dense) then
        Raise (mix_error arg)
      else check_uniform arg is_sparse is_dense r
  end.

(** First loop of [_validate]; the argument records are updated in place,
    so an argument is looked up when its turn comes. *)
Fixpoint validate_mix (self : t) (names : list string) : result t :=
  match names with
  | [] => Ok self
  | arg_name :: r =>
      let* arg := get_argument self arg_name in
      let* t0 := first (NpeArgument.name_or_type arg) in
      let is_sparse := is_sparse_type t0 in
      let is_dense := is_dense_type t0 in
      do* check_uniform arg is_sparse is_dense (NpeArgument.name_or_type arg) in
      let arg :=
        match _argument_name_to_group self !! NpeArgument.name arg with
        | Some g => NpeArgument.set_group (Some g) arg
        | None => arg
        end in
      let arg := NpeArgument.set_layout is_sparse is_dense arg in
      validate_mix (set_arguments (<[arg_name := arg]> (_arguments self)) self) r
  end.

(** Second loop of [_validate]. *)
Fixpoint validate_matches (self : t) (names : list string) : result t :=
  match names with
  | [] => Ok self
  | arg_name :: r =>
      let* arg := get_argument self arg_name in
      if NpeArgument.is_matches arg then
        let* group_idx :=
          match _argument_name_to_group self !! NpeArgument.name arg with
          | Some g => Ok g
          | None => Raise (KeyError (NpeArgument.name arg))
          end in
        let* matches_name := first (NpeArgument.name_or_type arg) in
        let* g := get_group self group_idx in
        if (length (NpeArgumentGroup.types g) =? 0)%nat then
          Raise (unmatched_error arg matches_name)
        else
          let* t0 := first (NpeArgumentGroup.types g) in
          let arg := NpeArgument.set_layout (is_sparse_type t0) (is_dense_type t0) arg in
          validate_matches (set_arguments (<[arg_name := arg]> (_arguments self)) self) r
      else validate_matches self r
  end.

Definition _validate (self : t) : result t :=
  let* self := validate_mix self (_argument_names self) in
  validate_matches self (_argument_names self).

(** [NpeFunction(file_reader)] *)
Definition NpeFunction_init (file_reader : NpeFileReader.t) : result t :=
  let* self := _parse empty file_reader in
  _validate self.

End Parser.

(** ** The code generator *)

(** A computation that writes to [out_file] and may raise: from the text
    written so far to the text written afterwards and a result.  The text
    written before a raise stays written. *)
Definition W (A : Type) : Type := string -> string * result A.

Definition wret {A} (a : A) : W A := fun out => (out, Ok a).

Definition wbind {A B} (m : W A) (k : A -> W B) : W B :=
  fun out =>
    match m out with
    | (out', Ok a) => k a out'
    | (out', Raise e) => (out', Raise e)
    end.

(** [out_file.write(s)] *)
Definition write (s : string) : W unit := fun out => (out +:+ s, Ok tt).

(** A computation that does not write. *)
Definition lift {A} (r : result A) : W A := fun out => (out, r).

Declare Scope writer_scope.
Delimit Scope writer_scope with W.
Notation "'let*' x ':=' r 'in' k" := (wbind r (fun x => k))
  (at level 10, x pattern, r at level 100, k at level 200) : writer_scope.
Notation "'do*' r 'in' k" := (wbind r (fun _ => k))
  (at level 10, r at level 100, k at level 200) : writer_scope.

(** [for x in l: body(x)] *)
Fixpoint wfor {A} (l : list A) (body : A -> W unit) : W unit :=
  match l with
  | [] => wret tt
  | x :: r => wbind (body x) (fun _ => wfor r body)
  end.

(** [itertools.product(l1, l2)] *)
Definition product2 {A B} (l1 : list A) (l2 : list B) : list (A * B) :=
  flat_map (fun a => map (pair a) l2) l1.

(** [itertools.product( *ls )]: the last position varies fastest. *)
Fixpoint product_n {A} (ls : list (list A)) : list (list A) :=
  match ls with
  | [] => [[]]
  | l :: r => flat_map (fun a => map (cons a) (product_n r)) l
  end.

Definition PRIVATE_ID_PREFIX := "_NPE_PY_BINDING_".
Definition PRIVATE_NAMESPACE := "npe::detail".
Definition STORAGE_ORDER_ENUM := "StorageOrder".
Definition ALIGNED_ENUM := "Alignment".
Definition TYPE_ID_ENUM := "TypeId".
Definition TYPE_CHAR_ENUM := "NumpyTypeChar".
Definition STORAGE_ORDER_SUFFIX_CM := "_cm".
Definition STORAGE_ORDER_SUFFIX_RM := "_rm".
Definition STORAGE_ORDER_SUFFIX_XM := "_x".
Definition STORAGE_ORDER_SUFFIXES : list string :=
  [STORAGE_ORDER_SUFFIX_CM; STORAGE_ORDER_SUFFIX_RM; STORAGE_ORDER_SUFFIX_XM].
Definition STORAGE_ORDER_CM := "ColMajor".
Definition STORAGE_ORDER_RM := "RowMajor".
Definition STORAGE_ORDER_XM := "NoOrder".
Definition MAP_TYPE_PREFIX := "npe_Map_".
Definition MATRIX_TYPE_PREFIX := "npe_Matrix_".
Definition SCALAR_TYPE_PREFIX := "npe_Scalar_".

Definition type_name_var (var_name : string) : string :=
  PRIVATE_ID_PREFIX +:+ var_name +:+ "_type_s".

Definition storage_order_var (var_name : string) : string :=
  PRIVATE_ID_PREFIX +:+ var_name +:+ "_so".

Definition type_id_var (var_name : string) : string :=
  PRIVATE_ID_PREFIX +:+ var_name +:+ "_t_id".

Definition storage_order_for_suffix (suffix : string) : result string :=
  if String.eqb suffix STORAGE_ORDER_SUFFIX_CM then
    Ok (PRIVATE_NAMESPACE +:+ "::" +:+ STORAGE_ORDER_ENUM +:+ "::" +:+ STORAGE_ORDER_CM)
  else if String.eqb suffix STORAGE_ORDER_SUFFIX_RM then
    Ok (PRIVATE_NAMESPACE +:+ "::" +:+ STORAGE_ORDER_ENUM +:+ "::" +:+ STORAGE_ORDER_RM)
  else if String.eqb suffix STORAGE_ORDER_SUFFIX_XM then
    Ok (PRIVATE_NAMESPACE +:+ "::" +:+ STORAGE_ORDER_ENUM +:+ "::" +:+ STORAGE_ORDER_XM)
  else Raise AssertionError.

Definition aligned_enum_for_suffix (suffix : string) : result string :=
  if String.eqb suffix STORAGE_ORDER_SUFFIX_CM
     || String.eqb suffix STORAGE_ORDER_SUFFIX_RM then
    Ok (PRIVATE_NAMESPACE +:+ "::" +:+ ALIGNED_ENUM +:+ "::" +:+ "Aligned")
  else if String.eqb suffix STORAGE_ORDER_SUFFIX_XM then
    Ok (PRIVATE_NAMESPACE +:+ "::" +:+ ALIGNED_ENUM +:+ "::" +:+ "Unaligned")
  else Raise AssertionError.

Definition type_char_for_numpy_type (np_type : string) : result string :=
  let* e := catalog np_type in
  Ok (PRIVATE_NAMESPACE +:+ "::" +:+ TYPE_CHAR_ENUM +:+ "::char_" +:+ snd (fst e)).

Definition write_flags_getter (var_name : string) : W unit :=
  let storage_order_var_name := storage_order_var var_name in
  let row_major := PRIVATE_NAMESPACE +:+ "::RowMajor" in
  let col_major := PRIVATE_NAMESPACE +:+ "::ColMajor" in
  let no_order := PRIVATE_NAMESPACE +:+ "::NoOrder" in
  let out_str := "const " +:+ PRIVATE_NAMESPACE +:+ "::" +:+ STORAGE_ORDER_ENUM
                 +:+ " " +:+ storage_order_var_name +:+ " = " in
  let out_str := out_str +:+ "(" +:+ var_name
                 +:+ ".flags() & NPY_ARRAY_F_CONTIGUOUS) ? " +:+ col_major +:+ " : " in
  let out_str := out_str +:+ "(" +:+ var_name
                 +:+ ".flags() & NPY_ARRAY_C_CONTIGUOUS ? " +:+ row_major
                 +:+ " : " +:+ no_order +:+ ");" +:+ Py.nl in
  write out_str.

Definition write_type_id_getter (var_name : string) : W unit :=
  let out_str := "const int " +:+ type_id_var var_name +:+ " = " in
  let type_name := type_name_var var_name in
  let storate_order_name := storage_order_var var_name in
  let is_sparse := PRIVATE_NAMESPACE +:+ "::is_sparse<decltype(" +:+ var_name
                   +:+ ")>::value" in
  let out_str := out_str +:+ PRIVATE_NAMESPACE +:+ "::get_type_id(" +:+ is_sparse
                 +:+ ", " +:+ type_name +:+ ", " +:+ storate_order_name +:+ ");"
                 +:+ Py.nl in
  write out_str.

Section Codegen.

(** [codegen_ast(fun, out_file)]: [fn] is the binding, and
    [input_file_name] the module-level variable that [__main__] sets to
    the path of the input file. *)
Variable fn : NpeFunction.t.
Variable input_file_name : string.

Import NpeFunction.

(** The property [has_array_arguments]. *)
Fixpoint has_array_loop (names : list string) : result bool :=
  match names with
  | [] => Ok false
  | n :: r =>
      let* arg := get_argument fn n in
      let* t0 := first (NpeArgument.name_or_type arg) in
      if is_numpy_type t0 || NpeArgument.is_matches arg then Ok true
      else has_array_loop r
  end.

Definition has_array_arguments : result bool :=
  has_array_loop (_argument_names fn).

(** [for arg in fun.arguments: acc = body(acc, arg)] on a local string. *)
Fixpoint fold_arguments (body : string -> NpeArgument.t -> result string)
    (acc : string) (names : list string) : result string :=
  match names with
  | [] => Ok acc
  | n :: r =>
      let* arg := get_argument fn n in
      let* acc := body acc arg in
      fold_arguments body acc r
  end.

(** [for arg in fun.arguments: body(i, arg); i += 1] with writes. *)
Fixpoint wfor_arguments (body : Z -> NpeArgument.t -> W unit) (i : Z)
    (names : list string) : W unit :=
  match names with
  | [] => wret tt
  | n :: r =>
      (let* arg := lift (get_argument fn n) in
       do* body i arg in
       wfor_arguments body (i + 1) r)%W
  end.

Definition write_code_function_definition : W unit :=
  (let* template_str := lift (fold_arguments (fun acc arg =>
      if NpeArgument.is_numpy_type arg then
        Ok (acc +:+ ("typename " +:+ MAP_TYPE_PREFIX +:+ NpeArgument.name arg +:+ ",")
                +:+ ("typename " +:+ MATRIX_TYPE_PREFIX +:+ NpeArgument.name arg +:+ ",")
                +:+ ("typename " +:+ SCALAR_TYPE_PREFIX +:+ NpeArgument.name arg +:+ ","))
      else Ok acc) "template <" (_argument_names fn)) in
   let template_str := Py.drop_last template_str +:+ ">" +:+ Py.nl in
   let* has := lift has_array_arguments in
   do* (if has then write template_str else wret tt) in
   do* write "static auto callit(" in
   let* argument_str := lift (fold_arguments (fun acc arg =>
      if NpeArgument.is_numpy_type arg then
        Ok (acc +:+ (MAP_TYPE_PREFIX +:+ NpeArgument.name arg +:+ " "
                     +:+ NpeArgument.name arg +:+ ","))
      else
        (let* t0 := first (NpeArgument.name_or_type arg) in
         Ok (acc +:+ (t0 +:+ " " +:+ NpeArgument.name arg +:+ ",")))%result)
      "" (_argument_names fn)) in
   let argument_str := Py.drop_last argument_str +:+ ") {" +:+ Py.nl in
   do* write argument_str in
   do* write (_source_code fn) in
   write ("}" +:+ Py.nl))%W.

(** [[NUMPY_ARRAY_TYPES_TO_CPP[gt][2] for gt in group_types]] *)
Fixpoint pretty_types (group_types : list string) : result (list string) :=
  match group_types with
  | [] => Ok []
  | gt :: r =>
      let* e := catalog gt in
      let* l := pretty_types r in
      Ok (snd e :: l)
  end.

(** The loop of [write_declaration] over the candidate types of a group;
    [i] counts them and [n] is their number. *)
Fixpoint type_guard (group_var_names : list string) (n i : Z)
    (group_types : list string) (out_str : string) : result string :=
  match group_types with
  | [] => Ok out_str
  | type_name :: r =>
      let* v0 := first group_var_names in
      let* tc := type_char_for_numpy_type type_name in
      let out_str := out_str +:+ (type_name_var v0 +:+ " != " +:+ tc) in
      let next_token := if i <? n - 1 then " && " else ") {" +:+ Py.nl in
      type_guard group_var_names n (i + 1) r (out_str +:+ next_token)
  end.

(** The text that the loop over the other members of a group builds for
    member [vi]; every round starts [out_str] afresh. *)
Definition member_guard (v0 vi : string) : string :=
  let out_str := "if (" in
  let out_str := out_str +:+ (type_id_var v0 +:+ " != " +:+ type_id_var vi
                              +:+ ") {" +:+ Py.nl) in
  let out_str := out_str +:+
    ("std::string err_msg = std::string(" +:+ Py.dq +:+ "Invalid type ("
     +:+ Py.dq +:+ ") + " +:+ PRIVATE_NAMESPACE +:+ "::type_to_str("
     +:+ type_name_var vi +:+ ") + std::string(" +:+ Py.dq
     +:+ ") for argument '" +:+ vi +:+ "'. Expected it to match argument '"
     +:+ v0 +:+ "' which is of type " +:+ Py.dq +:+ ") + "
     +:+ PRIVATE_NAMESPACE +:+ "::type_to_str(" +:+ type_name_var v0
     +:+ ") + std::string(" +:+ Py.dq +:+ "." +:+ Py.dq +:+ ");" +:+ Py.nl) in
  let out_str := out_str +:+ ("throw std::invalid_argument(err_msg);" +:+ Py.nl) in
  out_str +:+ ("}" +:+ Py.nl).

(** One round of the loop of [write_declaration] over the groups. *)
Definition write_group_guards (g : NpeArgumentGroup.t) : W unit :=
  (let group_var_names := NpeArgumentGroup.arguments g in
   let group_types := NpeArgumentGroup.types g in
   let* pretty_group_types := lift (pretty_types group_types) in
   let* out_str := lift (type_guard group_var_names
                           (Z.of_nat (length group_types)) 0 group_types "if (") in
   let* p0 := lift (first pretty_group_types) in
   let* v0 := lift (first group_var_names) in
   let out_str := out_str +:+
     ("throw std::invalid_argument(" +:+ Py.dq +:+ "Invalid type (" +:+ p0
      +:+ ") for argument '" +:+ v0 +:+ "'. Expected one of "
      +:+ Py.repr_list pretty_group_types +:+ "." +:+ Py.dq +:+ ");" +:+ Py.nl) in
   let out_str := out_str +:+ ("}" +:+ Py.nl) in
   do* write out_str in
   do* lift (py_assert (1 <=? length group_var_names)%nat) in
   if (length group_var_names =? 1)%nat then wret tt
   else
     (* the write follows the loop: the text of the last member is written *)
     write (member_guard v0 (List.last group_var_names "")))%W.

(** The run-time probes written for one array argument. *)
Definition write_probes (arg : NpeArgument.t) : W unit :=
  (let name := NpeArgument.name arg in
   do* write ("const char " +:+ type_name_var name +:+ " = " +:+ name
              +:+ ".dtype().type();" +:+ Py.nl) in
   do* write ("ssize_t " +:+ name +:+ "_shape_0 = 0;" +:+ Py.nl) in
   do* write ("ssize_t " +:+ name +:+ "_shape_1 = 0;" +:+ Py.nl) in
   do* write ("if (" +:+ name +:+ ".ndim() == 1) {" +:+ Py.nl) in
   do* write (name +:+ "_shape_0 = " +:+ name +:+ ".shape()[0];" +:+ Py.nl) in
   do* write (name +:+ "_shape_1 = " +:+ name +:+ ".shape()[0] == 0 ? 0 : 1;" +:+ Py.nl) in
   do* write ("} else if (" +:+ name +:+ ".ndim() == 2) {" +:+ Py.nl) in
   do* write (name +:+ "_shape_0 = " +:+ name +:+ ".shape()[0];" +:+ Py.nl) in
   do* write (name +:+ "_shape_1 = " +:+ name +:+ ".shape()[1];" +:+ Py.nl) in
   do* write ("} else if (" +:+ name +:+ ".ndim() > 2) {" +:+ Py.nl) in
   do* write ("  throw std::invalid_argument(" +:+ Py.dq +:+ "Argument " +:+ name
              +:+ " has invalid number of dimensions. Must be 1 or 2." +:+ Py.dq
              +:+ ");" +:+ Py.nl) in
   do* write ("}" +:+ Py.nl) in
   do* write_flags_getter name in
   write_type_id_getter name)%W.

Definition write_declaration : W unit :=
  (do* write (_preamble fn +:+ Py.nl) in
   do* write_code_function_definition in
   let func_name := "pybind_output_fun_"
       +:+ Py.replace_char "."%char "_" (Py.basename input_file_name) in
   do* write ("void " +:+ func_name +:+ "(pybind11::module& m) {" +:+ Py.nl) in
   do* write "m.def(" in
   do* write (Py.dq +:+ name fn +:+ Py.dq) in
   do* write ", [](" in
   do* wfor_arguments (fun i arg =>
         do* (if NpeArgument.is_sparse arg then
                do* write "npe::sparse_array " in write (NpeArgument.name arg)
              else if NpeArgument.is_dense arg then
                do* write "pybind11::array " in write (NpeArgument.name arg)
              else
                do* lift (py_assert (length (NpeArgument.name_or_type arg) =? 1)%nat) in
                let* var_type := lift (first (NpeArgument.name_or_type arg)) in
                do* write (var_type +:+ " ") in write (NpeArgument.name arg)) in
         let next_token := if i <? num_args fn - 1 then ", " else ") {" +:+ Py.nl in
         write next_token) 0 (_argument_names fn) in
   do* wfor_arguments (fun _ arg =>
         if NpeArgument.is_numpy_type arg then write_probes arg else wret tt)
       0 (_argument_names fn) in
   wfor (argument_groups fn) write_group_guards)%W.

(** The body of the inner loop of [write_code_block]: the three typedefs
    written for one member [arg_name] of a group under the choice
    [(type_prefix, type_suffix)] that the combination makes for the group. *)
Definition write_typedefs (type_prefix type_suffix arg_name : string) : W unit :=
  (let* e := lift (catalog type_prefix) in
   let cpp_type := fst (fst e) in
   let* storage_order_enum := lift (storage_order_for_suffix type_suffix) in
   let* aligned_enum := lift (aligned_enum_for_suffix type_suffix) in
   do* write ("typedef " +:+ cpp_type +:+ " Scalar_" +:+ arg_name +:+ ";" +:+ Py.nl) in
   if is_sparse_type type_prefix then
     let eigen_type := "Eigen::SparseMatrix<" +:+ cpp_type +:+ ", "
                       +:+ storage_order_enum +:+ ", int>" in
     do* write ("typedef " +:+ eigen_type +:+ " Matrix_" +:+ arg_name +:+ ";" +:+ Py.nl) in
     do* write ("#if EIGEN_WORLD_VERSION == 3 && EIGEN_MAJOR_VERSION <= 2" +:+ Py.nl) in
     do* write ("typedef Eigen::MappedSparseMatrix<" +:+ cpp_type +:+ ", "
                +:+ storage_order_enum +:+ ", int> Map_" +:+ arg_name +:+ ";" +:+ Py.nl) in
     do* write ("#elif (EIGEN_WORLD_VERSION == 3 && EIGEN_MAJOR_VERSION > 2) || (EIGEN_WORLD_VERSION > 3)"
                +:+ Py.nl) in
     do* write ("typedef Eigen::Map<Matrix_" +:+ arg_name +:+ "> Map_" +:+ arg_name
                +:+ ";" +:+ Py.nl) in
     write ("#endif" +:+ Py.nl)
   else
     let eigen_type := "Eigen::Matrix<" +:+ cpp_type +:+ ", " +:+ "Eigen::Dynamic, "
                       +:+ "Eigen::Dynamic, " +:+ storage_order_enum +:+ ">" in
     do* write ("typedef " +:+ eigen_type +:+ " Matrix_" +:+ arg_name +:+ ";" +:+ Py.nl) in
     write ("typedef Eigen::Map<" +:+ eigen_type +:+ ", " +:+ aligned_enum
            +:+ "> Map_" +:+ arg_name +:+ ";" +:+ Py.nl))%W.

(** The loop of [write_code_block] over [group_id in range(len(combo))];
    [combo] holds the choices from position [group_id] on. *)
Fixpoint write_group_typedefs (group_id : Z) (combo : list (string * string))
    : W unit :=
  match combo with
  | [] => wret tt
  | (type_prefix, type_suffix) :: r =>
      (let* g := lift (get_group fn group_id) in
       do* wfor (NpeArgumentGroup.arguments g)
                (write_typedefs type_prefix type_suffix) in
       write_group_typedefs (group_id + 1) r)%W
  end.

(** The call of the generic function that closes a block. *)
Definition call_text : result string :=
  let call_str := "return callit" in
  let* template_str := fold_arguments (fun acc arg =>
     if NpeArgument.is_numpy_type arg then
       Ok (acc +:+ ("Map_" +:+ NpeArgument.name arg +:+ ", Matrix_"
                    +:+ NpeArgument.name arg +:+ ", Scalar_"
                    +:+ NpeArgument.name arg +:+ ","))
     else Ok acc) "<" (_argument_names fn) in
  let template_str := Py.drop_last template_str +:+ ">(" in
  let* has := has_array_arguments in
  let call_str := if has then call_str +:+ template_str else call_str +:+ "(" in
  let* call_str := fold_arguments (fun acc arg =>
     if NpeArgument.is_numpy_type arg then
       if negb (NpeArgument.is_sparse arg) then
         Ok (acc +:+ ("Map_" +:+ NpeArgument.name arg +:+ "((Scalar_"
                      +:+ NpeArgument.name arg +:+ "*" +:+ ") "
                      +:+ NpeArgument.name arg +:+ ".data(), "
                      +:+ NpeArgument.name arg +:+ "_shape_0, "
                      +:+ NpeArgument.name arg +:+ "_shape_1),"))
       else
         Ok (acc +:+ (NpeArgument.name arg +:+ ".as_eigen<Matrix_"
                      +:+ NpeArgument.name arg +:+ ">(),"))
     else Ok (acc +:+ (NpeArgument.name arg +:+ ","))) call_str (_argument_names fn) in
  Ok (Py.drop_last call_str +:+ ");" +:+ Py.nl).

Definition write_code_block (combo : list (string * string)) : W unit :=
  (do* write ("{" +:+ Py.nl) in
   do* write_group_typedefs 0 combo in
   let* call_str := lift call_text in
   do* write call_str in
   write ("}" +:+ Py.nl))%W.

(** The loop of [write_body] that builds the guard of one combination:
    [Ok None] when the combination is skipped, the guard otherwise.
    [n] is [len(combo)]; [combo] holds the choices from position
    [group_id] on. *)
Fixpoint branch_guard (n group_id : Z) (combo : list (string * string))
    (out_str : string) : result (option string) :=
  match combo with
  | [] => Ok (Some out_str)
  | (ty, suffix) :: r =>
      if is_sparse_type ty && String.eqb suffix STORAGE_ORDER_SUFFIX_XM then
        Ok None
      else
        let* g := get_group fn group_id in
        let* repr_var := first (NpeArgumentGroup.arguments g) in
        let typename := ty +:+ suffix in
        let out_str := out_str +:+ (type_id_var repr_var +:+ " == "
          +:+ PRIVATE_NAMESPACE +:+ "::" +:+ TYPE_ID_ENUM +:+ "::" +:+ typename) in
        let next_token := if group_id <? n - 1 then " && " else ")" in
        branch_guard n (group_id + 1) r (out_str +:+ next_token)
  end.

(** The loop of [write_body] over the combinations; [branch_count] is
    the local counter of the branches written so far. *)
Fixpoint write_branches (group_combos : list (list (string * string)))
    (branch_count : Z) : W unit :=
  match group_combos with
  | [] => wret tt
  | combo :: r =>
      (let if_or_elseif := if branch_count =? 0 then "if " else " else if " in
       let out_str := if_or_elseif +:+ "(" in
       let* guard := lift (branch_guard (Z.of_nat (length combo)) 0 combo out_str) in
       match guard with
       | None => write_branches r branch_count
       | Some out_str =>
           let out_str := out_str +:+ " {" +:+ Py.nl in
           do* write out_str in
           do* write_code_block combo in
           do* write "}" in
           write_branches r (branch_count + 1)
       end)%W
  end.

(** [group_combos] of [write_body]. *)
Definition group_combos : list (list (string * string)) :=
  let expanded_type_groups :=
    map (fun group => product2 (NpeArgumentGroup.types group) STORAGE_ORDER_SUFFIXES)
        (argument_groups fn) in
  product_n expanded_type_groups.

Definition write_body : W unit :=
  (let* has := lift has_array_arguments in
   do* (if has then
          do* write_branches group_combos 0 in
          do* write (" else {" +:+ Py.nl) in
          do* write ("throw std::invalid_argument(" +:+ Py.dq
                     +:+ "This should never happen but clearly it did. "
                     +:+ "File a github issue at https://github.com/fwilliams/numpyeigen"
                     +:+ Py.dq +:+ ");" +:+ Py.nl) in
          write ("}" +:+ Py.nl)
        else
          do* lift (py_assert (length group_combos =? 1)%nat) in
          wfor group_combos (fun _ =>
            do* write ("{" +:+ Py.nl) in
            do* write (_source_code fn +:+ Py.nl) in
            write ("}" +:+ Py.nl))) in
   do* write Py.nl in
   write "}")%W.

Definition write_end : W unit :=
  (do* (if 0 <? Py.len (docstring fn) then write (", " +:+ docstring fn)
        else wret tt) in
   let* arg_list := lift (fold_arguments (fun acc arg =>
      let acc := acc +:+ (", pybind11::arg(" +:+ Py.dq +:+ NpeArgument.name arg
                          +:+ Py.dq +:+ ")") in
      Ok (acc +:+ match NpeArgument.default_value arg with
                  | Some v => if String.eqb v "" then "" else "=" +:+ v
                  | None => ""
                  end)) "" (_argument_names fn)) in
   do* write arg_list in
   do* write (");" +:+ Py.nl) in
   do* write ("}" +:+ Py.nl) in
   write Py.nl)%W.

Definition codegen_ast : W unit :=
  (do* write_declaration in
   do* write_body in
   write_end)%W.

End Codegen.

(** ** The driver *)

Module TermColors.
Definition ESC : string := String (ascii_of_nat 27) EmptyString.
Definition FAIL := ESC +:+ "[91m".
Definition ENDC := ESC +:+ "[0m".
Definition BOLD := ESC +:+ "[1m".
End TermColors.

Definition LOG_ERROR := 0.

(** What reaches the error stream: a line printed by [log], or the
    traceback the interpreter prints for an exception nobody catches. *)
Inductive message : Type :=
| Logged (s : string)
| Traceback (e : exn).

(** [log(log_level, logstr, file=sys.stderr)] *)
Definition log (verbosity_level log_level : Z) (logstr : string) : list message :=
  if log_level <=? verbosity_level then [Logged logstr] else [].

Module Args.
(** The command line; [cpp_cmd] is represented by the tokenizer. *)
Record t : Type := mk {
  file : string;
  output : string;
  verbosity_level : Z
}.
End Args.

Module Outcome.
(** How a run ends: the exit status, the error stream, and the contents of
    the file at [args.output] afterwards ([None]: there is no such file). *)
Record t : Type := mk {
  exit_status : Z;
  stderr : list message;
  output_file : option string
}.
End Outcome.

(** The lines that the handlers of [__main__] print. *)
Definition semantic_error_line (msg : string) : string :=
  TermColors.FAIL +:+ TermColors.BOLD +:+ "NumpyEigen Semantic Error: "
  +:+ TermColors.ENDC +:+ TermColors.ENDC +:+ msg.

Definition syntax_error_line (msg : string) : string :=
  TermColors.FAIL +:+ TermColors.BOLD +:+ "NumpyEigen Syntax Error: "
  +:+ TermColors.ENDC +:+ TermColors.ENDC +:+ msg.

(** The handlers of [__main__]; [out] is the file at [args.output] when
    the exception arrives.  An exception of another class is not caught:
    the interpreter prints its traceback and exits with status 1. *)
Definition handle (args : Args.t) (e : exn) (out : option string) : Outcome.t :=
  match e with
  | SemanticError msg =>
      Outcome.mk 1 (log (Args.verbosity_level args) LOG_ERROR
                      (semantic_error_line msg)) out
  | ParseError msg =>
      Outcome.mk 1 (log (Args.verbosity_level args) LOG_ERROR
                      (syntax_error_line msg)) out
  | _ => Outcome.mk 1 [Traceback e] out
  end.

Section Main.

Variable tokenize_npe_line : string -> string -> Z -> result (list string).

(** What [__main__] writes to the output file once it is open. *)
Definition write_output (f : NpeFunction.t) (input_file_name : string) : W unit :=
  (let FOR_REAL_DEFINE := "__NPE_FOR_REAL__" in
   do* write ("#define " +:+ FOR_REAL_DEFINE +:+ Py.nl) in
   do* write ("#include <npe.h>" +:+ Py.nl) in
   codegen_ast f input_file_name)%W.

(** [__main__] on the lines of the input file; [old_output] is the file at
    [args.output] before the run.  [open(args.output, 'w+')] creates the
    file or empties it, and happens after the binding was parsed and
    validated.  The progress lines that [log] prints on the standard
    output at verbosity 2 and above are left out. *)
Definition main (args : Args.t) (input_lines : list string)
    (old_output : option string) : Outcome.t :=
  match NpeFunction_init tokenize_npe_line (NpeFileReader.init input_lines) with
  | Raise e => handle args e old_output
  | Ok f =>
      match write_output f (Args.file args) "" with
      | (text, Ok _) => Outcome.mk 0 [] (Some text)
      | (text, Raise e) => handle args e (Some text)
      end
  end.

End Main.

(** ** A tokenizer for the examples *)

Module Scanner.

(** The scan of the argument list after the opening parenthesis: [depth]
    counts the parentheses open inside the current argument, [quoted]
    tells whether a double-quoted text is open, [cur] is the argument read
    so far and [acc] the finished arguments.  Returns the arguments and
    the text after the closing parenthesis. *)
Fixpoint scan (s : string) (depth : nat) (quoted : bool) (cur : string)
    (acc : list string) : option (list string * string) :=
  match s with
  | EmptyString => None
  | String c r =>
      let cur' := cur +:+ String c EmptyString in
      if quoted then scan r depth (negb (Ascii.eqb c (ascii_of_nat 34))) cur' acc
      else if Ascii.eqb c (ascii_of_nat 34) then scan r depth true cur' acc
      else if Ascii.eqb c "("%char then scan r (S depth) false cur' acc
      else if Ascii.eqb c ")"%char then
        match depth with
        | O => Some (acc ++ [Py.strip cur], r)
        | S d => scan r d false cur' acc
        end
      else if Ascii.eqb c ","%char && (depth =? 0)%nat then
        scan r 0 false "" (acc ++ [Py.strip cur])
      else scan r depth false cur' acc
  end.

(** Modelled from the spec: the tokenizer contract of section 4.1 (an
    in-process, depth-tracking scanner), standing for the C preprocessor
    that [tokenize_npe_line] runs: ordered, stripped arguments; nested
    parentheses and quoted text belong to an argument; at most
    [max_iters] arguments; text after the closing parenthesis, or no
    closing parenthesis, is a ParseError. *)
Definition tokenize_npe_line (max_iters : nat) (stmt_token line : string)
    (line_number : Z) : result (list string) :=
  let invalid := Raise (ParseError ("Invalid code at line "
                                    +:+ Py.str_of_int line_number)) in
  let l := Py.strip line in
  if negb (Py.startswith l stmt_token) then invalid
  else
    match Py.lstrip (Py.drop (String.length stmt_token) l) with
    | String "("%char r =>
        match scan r 0 false "" [] with
        | None => invalid
        | Some (tokens, after) =>
            if negb (String.eqb (Py.strip after) "") then
              Raise (ParseError ("Extra tokens after `" +:+ stmt_token
                +:+ "` statement on line " +:+ Py.str_of_int line_number))
            else if (max_iters <? length tokens)%nat then
              Raise (ParseError ("Reached token parser maximum recursion depth ("
                +:+ Py.str_of_int (Z.of_nat max_iters) +:+ ") at line "
                +:+ Py.str_of_int line_number))
            else Ok tokens
        end
    | _ => invalid
    end.

(** The default bound of 64 arguments. *)
Definition tokenize := tokenize_npe_line 64.

(** [f.readlines()] on a text: the lines, each with its newline. *)
Fixpoint readlines_acc (s cur : string) : list string :=
  match s with
  | EmptyString => if String.eqb cur "" then [] else [cur]
  | String c r =>
      if Ascii.eqb c (ascii_of_nat 10) then
        (cur +:+ Py.nl) :: readlines_acc r ""
      else readlines_acc r (cur +:+ String c EmptyString)
  end.

Definition readlines (s : string) : list string := readlines_acc s "".

(** The lines of a text given line by line. *)
Definition text (ls : list string) : list string := map (fun l => l +:+ Py.nl) ls.

End Scanner.

(** ** The tokenizer over the C preprocessor *)

Section Tokenizer.

(** [run_cpp], the inner function of [tokenize_npe_line]: it writes its
    argument to a temporary file, runs the command named by CPP_COMMAND on
    the file and returns what the command printed, decoded, and the bytes of
    its error stream.  The command is outside the program, so the function
    is taken as a parameter.  The bytes of the error stream are a [string];
    [err.decode] leaves them as they are. *)
Variable run_cpp : string -> string * string.

(** The default of the parameter [split_token], which no call changes. *)
Definition split_token := "__NPE_SPLIT_NL__".

(** The macro that peels one argument off a statement. *)
Definition cpp_str (stmt_token : string) : string :=
  "#define " +:+ stmt_token +:+ "(arg, ...) arg " +:+ split_token +:+ " "
  +:+ stmt_token +:+ "(__VA_ARGS__)".

(** [for out_line in output]: the lines that are no preprocessor
    directives, each with a newline, added to [parsed_string]. *)
Fixpoint parsed_lines (output : list string) (parsed_string : string) : string :=
  match output with
  | [] => parsed_string
  | out_line :: r =>
      if Py.startswith (Py.strip out_line) "#" then parsed_lines r parsed_string
      else parsed_lines r (parsed_string +:+ (out_line +:+ Py.nl))
  end.

(** [tokens[-1]] *)
Definition last_token (tokens : list string) : result string :=
  match Py.index tokens (-1) with
  | Some t => Ok t
  | None => Raise IndexError
  end.

(** [for i in range(max_iters)] with what follows the loop: [iters] is
    the number of rounds left.  When the rounds are used up,
    [exited_before_max_iters] is still false. *)
Fixpoint tokenize_loop (iters : nat) (stmt_token : string) (line_number : Z)
    (max_iters : nat) (cpp_input_str : string) : result (list string) :=
  match iters with
  | O =>
      Raise (ParseError ("Reached token parser maximum recursion depth ("
        +:+ Py.str_of_int (Z.of_nat max_iters) +:+ ") at line "
        +:+ Py.str_of_int line_number))
  | S k =>
      let (output, err) := run_cpp cpp_input_str in
      if negb (String.eqb err "") then
        Raise (ParseError ("Invalid code at line " +:+ Py.str_of_int line_number
          +:+ ":" +:+ Py.nl +:+ "CPP Error message:" +:+ Py.nl +:+ err))
      else
        let parsed_string := parsed_lines (Py.split output Py.nl) "" in
        let tokens := Py.split parsed_string split_token in
        let* last := last_token tokens in
        if Py.startswith (Py.strip last) (stmt_token +:+ "()")
           && negb (String.eqb (Py.strip last) (stmt_token +:+ "()")) then
          Raise (ParseError ("Extra tokens after `" +:+ stmt_token
            +:+ "` statement on line " +:+ Py.str_of_int line_number))
        else if String.eqb (Py.strip last) (stmt_token +:+ "()") then
          let* (_, tokens) := list_pop tokens in
          Ok (map Py.strip tokens)
        else
          tokenize_loop k stmt_token line_number max_iters
            (cpp_str stmt_token +:+ Py.nl +:+ parsed_string)
  end.

(** [tokenize_npe_line(stmt_token, line, line_number, max_iters)] *)
Definition tokenize_npe_line (stmt_token line : string) (line_number : Z)
    (max_iters : nat) : result (list string) :=
  tokenize_loop max_iters stmt_token line_number max_iters
    (cpp_str stmt_token +:+ Py.nl +:+ line +:+ Py.nl).

End Tokenizer.

(** ** A preprocessor for the examples *)

(** The C preprocessor as far as [tokenize_npe_line] uses it, for the
    examples that depend on the name of the temporary file: [run_cpp]
    writes its argument to a file with a fresh name and runs the
    command on that file.  The command is outside the program; what is
    modelled of it is what the C standard fixes: a call of a
    function-like macro is replaced with the replacement list, in which
    the macro itself is not expanded again, and the predefined macro
    [__FILE__] is replaced with the name of the file being read, as a
    string literal. *)
Module Cpp.

(** [s] with every occurrence of [pat] replaced with [rep]; [skip]
    counts the characters still to pass of an occurrence that was
    found. *)
Fixpoint replace_go (pat rep : string) (skip : nat) (s : string) : string :=
  match s with
  | EmptyString => EmptyString
  | String c r =>
      match skip with
      | S k => replace_go pat rep k r
      | O =>
          if String.prefix pat s then
            rep +:+ replace_go pat rep (String.length pat - 1) r
          else String c (replace_go pat rep 0 r)
      end
  end.

Definition replace (pat rep s : string) : string := replace_go pat rep 0 s.

(** The text up to the first opening parenthesis. *)
Fixpoint up_to_paren (s : string) : string :=
  match s with
  | EmptyString => EmptyString
  | String c r => if Ascii.eqb c "("%char then EmptyString else String c (up_to_paren r)
  end.

(** The name of the macro that the line [#define name(arg, ...) ...]
    defines. *)
Definition macro_name (define_line : string) : string :=
  up_to_paren (Py.drop (String.length "#define ") define_line).

(** One call [name(a1, a2, ..., an)] of the macro in [line], replaced
    with [a1 split_token name(a2, ..., an)]: the macro is not expanded
    again inside its own expansion. *)
Definition expand_call (name line : string) : string :=
  match Py.split line (name +:+ "(") with
  | before :: piece :: pieces =>
      match Scanner.scan (Py.join (name +:+ "(") (piece :: pieces)) 0 false "" [] with
      | Some (a1 :: others, after) =>
          before +:+ a1 +:+ " " +:+ split_token +:+ " "
          +:+ name +:+ "(" +:+ Py.join ", " others +:+ ")" +:+ after
      | _ => line
      end
  | _ => line
  end.

(** What the preprocessor prints for the file [path] that holds
    [input]: a line marker with the name of the file, and the lines
    after the definition of the macro, with [__FILE__] replaced with the
    name of the file in quotes and the call of the macro expanded.  It
    reports no error. *)
Definition run (path input : string) : string * string :=
  match Py.split input Py.nl with
  | define_line :: lines =>
      ("# 1 " +:+ Py.dq +:+ path +:+ Py.dq +:+ Py.nl
       +:+ Py.join Py.nl
             (map (fun l => expand_call (macro_name define_line)
                              (replace "__FILE__" (Py.dq +:+ path +:+ Py.dq) l))
                  lines),
       "")
  | [] => ("", "")
  end.

End Cpp.

(** ** Vocabulary of the properties *)

(** *** Lines *)

(** A line that is empty once stripped. *)
Definition is_blank (line : string) : bool := Py.len (Py.strip line) =? 0.

(** A line that starts, once stripped, with the comment marker. *)
Definition is_comment (line : string) : bool :=
  Py.startswith (Py.lower (Py.strip line)) COMMENT_TOKEN.

(** The statement names that the parser recognises. *)
Definition npe_tokens : list string :=
  [ARG_TOKEN; DEFAULT_ARG_TOKEN; BEGIN_CODE_TOKEN; END_CODE_TOKEN;
   DTYPE_TOKEN; DOC_TOKEN; FUNCTION_TOKEN].

(** [''.join(l)] *)
Definition concat_str (l : list string) : string := fold_right String.append "" l.

(** *** Bindings under construction *)

(** Every entry of the name-to-group table is an index that
    [_input_type_groups] accepts. *)
Definition valid_map (st : NpeFunction.t) : Prop :=
  forall n gid, NpeFunction._argument_name_to_group st !! n = Some gid ->
    is_Some (Py.index (NpeFunction._input_type_groups st) gid).

Definition nonempty_groups (st : NpeFunction.t) : Prop :=
  Forall (fun g => NpeArgumentGroup.arguments g <> [])
         (NpeFunction._input_type_groups st).

(** Two bindings with the same declarations, name and texts. *)
Definition same_decl (st st' : NpeFunction.t) : Prop :=
  NpeFunction.name st' = NpeFunction.name st /\
  NpeFunction._argument_names st' = NpeFunction._argument_names st /\
  NpeFunction._arguments st' = NpeFunction._arguments st /\
  NpeFunction._source_code st' = NpeFunction._source_code st /\
  NpeFunction._preamble st' = NpeFunction._preamble st /\
  NpeFunction._docstr st' = NpeFunction._docstr st.

Definition map_grows (st st' : NpeFunction.t) : Prop :=
  forall n, is_Some (NpeFunction._argument_name_to_group st !! n) ->
            is_Some (NpeFunction._argument_name_to_group st' !! n).

(** What the parser maintains about the binding under construction;
    [ln] is the reader's [line_number]. *)
Record parsed (ln : Z) (st : NpeFunction.t) : Prop := {
  parsed_names : forall n, In n (NpeFunction._argument_names st) ->
      is_Some (NpeFunction._arguments st !! n);
  parsed_arg : forall n a, NpeFunction._arguments st !! n = Some a ->
      NpeArgument.name a = n /\ NpeArgument.name_or_type a <> []
      /\ NpeArgument.line_number a = ln + 1;
  parsed_matches : forall n a, NpeFunction._arguments st !! n = Some a ->
      NpeArgument.is_matches a = true ->
      is_Some (NpeFunction._argument_name_to_group st !! n);
  parsed_index : valid_map st;
  parsed_members : nonempty_groups st
}.

(** *** Validation *)

(** The test of the first pass of [_validate] on one token, against the
    first token [t0] of the argument. *)
Definition same_kind (t0 t : string) : bool :=
  Bool.eqb (is_sparse_type t) (is_sparse_type t0)
  && Bool.eqb (is_dense_type t) (is_dense_type t0).

(** A type-token list that passes the first pass. *)
Definition uniform_types (l : list string) : bool :=
  match l with
  | [] => false
  | t0 :: _ => forallb (same_kind t0) l
  end.

(** A type-token list with a sparse and a dense array type. *)
Definition mixes (l : list string) : bool :=
  existsb is_sparse_type l && existsb is_dense_type l.

(** Two argument records that differ at most in the fields that
    [_validate] sets. *)
Definition arg_sim (a b : NpeArgument.t) : Prop :=
  NpeArgument.name a = NpeArgument.name b /\
  NpeArgument.is_matches a = NpeArgument.is_matches b /\
  NpeArgument.name_or_type a = NpeArgument.name_or_type b /\
  NpeArgument.line_number a = NpeArgument.line_number b.

Definition args_sim (m m' : gmap string NpeArgument.t) : Prop :=
  forall k, match m !! k, m' !! k with
            | Some a, Some b => arg_sim a b
            | None, None => True
            | _, _ => False
            end.

(** A deferred argument whose registered group has candidate types. *)
Definition matched (st : NpeFunction.t) (b : NpeArgument.t) : Prop :=
  NpeArgument.is_matches b = true ->
  exists gid g,
    NpeFunction._argument_name_to_group st !! NpeArgument.name b = Some gid /\
    Py.index (NpeFunction._input_type_groups st) gid = Some g /\
    NpeArgumentGroup.types g <> [].

(** *** Generated text *)

(** The text a computation writes, and its result, on an empty file. *)
Definition output_of {A} (m : W A) : string := fst (m "").
Definition result_of {A} (m : W A) : result A := snd (m "").

(** A computation that only appends to the file, the same text and with
    the same result whatever the file holds. *)
Definition appending {A} (m : W A) : Prop :=
  forall out, m out = (out +:+ output_of m, result_of m).

(** A choice that [write_body] skips: a sparse type with the unordered
    layout. *)
Definition sparse_unordered (choice : string * string) : bool :=
  is_sparse_type (fst choice) && String.eqb (snd choice) STORAGE_ORDER_SUFFIX_XM.

(** A combination for which a branch is written. *)
Definition kept (combo : list (string * string)) : bool :=
  forallb (fun c => negb (sparse_unordered c)) combo.

Definition sparse_count (types : list string) : Z :=
  Z.of_nat (length (List.filter is_sparse_type types)).

(** [3 * t - s] for one group. *)
Definition group_branches (g : NpeArgumentGroup.t) : Z :=
  3 * Z.of_nat (length (NpeArgumentGroup.types g))
  - sparse_count (NpeArgumentGroup.types g).

(** The product of [3 * t - s] over the groups. *)
Definition branch_product (groups : list NpeArgumentGroup.t) : Z :=
  fold_right Z.mul 1 (map group_branches groups).

(** A group that the generator can expand: it has a member, and its
    candidate types are keys of the catalog. *)
Definition expandable (g : NpeArgumentGroup.t) : Prop :=
  NpeArgumentGroup.arguments g <> [] /\
  Forall (fun ty => is_Some (assoc ty NUMPY_ARRAY_TYPES_TO_CPP))
         (NpeArgumentGroup.types g).

(** A binding on which [write_body] takes the dispatch path and finds
    what it looks up. *)
Record dispatchable (fn : NpeFunction.t) : Prop := {
  disp_array : has_array_arguments fn = Ok true;
  disp_names : forall n, In n (NpeFunction._argument_names fn) ->
      is_Some (NpeFunction._arguments fn !! n);
  disp_groups : Forall expandable (NpeFunction.argument_groups fn)
}.

(** A choice taken from the candidate types of [g] and the layouts. *)
Definition choice_of (c : string * string) (g : NpeArgumentGroup.t) : Prop :=
  In c (product2 (NpeArgumentGroup.types g) STORAGE_ORDER_SUFFIXES).

(** *** The text of a dispatch branch *)

(** The C++ element type that the catalog gives for an array type. *)
Definition element_type (ty : string) : string :=
  match assoc ty NUMPY_ARRAY_TYPES_TO_CPP with
  | Some (cpp, _, _) => cpp
  | None => ""
  end.

(** The storage order and the alignment that a layout suffix stands
    for. *)
Definition layout_order (suffix : string) : string :=
  if String.eqb suffix "_cm" then "npe::detail::StorageOrder::ColMajor"
  else if String.eqb suffix "_rm" then "npe::detail::StorageOrder::RowMajor"
  else "npe::detail::StorageOrder::NoOrder".

Definition layout_alignment (suffix : string) : string :=
  if String.eqb suffix "_x" then "npe::detail::Alignment::Unaligned"
  else "npe::detail::Alignment::Aligned".

(** The typedefs that bind the argument [m] to the element type [cpp]
    and the storage order [order]: its scalar, matrix and map types. *)
Definition dense_typedefs (cpp order alignment m : string) : string :=
  "typedef " +:+ cpp +:+ " Scalar_" +:+ m +:+ ";" +:+ Py.nl
  +:+ "typedef Eigen::Matrix<" +:+ cpp +:+ ", Eigen::Dynamic, Eigen::Dynamic, "
  +:+ order +:+ "> Matrix_" +:+ m +:+ ";" +:+ Py.nl
  +:+ "typedef Eigen::Map<Eigen::Matrix<" +:+ cpp
  +:+ ", Eigen::Dynamic, Eigen::Dynamic, " +:+ order +:+ ">, " +:+ alignment
  +:+ "> Map_" +:+ m +:+ ";" +:+ Py.nl.

Definition sparse_typedefs (cpp order m : string) : string :=
  "typedef " +:+ cpp +:+ " Scalar_" +:+ m +:+ ";" +:+ Py.nl
  +:+ "typedef Eigen::SparseMatrix<" +:+ cpp +:+ ", " +:+ order
  +:+ ", int> Matrix_" +:+ m +:+ ";" +:+ Py.nl
  +:+ "#if EIGEN_WORLD_VERSION == 3 && EIGEN_MAJOR_VERSION <= 2" +:+ Py.nl
  +:+ "typedef Eigen::MappedSparseMatrix<" +:+ cpp +:+ ", " +:+ order
  +:+ ", int> Map_" +:+ m +:+ ";" +:+ Py.nl
  +:+ "#elif (EIGEN_WORLD_VERSION == 3 && EIGEN_MAJOR_VERSION > 2) || (EIGEN_WORLD_VERSION > 3)"
  +:+ Py.nl
  +:+ "typedef Eigen::Map<Matrix_" +:+ m +:+ "> Map_" +:+ m +:+ ";" +:+ Py.nl
  +:+ "#endif" +:+ Py.nl.

(** The typedefs that bind [m] to the choice (element type, layout). *)
Definition member_typedefs (choice : string * string) (m : string) : string :=
  if is_sparse_type (fst choice) then
    sparse_typedefs (element_type (fst choice)) (layout_order (snd choice)) m
  else
    dense_typedefs (element_type (fst choice)) (layout_order (snd choice))
                   (layout_alignment (snd choice)) m.

(** The typedefs of a group under its choice: those of every member. *)
Definition group_typedefs (g : NpeArgumentGroup.t) (choice : string * string) : string :=
  concat_str (map (member_typedefs choice) (NpeArgumentGroup.arguments g)).

(** The test of a group in the guard of a branch: the run-time type id
    of the first member of the group against the choice. *)
Definition group_test (g : NpeArgumentGroup.t) (choice : string * string) : string :=
  "_NPE_PY_BINDING_" +:+ hd "" (NpeArgumentGroup.arguments g) +:+ "_t_id == "
  +:+ "npe::detail::TypeId::" +:+ fst choice +:+ snd choice.

(** The tests of a guard, joined, with the closing parenthesis that
    follows the last one. *)
Definition guard_text (tests : list string) : string :=
  match tests with
  | [] => ""
  | _ => Py.join " && " tests +:+ ")"
  end.

(** The branch written for the combination [combo] of choices, one for
    each group of [groups]: the guard tests every group against its
    choice, and the block binds every member of every group to the
    choice of its group, then calls the generic function with the text
    [call].  The first branch opens with [if], the others with
    [else if]. *)
Definition branch_text (groups : list NpeArgumentGroup.t) (call : string)
    (is_first : bool) (combo : list (string * string)) : string :=
  (if is_first then "if " else " else if ") +:+ "("
  +:+ guard_text (zip_with group_test groups combo) +:+ " {" +:+ Py.nl
  +:+ "{" +:+ Py.nl
  +:+ concat_str (zip_with group_typedefs groups combo)
  +:+ call +:+ "}" +:+ Py.nl +:+ "}".

(** The branches written for the combinations [combos], in order. *)
Definition branch_texts (groups : list NpeArgumentGroup.t) (call : string)
    (combos : list (list (string * string))) : list string :=
  match combos with
  | [] => []
  | combo :: r =>
      branch_text groups call true combo :: map (branch_text groups call false) r
  end.

(** What follows the branches: the branch taken when no guard holds. *)
Definition no_branch_text : string :=
  " else {" +:+ Py.nl
  +:+ "throw std::invalid_argument(" +:+ Py.dq
  +:+ "This should never happen but clearly it did. "
  +:+ "File a github issue at https://github.com/fwilliams/numpyeigen"
  +:+ Py.dq +:+ ");" +:+ Py.nl
  +:+ "}" +:+ Py.nl.

(** The text [t] occurs in the text [s]. *)
Definition occurs_in (t s : string) : Prop := exists a b, s = a +:+ t +:+ b.

(** The number of places of [s] at which the text [t] starts. *)
Fixpoint occurrences (t s : string) : nat :=
  match s with
  | EmptyString => 0
  | String _ r => (if String.prefix t s then 1 else 0) + occurrences t r
  end.

(** ** Vocabulary of the further properties *)

Section Further.

Import NpeFunction.

(** *** The tokenizer *)

(** The three errors that [tokenize_npe_line] raises. *)
Definition depth_error (line_number : Z) (max_iters : nat) : exn :=
  ParseError ("Reached token parser maximum recursion depth ("
    +:+ Py.str_of_int (Z.of_nat max_iters) +:+ ") at line "
    +:+ Py.str_of_int line_number).

Definition extra_error (stmt_token : string) (line_number : Z) : exn :=
  ParseError ("Extra tokens after `" +:+ stmt_token +:+ "` statement on line "
    +:+ Py.str_of_int line_number).

Definition cpp_error (line_number : Z) (err : string) : exn :=
  ParseError ("Invalid code at line " +:+ Py.str_of_int line_number
    +:+ ":" +:+ Py.nl +:+ "CPP Error message:" +:+ Py.nl +:+ err).

(** The tokenizer that the parser calls, over a preprocessor [run_cpp]
    and with [max_iters] rounds. *)
Definition cpp_tokenizer (run_cpp : string -> string * string) (max_iters : nat)
    (stmt_token line : string) (line_number : Z) : result (list string) :=
  tokenize_npe_line run_cpp stmt_token line line_number max_iters.

(** *** Statements *)

(** The errors of [_parse_arg_statement]. *)
Definition no_types_error (stmt_token var_name : string) : exn :=
  ParseError (stmt_token +:+ "(" +:+ Py.dq +:+ var_name +:+ Py.dq
              +:+ ") got no type arguments").

Definition invalid_type_error (type_str stmt_token : string) (line_number : Z) : exn :=
  ParseError ("Got invalid type, `" +:+ type_str +:+ "` in "
    +:+ stmt_token +:+ "() at line " +:+ Py.str_of_int line_number
    +:+ ". If multiple types are specified, they must be one of "
    +:+ Py.repr_list NUMPY_ARRAY_TYPES).

(** A line made of a keyword in any case, an opening and a closing
    parenthesis, with blanks around and between them. *)
Definition code_statement (token line : string) : Prop :=
  exists kw a b c,
    Py.strip line = kw +:+ a /\ Py.lower kw = Py.lower token /\
    Py.strip a = "(" +:+ b /\ Py.strip b = ")" +:+ c /\ Py.strip c = "".

(** A line that one of the tests of the parser takes for a statement. *)
Definition is_statement (line : string) : bool :=
  existsb (fun t => is_call t line 0) npe_tokens.

(** A line of the input other than a statement. *)
Definition plain (line : string) : Prop := line <> "" /\ is_statement line = false.

(** The text that phase 1 keeps of the lines [pre]. *)
Definition kept_lines (pre : list string) : string :=
  concat_str (List.filter (fun l => negb (is_blank l)) pre).

(** A line that phase 2 passes over. *)
Definition skipped (line : string) : Prop :=
  line <> "" /\ (is_blank line = true \/ is_comment line = true).

(** A line that does not end the reading of a documentation statement. *)
Definition continues_doc (ln : Z) (l : string) : Prop :=
  l <> "" /\ is_call ARG_TOKEN l (ln + 1) = false /\
  is_call DEFAULT_ARG_TOKEN l (ln + 1) = false /\
  is_call DOC_TOKEN l (ln + 1) = false /\
  is_call BEGIN_CODE_TOKEN l (ln + 1) = false.

(** *** Argument records and groups *)

(** An argument record [a] stored under [n] and made of the tokens
    [tokens] of its statement. *)
Definition made_of (tokens : list string) (n : string) (a : NpeArgument.t) : Prop :=
  In n tokens /\ NpeArgument.name a = n /\
  Forall (fun t => In t tokens) (NpeArgument.name_or_type a) /\
  (forall x, NpeArgument.default_value a = Some x -> In x tokens).

(** The texts of an argument record carry no blanks around them. *)
Definition stripped_record (n : string) (a : NpeArgument.t) : Prop :=
  Py.strip n = n /\ NpeArgument.name a = n /\
  Forall (fun t => Py.strip t = t) (NpeArgument.name_or_type a) /\
  (forall x, NpeArgument.default_value a = Some x -> Py.strip x = x).

(** The three shapes of an argument record as the parser leaves it:
    declared by a matches(), by array types, or by one other type. *)
Definition matches_shape (a : NpeArgument.t) : Prop :=
  NpeArgument.is_matches a = true /\
  exists t, NpeArgument.name_or_type a = [t] /\ Py.startswith t MATCHES_TOKEN = true.

Definition array_shape (a : NpeArgument.t) : Prop :=
  NpeArgument.is_matches a = false /\ NpeArgument.name_or_type a <> [] /\
  Forall (fun t => is_numpy_type t = true) (NpeArgument.name_or_type a).

Definition scalar_shape (a : NpeArgument.t) : Prop :=
  NpeArgument.is_matches a = false /\
  exists t, NpeArgument.name_or_type a = [t] /\ is_numpy_type t = false /\
            Py.startswith t MATCHES_TOKEN = false.

(** What the parser maintains about the records and the groups. *)
Record shaped (st : NpeFunction.t) : Prop := {
  shaped_dom : forall n, is_Some (_arguments st !! n) <-> In n (_argument_names st);
  shaped_arg : forall n a, _arguments st !! n = Some a ->
      matches_shape a \/ array_shape a \/ scalar_shape a;
  shaped_fresh : forall n a, _arguments st !! n = Some a ->
      NpeArgument.is_sparse a = false /\ NpeArgument.is_dense a = false;
  shaped_members : Forall (fun g => Forall (fun m => In m (_argument_names st))
                                           (NpeArgumentGroup.arguments g))
                          (_input_type_groups st);
  shaped_types : Forall (fun g => Forall (fun t => is_numpy_type t = true)
                                         (NpeArgumentGroup.types g))
                        (_input_type_groups st)
}.

Definition group_ok (names : list string) (g : NpeArgumentGroup.t) : Prop :=
  Forall (fun m => In m names) (NpeArgumentGroup.arguments g) /\
  Forall (fun t => is_numpy_type t = true) (NpeArgumentGroup.types g).

(** The position in the list that a Python index stands for. *)
Definition position {A} (l : list A) (i : Z) : nat :=
  if 0 <=? i then Z.to_nat i else Z.to_nat (Z.of_nat (length l) + i).

(** How the list of groups changes when an argument [v] is declared with
    the array types [tys]: [v] joins a group that had no candidate type
    and gives it [tys], or a group is added. *)
Definition array_step (v : string) (tys : list string)
    (l l' : list NpeArgumentGroup.t) : Prop :=
  (exists k g, l !! k = Some g /\ NpeArgumentGroup.types g = [] /\
     l' = <[k := NpeArgumentGroup.mk (NpeArgumentGroup.arguments g ++ [v]) tys]> l) \/
  l' = l ++ [NpeArgumentGroup.mk [v] tys].

(** How it changes when [v] is declared by a matches(). *)
Definition matches_step (v : string) (l l' : list NpeArgumentGroup.t) : Prop :=
  (exists k g, l !! k = Some g /\
     l' = <[k := NpeArgumentGroup.mk (NpeArgumentGroup.arguments g ++ [v])
                                     (NpeArgumentGroup.types g)]> l) \/
  l' = l ++ [NpeArgumentGroup.mk [v] []].

(** The links between the argument records and the groups. *)
Record linked (st : NpeFunction.t) : Prop := {
  linked_types : forall n a, _arguments st !! n = Some a -> array_shape a ->
      exists g, In g (_input_type_groups st) /\
                NpeArgumentGroup.types g = NpeArgument.name_or_type a;
  linked_members : NoDup (_argument_names st) ->
      forall g m, In g (_input_type_groups st) -> In m (NpeArgumentGroup.arguments g) ->
      exists a, _arguments st !! m = Some a /\ (array_shape a \/ matches_shape a)
}.

(** *** Validation *)

(** What the first pass of [_validate] leaves in the record of an
    argument whose record was [a]. *)
Definition mix_checked (self : NpeFunction.t) (a a' : NpeArgument.t) : Prop :=
  uniform_types (NpeArgument.name_or_type a) = true /\
  a' = NpeArgument.set_layout
         (is_sparse_type (hd "" (NpeArgument.name_or_type a)))
         (is_dense_type (hd "" (NpeArgument.name_or_type a)))
         (match _argument_name_to_group self !! NpeArgument.name a with
          | Some g => NpeArgument.set_group (Some g) a
          | None => a
          end).

(** What the second pass leaves in the record of an argument whose
    record was [a]. *)
Definition match_checked (self : NpeFunction.t) (a a' : NpeArgument.t) : Prop :=
  if NpeArgument.is_matches a then
    exists gid g t0 r,
      _argument_name_to_group self !! NpeArgument.name a = Some gid /\
      Py.index (_input_type_groups self) gid = Some g /\
      NpeArgumentGroup.types g = t0 :: r /\
      a' = NpeArgument.set_layout (is_sparse_type t0) (is_dense_type t0) a
  else a' = a.

(** *** Generation *)

(** A binding on which the generator finds all that it looks up. *)
Record generable (fn : NpeFunction.t) : Prop := {
  gen_names : forall n, In n (_argument_names fn) ->
      exists a, _arguments fn !! n = Some a /\ NpeArgument.name_or_type a <> [] /\
        (NpeArgument.is_numpy_type a = false ->
         length (NpeArgument.name_or_type a) = 1%nat);
  gen_groups : Forall (fun g => expandable g /\ NpeArgumentGroup.types g <> [])
                      (argument_groups fn);
  gen_scalar : has_array_arguments fn = Ok false -> argument_groups fn = []
}.

(** The candidate types of every group are spelled as in the catalog,
    and there is at least one. *)
Definition catalog_groups (fn : NpeFunction.t) : Prop :=
  Forall (fun g => NpeArgumentGroup.types g <> [] /\
                   Forall (fun t => In t NUMPY_ARRAY_TYPES) (NpeArgumentGroup.types g))
         (argument_groups fn).

(** The text of [write_body]: with array arguments ([dispatch]), the
    branches of the combinations that are kept and the branch for no
    match; without, the body of the binding in a block; then the end of
    the function. *)
Definition body_text (fn : NpeFunction.t) (call : string) (dispatch : bool) : string :=
  (if dispatch then
     concat_str (branch_texts (argument_groups fn) call
                   (List.filter kept (group_combos fn)))
     +:+ no_branch_text
   else "{" +:+ Py.nl +:+ _source_code fn +:+ Py.nl +:+ "}" +:+ Py.nl)
  +:+ Py.nl +:+ "}".

End Further.

(** ** Inputs used in the examples *)

Module Examples.

Definition args : Args.t := Args.mk "src/foo.cpp" "foo.out.cpp" 1.

(** The reader on a text given line by line. *)
Definition reader (ls : list string) : NpeFileReader.t :=
  NpeFileReader.init (Scanner.text ls).

(** Two array types for [a], and [b] matching [a]. *)
Definition shared_group : list string :=
  ["npe_function(f)";
   "npe_arg(a, dense_f32, dense_f64)";
   "npe_arg(b, npe_matches(a))";
   "npe_begin_code()";
   "return a;";
   "npe_end_code()"].

(** An array type written in capitals next to one written in lower case. *)
Definition capital_type : list string :=
  ["npe_function(f)";
   "npe_arg(x, DENSE_F32)";
   "npe_arg(y, dense_f64)";
   "npe_begin_code()";
   "npe_end_code()"].

(** A sparse group of two types and a dense group of one. *)
Definition sparse_and_dense : list string :=
  ["npe_function(f)";
   "npe_arg(a, sparse_f32, sparse_f64)";
   "npe_arg(b, dense_i32)";
   "npe_begin_code()";
   "npe_end_code()"].

(** A matches() that refers forward, after another group was created. *)
Definition forward_after_group : list string :=
  ["npe_function(f)";
   "npe_arg(x, dense_f32)";
   "npe_arg(b, npe_matches(a))";
   "npe_arg(a, dense_f64)";
   "npe_begin_code()";
   "npe_end_code()"].

(** Two matches() that refer forward. *)
Definition two_forward : list string :=
  ["npe_function(f)";
   "npe_arg(b, npe_matches(a))";
   "npe_arg(d, npe_matches(c))";
   "npe_arg(a, dense_f32)";
   "npe_arg(c, dense_f64)";
   "npe_begin_code()";
   "npe_end_code()"].

(** A matches() that refers forward, before any group exists. *)
Definition forward_alone : list string :=
  ["npe_function(f)";
   "npe_arg(b, npe_matches(a))";
   "npe_arg(a, dense_f32, dense_f64)";
   "npe_begin_code()";
   "npe_end_code()"].

(** Two arguments that match an argument never declared. *)
Definition two_unmatched : list string :=
  ["npe_function(f)";
   "npe_arg(y, npe_matches(z))";
   "npe_arg(w, npe_matches(z))";
   "npe_begin_code()";
   "npe_end_code()"].

(** One argument that matches an argument never declared. *)
Definition one_unmatched : list string :=
  ["npe_function(f)";
   "npe_arg(y, npe_matches(z))";
   "npe_begin_code()";
   "npe_end_code()"].

(** An unmatched argument declared after an array argument. *)
Definition unmatched_after_group : list string :=
  ["npe_function(f)";
   "npe_arg(x, dense_f32)";
   "npe_arg(y, npe_matches(z))";
   "npe_begin_code()";
   "npe_end_code()"].

(** Two arguments that each mix a dense and a sparse type. *)
Definition two_mixed : list string :=
  ["npe_function(f)";
   "npe_arg(x, dense_f32, sparse_f64)";
   "npe_arg(y, sparse_f32, dense_f64)";
   "npe_begin_code()";
   "npe_end_code()"].

(** One argument that mixes a dense and a sparse type. *)
Definition one_mixed : list string :=
  ["npe_function(f)";
   "npe_arg(x, dense_f32, sparse_f64)";
   "npe_begin_code()";
   "npe_end_code()"].

(** A second end-code statement after the first. *)
Definition double_end : list string :=
  ["npe_function(f)";
   "npe_begin_code()";
   "return 1;";
   "npe_end_code()";
   "npe_end_code()"].

(** A binding without its end-code statement. *)
Definition no_end : list string :=
  ["npe_function(f)";
   "npe_begin_code()";
   "return 1;"].

(** Two array types in capitals, one dense and one sparse. *)
Definition capital_mix : list string :=
  ["npe_function(f)";
   "npe_arg(x, DENSE_F32, SPARSE_F64)";
   "npe_begin_code()";
   "npe_end_code()"].

(** Three arguments in one group. *)
Definition three_members : list string :=
  ["npe_function(f)";
   "npe_arg(a, dense_f32)";
   "npe_arg(b, npe_matches(a))";
   "npe_arg(c, npe_matches(a))";
   "npe_begin_code()";
   "npe_end_code()"].

(** A default value written with a macro that the preprocessor
    defines. *)
Definition file_macro : list string :=
  ["npe_function(f)";
   "npe_default_arg(s, std::string, __FILE__)";
   "npe_begin_code()";
   "return s;";
   "npe_end_code()"].

(** A scalar binding, and the same with a comment line before it. *)
Definition scalar_binding : list string :=
  ["npe_function(f)";
   "npe_arg(n, int)";
   "npe_begin_code()";
   "return n;";
   "npe_end_code()"].

Definition comment_line : string := "// a comment".

Definition commented_binding : list string := comment_line :: scalar_binding.

(** The binding that a text parses and validates to
    ([NpeFunction.empty] when it does not). *)
Definition binding (ls : list string) : NpeFunction.t :=
  match NpeFunction_init Scanner.tokenize (reader ls) with
  | Ok f => f
  | Raise _ => NpeFunction.empty
  end.

(** The binding that a text parses to, before validation. *)
Definition parsed_binding (ls : list string) : NpeFunction.t :=
  match _parse Scanner.tokenize NpeFunction.empty (reader ls) with
  | Ok f => f
  | Raise _ => NpeFunction.empty
  end.

(** The argument record of a name ([None] when there is none). *)
Definition argument (f : NpeFunction.t) (n : string) : option NpeArgument.t :=
  NpeFunction._arguments f !! n.

(** A run of the driver on a text, with no file at the output path. *)
Definition run (a : Args.t) (ls : list string) : Outcome.t :=
  main Scanner.tokenize a (Scanner.text ls) None.

(** A run of the driver on a text whose statements go through the
    preprocessor [Cpp.run].  The program draws a fresh name for every
    temporary file; here all those of one run are called [path]. *)
Definition run_at (path : string) (ls : list string) : Outcome.t :=
  main (cpp_tokenizer (Cpp.run path) 64) args (Scanner.text ls) None.

End Examples.

(** More inputs, for the further properties. *)
Module Samples.

(** A preprocessor that knows the two statements of
    [Examples.scalar_binding] and reports an error on anything else. *)
Definition run_cpp (input : string) : string * string :=
  if String.eqb input
       (cpp_str FUNCTION_TOKEN +:+ Py.nl +:+ ("npe_function(f)" +:+ Py.nl) +:+ Py.nl)
  then ("f " +:+ split_token +:+ " npe_function()" +:+ Py.nl, "")
  else if String.eqb input
       (cpp_str ARG_TOKEN +:+ Py.nl +:+ "npe_arg(n, int)" +:+ Py.nl)
  then ("# 1 input" +:+ Py.nl +:+ "n " +:+ split_token +:+ " int " +:+ split_token
        +:+ " npe_arg()" +:+ Py.nl, "")
  else ("", "error: unknown statement").

(** The binding that [Examples.scalar_binding] parses to with that
    preprocessor, and the record of its argument. *)
Definition scalar_parsed : NpeFunction.t :=
  match _parse (cpp_tokenizer run_cpp 64) NpeFunction.empty
               (Examples.reader Examples.scalar_binding) with
  | Ok f => f
  | Raise _ => NpeFunction.empty
  end.

Definition scalar_n : NpeArgument.t :=
  NpeArgument.mk "n" false ["int"] 1 false false None None "".

(** The binding after the statement [npe_arg(a, dense_f32)]. *)
Definition after_a : NpeFunction.t :=
  match _parse_arg_statement Scanner.tokenize NpeFunction.empty
                             "npe_arg(a, dense_f32)" 1 false with
  | Ok (s, _) => s
  | Raise _ => NpeFunction.empty
  end.

(** Lines of a binding file. *)
Definition comment : string := "// c" +:+ Py.nl.
Definition blank : string := Py.nl.
Definition code : string := "int x;" +:+ Py.nl.
Definition function_f : string := "npe_function(f)" +:+ Py.nl.
Definition arg_x : string := "npe_arg(x, int)" +:+ Py.nl.
Definition doc : string := "npe_doc(text)" +:+ Py.nl.
Definition end_code : string := "npe_end_code()" +:+ Py.nl.

End Samples.

(** * Properties *)

(** ** Strings and indices *)

Ltac zbool :=
  repeat match goal with
  | H : (_ <=? _) = true |- _ => apply Z.leb_le in H
  | H : (_ <=? _) = false |- _ => apply Z.leb_gt in H
  | H : (_ <? _) = true |- _ => apply Z.ltb_lt in H
  | H : (_ <? _) = false |- _ => apply Z.ltb_ge in H
  end.

Lemma app_assoc_str (a b c : string) : (a +:+ b) +:+ c = a +:+ (b +:+ c).
Proof.
  induction a as [|x a IH]; [reflexivity|].
  change (String x ((a +:+ b) +:+ c) = String x (a +:+ (b +:+ c))).
  f_equal. exact IH.
Qed.

Lemma app_nil_r_str (a : string) : a +:+ "" = a.
Proof.
  induction a as [|x a IH]; [reflexivity|].
  change (String x (a +:+ "") = String x a). f_equal. exact IH.
Qed.

Lemma app_nil_l_str (a : string) : "" +:+ a = a.
Proof. reflexivity. Qed.

Lemma concat_str_app l1 l2 :
  concat_str (l1 ++ l2) = concat_str l1 +:+ concat_str l2.
Proof.
  induction l1 as [|x l1 IH]; [reflexivity|].
  cbn [app concat_str fold_right]. fold (concat_str (l1 ++ l2)). rewrite IH.
  fold (concat_str l1). rewrite app_assoc_str. reflexivity.
Qed.

Lemma len_0 s : (Py.len s =? 0) = true <-> s = "".
Proof.
  unfold Py.len. destruct s; simpl; split; intros H;
    try reflexivity; try discriminate.
Qed.

Lemma prefix_cons a p b s :
  String.prefix (String a p) (String b s) = Ascii.eqb a b && String.prefix p s.
Proof.
  cbn [String.prefix]. destruct (ascii_dec a b) as [->|n].
  - rewrite Ascii.eqb_refl. reflexivity.
  - apply Ascii.eqb_neq in n. rewrite n. reflexivity.
Qed.

Lemma lower_ascii_slash c : Py.lower_ascii c = "/"%char -> c = "/"%char.
Proof.
  destruct c as [[] [] [] [] [] [] [] []]; vm_compute; intros H; congruence.
Qed.

Lemma str_in_In x l : str_in x l = true <-> In x l.
Proof.
  unfold str_in. rewrite existsb_exists. split.
  - intros [y [Hy E]]. apply String.eqb_eq in E. subst. assumption.
  - intros H. exists x. split; [assumption|apply String.eqb_refl].
Qed.

Lemma index_is_Some {A} (l : list A) i :
  is_Some (Py.index l i) <-> - Z.of_nat (length l) <= i < Z.of_nat (length l).
Proof.
  unfold Py.index.
  destruct (0 <=? i) eqn:E1, (i <? Z.of_nat (length l)) eqn:E2; cbn [andb];
    [| destruct (- Z.of_nat (length l) <=? i) eqn:E3, (i <? 0) eqn:E4; cbn [andb] ..];
    zbool; split; intros H; try lia;
    try (apply lookup_lt_is_Some; lia);
    try (destruct H as [? H]; discriminate H).
Qed.

Lemma index_lookup {A} (l : list A) i x :
  Py.index l i = Some x -> exists k, l !! k = Some x /\
    forall y, Py.set_index l i y = Some (<[k := y]> l).
Proof.
  unfold Py.index, Py.set_index. intros H.
  destruct (_ && _); [eauto|]. destruct (_ && _); [eauto|discriminate].
Qed.

Lemma index_In {A} (l : list A) i x : Py.index l i = Some x -> In x l.
Proof.
  intros H. apply index_lookup in H as (k & Hk & _).
  apply list_elem_of_In. eapply list_elem_of_lookup_2; eauto.
Qed.

Lemma index_nat {A} (l : list A) (k : nat) x :
  l !! k = Some x -> Py.index l (Z.of_nat k) = Some x.
Proof.
  intros H. pose proof (lookup_lt_Some _ _ _ H) as Hlt. unfold Py.index.
  rewrite (proj2 (Z.leb_le _ _)) by lia. rewrite (proj2 (Z.ltb_lt _ _)) by lia.
  cbn [andb]. rewrite Nat2Z.id. exact H.
Qed.

Lemma index_app_here {A} (pre rest : list A) (x : A) :
  Py.index (pre ++ x :: rest) (Z.of_nat (length pre)) = Some x.
Proof.
  apply index_nat. rewrite lookup_app_r by lia.
  rewrite Nat.sub_diag. reflexivity.
Qed.

Lemma index_last {A} (l : list A) (x : A) :
  Py.index (l ++ [x]) (Z.of_nat (length (l ++ [x])) - 1) = Some x.
Proof.
  rewrite length_app. cbn [length].
  replace (Z.of_nat (length l + 1) - 1) with (Z.of_nat (length l)) by lia.
  apply index_app_here.
Qed.

Lemma set_index_last {A} (l : list A) (x y : A) :
  Py.set_index (l ++ [x]) (Z.of_nat (length (l ++ [x])) - 1) y = Some (l ++ [y]).
Proof.
  unfold Py.set_index. rewrite length_app. cbn [length].
  replace (Z.of_nat (length l + 1) - 1) with (Z.of_nat (length l)) by lia.
  rewrite (proj2 (Z.leb_le _ _)) by lia.
  rewrite (proj2 (Z.ltb_lt _ _)) by lia.
  cbn [andb]. rewrite Nat2Z.id.
  rewrite insert_app_r_alt by lia. rewrite Nat.sub_diag. reflexivity.
Qed.

(** The negative index of the last element, as the forward matches() of
    a first group uses it. *)
Lemma index_minus_one {A} (l : list A) (x : A) :
  Py.index (l ++ [x]) (-1) = Some x.
Proof.
  unfold Py.index. rewrite length_app. cbn [length].
  change (0 <=? -1) with false. cbn [andb].
  rewrite (proj2 (Z.leb_le _ _)) by lia. change (-1 <? 0) with true. cbn [andb].
  replace (Z.to_nat (Z.of_nat (length l + 1) + -1)) with (length l) by lia.
  rewrite lookup_app_r by lia. rewrite Nat.sub_diag. reflexivity.
Qed.

(** ** Recognising statements *)

Lemma is_call_spec token line ln :
  is_call token line ln =
    Py.startswith (Py.strip line) token
    && Py.startswith (Py.strip (Py.drop (String.length token) (Py.strip line))) "("
    && negb (String.eqb (Py.drop (String.length token) (Py.strip line)) "").
Proof.
  unfold is_call, consume_call_statement, consume_token. simpl.
  destruct (Py.startswith (Py.strip line) token); simpl; [|reflexivity].
  destruct (Py.startswith _ "("); simpl; reflexivity.
Qed.

(** Whether a line is a call does not depend on the line number. *)
Lemma is_call_line_number token line ln ln' :
  is_call token line ln = is_call token line ln'.
Proof. rewrite !is_call_spec. reflexivity. Qed.

Lemma is_call_blank token line ln :
  token <> "" -> is_blank line = true -> is_call token line ln = false.
Proof.
  intros Ht Hb. rewrite is_call_spec. apply len_0 in Hb. rewrite Hb.
  destruct token; [congruence|]. reflexivity.
Qed.

Lemma is_comment_head line :
  is_comment line = true -> exists r, Py.strip line = String "/" r.
Proof.
  unfold is_comment, Py.startswith, COMMENT_TOKEN.
  destruct (Py.strip line) as [|c r]; cbn [Py.lower]; [discriminate|].
  rewrite prefix_cons. intros H. apply andb_prop in H as [H _].
  apply Ascii.eqb_eq in H. symmetry in H. apply lower_ascii_slash in H.
  subst. eauto.
Qed.

Lemma is_call_comment token line ln :
  In token npe_tokens -> is_comment line = true -> is_call token line ln = false.
Proof.
  intros Ht Hc. apply is_comment_head in Hc as [r Hr].
  rewrite is_call_spec, Hr.
  simpl in Ht. repeat (destruct Ht as [<-|Ht]; [reflexivity|]). destruct Ht.
Qed.

(** A blank line or a comment line is no statement. *)
Lemma no_call_on_skipped token line ln :
  In token npe_tokens -> is_blank line = true \/ is_comment line = true ->
  is_call token line ln = false.
Proof.
  intros Ht [Hb|Hc].
  - apply is_call_blank; [|assumption].
    simpl in Ht. repeat (destruct Ht as [<-|Ht]; [discriminate|]). destruct Ht.
  - apply is_call_comment; assumption.
Qed.

Lemma sparse_dense_exclusive t :
  is_sparse_type t = true -> is_dense_type t = true -> False.
Proof.
  unfold is_sparse_type, is_dense_type, Py.startswith.
  intros H1 H2. apply andb_prop in H1 as [_ H1]. apply andb_prop in H2 as [_ H2].
  destruct t as [|c r]; [discriminate|].
  rewrite prefix_cons in H1, H2.
  apply andb_prop in H1 as [H1 _]. apply andb_prop in H2 as [H2 _].
  apply Ascii.eqb_eq in H1, H2. congruence.
Qed.

(** ** What the parser maintains *)

Lemma is_Some_insert {V} (m : gmap string V) k v n :
  is_Some (m !! n) -> is_Some (<[k := v]> m !! n).
Proof.
  intros H. destruct (decide (k = n)) as [->|Hne].
  - rewrite lookup_insert_eq. eauto.
  - rewrite lookup_insert_ne by assumption. exact H.
Qed.

Lemma update_group_spec self gid f self' :
  update_group self gid f = Ok self' ->
  exists k g, Py.index (NpeFunction._input_type_groups self) gid = Some g /\
    NpeFunction._input_type_groups self !! k = Some g /\
    self' = NpeFunction.set_groups
              (<[k := f g]> (NpeFunction._input_type_groups self)) self.
Proof.
  unfold update_group, get_group. intros H.
  destruct (Py.index _ gid) as [g|] eqn:Hg; [|discriminate]. cbn [rbind] in H.
  destruct (index_lookup _ _ _ Hg) as (k & Hk & Hs). rewrite Hs in H.
  inversion H; subst. eauto.
Qed.

Lemma valid_map_set_groups st l :
  (length (NpeFunction._input_type_groups st) <= length l)%nat ->
  valid_map st -> valid_map (NpeFunction.set_groups l st).
Proof.
  intros Hlen Hv n gid H. cbn in H. apply Hv in H.
  apply index_is_Some in H. apply index_is_Some. cbn. lia.
Qed.

Lemma valid_map_insert st v gid :
  is_Some (Py.index (NpeFunction._input_type_groups st) gid) ->
  valid_map st ->
  valid_map (NpeFunction.set_name_to_group
               (<[v := gid]> (NpeFunction._argument_name_to_group st)) st).
Proof.
  intros Hg Hv n gid' H. cbn in H. cbn.
  destruct (decide (v = n)) as [->|Hne].
  - rewrite lookup_insert_eq in H. inversion H; subst. exact Hg.
  - rewrite lookup_insert_ne in H by assumption. eapply Hv; eauto.
Qed.

Lemma nonempty_insert (l : list NpeArgumentGroup.t) k g :
  Forall (fun g => NpeArgumentGroup.arguments g <> []) l ->
  NpeArgumentGroup.arguments g <> [] ->
  Forall (fun g => NpeArgumentGroup.arguments g <> []) (<[k := g]> l).
Proof. intros. apply Forall_insert; assumption. Qed.

Lemma group_append_spec self gid m self' :
  group_append self gid m = Ok self' ->
  exists l', self' = NpeFunction.set_groups l' self /\
    length l' = length (NpeFunction._input_type_groups self) /\
    (nonempty_groups self -> nonempty_groups self').
Proof.
  unfold group_append. intros H.
  apply update_group_spec in H as (k & g & Hg & Hk & ->).
  eexists. split; [reflexivity|]. split; [apply length_insert|].
  intros HF. apply nonempty_insert; [exact HF|]. cbn.
  destruct (NpeArgumentGroup.arguments g); discriminate.
Qed.

Lemma declare_array_types_spec self stmt ln v tys self' gid :
  declare_array_types self stmt ln v tys = Ok (self', gid) ->
  same_decl self self' /\ (valid_map self -> valid_map self') /\
  (nonempty_groups self -> nonempty_groups self') /\ map_grows self self'.
Proof.
  unfold declare_array_types. intros H.
  destruct (check_numpy_types stmt ln tys); cbn [rbind] in H; [|discriminate].
  destruct (NpeFunction._argument_name_to_group self !! v) as [g0|] eqn:Hm.
  - destruct (get_group self g0) as [g|] eqn:Hg; cbn [rbind] in H; [|discriminate].
    destruct (py_assert _); cbn [rbind] in H; [|discriminate].
    destruct (update_group self g0 _) as [s1|] eqn:Hu; cbn [rbind] in H; [|discriminate].
    destruct (group_append s1 g0 v) as [s2|] eqn:Ha; cbn [rbind] in H; [|discriminate].
    inversion H; subst; clear H.
    apply update_group_spec in Hu as (k & g' & Hg' & Hk & ->).
    apply group_append_spec in Ha as (l2 & -> & Hl2 & HP2). cbn in Hl2.
    rewrite length_insert in Hl2.
    split; [repeat split|]. split; [|split].
    + intros Hv. apply (valid_map_set_groups self l2) in Hv; [exact Hv|lia].
    + intros Hne. apply HP2. apply nonempty_insert; [exact Hne|]. cbn.
      apply index_In in Hg'. unfold nonempty_groups in Hne.
      rewrite Forall_forall in Hne. apply Hne. apply list_elem_of_In. exact Hg'.
    + intros n Hn. exact Hn.
  - cbn [NpeFunction._input_type_groups NpeFunction.set_groups
         NpeFunction._argument_name_to_group NpeFunction.set_name_to_group] in H.
    unfold update_group, get_group in H.
    cbn [NpeFunction._input_type_groups NpeFunction.set_groups
         NpeFunction._argument_name_to_group NpeFunction.set_name_to_group] in H.
    rewrite index_last in H. cbn [rbind] in H. rewrite set_index_last in H.
    inversion H; subst; clear H.
    split; [repeat split|]. split; [|split].
    + intros Hv n gid' H. cbn in H. apply index_is_Some. cbn.
      rewrite length_app in *. cbn [length] in *.
      destruct (decide (v = n)) as [->|Hne].
      * rewrite lookup_insert_eq in H. inversion H; subst. lia.
      * rewrite lookup_insert_ne in H by assumption. apply Hv in H.
        apply index_is_Some in H. lia.
    + intros Hne. apply Forall_app. split; [exact Hne|].
      constructor; [cbn; discriminate|constructor].
    + intros n Hn. cbn. apply is_Some_insert. exact Hn.
Qed.

Lemma declare_single_type_spec self ln v tys meta self' meta' gid :
  declare_single_type self ln v tys meta = Ok (self', meta', gid) ->
  same_decl self self' /\ (valid_map self -> valid_map self') /\
  (nonempty_groups self -> nonempty_groups self') /\
  NpeArgument.name meta' = NpeArgument.name meta /\
  NpeArgument.name_or_type meta' = NpeArgument.name_or_type meta /\
  NpeArgument.line_number meta' = NpeArgument.line_number meta /\
  (NpeArgument.is_matches meta = false -> NpeArgument.is_matches meta' = true ->
   is_Some (NpeFunction._argument_name_to_group self' !! v)) /\
  map_grows self self'.
Proof.
  unfold declare_single_type. intros H.
  destruct (py_assert _); cbn [rbind] in H; [|discriminate].
  destruct (Py.startswith _ _).
  2:{ inversion H; subst. split; [repeat split|]. repeat split; auto.
      - intros E1 E2. congruence.
      - intros n Hn. exact Hn. }
  destruct (_parse_matches_statement _ _) as [mn|]; cbn [rbind] in H; [|discriminate].
  destruct (NpeFunction._argument_name_to_group self !! mn) as [g0|] eqn:Hm.
  - destruct (group_append _ g0 v) as [s1|] eqn:Ha; cbn [rbind] in H; [|discriminate].
    inversion H; subst; clear H.
    apply group_append_spec in Ha as (l2 & -> & Hl2 & HP2). cbn in Hl2.
    split; [repeat split|]. split; [|split; [|repeat split]].
    + intros Hv. apply valid_map_set_groups; [cbn; lia|].
      apply valid_map_insert; [|exact Hv]. eapply Hv; eauto.
    + intros Hne. apply HP2. exact Hne.
    + intros _ _. cbn. rewrite lookup_insert_eq. eauto.
    + intros n Hn. cbn. apply is_Some_insert. exact Hn.
  - inversion H; subst; clear H.
    split; [repeat split|]. split; [|split; [|repeat split]].
    + intros Hv n gid' H. cbn in H. apply index_is_Some. cbn.
      rewrite length_app. cbn [length].
      destruct (decide (mn = n)) as [->|Hne].
      * rewrite lookup_insert_eq in H. inversion H; subst. lia.
      * rewrite lookup_insert_ne in H by assumption.
        destruct (decide (v = n)) as [->|Hne'].
        -- rewrite lookup_insert_eq in H. inversion H; subst. lia.
        -- rewrite lookup_insert_ne in H by assumption. apply Hv in H.
           apply index_is_Some in H. lia.
    + intros Hne. apply Forall_app. split; [exact Hne|].
      constructor; [cbn; discriminate|constructor].
    + intros _ _. cbn.
      destruct (decide (mn = v)) as [->|Hne].
      * rewrite lookup_insert_eq. eauto.
      * rewrite lookup_insert_ne by assumption. rewrite lookup_insert_eq. eauto.
    + intros n Hn. cbn. do 2 apply is_Some_insert. exact Hn.
Qed.

Lemma parsed_empty ln : parsed ln NpeFunction.empty.
Proof.
  constructor; cbn.
  - intros n [].
  - intros n a H. rewrite lookup_empty in H. discriminate.
  - intros n a H. rewrite lookup_empty in H. discriminate.
  - intros n gid H. cbn in H. rewrite lookup_empty in H. discriminate.
  - constructor.
Qed.

Lemma parsed_texts ln st nm src pre doc :
  parsed ln st ->
  parsed ln (NpeFunction.mk nm (NpeFunction._input_type_groups st)
               (NpeFunction._argument_name_to_group st)
               (NpeFunction._argument_names st) (NpeFunction._arguments st)
               src pre doc).
Proof. intros [H1 H2 H3 H4 H5]. constructor; assumption. Qed.

Section ParserInvariant.

Variable tok : string -> string -> Z -> result (list string).

Lemma parse_arg_parsed self line ln d self' r :
  parsed ln self ->
  _parse_arg_statement tok self line (ln + 1) d = Ok (self', r) ->
  parsed ln self'.
Proof.
  intros Inv H. unfold _parse_arg_statement in H.
  destruct (tok _ _ _) as [tokens|] eqn:Etok; cbn [rbind] in H; [|discriminate].
  destruct tokens as [|var_name toks]; cbn [rbind tail first] in H; [discriminate|].
  set (stmt := if d then DEFAULT_ARG_TOKEN else ARG_TOKEN) in *.
  destruct (if d then _ else _) as [[var_value var_types]|] eqn:Ev in H;
    cbn [rbind] in H; [|discriminate].
  destruct (length var_types =? 0)%nat eqn:Elen; [discriminate|].
  assert (Hty : var_types <> []) by (destruct var_types; [discriminate|congruence]).
  set (meta := NpeArgument.init var_name false var_types (ln + 1) var_value) in *.
  assert (exists s1 meta1 gid,
    same_decl self s1 /\ valid_map s1 /\ nonempty_groups s1 /\
    NpeArgument.name meta1 = var_name /\ NpeArgument.name_or_type meta1 = var_types /\
    NpeArgument.line_number meta1 = ln + 1 /\
    (NpeArgument.is_matches meta1 = true ->
     is_Some (NpeFunction._argument_name_to_group s1 !! var_name)) /\
    map_grows self s1 /\
    (let* grp := (if 0 <=? gid then do* get_group s1 gid in Ok (Some gid) else Ok None) in
     Ok (NpeFunction.set_arguments
           (<[var_name := NpeArgument.set_group grp meta1]> (NpeFunction._arguments s1))
           (NpeFunction.set_argument_names
              (NpeFunction._argument_names s1 ++ [var_name]) s1),
         (var_name, var_types, var_value))) = Ok (self', r))
    as (s1 & meta1 & gid & Hsd & Hv & Hne & Hn & Ht & Hl & Hm & Hmono & H').
  { destruct (_ || _).
    - destruct (declare_array_types _ _ _ _ _) as [[s1 gid]|] eqn:Ed;
        cbn [rbind] in H; [|discriminate].
      exists s1, meta, gid.
      apply declare_array_types_spec in Ed as (Hsd & Hv & Hne & Hg).
      destruct Inv.
      split; [exact Hsd|]. split; [auto|]. split; [auto|].
      split; [reflexivity|]. split; [reflexivity|]. split; [reflexivity|].
      split; [cbn; congruence|]. split; [exact Hg|exact H].
    - destruct (declare_single_type _ _ _ _ _) as [[[s1 meta1] gid]|] eqn:Ed;
        cbn [rbind] in H; [|discriminate].
      exists s1, meta1, gid.
      apply declare_single_type_spec in Ed as (Hsd & Hv & Hne & E1 & E2 & E3 & E4 & Hg).
      destruct Inv.
      split; [exact Hsd|]. split; [auto|]. split; [auto|].
      split; [exact E1|]. split; [exact E2|]. split; [exact E3|].
      split; [intros Hm; apply E4; [reflexivity|exact Hm]|].
      split; [exact Hg|exact H]. }
  clear H. destruct (if 0 <=? gid then _ else _) as [grp|]; cbn [rbind] in H'; [|discriminate].
  inversion H'; subst self' r; clear H'.
  destruct Hsd as (_ & En & Ea & _). destruct Inv as [I1 I2 I3 I4 I5].
  constructor; cbn.
  - intros n Hin. rewrite En in Hin. apply in_app_or in Hin. rewrite Ea.
    destruct (decide (var_name = n)) as [->|Hd].
    + rewrite lookup_insert_eq. eauto.
    + rewrite lookup_insert_ne by assumption. apply I1.
      destruct Hin as [Hin|[Hin|[]]]; [assumption|congruence].
  - intros n a Ha. rewrite Ea in Ha.
    destruct (decide (var_name = n)) as [->|Hd].
    + rewrite lookup_insert_eq in Ha. inversion Ha; subst a. cbn. rewrite Hn, Ht, Hl. auto.
    + rewrite lookup_insert_ne in Ha by assumption. eapply I2; eauto.
  - intros n a Ha Hma. rewrite Ea in Ha.
    destruct (decide (var_name = n)) as [->|Hd].
    + rewrite lookup_insert_eq in Ha. inversion Ha; subst a. cbn in Hma. auto.
    + rewrite lookup_insert_ne in Ha by assumption. apply Hmono. eapply I3; eauto.
  - exact Hv.
  - exact Hne.
Qed.

Lemma parse_doc_parsed ln self doc k skip self' :
  parsed ln self -> _parse_doc_statement tok self doc k skip = Ok self' ->
  parsed ln self'.
Proof.
  intros Inv H. unfold _parse_doc_statement in H.
  destruct (negb skip); [inversion H; subst; exact Inv|].
  destruct (tok _ _ _) as [[|t [|]]|]; cbn [rbind] in H; try discriminate.
  inversion H; subst. apply parsed_texts. exact Inv.
Qed.

Lemma parse_seek_parsed ln lines : forall self self' b rest,
  parsed ln self -> parse_seek tok ln self lines = Ok (self', b, rest) ->
  parsed ln self'.
Proof.
  induction lines as [|line lines IH]; intros self self' b rest Inv H; cbn [parse_seek] in H.
  - inversion H; subst. exact Inv.
  - repeat match type of H with
    | (if ?c then _ else _) = _ => destruct c
    end; try discriminate; try (inversion H; subst; exact Inv); eauto.
    + destruct (_parse_npe_function_statement _ _ _); cbn [rbind] in H; [|discriminate].
      inversion H; subst. apply parsed_texts. exact Inv.
    + eapply IH; [|exact H]. apply parsed_texts. exact Inv.
Qed.

Lemma parse_declare_parsed ln lines : forall self pd doc self' b rest,
  parsed ln self -> parse_declare tok ln self pd doc lines = Ok (self', b, rest) ->
  parsed ln self'.
Proof.
  induction lines as [|line lines IH]; intros self pd doc self' b rest Inv H;
    cbn [parse_declare] in H.
  - inversion H; subst. exact Inv.
  - destruct (Py.len line =? 0); [inversion H; subst; exact Inv|].
    destruct (is_call ARG_TOKEN line (ln + 1)).
    { destruct (_parse_arg_statement _ _ _ _ _) as [[s1 r1]|] eqn:Ea; cbn [rbind] in H; [|discriminate].
      destruct (_parse_doc_statement _ _ _ _ _) as [s2|] eqn:Ed; cbn [rbind] in H; [|discriminate].
      eapply IH; [|exact H]. eapply parse_doc_parsed; [|exact Ed].
      eapply parse_arg_parsed; eauto. }
    destruct (is_call DEFAULT_ARG_TOKEN line (ln + 1)).
    { destruct (_parse_arg_statement _ _ _ _ _) as [[s1 r1]|] eqn:Ea; cbn [rbind] in H; [|discriminate].
      destruct (_parse_doc_statement _ _ _ _ _) as [s2|] eqn:Ed; cbn [rbind] in H; [|discriminate].
      eapply IH; [|exact H]. eapply parse_doc_parsed; [|exact Ed].
      eapply parse_arg_parsed; eauto. }
    destruct (is_call DOC_TOKEN line (ln + 1)).
    { destruct (negb _); [discriminate|]. eapply IH; eauto. }
    destruct (is_call BEGIN_CODE_TOKEN line (ln + 1)).
    { destruct (_parse_begin_code_statement _ _); cbn [rbind] in H; [|discriminate].
      destruct (_parse_doc_statement _ _ _ _ _) as [s2|] eqn:Ed; cbn [rbind] in H; [|discriminate].
      inversion H; subst. eapply parse_doc_parsed; eauto. }
    destruct pd; [eapply IH; eauto|].
    destruct (Py.len (Py.strip line) =? 0); [eapply IH; eauto|].
    destruct (Py.startswith _ _); [eapply IH; eauto|discriminate].
Qed.

Lemma parse_body_parsed ln lines : forall self reached self' b,
  parsed ln self -> parse_body ln self reached lines = Ok (self', b) ->
  parsed ln self'.
Proof.
  induction lines as [|line lines IH]; intros self reached self' b Inv H;
    cbn [parse_body] in H.
  - inversion H; subst. exact Inv.
  - destruct (Py.len line =? 0); [inversion H; subst; exact Inv|].
    destruct (is_call END_CODE_TOKEN line (ln + 1)).
    { destruct (_parse_end_code_statement _ _); cbn [rbind] in H; [|discriminate].
      eapply IH; eauto. }
    destruct (negb reached).
    { eapply IH; [|exact H]. apply parsed_texts. exact Inv. }
    destruct (_ && _); [discriminate|]. eapply IH; eauto.
Qed.

(** Every binding that [_parse] returns is well formed; in particular
    every argument carries the same line number, one more than the
    reader's, whatever line declared it. *)
Lemma _parse_parsed rd st :
  _parse tok NpeFunction.empty rd = Ok st ->
  parsed (NpeFileReader.line_number rd) st.
Proof.
  unfold _parse. intros H.
  destruct (parse_seek _ _ _ _) as [[[s1 b1] r1]|] eqn:E1; cbn [rbind] in H; [|discriminate].
  destruct (b1 <? 0); [discriminate|].
  destruct (parse_declare _ _ _ _ _ _) as [[[s2 b2] r2]|] eqn:E2; cbn [rbind] in H; [|discriminate].
  destruct (b2 <? 0); [discriminate|].
  destruct (parse_body _ _ _ _) as [[s3 b3]|] eqn:E3; cbn [rbind] in H; [|discriminate].
  destruct (negb b3); [discriminate|]. inversion H; subst.
  eapply parse_body_parsed; [|exact E3].
  eapply parse_declare_parsed; [|exact E2].
  eapply parse_seek_parsed; [|exact E1]. apply parsed_empty.
Qed.

(** The line number recorded for an argument is 1 on every line of the
    file: [for line in file_reader] goes through [__next__], which does
    not count lines as [readline] does. *)
Lemma recorded_line_number lines st n a :
  _parse tok NpeFunction.empty (NpeFileReader.init lines) = Ok st ->
  NpeFunction._arguments st !! n = Some a ->
  NpeArgument.line_number a = 1.
Proof.
  intros Hp Ha. pose proof (_parse_parsed _ _ Hp) as Inv.
  destruct (parsed_arg _ _ Inv n a Ha) as (_ & _ & Hl). exact Hl.
Qed.

End ParserInvariant.

Import NpeFunction.

(** ** The semantic pass *)

Lemma mixes_not_uniform l : mixes l = true -> uniform_types l = false /\ l <> [].
Proof.
  unfold mixes. intros H. apply andb_prop in H as [Hs Hd].
  apply existsb_exists in Hs as (ts & Hts & Hs).
  apply existsb_exists in Hd as (td & Htd & Hd).
  split; [|destruct l; [destruct Hts|discriminate]].
  destruct l as [|t0 r]; [reflexivity|]. unfold uniform_types.
  destruct (forallb (same_kind t0) (t0 :: r)) eqn:E; [|reflexivity].
  exfalso. rewrite forallb_forall in E.
  pose proof (E _ Hts) as E1. pose proof (E _ Htd) as E2.
  unfold same_kind in E1, E2.
  apply andb_prop in E1 as [E1 _]. apply andb_prop in E2 as [_ E2].
  apply Bool.eqb_prop in E1, E2. rewrite Hs in E1. rewrite Hd in E2.
  apply (sparse_dense_exclusive t0); congruence.
Qed.

Lemma check_uniform_spec a t0 l :
  check_uniform a (is_sparse_type t0) (is_dense_type t0) l
  = if forallb (same_kind t0) l then Ok tt else Raise (mix_error a).
Proof.
  induction l as [|t r IH]; cbn [check_uniform forallb]; [reflexivity|].
  unfold same_kind at 1.
  destruct (Bool.eqb (is_sparse_type t) (is_sparse_type t0)),
           (Bool.eqb (is_dense_type t) (is_dense_type t0)); cbn; auto.
Qed.

Lemma arg_sim_refl a : arg_sim a a.
Proof. repeat split. Qed.

Lemma arg_sim_trans a b c : arg_sim a b -> arg_sim b c -> arg_sim a c.
Proof. unfold arg_sim. intuition congruence. Qed.

Lemma args_sim_refl m : args_sim m m.
Proof. intros k. destruct (m !! k); [apply arg_sim_refl|exact I]. Qed.

Lemma args_sim_insert m m' k a b :
  args_sim m m' -> m' !! k = Some a -> arg_sim a b -> args_sim m (<[k := b]> m').
Proof.
  intros Hs Ha Hab k'. specialize (Hs k').
  destruct (decide (k = k')) as [->|Hd].
  - rewrite lookup_insert_eq. rewrite Ha in Hs.
    destruct (m !! k'); [|exact Hs]. eapply arg_sim_trans; eauto.
  - rewrite lookup_insert_ne by assumption. exact Hs.
Qed.

Lemma matched_sim st st' a b :
  _argument_name_to_group st' = _argument_name_to_group st ->
  _input_type_groups st' = _input_type_groups st ->
  arg_sim a b -> matched st a -> matched st' b.
Proof.
  intros Em Eg (En & Ei & _) H Hb. unfold matched in H.
  rewrite Em, Eg, <- En. apply H. congruence.
Qed.

(** The first pass stops at the first argument whose tokens are not of
    one kind. *)
Lemma validate_mix_first_bad pre : forall self n post a,
  (forall m b, In m pre -> _arguments self !! m = Some b ->
               uniform_types (NpeArgument.name_or_type b) = true) ->
  (forall m, In m pre -> is_Some (_arguments self !! m)) ->
  _arguments self !! n = Some a ->
  NpeArgument.name_or_type a <> [] ->
  uniform_types (NpeArgument.name_or_type a) = false ->
  validate_mix self (pre ++ n :: post) = Raise (mix_error a).
Proof.
  induction pre as [|m pre IH]; intros self n post a Hpre Hex Ha Hne Hbad;
    cbn [app validate_mix]; unfold get_argument.
  - rewrite Ha. cbn [rbind].
    destruct (NpeArgument.name_or_type a) as [|t0 r] eqn:Et; [congruence|].
    cbn [first rbind]. rewrite check_uniform_spec.
    unfold uniform_types in Hbad. rewrite Hbad. reflexivity.
  - destruct (Hex m (or_introl eq_refl)) as [b Hb]. rewrite Hb. cbn [rbind].
    pose proof (Hpre m b (or_introl eq_refl) Hb) as Hu.
    destruct (NpeArgument.name_or_type b) as [|t0 r] eqn:Et; [discriminate|].
    cbn [first rbind]. rewrite check_uniform_spec.
    unfold uniform_types in Hu. rewrite Hu. cbn [rbind].
    assert (Hnm : m <> n).
    { intros ->. rewrite Ha in Hb. inversion Hb; subst b.
      rewrite Et in Hbad. unfold uniform_types in Hbad. congruence. }
    apply IH; cbn [_arguments set_arguments].
    + intros m' b' Hin Hb'.
      destruct (decide (m = m')) as [->|Hd].
      * rewrite lookup_insert_eq in Hb'. inversion Hb'; subst b'.
        destruct (_argument_name_to_group self !! NpeArgument.name b);
          cbn; rewrite Et; exact Hu.
      * rewrite lookup_insert_ne in Hb' by assumption.
        eapply Hpre; [right; exact Hin|exact Hb'].
    + intros m' Hin. destruct (decide (m = m')) as [->|Hd].
      * rewrite lookup_insert_eq. eauto.
      * rewrite lookup_insert_ne by assumption. apply Hex. right. exact Hin.
    + rewrite lookup_insert_ne by assumption. exact Ha.
    + exact Hne.
    + exact Hbad.
Qed.

(** The first pass succeeds when every argument's tokens are of one
    kind, and changes nothing but the fields it sets. *)
Lemma validate_mix_ok names : forall self args0,
  args_sim args0 (_arguments self) ->
  (forall m, In m names -> exists b, _arguments self !! m = Some b /\
      uniform_types (NpeArgument.name_or_type b) = true) ->
  exists args', validate_mix self names = Ok (set_arguments args' self) /\
    args_sim args0 args'.
Proof.
  induction names as [|m names IH]; intros self args0 Hsim Hall; cbn [validate_mix].
  - exists (_arguments self). split; [destruct self; reflexivity|exact Hsim].
  - destruct (Hall m (or_introl eq_refl)) as (b & Hb & Hu).
    unfold get_argument. rewrite Hb. cbn [rbind].
    destruct (NpeArgument.name_or_type b) as [|t0 r] eqn:Et; [discriminate|].
    cbn [first rbind]. rewrite check_uniform_spec.
    unfold uniform_types in Hu. rewrite Hu. cbn [rbind].
    set (b' := NpeArgument.set_layout _ _ _).
    assert (Hbb : arg_sim b b').
    { subst b'. destruct (_argument_name_to_group self !! NpeArgument.name b);
        repeat split. }
    destruct (IH (set_arguments (<[m := b']> (_arguments self)) self) args0)
      as (args' & Hv & Hs').
    + cbn. eapply args_sim_insert; eauto.
    + intros m' Hin. cbn. destruct (decide (m = m')) as [->|Hd].
      * rewrite lookup_insert_eq. exists b'. split; [reflexivity|].
        destruct Hbb as (_ & _ & <- & _). rewrite Et. exact Hu.
      * rewrite lookup_insert_ne by assumption. apply Hall. right. exact Hin.
    + exists args'. split; [|exact Hs']. rewrite Hv. reflexivity.
Qed.

(** The second pass stops at the first deferred argument whose
    registered group has no candidate type. *)
Lemma validate_matches_first_bad pre : forall self n post a gid g,
  (forall m, In m pre -> exists b, _arguments self !! m = Some b /\
      NpeArgument.name_or_type b <> [] /\ matched self b) ->
  _arguments self !! n = Some a ->
  NpeArgument.is_matches a = true ->
  NpeArgument.name_or_type a <> [] ->
  _argument_name_to_group self !! NpeArgument.name a = Some gid ->
  Py.index (_input_type_groups self) gid = Some g ->
  NpeArgumentGroup.types g = [] ->
  validate_matches self (pre ++ n :: post)
  = Raise (unmatched_error a (hd "" (NpeArgument.name_or_type a))).
Proof.
  induction pre as [|m pre IH]; intros self n post a gid g Hpre Ha Hm Hne Hg Hi Ht;
    cbn [app validate_matches]; unfold get_argument.
  - rewrite Ha. cbn [rbind]. rewrite Hm, Hg. cbn [rbind].
    destruct (NpeArgument.name_or_type a) as [|t0 r]; [congruence|].
    cbn [first rbind hd]. unfold get_group. rewrite Hi. cbn [rbind].
    rewrite Ht. reflexivity.
  - destruct (Hpre m (or_introl eq_refl)) as (b & Hb & Hbne & Hbm).
    rewrite Hb. cbn [rbind].
    destruct (NpeArgument.is_matches b) eqn:Eb.
    + destruct (Hbm Eb) as (gid' & g' & Hg' & Hi' & Ht').
      rewrite Hg'. cbn [rbind].
      destruct (NpeArgument.name_or_type b) as [|t0 r] eqn:Et; [congruence|].
      cbn [first rbind]. unfold get_group. rewrite Hi'. cbn [rbind].
      destruct (NpeArgumentGroup.types g') as [|ty tys] eqn:Ety; [congruence|].
      cbn [length Nat.eqb first rbind].
      assert (Hnm : m <> n).
      { intros ->. rewrite Ha in Hb. inversion Hb; subst b.
        rewrite Hg in Hg'. inversion Hg'; subst gid'.
        rewrite Hi in Hi'. inversion Hi'; subst g'. congruence. }
      eapply IH; cbn [_arguments set_arguments _argument_name_to_group _input_type_groups];
        eauto.
      * intros m' Hin. destruct (decide (m = m')) as [->|Hd].
        -- rewrite lookup_insert_eq. eexists. split; [reflexivity|].
           split; [cbn; congruence|].
           eapply (matched_sim self); [reflexivity|reflexivity| |exact Hbm].
           repeat split.
        -- rewrite lookup_insert_ne by assumption.
           destruct (Hpre m' (or_intror Hin)) as (b' & Hb' & Hbne' & Hbm').
           exists b'. split; [exact Hb'|]. split; [exact Hbne'|].
           eapply (matched_sim self); [reflexivity|reflexivity|apply arg_sim_refl|exact Hbm'].
      * rewrite lookup_insert_ne by assumption. exact Ha.
    + assert (Hnm : m <> n).
      { intros ->. rewrite Ha in Hb. inversion Hb; subst b. congruence. }
      eapply IH; eauto. intros m' Hin. apply Hpre. right. exact Hin.
Qed.

(** ** The writer *)

Lemma appending_write s : appending (write s).
Proof. intros out. reflexivity. Qed.

Lemma appending_lift {A} (r : result A) : appending (lift r).
Proof.
  intros out. unfold lift, output_of, result_of. cbn.
  rewrite app_nil_r_str. reflexivity.
Qed.

Lemma appending_wret {A} (a : A) : appending (wret a).
Proof.
  intros out. unfold wret, output_of, result_of. cbn.
  rewrite app_nil_r_str. reflexivity.
Qed.

Lemma appending_wbind {A B} (m : W A) (k : A -> W B) :
  appending m -> (forall a, appending (k a)) -> appending (wbind m k).
Proof.
  intros Hm Hk out. unfold output_of, result_of, wbind.
  rewrite (Hm out), (Hm ""). rewrite app_nil_l_str.
  destruct (result_of m) as [a|e].
  - rewrite (Hk a (out +:+ output_of m)), (Hk a (output_of m)). cbn [fst snd].
    rewrite app_assoc_str. reflexivity.
  - reflexivity.
Qed.

Lemma appending_wfor {A} (l : list A) (body : A -> W unit) :
  (forall x, appending (body x)) -> appending (wfor l body).
Proof.
  intros Hb. induction l as [|x r IH]; cbn [wfor].
  - apply appending_wret.
  - apply appending_wbind; [apply Hb|intros _; exact IH].
Qed.

Lemma appending_if {A} (c : bool) (m1 m2 : W A) :
  appending m1 -> appending m2 -> appending (if c then m1 else m2).
Proof. destruct c; auto. Qed.

Ltac appending :=
  repeat first
    [ apply appending_write | apply appending_lift | apply appending_wret
    | apply appending_wfor; intros ?
    | apply appending_wbind; [|intros ?]
    | apply appending_if
    | match goal with |- appending (match ?x with _ => _ end) => destruct x end
    | match goal with |- appending (let _ := _ in _) => cbv zeta end ].

Lemma wbind_ok {A B} (m : W A) (k : A -> W B) out out' b :
  wbind m k out = (out', Ok b) ->
  exists mid a, m out = (mid, Ok a) /\ k a mid = (out', Ok b).
Proof.
  unfold wbind. destruct (m out) as [mid [a|e]]; intros H; [eauto|discriminate].
Qed.

Lemma wfor_output {A} (l : list A) (body : A -> W unit) :
  (forall x, appending (body x)) ->
  forall out out', wfor l body out = (out', Ok tt) ->
  out' = out +:+ concat_str (map (fun x => output_of (body x)) l).
Proof.
  intros Hb. induction l as [|x r IH]; intros out out' H; cbn [wfor] in H.
  - inversion H. cbn. rewrite app_nil_r_str. reflexivity.
  - apply wbind_ok in H as (mid & [] & H1 & H2).
    rewrite (Hb x out) in H1. inversion H1; subst mid.
    apply IH in H2. rewrite H2. cbn [map concat_str fold_right].
    rewrite app_assoc_str. reflexivity.
Qed.

Lemma wfor_results {A} (l : list A) (body : A -> W unit) :
  (forall x, appending (body x)) ->
  forall out out', wfor l body out = (out', Ok tt) ->
  Forall (fun x => result_of (body x) = Ok tt) l.
Proof.
  intros Hb. induction l as [|x r IH]; intros out out' H; cbn [wfor] in H.
  - constructor.
  - apply wbind_ok in H as (mid & [] & H1 & H2).
    rewrite (Hb x out) in H1. constructor; [congruence|eauto].
Qed.

Lemma wfor_ok {A} (l : list A) (body : A -> W unit) :
  (forall x out, In x l -> exists out', body x out = (out', Ok tt)) ->
  forall out, exists out', wfor l body out = (out', Ok tt).
Proof.
  induction l as [|x l IH]; intros Hb out; cbn [wfor].
  - eexists. reflexivity.
  - destruct (Hb x out (or_introl eq_refl)) as [o1 H1]. unfold wbind. rewrite H1.
    apply IH. intros y o Hy. apply Hb. right. exact Hy.
Qed.

Lemma wfor_text {A} (l : list A) (body : A -> W unit) (text : A -> string) :
  (forall x out, In x l -> body x out = (out +:+ text x, Ok tt)) ->
  forall out, wfor l body out = (out +:+ concat_str (map text l), Ok tt).
Proof.
  induction l as [|x l IH]; intros Hb out; cbn [wfor map].
  - unfold wret, concat_str. cbn [fold_right]. rewrite app_nil_r_str. reflexivity.
  - unfold wbind. rewrite (Hb x out (or_introl eq_refl)).
    rewrite IH by (intros y o Hy; apply Hb; right; exact Hy).
    unfold concat_str. cbn [fold_right]. rewrite app_assoc_str. reflexivity.
Qed.

(** ** The blocks *)

Lemma appending_write_typedefs ty so n : appending (write_typedefs ty so n).
Proof. unfold write_typedefs. appending. Qed.

(** Joining texts: normal form of concatenations. *)
Ltac strings :=
  repeat rewrite app_assoc_str; repeat rewrite app_nil_r_str; reflexivity.

Lemma suffix_layouts so :
  In so STORAGE_ORDER_SUFFIXES ->
  storage_order_for_suffix so = Ok (layout_order so) /\
  aligned_enum_for_suffix so = Ok (layout_alignment so).
Proof.
  intros H. cbn in H. destruct H as [<-|[<-|[<-|[]]]]; split; reflexivity.
Qed.

(** The inner loop of [write_code_block] writes the typedefs that bind
    the member to the choice. *)
Lemma write_typedefs_text ty so m out :
  is_Some (assoc ty NUMPY_ARRAY_TYPES_TO_CPP) -> In so STORAGE_ORDER_SUFFIXES ->
  write_typedefs ty so m out = (out +:+ member_typedefs (ty, so) m, Ok tt).
Proof.
  intros [[[cpp code] pretty] He] Hso.
  destruct (suffix_layouts so Hso) as [Ho Ha].
  unfold write_typedefs, catalog, member_typedefs, element_type. cbn [fst snd].
  rewrite He, Ho, Ha. unfold wbind, lift, write. cbn [fst snd].
  destruct (is_sparse_type ty); unfold sparse_typedefs, dense_typedefs;
    f_equal; strings.
Qed.

Lemma lookup_map {A B} (f : A -> B) (l : list A) : forall k : nat,
  map f l !! k = f <$> l !! k.
Proof.
  induction l as [|x l IH]; intros [|k]; cbn; try reflexivity. apply IH.
Qed.

Lemma guard_text_cons t r :
  guard_text (t :: r) = t +:+ (if (length r =? 0)%nat then ")" else " && " +:+ guard_text r).
Proof.
  unfold guard_text. destruct r as [|t' r]; cbn [Py.join length Nat.eqb]; [reflexivity|].
  rewrite !app_assoc_str. reflexivity.
Qed.

Lemma kept_cons c combo :
  kept (c :: combo) = negb (sparse_unordered c) && kept combo.
Proof. reflexivity. Qed.

Lemma branch_text_eq groups call (is_first : bool) combo :
  branch_text groups call is_first combo
  = (if is_first then "if " else " else if ") +:+ "("
    +:+ guard_text (zip_with group_test groups combo) +:+ " {" +:+ Py.nl
    +:+ "{" +:+ Py.nl
    +:+ concat_str (zip_with group_typedefs groups combo)
    +:+ call +:+ "}" +:+ Py.nl +:+ "}".
Proof. reflexivity. Qed.

Lemma concat_str_cons x l : concat_str (x :: l) = x +:+ concat_str l.
Proof. reflexivity. Qed.

Lemma branch_texts_cons groups call c r :
  concat_str (branch_texts groups call (c :: r))
  = branch_text groups call true c
    +:+ concat_str (map (branch_text groups call false) r).
Proof. reflexivity. Qed.

Lemma branch_texts_length groups call combos :
  length (branch_texts groups call combos) = length combos.
Proof. destruct combos; cbn [branch_texts length]; [|rewrite length_map]; reflexivity. Qed.

Lemma occurs_in_refl t : occurs_in t t.
Proof. exists "", "". rewrite app_nil_r_str. reflexivity. Qed.

Lemma occurs_in_app_l t a s : occurs_in t s -> occurs_in t (a +:+ s).
Proof.
  intros (x & y & ->). exists (a +:+ x), y. rewrite !app_assoc_str. reflexivity.
Qed.

Lemma occurs_in_app_r t s b : occurs_in t s -> occurs_in t (s +:+ b).
Proof.
  intros (x & y & ->). exists x, (y +:+ b). rewrite !app_assoc_str. reflexivity.
Qed.

Lemma occurs_in_concat l : forall (k : nat) x,
  l !! k = Some x -> occurs_in x (concat_str l).
Proof.
  induction l as [|y l IH]; intros k x H; [discriminate|].
  rewrite concat_str_cons. destruct k as [|k].
  - inversion H; subst. apply occurs_in_app_r, occurs_in_refl.
  - apply occurs_in_app_l. eapply IH. exact H.
Qed.

Lemma occurs_in_join sep l : forall (k : nat) x,
  l !! k = Some x -> occurs_in x (Py.join sep l).
Proof.
  induction l as [|y l IH]; intros k x H; [discriminate|].
  destruct l as [|z l].
  - destruct k; [|discriminate]. inversion H; subst. apply occurs_in_refl.
  - change (Py.join sep (y :: z :: l)) with (y +:+ sep +:+ Py.join sep (z :: l)).
    destruct k as [|k].
    + inversion H; subst. apply occurs_in_app_r, occurs_in_refl.
    + apply occurs_in_app_l, occurs_in_app_l. eapply IH. exact H.
Qed.

Lemma occurs_in_guard tests (k : nat) x :
  tests !! k = Some x -> occurs_in x (guard_text tests).
Proof.
  intros H. unfold guard_text. destruct tests as [|t r]; [discriminate|].
  apply occurs_in_app_r. eapply occurs_in_join. exact H.
Qed.

(** In the branch of a combination, the guard holds the test of every
    group against the choice made for it, and the block holds the
    typedefs that bind every member of the group to the same choice. *)
Lemma branch_text_members groups call is_first combo (i : nat) g choice m :
  groups !! i = Some g -> combo !! i = Some choice ->
  In m (NpeArgumentGroup.arguments g) ->
  occurs_in (group_test g choice) (branch_text groups call is_first combo) /\
  occurs_in (member_typedefs choice m) (branch_text groups call is_first combo).
Proof.
  intros Hg Hc Hm. rewrite branch_text_eq. split.
  - apply occurs_in_app_l, occurs_in_app_l, occurs_in_app_r.
    apply (occurs_in_guard _ i). apply lookup_zip_with_Some. eauto.
  - do 7 apply occurs_in_app_l. apply occurs_in_app_r.
    apply list_elem_of_In, list_elem_of_lookup in Hm as [j Hj].
    assert (Ho : occurs_in (member_typedefs choice m) (group_typedefs g choice)).
    { unfold group_typedefs. apply (occurs_in_concat _ j).
      rewrite lookup_map, Hj. reflexivity. }
    destruct Ho as (a & b & Ho).
    destruct (occurs_in_concat (zip_with group_typedefs groups combo) i
                (group_typedefs g choice)) as (a' & b' & E).
    { apply lookup_zip_with_Some. eauto. }
    rewrite E, Ho. exists (a' +:+ a), (b +:+ b'). rewrite !app_assoc_str. reflexivity.
Qed.

Lemma branch_texts_lookup groups call combos (k : nat) :
  branch_texts groups call combos !! k
  = (fun combo => branch_text groups call (bool_decide (k = 0%nat)) combo)
      <$> combos !! k.
Proof.
  destruct combos as [|c r]; [reflexivity|]. destruct k as [|k]; [reflexivity|].
  cbn [branch_texts]. change ((?x :: ?l) !! S k) with (l !! k). rewrite lookup_map. reflexivity.
Qed.

(** ** The branches *)

Lemma kept_choices_count types :
  Z.of_nat (length (List.filter (fun c => negb (sparse_unordered c))
                                (product2 types STORAGE_ORDER_SUFFIXES)))
  = 3 * Z.of_nat (length types) - sparse_count types.
Proof.
  unfold sparse_count, product2.
  induction types as [|t r IH]; [reflexivity|].
  cbn [flat_map]. rewrite List.filter_app, length_app, Nat2Z.inj_add, IH. clear IH.
  cbn [List.filter length map STORAGE_ORDER_SUFFIXES].
  unfold sparse_unordered. cbn [fst snd].
  change (String.eqb STORAGE_ORDER_SUFFIX_CM STORAGE_ORDER_SUFFIX_XM) with false.
  change (String.eqb STORAGE_ORDER_SUFFIX_RM STORAGE_ORDER_SUFFIX_XM) with false.
  change (String.eqb STORAGE_ORDER_SUFFIX_XM STORAGE_ORDER_SUFFIX_XM) with true.
  rewrite !andb_false_r, andb_true_r. cbn [negb].
  destruct (is_sparse_type t); cbn [negb length]; lia.
Qed.

Lemma kept_map_cons (c : string * string) X :
  List.filter kept (map (cons c) X)
  = if negb (sparse_unordered c) then map (cons c) (List.filter kept X) else [].
Proof.
  induction X as [|x X IH]; cbn [map List.filter]; [destruct (negb _); reflexivity|].
  rewrite IH. unfold kept at 1. cbn [forallb]. fold (kept x).
  destruct (negb (sparse_unordered c)); cbn [andb]; [|reflexivity].
  destruct (kept x); reflexivity.
Qed.

Lemma kept_product_count (ls : list (list (string * string))) :
  Z.of_nat (length (List.filter kept (product_n ls)))
  = fold_right Z.mul 1
      (map (fun l => Z.of_nat (length (List.filter (fun c => negb (sparse_unordered c)) l))) ls).
Proof.
  induction ls as [|l ls IH]; [reflexivity|].
  cbn [product_n map fold_right]. rewrite <- IH. clear IH.
  induction l as [|c l IHl]; [cbn; lia|].
  cbn [flat_map List.filter]. rewrite List.filter_app, length_app, Nat2Z.inj_add, IHl.
  rewrite kept_map_cons.
  destruct (negb (sparse_unordered c)); cbn [length]; [rewrite length_map|]; lia.
Qed.

(** The combinations that are not skipped are as many as the product of
    [3 * t - s] over the groups. *)
Lemma kept_combos_count fn :
  Z.of_nat (length (List.filter kept (group_combos fn)))
  = branch_product (argument_groups fn).
Proof.
  unfold group_combos, branch_product. rewrite kept_product_count, map_map.
  f_equal. apply map_ext. intros g. apply kept_choices_count.
Qed.

Lemma product2_In {A B} (l1 : list A) (l2 : list B) a b :
  In (a, b) (product2 l1 l2) <-> In a l1 /\ In b l2.
Proof.
  unfold product2. rewrite in_flat_map. split.
  - intros (x & Hx & H). apply in_map_iff in H as (y & E & Hy). inversion E; subst. auto.
  - intros [Ha Hb]. exists a. split; [assumption|]. apply in_map_iff. eauto.
Qed.

Lemma product_n_Forall2 {A} (ls : list (list A)) combo :
  In combo (product_n ls) -> Forall2 (fun c l => In c l) combo ls.
Proof.
  revert combo. induction ls as [|l ls IH]; intros combo H; cbn [product_n] in H.
  - destruct H as [<-|[]]. constructor.
  - apply in_flat_map in H as (a & Ha & H). apply in_map_iff in H as (x & <- & Hx).
    constructor; auto.
Qed.

Lemma Forall2_map_r {A B C} (P : A -> C -> Prop) (f : B -> C) l l' :
  Forall2 P l (map f l') -> Forall2 (fun x y => P x (f y)) l l'.
Proof.
  revert l. induction l' as [|y l' IH]; intros l H; inversion H; subst;
    constructor; auto.
Qed.

Lemma group_combos_choices fn combo :
  In combo (group_combos fn) -> Forall2 choice_of combo (argument_groups fn).
Proof.
  unfold group_combos. intros H. apply product_n_Forall2 in H.
  apply Forall2_map_r in H. exact H.
Qed.

Section Generation.

Variable fn : NpeFunction.t.

Lemma branch_guard_spec combo : forall pre rest n s,
  argument_groups fn = pre ++ rest ->
  Forall2 choice_of combo rest -> Forall expandable rest ->
  exists r, branch_guard fn n (Z.of_nat (length pre)) combo s = Ok r /\
            (kept combo = true -> is_Some r) /\ (kept combo = false -> r = None).
Proof.
  induction combo as [|[ty so] combo IH]; intros pre rest n s Hg H2 He.
  - cbn. eexists. split; [reflexivity|]. split; [eauto|discriminate].
  - inversion H2 as [|c g cs gs Hc H2' E1 E2]; subst. inversion He as [|g' gs' Hx He']; subst.
    cbn [branch_guard]. unfold kept. cbn [forallb]. fold (kept combo).
    unfold sparse_unordered at 1 2. cbn [fst snd].
    destruct (is_sparse_type ty && String.eqb so STORAGE_ORDER_SUFFIX_XM).
    + cbn [negb andb]. eexists. split; [reflexivity|]. split; [discriminate|reflexivity].
    + cbn [negb andb]. unfold get_group. unfold argument_groups in Hg. rewrite Hg.
      rewrite index_app_here. cbn [rbind].
      destruct Hx as [Hm _]. destruct (NpeArgumentGroup.arguments g) as [|v vs]; [congruence|].
      cbn [first rbind].
      replace (Z.of_nat (length pre) + 1) with (Z.of_nat (length (pre ++ [g])))
        by (rewrite length_app; cbn; lia).
      apply IH with (rest := gs); auto.
      unfold argument_groups. rewrite Hg, <- app_assoc. reflexivity.
Qed.

Lemma write_typedefs_ok ty so m out :
  is_Some (assoc ty NUMPY_ARRAY_TYPES_TO_CPP) -> In so STORAGE_ORDER_SUFFIXES ->
  exists out', write_typedefs ty so m out = (out', Ok tt).
Proof.
  intros [e He] Hso. unfold write_typedefs, catalog. rewrite He.
  unfold wbind, lift, write.
  cbn in Hso. destruct Hso as [<-|[<-|[<-|[]]]]; cbn;
    destruct (is_sparse_type ty); eauto.
Qed.

Lemma write_group_typedefs_ok combo : forall pre rest out,
  argument_groups fn = pre ++ rest ->
  Forall2 choice_of combo rest -> Forall expandable rest ->
  exists out', write_group_typedefs fn (Z.of_nat (length pre)) combo out = (out', Ok tt).
Proof.
  induction combo as [|[ty so] combo IH]; intros pre rest out Hg H2 He.
  - cbn. eexists. reflexivity.
  - inversion H2 as [|c g cs gs Hc H2' E1 E2]; subst. inversion He as [|g' gs' Hx He']; subst.
    cbn [write_group_typedefs]. unfold wbind at 1. unfold lift, get_group.
    unfold argument_groups in Hg. rewrite Hg, index_app_here.
    apply product2_In in Hc as [Hty Hso]. destruct Hx as [_ Hcat].
    destruct (wfor_ok (NpeArgumentGroup.arguments g) (write_typedefs ty so)) with (out := out)
      as [o1 H1].
    { intros m o _. apply write_typedefs_ok; [|exact Hso].
      rewrite Forall_forall in Hcat. apply Hcat. apply list_elem_of_In. exact Hty. }
    unfold wbind. rewrite H1.
    replace (Z.of_nat (length pre) + 1) with (Z.of_nat (length (pre ++ [g])))
      by (rewrite length_app; cbn; lia).
    apply IH with (rest := gs); auto.
    unfold argument_groups. rewrite Hg, <- app_assoc. reflexivity.
Qed.

Lemma fold_arguments_ok (body : string -> NpeArgument.t -> result string) names :
  (forall acc a, exists s, body acc a = Ok s) ->
  (forall n, In n names -> is_Some (_arguments fn !! n)) ->
  forall acc, exists s, fold_arguments fn body acc names = Ok s.
Proof.
  intros Hb. induction names as [|n names IH]; intros Hn acc; cbn [fold_arguments].
  - eauto.
  - destruct (Hn n (or_introl eq_refl)) as [a Ha]. unfold get_argument. rewrite Ha.
    cbn [rbind]. destruct (Hb acc a) as [s Hs]. rewrite Hs. cbn [rbind].
    apply IH. intros m Hm. apply Hn. right. exact Hm.
Qed.

Lemma call_text_ok : dispatchable fn -> exists s, call_text fn = Ok s.
Proof.
  intros [Ha Hn _]. unfold call_text.
  destruct (fold_arguments_ok
    (fun acc arg => if NpeArgument.is_numpy_type arg
       then Ok (acc +:+ ("Map_" +:+ NpeArgument.name arg +:+ ", Matrix_"
                    +:+ NpeArgument.name arg +:+ ", Scalar_"
                    +:+ NpeArgument.name arg +:+ ","))
       else Ok acc) (_argument_names fn)) with (acc := "<") as [s1 H1]; [|exact Hn|].
  { intros acc a. destruct (NpeArgument.is_numpy_type a); eauto. }
  rewrite H1. cbn [rbind]. rewrite Ha. cbn [rbind].
  match goal with |- exists s, (let* call_str := fold_arguments fn ?b ?a0 ?names in _) = _ =>
    assert (Hb : forall acc x, exists s, b acc x = Ok s)
      by (intros acc x; destruct (NpeArgument.is_numpy_type x); [destruct (negb _)|]; eauto);
    destruct (fold_arguments_ok b names Hb Hn a0) as [s2 H2] end.
  rewrite H2. cbn [rbind]. eauto.
Qed.

(** A block is written whole for every combination of choices. *)
Lemma write_code_block_ok combo out :
  dispatchable fn -> Forall2 choice_of combo (argument_groups fn) ->
  exists out', write_code_block fn combo out = (out', Ok tt).
Proof.
  intros Hd H2. unfold write_code_block.
  unfold wbind at 1. unfold write at 1.
  destruct (write_group_typedefs_ok combo [] (argument_groups fn) (out +:+ ("{" +:+ Py.nl)))
    as [o1 H1]; [reflexivity|exact H2|apply Hd|].
  cbn [length] in H1. change (Z.of_nat 0) with 0 in H1.
  unfold wbind at 1. rewrite H1.
  destruct (call_text_ok Hd) as [s Hs]. unfold wbind, lift, write. rewrite Hs. eauto.
Qed.

(** The loop of [write_code_block] over the groups writes, for every
    group, the typedefs of its members under the choice of the group. *)
Lemma write_group_typedefs_text combo : forall pre rest out,
  argument_groups fn = pre ++ rest ->
  Forall2 choice_of combo rest -> Forall expandable rest ->
  write_group_typedefs fn (Z.of_nat (length pre)) combo out
  = (out +:+ concat_str (zip_with group_typedefs rest combo), Ok tt).
Proof.
  induction combo as [|[ty so] combo IH]; intros pre rest out Hg H2 He.
  - inversion H2; subst. cbn. rewrite app_nil_r_str. reflexivity.
  - inversion H2 as [|c g cs gs Hc H2' E1 E2]; subst.
    inversion He as [|g' gs' Hx He']; subst.
    cbn [write_group_typedefs zip_with]. unfold wbind at 1. unfold lift, get_group.
    unfold argument_groups in Hg. rewrite Hg, index_app_here.
    apply product2_In in Hc as [Hty Hso]. destruct Hx as [_ Hcat].
    unfold wbind at 1.
    rewrite (wfor_text (NpeArgumentGroup.arguments g) (write_typedefs ty so)
               (member_typedefs (ty, so))).
    2:{ intros m o _. apply write_typedefs_text; [|exact Hso].
        rewrite Forall_forall in Hcat. apply Hcat. apply list_elem_of_In. exact Hty. }
    replace (Z.of_nat (length pre) + 1) with (Z.of_nat (length (pre ++ [g])))
      by (rewrite length_app; cbn; lia).
    rewrite (IH (pre ++ [g]) gs); auto.
    2:{ unfold argument_groups. rewrite Hg, <- app_assoc. reflexivity. }
    unfold group_typedefs at 2. unfold concat_str at 3. cbn [fold_right].
    fold (concat_str (zip_with group_typedefs gs combo)).
    rewrite app_assoc_str. reflexivity.
Qed.

(** The loop of [write_body] over the groups of a combination builds the
    guard out of the tests of the groups, unless the combination is
    skipped. *)
Lemma branch_guard_text combo : forall pre rest s,
  argument_groups fn = pre ++ rest ->
  Forall2 choice_of combo rest -> Forall expandable rest ->
  branch_guard fn (Z.of_nat (length pre + length combo)) (Z.of_nat (length pre)) combo s
  = Ok (if kept combo
        then Some (s +:+ guard_text (zip_with group_test rest combo))
        else None).
Proof.
  induction combo as [|[ty so] combo IH]; intros pre rest s Hg H2 He.
  - inversion H2; subst. cbn. rewrite app_nil_r_str. reflexivity.
  - inversion H2 as [|c g cs gs Hc H2' E1 E2]; subst.
    inversion He as [|g' gs' Hx He']; subst.
    cbn [branch_guard]. rewrite kept_cons.
    unfold sparse_unordered. cbn [fst snd].
    destruct (is_sparse_type ty && String.eqb so STORAGE_ORDER_SUFFIX_XM) eqn:Esk.
    + reflexivity.
    + cbn [negb andb]. unfold get_group. unfold argument_groups in Hg. rewrite Hg.
      rewrite index_app_here. cbn [rbind].
      destruct Hx as [Hm _].
      destruct (NpeArgumentGroup.arguments g) as [|v vs] eqn:Ev; [congruence|].
      cbn [first rbind].
      assert (Hlen : length combo = length gs) by (eapply Forall2_length; eauto).
      replace (Z.of_nat (length pre) + 1) with (Z.of_nat (length (pre ++ [g])))
        by (rewrite length_app; cbn; lia).
      replace (Z.of_nat (length pre + length ((ty, so) :: combo)))
        with (Z.of_nat (length (pre ++ [g]) + length combo))
        by (rewrite length_app; cbn [length]; lia).
      rewrite (IH (pre ++ [g]) gs);
        [|unfold argument_groups; rewrite Hg, <- app_assoc; reflexivity|exact H2'|exact He'].
      destruct (kept combo); [|reflexivity].
      do 2 f_equal. cbn [zip_with]. rewrite guard_text_cons.
      rewrite length_zip_with, <- Hlen, Nat.min_r by lia.
      unfold group_test at 2. rewrite Ev. cbn [hd fst snd].
      unfold type_id_var, PRIVATE_ID_PREFIX, PRIVATE_NAMESPACE, TYPE_ID_ENUM.
      replace (Z.of_nat (length pre) <? Z.of_nat (length (pre ++ [g]) + length combo) - 1)
        with (negb (length combo =? 0)%nat).
      2:{ rewrite length_app. cbn [length].
          destruct combo; cbn [length Nat.eqb negb]; symmetry;
            [apply Z.ltb_ge|apply Z.ltb_lt]; lia. }
      destruct combo as [|c0 combo']; cbn [length Nat.eqb negb].
      * destruct gs; [|discriminate Hlen]. cbn [zip_with guard_text]. strings.
      * strings.
Qed.

(** A block: the typedefs of every group under its choice, then the
    call. *)
Lemma write_code_block_text combo call out :
  dispatchable fn -> Forall2 choice_of combo (argument_groups fn) ->
  call_text fn = Ok call ->
  write_code_block fn combo out
  = (out +:+ "{" +:+ Py.nl
         +:+ concat_str (zip_with group_typedefs (argument_groups fn) combo)
         +:+ call +:+ "}" +:+ Py.nl, Ok tt).
Proof.
  intros Hd H2 Hcall. unfold write_code_block.
  unfold wbind at 1. unfold write at 1.
  unfold wbind at 1.
  rewrite (write_group_typedefs_text combo [] (argument_groups fn));
    [|reflexivity|exact H2|apply Hd].
  unfold wbind, lift, write. rewrite Hcall. f_equal. strings.
Qed.

(** The loop over the combinations writes the branches of the
    combinations that are kept, in order; once a branch was written the
    others open with [else if]. *)
Lemma write_branches_text call combos : forall bc out,
  dispatchable fn -> call_text fn = Ok call ->
  Forall (fun combo => Forall2 choice_of combo (argument_groups fn)) combos ->
  0 <= bc ->
  write_branches fn combos bc out
  = (out +:+ concat_str
       (if bc =? 0 then branch_texts (argument_groups fn) call (List.filter kept combos)
        else map (branch_text (argument_groups fn) call false) (List.filter kept combos)),
     Ok tt).
Proof.
  induction combos as [|combo combos IH]; intros bc out Hd Hcall Hc Hbc;
    cbn [write_branches List.filter].
  - unfold wret. destruct (bc =? 0); cbn; rewrite app_nil_r_str; reflexivity.
  - inversion Hc as [|c cs Hc1 Hc2]; subst.
    pose proof (branch_guard_text combo [] (argument_groups fn)
                  ((if bc =? 0 then "if " else " else if ") +:+ "(")
                  eq_refl Hc1 (disp_groups _ Hd)) as Hg.
    cbn [length Nat.add] in Hg. change (Z.of_nat 0) with 0 in Hg.
    unfold wbind at 1. unfold lift. rewrite Hg.
    destruct (kept combo) eqn:Ek.
    + unfold wbind at 1. unfold write at 1.
      unfold wbind at 1. rewrite (write_code_block_text combo call _ Hd Hc1 Hcall).
      unfold wbind at 1. unfold write at 1.
      rewrite (IH (bc + 1)) by (auto; lia).
      replace (bc + 1 =? 0) with false by (symmetry; apply Z.eqb_neq; lia).
      f_equal. destruct (bc =? 0).
      * rewrite branch_texts_cons.
        rewrite (branch_text_eq (argument_groups fn) call true combo). strings.
      * cbn [map]. rewrite concat_str_cons.
        rewrite (branch_text_eq (argument_groups fn) call false combo). strings.
    + apply IH; assumption.
Qed.

(** The text of [write_body] on a binding with array arguments: the
    branches of the combinations that are kept, the branch for no match,
    and the end of the function. *)
Lemma write_body_text out :
  dispatchable fn ->
  exists call, call_text fn = Ok call /\
    write_body fn out
    = (out +:+ concat_str (branch_texts (argument_groups fn) call
                             (List.filter kept (group_combos fn)))
           +:+ no_branch_text +:+ Py.nl +:+ "}", Ok tt).
Proof.
  intros Hd. destruct (call_text_ok Hd) as [call Hcall].
  exists call. split; [exact Hcall|].
  unfold write_body. unfold wbind at 1. unfold lift at 1.
  rewrite (disp_array _ Hd).
  unfold wbind at 1. unfold wbind at 1.
  rewrite (write_branches_text call (group_combos fn) 0 out Hd Hcall).
  2:{ rewrite Forall_forall. intros combo Hin. apply group_combos_choices.
      apply list_elem_of_In. exact Hin. }
  2:{ lia. }
  change (0 =? 0) with true. cbv iota.
  unfold wbind, write, no_branch_text. f_equal. strings.
Qed.

(** The branch-count law of [write_body]: on a binding whose groups have
    members and candidate types spelled as in the catalog, [write_body]
    completes, and the branches it writes are as many as the product of
    [3 * t - s]. *)
Lemma write_body_branch_count out :
  dispatchable fn ->
  exists call branches,
    call_text fn = Ok call /\
    branches = branch_texts (argument_groups fn) call
                            (List.filter kept (group_combos fn)) /\
    write_body fn out
    = (out +:+ concat_str branches +:+ no_branch_text +:+ Py.nl +:+ "}", Ok tt) /\
    Z.of_nat (length branches) = branch_product (argument_groups fn).
Proof.
  intros Hd. destruct (write_body_text out Hd) as (call & Hcall & Hw).
  exists call, (branch_texts (argument_groups fn) call
                  (List.filter kept (group_combos fn))).
  split; [exact Hcall|]. split; [reflexivity|]. split; [exact Hw|].
  rewrite branch_texts_length. apply kept_combos_count.
Qed.

End Generation.

(** ** Phases of the parser *)

Section Phases.

Variable tok : string -> string -> Z -> result (list string).

(** Phase 1 passes over a blank line. *)
Lemma parse_seek_blank ln st b rest :
  b <> "" -> is_blank b = true ->
  parse_seek tok ln st (b :: rest) = parse_seek tok ln st rest.
Proof.
  intros Hne Hb. cbn [parse_seek].
  destruct (Py.len b =? 0) eqn:E; [apply len_0 in E; congruence|].
  unfold is_blank in Hb. rewrite Hb. reflexivity.
Qed.

(** Phase 1 keeps a comment line in the preamble. *)
Lemma parse_seek_comment ln st c rest :
  is_comment c = true ->
  parse_seek tok ln st (c :: rest)
  = parse_seek tok ln (set_preamble (_preamble st +:+ c) st) rest.
Proof.
  intros Hc. cbn [parse_seek].
  pose proof (is_comment_head c Hc) as [r Hr].
  assert (Hne : c <> "") by (intros ->; discriminate Hr).
  destruct (Py.len c =? 0) eqn:E; [apply len_0 in E; congruence|].
  destruct (Py.len (Py.strip c) =? 0) eqn:E'; [apply len_0 in E'; congruence|].
  rewrite !(is_call_comment _ c (ln + 1)) by (assumption || (simpl; tauto)).
  reflexivity.
Qed.

(** Phase 2 passes over a blank line or a comment line when no
    documentation statement is being read. *)
Lemma parse_declare_skip ln st doc_lines b rest :
  b <> "" -> is_blank b = true \/ is_comment b = true ->
  parse_declare tok ln st false doc_lines (b :: rest)
  = parse_declare tok ln st false doc_lines rest.
Proof.
  intros Hne Hb. cbn [parse_declare].
  destruct (Py.len b =? 0) eqn:E; [apply len_0 in E; congruence|].
  rewrite !(no_call_on_skipped _ b (ln + 1)) by (assumption || (simpl; tauto)).
  destruct Hb as [Hb|Hb].
  - unfold is_blank in Hb. rewrite Hb. reflexivity.
  - unfold is_comment in Hb. rewrite Hb.
    destruct (Py.len (Py.strip b) =? 0); reflexivity.
Qed.

(** Phase 2 adds such a line to the documentation statement being read. *)
Lemma parse_declare_doc_pending ln st doc_lines b rest :
  b <> "" -> is_blank b = true \/ is_comment b = true ->
  parse_declare tok ln st true doc_lines (b :: rest)
  = parse_declare tok ln st true (doc_lines +:+ b) rest.
Proof.
  intros Hne Hb. cbn [parse_declare].
  destruct (Py.len b =? 0) eqn:E; [apply len_0 in E; congruence|].
  rewrite !(no_call_on_skipped _ b (ln + 1)) by (assumption || (simpl; tauto)).
  reflexivity.
Qed.

(** Phase 3 copies the lines up to the first end-code statement. *)
Lemma parse_body_copies ln body : forall st rest,
  Forall (fun l => l <> "" /\ is_call END_CODE_TOKEN l (ln + 1) = false) body ->
  parse_body ln st false (body ++ rest)
  = parse_body ln (set_source_code (_source_code st +:+ concat_str body) st)
               false rest.
Proof.
  induction body as [|l body IH]; intros st rest Hb.
  - cbn [app concat_str fold_right]. rewrite app_nil_r_str. destruct st; reflexivity.
  - inversion Hb as [|x xs [Hne Hc] Hb']; subst. cbn [app parse_body].
    destruct (Py.len l =? 0) eqn:E; [apply len_0 in E; congruence|].
    rewrite Hc. cbn [negb]. rewrite IH by assumption.
    cbn [_source_code set_source_code concat_str fold_right].
    rewrite app_assoc_str. reflexivity.
Qed.

(** After the end-code statement a line with content that is not itself
    an end-code statement is refused. *)
Lemma parse_body_content_after_end ln st l rest :
  is_blank l = false -> is_call END_CODE_TOKEN l (ln + 1) = false ->
  parse_body ln st true (l :: rest)
  = Raise (ParseError ("Expected end of file after " +:+ END_CODE_TOKEN
      +:+ "(). Line " +:+ Py.str_of_int (ln + 1) +:+ ": " +:+ l)).
Proof.
  intros Hb Hc. cbn [parse_body].
  destruct (Py.len l =? 0) eqn:E.
  { apply len_0 in E. subst l. discriminate Hb. }
  rewrite Hc. cbn [negb andb]. unfold is_blank in Hb. rewrite Hb. reflexivity.
Qed.

(** After the end-code statement a well-formed end-code statement is
    accepted again. *)
Lemma parse_body_end_after_end ln st l rest :
  l <> "" -> is_call END_CODE_TOKEN l (ln + 1) = true ->
  _parse_end_code_statement l (ln + 1) = Ok tt ->
  parse_body ln st true (l :: rest) = parse_body ln st true rest.
Proof.
  intros Hne Hc He. cbn [parse_body].
  destruct (Py.len l =? 0) eqn:E; [apply len_0 in E; congruence|].
  rewrite Hc, He. reflexivity.
Qed.

(** The input ends before an end-code statement. *)
Lemma parse_body_no_end ln body : forall st,
  Forall (fun l => is_call END_CODE_TOKEN l (ln + 1) = false) body ->
  exists st', parse_body ln st false body = Ok (st', false).
Proof.
  induction body as [|l body IH]; intros st Hb; cbn [parse_body]; [eauto|].
  inversion Hb as [|x xs Hc Hb']; subst.
  destruct (Py.len l =? 0); [eauto|]. rewrite Hc. cbn [negb]. apply IH. assumption.
Qed.

Lemma _parse_unexpected_eof st rd s1 b1 r1 s2 b2 body :
  parse_seek tok (NpeFileReader.line_number rd) st (NpeFileReader.lines rd)
    = Ok (s1, b1, r1) -> 0 <= b1 ->
  parse_declare tok (NpeFileReader.line_number rd) s1 false "" r1
    = Ok (s2, b2, body) -> 0 <= b2 ->
  Forall (fun l => is_call END_CODE_TOKEN l (NpeFileReader.line_number rd + 1) = false)
         body ->
  _parse tok st rd
  = Raise (ParseError ("Unexpected EOF. Binding file must end with a "
                       +:+ END_CODE_TOKEN +:+ "() statement.")).
Proof.
  intros H1 Hb1 H2 Hb2 Hbody. unfold _parse. rewrite H1. cbn [rbind].
  rewrite (proj2 (Z.ltb_ge _ _)) by assumption. rewrite H2. cbn [rbind].
  rewrite (proj2 (Z.ltb_ge _ _)) by assumption.
  destruct (parse_body_no_end _ body s2 Hbody) as [s3 H3]. rewrite H3. reflexivity.
Qed.

End Phases.

(** ** Joining a group *)

Lemma index_set_index {A} (l : list A) i x y :
  Py.index l i = Some x ->
  exists l', Py.set_index l i y = Some l' /\ Py.index l' i = Some y /\
             length l' = length l.
Proof.
  unfold Py.index, Py.set_index. intros H.
  destruct ((0 <=? i) && (i <? Z.of_nat (length l))) eqn:E1.
  - eexists. split; [reflexivity|]. rewrite length_insert, E1. split; [|reflexivity].
    apply list_lookup_insert_eq. eapply lookup_lt_Some; eauto.
  - destruct ((- Z.of_nat (length l) <=? i) && (i <? 0)) eqn:E2; [|discriminate].
    eexists. split; [reflexivity|]. rewrite length_insert, E1, E2.
    split; [|reflexivity].
    apply list_lookup_insert_eq. eapply lookup_lt_Some; eauto.
Qed.

(** A matches() that follows the statement of the argument it names
    joins that argument's group and leaves its candidate types alone. *)
Lemma matches_after_joins self ln v t meta other gid g :
  Py.startswith t MATCHES_TOKEN = true ->
  _parse_matches_statement t ln = Ok other ->
  _argument_name_to_group self !! other = Some gid ->
  Py.index (_input_type_groups self) gid = Some g ->
  exists self',
    declare_single_type self ln v [t] meta
      = Ok (self', NpeArgument.set_is_matches true meta, gid) /\
    _argument_name_to_group self' !! v = Some gid /\
    Py.index (_input_type_groups self') gid
      = Some (NpeArgumentGroup.mk (NpeArgumentGroup.arguments g ++ [v])
                                  (NpeArgumentGroup.types g)).
Proof.
  intros Hs Hp Hm Hi. unfold declare_single_type. cbn [length Nat.eqb py_assert rbind hd].
  rewrite Hs, Hp. cbn [rbind]. rewrite Hm.
  unfold group_append, update_group, get_group.
  cbn [_input_type_groups set_name_to_group]. rewrite Hi. cbn [rbind].
  destruct (index_set_index _ gid g
              (NpeArgumentGroup.mk (NpeArgumentGroup.arguments g ++ [v])
                                   (NpeArgumentGroup.types g)) Hi)
    as (l' & Hs' & Hi' & _).
  rewrite Hs'. cbn [rbind]. eexists. split; [reflexivity|].
  cbn. split; [apply lookup_insert_eq|exact Hi'].
Qed.

(** A matches() that comes before the statement of the argument it names
    appends a group without candidate types, and registers both names
    under the number of groups minus one as it was before the append:
    the index of the group before the new one, or -1 when there was
    none. *)
Lemma matches_before_registers_previous_index self ln v t meta other :
  Py.startswith t MATCHES_TOKEN = true ->
  _parse_matches_statement t ln = Ok other ->
  _argument_name_to_group self !! other = None ->
  exists self' meta',
    declare_single_type self ln v [t] meta
      = Ok (self', meta', Z.of_nat (length (_input_type_groups self)) - 1) /\
    _input_type_groups self'
      = _input_type_groups self ++ [NpeArgumentGroup.mk [v] []] /\
    _argument_name_to_group self' !! v
      = Some (Z.of_nat (length (_input_type_groups self)) - 1) /\
    _argument_name_to_group self' !! other
      = Some (Z.of_nat (length (_input_type_groups self)) - 1).
Proof.
  intros Hs Hp Hm. unfold declare_single_type.
  cbn [length Nat.eqb py_assert rbind hd]. rewrite Hs, Hp. cbn [rbind]. rewrite Hm.
  eexists _, _. split; [reflexivity|]. cbn.
  split; [reflexivity|]. split; [|apply lookup_insert_eq].
  destruct (decide (other = v)) as [->|Hd].
  - apply lookup_insert_eq.
  - rewrite lookup_insert_ne by assumption. apply lookup_insert_eq.
Qed.

(** ** The driver *)

Lemma handle_status args e out : Outcome.exit_status (handle args e out) = 1.
Proof. destruct e; reflexivity. Qed.

Lemma handle_output args e out : Outcome.output_file (handle args e out) = out.
Proof. destruct e; reflexivity. Qed.

Lemma log_at_most_one v l s : (length (log v l s) <= 1)%nat.
Proof. unfold log. destruct (l <=? v); cbn; lia. Qed.

Lemma handle_at_most_one args e out :
  (length (Outcome.stderr (handle args e out)) <= 1)%nat.
Proof. destruct e; cbn; try apply log_at_most_one; lia. Qed.

Lemma log_error_printed v s : 0 <= v -> log v LOG_ERROR s = [Logged s].
Proof.
  intros H. unfold log, LOG_ERROR. rewrite (proj2 (Z.leb_le _ _)) by assumption.
  reflexivity.
Qed.

(** The generated text depends on the path of the input file through its
    base name only. *)
Lemma codegen_ast_basename f file1 file2 :
  Py.basename file1 = Py.basename file2 ->
  codegen_ast f file1 = codegen_ast f file2.
Proof.
  intros H. unfold codegen_ast, write_declaration. rewrite H. reflexivity.
Qed.

Section Driver.

Variable tok : string -> string -> Z -> result (list string).

Lemma main_rejected args lines old e :
  NpeFunction_init tok (NpeFileReader.init lines) = Raise e ->
  main tok args lines old = handle args e old.
Proof. intros H. unfold main. rewrite H. reflexivity. Qed.

Lemma NpeFunction_init_rejected rd st e :
  _parse tok empty rd = Ok st -> _validate st = Raise e ->
  NpeFunction_init tok rd = Raise e.
Proof. intros H1 H2. unfold NpeFunction_init. rewrite H1. exact H2. Qed.

End Driver.

(** * The claims *)

(** ** C1: the branch-count law *)

(** C1, at the input [Examples.capital_type]: the binding has the array
    arguments [x] (declared [DENSE_F32]) and [y] (declared [dense_f64]);
    it parses and validates, [y] is a dense array argument, and its two
    groups have one candidate type each, none of them sparse, so that the
    law asks for 3 * 3 = 9 branches.  The generator raises KeyError on
    the type in capitals: [write_body] completes no branch, and
    [codegen_ast] stops before it reaches [write_body].  (On a binding
    whose candidate types are spelled as in the catalog the law holds:
    [write_body_branch_count].) *)
Theorem C1_capital_type_stops_generation :
  NpeFunction_init Scanner.tokenize (Examples.reader Examples.capital_type)
    = Ok (Examples.binding Examples.capital_type) /\
  (exists y, Examples.argument (Examples.binding Examples.capital_type) "y" = Some y /\
             NpeArgument.is_dense y = true) /\
  map NpeArgumentGroup.types (argument_groups (Examples.binding Examples.capital_type))
    = [["DENSE_F32"]; ["dense_f64"]] /\
  branch_product (argument_groups (Examples.binding Examples.capital_type)) = 9 /\
  write_body (Examples.binding Examples.capital_type) ""
    = ("if (_NPE_PY_BINDING_x_t_id == npe::detail::TypeId::DENSE_F32_cm && "
       +:+ "_NPE_PY_BINDING_y_t_id == npe::detail::TypeId::dense_f64_cm) {"
       +:+ Py.nl +:+ "{" +:+ Py.nl,
       Raise (KeyError "DENSE_F32")) /\
  snd (codegen_ast (Examples.binding Examples.capital_type) "src/foo.cpp" "")
    = Raise (KeyError "DENSE_F32").
Proof.
  split; [vm_compute; reflexivity|].
  split; [eexists; split; vm_compute; reflexivity|].
  split; [vm_compute; reflexivity|].
  split; [vm_compute; reflexivity|].
  split; vm_compute; reflexivity.
Qed.

(** The law at work: [Examples.shared_group] is dispatchable and has one
    group of two dense types, hence 6 branches; [Examples.sparse_and_dense]
    has a group of two sparse types and a group of one dense type, hence
    (3 * 2 - 2) * 3 = 12 branches.  Every branch holds one call of the
    generic function. *)
Example branch_counts :
  dispatchable (Examples.binding Examples.shared_group) /\
  occurrences "return callit"
    (fst (write_body (Examples.binding Examples.shared_group) "")) = 6%nat /\
  occurrences "return callit"
    (fst (write_body (Examples.binding Examples.sparse_and_dense) "")) = 12%nat /\
  branch_product (argument_groups (Examples.binding Examples.sparse_and_dense)) = 12.
Proof.
  split; [|split; [|split]]; try (vm_compute; reflexivity).
  constructor.
  - vm_compute; reflexivity.
  - intros n Hn. vm_compute in Hn.
    destruct Hn as [<-|[<-|[]]]; vm_compute; eauto.
  - repeat constructor; try discriminate; vm_compute; eauto.
Qed.

(** ** C2: matches() before and after the statement it names *)

(** C2, at the inputs [Examples.forward_after_group] and
    [Examples.two_forward]: a matches() that comes before the statement
    of the argument it names takes, as group index, the number of groups
    minus one before its own group is appended.  In the first input the
    index is that of the group of [x]: the statement of [a] then finds a
    group that has candidate types, and the assertion of
    [_parse_arg_statement] fails.  In the second input [b] (which matches
    [a]) ends in a group with [c] and the candidate types of [c], and [d]
    (which matches [c]) in a group with [a] and the candidate types of
    [a]. *)
Theorem C2_forward_matches_misplaced :
  _parse Scanner.tokenize empty (Examples.reader Examples.forward_after_group)
    = Raise AssertionError /\
  NpeFunction_init Scanner.tokenize (Examples.reader Examples.two_forward)
    = Ok (Examples.binding Examples.two_forward) /\
  argument_groups (Examples.binding Examples.two_forward)
    = [NpeArgumentGroup.mk ["b"; "c"] ["dense_f64"];
       NpeArgumentGroup.mk ["d"; "a"] ["dense_f32"]].
Proof.
  split; [vm_compute; reflexivity|].
  split; vm_compute; reflexivity.
Qed.

(** The two orders that work: the matches() after the statement it
    names, and before it when no group exists yet. *)
Example matches_in_both_orders :
  argument_groups (Examples.binding Examples.shared_group)
    = [NpeArgumentGroup.mk ["a"; "b"] ["dense_f32"; "dense_f64"]] /\
  argument_groups (Examples.binding Examples.forward_alone)
    = [NpeArgumentGroup.mk ["b"; "a"] ["dense_f32"; "dense_f64"]].
Proof. split; vm_compute; reflexivity. Qed.

(** ** C3: one choice for all the members of a group *)

(** C3: on a binding with array arguments whose groups have members and
    candidate types of the catalog, the text that [write_body] writes is
    the branches of the combinations that are kept, in order, followed
    by the branch for no match.  Every branch belongs to a combination
    that makes one choice (element type, layout) for every group; its
    guard tests the run-time type of every group against the choice
    made for that group, and its block binds every member of the group,
    with the typedefs of its scalar, matrix and map types, to that same
    choice. *)
Theorem C3_group_members_share_choice (fn : NpeFunction.t) (out : string) :
  dispatchable fn ->
  exists call branches,
    call_text fn = Ok call /\
    write_body fn out
    = (out +:+ concat_str branches +:+ no_branch_text +:+ Py.nl +:+ "}", Ok tt) /\
    branches = branch_texts (argument_groups fn) call
                            (List.filter kept (group_combos fn)) /\
    forall (k : nat) b, branches !! k = Some b ->
      exists combo,
        List.filter kept (group_combos fn) !! k = Some combo /\
        Forall2 choice_of combo (argument_groups fn) /\
        b = branch_text (argument_groups fn) call (bool_decide (k = 0%nat)) combo /\
        forall (i : nat) g choice m,
          argument_groups fn !! i = Some g -> combo !! i = Some choice ->
          In m (NpeArgumentGroup.arguments g) ->
          occurs_in (group_test g choice) b /\
          occurs_in (member_typedefs choice m) b.
Proof.
  intros Hd. destruct (write_body_text fn out Hd) as (call & Hcall & Hw).
  exists call, (branch_texts (argument_groups fn) call
                  (List.filter kept (group_combos fn))).
  split; [exact Hcall|]. split; [exact Hw|]. split; [reflexivity|].
  intros k b Hb. rewrite branch_texts_lookup in Hb.
  destruct (List.filter kept (group_combos fn) !! k) as [combo|] eqn:Ek; [|discriminate].
  inversion Hb; subst b. exists combo. split; [reflexivity|].
  split.
  - apply group_combos_choices.
    apply list_elem_of_lookup_2, list_elem_of_In, filter_In in Ek. apply Ek.
  - split; [reflexivity|]. intros i g choice m Hg Hc Hm.
    apply (branch_text_members _ _ _ _ i); assumption.
Qed.

(** C3 at the binding of [Examples.shared_group]: the fifth branch is
    that of [dense_f64], row-major, and binds both [a] and [b] to that
    choice. *)
Lemma C3_witness :
  dispatchable (Examples.binding Examples.shared_group) /\
  exists call b,
    fst (write_body (Examples.binding Examples.shared_group) "")
    = concat_str (branch_texts (argument_groups (Examples.binding Examples.shared_group))
                    call
                    (List.filter kept (group_combos (Examples.binding Examples.shared_group))))
      +:+ no_branch_text +:+ Py.nl +:+ "}" /\
    branch_texts (argument_groups (Examples.binding Examples.shared_group)) call
      (List.filter kept (group_combos (Examples.binding Examples.shared_group))) !! 4%nat
      = Some b /\
    occurs_in (member_typedefs ("dense_f64", "_rm") "a") b /\
    occurs_in (member_typedefs ("dense_f64", "_rm") "b") b.
Proof.
  assert (Hd : dispatchable (Examples.binding Examples.shared_group)).
  { constructor.
    - vm_compute; reflexivity.
    - intros n Hn. vm_compute in Hn.
      destruct Hn as [<-|[<-|[]]]; vm_compute; eauto.
    - repeat constructor; try discriminate; vm_compute; eauto. }
  split; [exact Hd|].
  destruct (C3_group_members_share_choice _ "" Hd)
    as (call & branches & _ & Hw & Eb & Hall).
  subst branches.
  destruct (branch_texts (argument_groups (Examples.binding Examples.shared_group)) call
      (List.filter kept (group_combos (Examples.binding Examples.shared_group))) !! 4%nat)
    as [b|] eqn:E4.
  2:{ apply lookup_ge_None in E4. rewrite branch_texts_length in E4.
      vm_compute in E4. lia. }
  exists call, b. split; [rewrite Hw; reflexivity|]. split; [exact E4|].
  destruct (Hall 4%nat b E4) as (combo & Hc & _ & _ & Hm).
  vm_compute in Hc. inversion Hc; subst combo.
  split.
  - apply (Hm 0%nat (NpeArgumentGroup.mk ["a"; "b"] ["dense_f32"; "dense_f64"]));
      [vm_compute; reflexivity|reflexivity|simpl; tauto].
  - apply (Hm 0%nat (NpeArgumentGroup.mk ["a"; "b"] ["dense_f32"; "dense_f64"]));
      [vm_compute; reflexivity|reflexivity|simpl; tauto].
Defined.

(** The check that the arguments of a group have the same type at run
    time is not part of the branches: [write_declaration] writes it
    before them, and for the last member of a group only.  In
    [Examples.three_members] the group holds [a], [b] and [c]; the check
    of [c] against [a] is written and that of [b] is not. *)
Example group_check_last_member_only :
  argument_groups (Examples.binding Examples.three_members)
    = [NpeArgumentGroup.mk ["a"; "b"; "c"] ["dense_f32"]] /\
  occurrences (member_guard "a" "c")
    (fst (write_declaration (Examples.binding Examples.three_members)
                            "src/foo.cpp" "")) = 1%nat /\
  occurrences (member_guard "a" "b")
    (fst (write_declaration (Examples.binding Examples.three_members)
                            "src/foo.cpp" "")) = 0%nat.
Proof. split; [|split]; vm_compute; reflexivity. Qed.

(** ** C4: a deferred reference that finds no array type *)

(** C4, at the inputs [Examples.unmatched_after_group] and
    [Examples.one_unmatched].  In the first, [y] is declared by a
    matches() of [z], which is never declared, after the array argument
    [x]: the group made for [y] has no candidate type, but [y] is
    registered under the index of the group of [x], validation raises
    nothing, and the run ends in the generator with an IndexError that
    no handler catches and with the text written so far in the output
    file.  In the second, the statement of [y] stands on the second
    line of the file, and the SemanticError names line 1. *)
Theorem C4_unmatched_argument_not_reported :
  NpeFunction_init Scanner.tokenize (Examples.reader Examples.unmatched_after_group)
    = Ok (Examples.binding Examples.unmatched_after_group) /\
  argument_groups (Examples.binding Examples.unmatched_after_group)
    = [NpeArgumentGroup.mk ["x"] ["dense_f32"]; NpeArgumentGroup.mk ["y"] []] /\
  (exists y, Examples.argument (Examples.binding Examples.unmatched_after_group) "y"
               = Some y /\
     NpeArgument.is_matches y = true /\
     NpeArgument.name_or_type y = ["npe_matches(z)"]) /\
  _argument_name_to_group (Examples.binding Examples.unmatched_after_group) !! "y"
    = Some 0 /\
  Outcome.exit_status (Examples.run Examples.args Examples.unmatched_after_group) = 1 /\
  Outcome.stderr (Examples.run Examples.args Examples.unmatched_after_group)
    = [Traceback IndexError] /\
  (exists text,
     Outcome.output_file (Examples.run Examples.args Examples.unmatched_after_group)
       = Some text /\
     Py.startswith text ("#define __NPE_FOR_REAL__" +:+ Py.nl +:+ "#include <npe.h>" +:+ Py.nl) = true) /\
  nth_error Examples.one_unmatched 1 = Some "npe_arg(y, npe_matches(z))" /\
  Examples.run Examples.args Examples.one_unmatched
  = Outcome.mk 1
      [Logged (semantic_error_line
         ("Input Variable y (line 1) was declared with type npe_matches(z) "
          +:+ "but was unmatched with a numpy type."))]
      None.
Proof.
  split; [vm_compute; reflexivity|].
  split; [vm_compute; reflexivity|].
  split; [eexists; split; [vm_compute; reflexivity|split; reflexivity]|].
  split; [vm_compute; reflexivity|].
  split; [vm_compute; reflexivity|].
  split; [vm_compute; reflexivity|].
  split; [eexists; split; vm_compute; reflexivity|].
  split; [reflexivity|].
  vm_compute; reflexivity.
Qed.

(** Validation stops at the first error.  In [Examples.two_unmatched],
    [y] and [w] are both declared by a matches() of [z], which is never
    declared; the SemanticError names [y] and not [w]. *)
Example first_unmatched_only :
  _parse Scanner.tokenize empty (Examples.reader Examples.two_unmatched)
    = Ok (Examples.parsed_binding Examples.two_unmatched) /\
  argument_groups (Examples.parsed_binding Examples.two_unmatched)
    = [NpeArgumentGroup.mk ["y"; "w"] []] /\
  (exists w, Examples.argument (Examples.parsed_binding Examples.two_unmatched) "w"
               = Some w /\
     NpeArgument.is_matches w = true /\
     NpeArgument.name_or_type w = ["npe_matches(z)"] /\
     _validate (Examples.parsed_binding Examples.two_unmatched)
       <> Raise (unmatched_error w "npe_matches(z)")) /\
  _validate (Examples.parsed_binding Examples.two_unmatched)
    = Raise (SemanticError ("Input Variable y (line 1) was declared with type "
               +:+ "npe_matches(z) but was unmatched with a numpy type.")).
Proof.
  split; [vm_compute; reflexivity|].
  split; [vm_compute; reflexivity|].
  split; [|vm_compute; reflexivity].
  eexists. split; [vm_compute; reflexivity|].
  split; [reflexivity|]. split; [reflexivity|].
  vm_compute. intros H. discriminate H.
Qed.

Section Validation.

Variable tok : string -> string -> Z -> result (list string).

(** When the error is raised: let the binding parse, let every argument
    pass the sparse/dense check, and let [a] be the first argument, in
    declaration order, that is declared by a matches() and whose group,
    as registered in the name-to-group table, has no candidate type.
    Then validation raises the SemanticError that names [a], the line
    number recorded for [a] and the matches() token; the driver prints
    it, exits with status 1 and leaves the output path alone. *)
Lemma first_unmatched_reported (args : Args.t) (lines : list string)
    (old : option string) (st : NpeFunction.t) (pre post : list string)
    (n : string) (a : NpeArgument.t) (gid : Z) (g : NpeArgumentGroup.t) :
  _parse tok empty (NpeFileReader.init lines) = Ok st ->
  (forall m b, _arguments st !! m = Some b ->
               uniform_types (NpeArgument.name_or_type b) = true) ->
  _argument_names st = pre ++ n :: post ->
  _arguments st !! n = Some a ->
  NpeArgument.is_matches a = true ->
  _argument_name_to_group st !! n = Some gid ->
  Py.index (_input_type_groups st) gid = Some g ->
  NpeArgumentGroup.types g = [] ->
  (forall m b, In m pre -> _arguments st !! m = Some b -> matched st b) ->
  _validate st = Raise (unmatched_error a (hd "" (NpeArgument.name_or_type a))) /\
  main tok args lines old
  = Outcome.mk 1
      (log (Args.verbosity_level args) LOG_ERROR
         (semantic_error_line
            (unmatched_message a (hd "" (NpeArgument.name_or_type a)))))
      old.
Proof.
  intros Hp Hu Hn Ha Hm Hg Hi Ht Hpre.
  pose proof (_parse_parsed tok _ _ Hp) as [I1 I2 I3 I4 I5].
  assert (Hv : _validate st
               = Raise (unmatched_error a (hd "" (NpeArgument.name_or_type a)))).
  { unfold _validate.
    destruct (validate_mix_ok (_argument_names st) st (_arguments st))
      as (args' & Hmix & Hsim).
    - apply args_sim_refl.
    - intros m Hin. destruct (I1 m Hin) as [b Hb]. exists b. split; [exact Hb|].
      eapply Hu; eauto.
    - rewrite Hmix. cbn [rbind]. cbn [_argument_names set_arguments]. rewrite Hn.
      pose proof (Hsim n) as Hsn. rewrite Ha in Hsn.
      destruct (args' !! n) as [a'|] eqn:Ha'; [|destruct Hsn].
      destruct Hsn as (En & Em & Et & El).
      destruct (I2 n a Ha) as (Hname & Hne & _).
      replace (unmatched_error a (hd "" (NpeArgument.name_or_type a)))
        with (unmatched_error a' (hd "" (NpeArgument.name_or_type a')))
        by (unfold unmatched_error, unmatched_message; rewrite <- En, <- Et, <- El;
            reflexivity).
      apply validate_matches_first_bad with (gid := gid) (g := g);
        cbn [_arguments set_arguments _argument_name_to_group _input_type_groups].
      + intros m Hin.
        assert (Hin' : In m (_argument_names st))
          by (rewrite Hn; apply in_or_app; left; exact Hin).
        destruct (I1 m Hin') as [b Hb].
        pose proof (Hsim m) as Hsm. rewrite Hb in Hsm.
        destruct (args' !! m) as [b'|]; [|destruct Hsm].
        exists b'. split; [reflexivity|].
        destruct (I2 m b Hb) as (_ & Hbne & _).
        split; [destruct Hsm as (_ & _ & <- & _); exact Hbne|].
        eapply (matched_sim st); [reflexivity|reflexivity|exact Hsm|].
        eapply Hpre; eauto.
      + exact Ha'.
      + congruence.
      + congruence.
      + rewrite <- En, Hname. exact Hg.
      + exact Hi.
      + exact Ht. }
  split; [exact Hv|].
  rewrite (main_rejected tok args lines old _
             (NpeFunction_init_rejected tok _ _ _ Hp Hv)).
  reflexivity.
Qed.

(** When the error is raised: let the binding parse, and let [a] be the
    first argument, in declaration order, that lists a type that passes
    [is_sparse_type] and a type that passes [is_dense_type].  Then
    validation raises the SemanticError that names [a] and the line
    number recorded for [a]; the driver prints it, exits with status 1
    and leaves the output path alone. *)
Lemma first_mixed_reported (args : Args.t) (lines : list string)
    (old : option string) (st : NpeFunction.t) (pre post : list string)
    (n : string) (a : NpeArgument.t) :
  _parse tok empty (NpeFileReader.init lines) = Ok st ->
  _argument_names st = pre ++ n :: post ->
  _arguments st !! n = Some a ->
  mixes (NpeArgument.name_or_type a) = true ->
  (forall m b, In m pre -> _arguments st !! m = Some b ->
               uniform_types (NpeArgument.name_or_type b) = true) ->
  _validate st = Raise (mix_error a) /\
  main tok args lines old
  = Outcome.mk 1
      (log (Args.verbosity_level args) LOG_ERROR
         (semantic_error_line (mix_message a)))
      old.
Proof.
  intros Hp Hn Ha Hmx Hpre.
  pose proof (_parse_parsed tok _ _ Hp) as [I1 I2 I3 I4 I5].
  destruct (mixes_not_uniform _ Hmx) as [Hbad Hne].
  assert (Hv : _validate st = Raise (mix_error a)).
  { unfold _validate. rewrite Hn.
    rewrite (validate_mix_first_bad pre st n post a); [reflexivity| | | | |]; auto.
    intros m Hin. apply I1. rewrite Hn. apply in_or_app. left. exact Hin. }
  split; [exact Hv|].
  rewrite (main_rejected tok args lines old _
             (NpeFunction_init_rejected tok _ _ _ Hp Hv)).
  reflexivity.
Qed.

End Validation.

(** ** C5: a mix of sparse and dense types *)

(** C5, at the inputs [Examples.capital_mix] and [Examples.one_mixed].
    In the first, [x] lists the dense type [DENSE_F32] and the sparse
    type [SPARSE_F64], which the parser takes for array types; the
    tests of the validation are made on the tokens as they are written,
    find neither sparse nor dense, and raise nothing; the run ends in
    the generator with an AssertionError that no handler catches and
    with the text written so far in the output file.  In the second,
    the statement of [x] stands on the second line of the file, and the
    SemanticError names line 1. *)
Theorem C5_capital_mix_not_reported :
  is_numpy_type "DENSE_F32" = true /\ is_numpy_type "SPARSE_F64" = true /\
  is_dense_type "DENSE_F32" = false /\ is_sparse_type "SPARSE_F64" = false /\
  NpeFunction_init Scanner.tokenize (Examples.reader Examples.capital_mix)
    = Ok (Examples.binding Examples.capital_mix) /\
  (exists x, Examples.argument (Examples.binding Examples.capital_mix) "x" = Some x /\
     NpeArgument.name_or_type x = ["DENSE_F32"; "SPARSE_F64"] /\
     NpeArgument.is_sparse x = false /\ NpeArgument.is_dense x = false) /\
  Outcome.exit_status (Examples.run Examples.args Examples.capital_mix) = 1 /\
  Outcome.stderr (Examples.run Examples.args Examples.capital_mix)
    = [Traceback AssertionError] /\
  (exists text,
     Outcome.output_file (Examples.run Examples.args Examples.capital_mix)
       = Some text /\
     Py.startswith text ("#define __NPE_FOR_REAL__" +:+ Py.nl +:+ "#include <npe.h>" +:+ Py.nl) = true) /\
  nth_error Examples.one_mixed 1 = Some "npe_arg(x, dense_f32, sparse_f64)" /\
  Examples.run Examples.args Examples.one_mixed
  = Outcome.mk 1
      [Logged (semantic_error_line
         "Input Variable x (line 1) has a mix of sparse and dense types.")]
      None.
Proof.
  split; [vm_compute; reflexivity|].
  split; [vm_compute; reflexivity|].
  split; [vm_compute; reflexivity|].
  split; [vm_compute; reflexivity|].
  split; [vm_compute; reflexivity|].
  split; [eexists; split; [vm_compute; reflexivity|split; [|split]; reflexivity]|].
  split; [vm_compute; reflexivity|].
  split; [vm_compute; reflexivity|].
  split; [eexists; split; vm_compute; reflexivity|].
  split; [reflexivity|].
  vm_compute; reflexivity.
Qed.

(** Validation stops at the first error.  In [Examples.two_mixed] the
    statements of [x] and of [y] both mix a sparse and a dense array
    type; the SemanticError names [x] and not [y]. *)
Example first_mixed_only :
  _parse Scanner.tokenize empty (Examples.reader Examples.two_mixed)
    = Ok (Examples.parsed_binding Examples.two_mixed) /\
  (exists y, Examples.argument (Examples.parsed_binding Examples.two_mixed) "y"
               = Some y /\
     NpeArgument.name_or_type y = ["sparse_f32"; "dense_f64"] /\
     mixes (NpeArgument.name_or_type y) = true /\
     _validate (Examples.parsed_binding Examples.two_mixed) <> Raise (mix_error y)) /\
  _validate (Examples.parsed_binding Examples.two_mixed)
    = Raise (SemanticError
               "Input Variable x (line 1) has a mix of sparse and dense types.").
Proof.
  split; [vm_compute; reflexivity|].
  split; [|vm_compute; reflexivity].
  eexists. split; [vm_compute; reflexivity|].
  split; [reflexivity|]. split; [vm_compute; reflexivity|].
  vm_compute. intros H. discriminate H.
Qed.

(** ** C6: the body and what follows it *)

(** C6, at the input [Examples.double_end]: the line after the end-code
    statement holds a second end-code statement, which is content that
    is not blank; the parser raises nothing, the binding is returned
    with the body line copied, and the driver exits with status 0.  (A
    line with any other content is refused there:
    [parse_body_content_after_end]; the body lines are copied as they
    are: [parse_body_copies]; and an input that ends before the end-code
    statement is refused: [_parse_unexpected_eof].) *)
Theorem C6_second_end_code_accepted :
  nth_error Examples.double_end 4 = Some "npe_end_code()" /\
  is_blank ("npe_end_code()" +:+ Py.nl) = false /\
  _parse Scanner.tokenize empty (Examples.reader Examples.double_end)
    = Ok (Examples.parsed_binding Examples.double_end) /\
  _source_code (Examples.parsed_binding Examples.double_end)
    = "return 1;" +:+ Py.nl /\
  Outcome.exit_status (Examples.run Examples.args Examples.double_end) = 0.
Proof.
  split; [reflexivity|].
  split; [vm_compute; reflexivity|].
  split; [vm_compute; reflexivity|].
  split; vm_compute; reflexivity.
Qed.

(** The other two parts of C6 at concrete inputs: the body is copied as
    it is, and the missing end-code statement is reported. *)
Example body_capture :
  _source_code (Examples.parsed_binding Examples.shared_group)
    = "return a;" +:+ Py.nl /\
  _parse Scanner.tokenize empty (Examples.reader Examples.no_end)
    = Raise (ParseError
        "Unexpected EOF. Binding file must end with a npe_end_code() statement.").
Proof. split; vm_compute; reflexivity. Qed.

(** ** C7: failures and the output file *)

(** C7, at the input [Examples.capital_type], with a file already at the
    output path: the binding parses and validates, the output file is
    opened, which empties it, and the generator raises KeyError, which
    no handler catches.  The run ends with status 1 and a traceback in
    place of a message, and the output file holds the text that was
    written before the error. *)
Theorem C7_generator_failure_leaves_partial_file :
  NpeFunction_init Scanner.tokenize (Examples.reader Examples.capital_type)
    = Ok (Examples.binding Examples.capital_type) /\
  snd (write_output (Examples.binding Examples.capital_type) "src/foo.cpp" "")
    = Raise (KeyError "DENSE_F32") /\
  main Scanner.tokenize Examples.args (Scanner.text Examples.capital_type)
       (Some "old text")
  = Outcome.mk 1 [Traceback (KeyError "DENSE_F32")]
      (Some (fst (write_output (Examples.binding Examples.capital_type)
                               "src/foo.cpp" ""))) /\
  Py.startswith
    (fst (write_output (Examples.binding Examples.capital_type) "src/foo.cpp" ""))
    ("#define __NPE_FOR_REAL__" +:+ Py.nl +:+ "#include <npe.h>" +:+ Py.nl) = true.
Proof.
  split; [vm_compute; reflexivity|].
  split; [vm_compute; reflexivity|].
  split; vm_compute; reflexivity.
Qed.

(** With a negative verbosity a SemanticError is reported by the exit
    status alone. *)
Example silent_failure :
  Examples.run (Args.mk "src/foo.cpp" "foo.out.cpp" (-1)) Examples.one_mixed
    = Outcome.mk 1 [] None.
Proof. vm_compute; reflexivity. Qed.

(** When parsing or validation raises, the run ends with status 1,
    prints at most one message (the line of the ParseError or
    SemanticError unless the verbosity is negative) and leaves the
    output path as it was, because the output file is opened after
    validation only.  When they succeed, the status is 0 exactly when
    the generator completes, and the output file then holds all that was
    generated and nothing was printed. *)
Lemma output_opened_after_validation
    (tok : string -> string -> Z -> result (list string))
    (args : Args.t) (lines : list string) (old : option string) :
  match NpeFunction_init tok (NpeFileReader.init lines) with
  | Raise e =>
      Outcome.exit_status (main tok args lines old) = 1 /\
      Outcome.output_file (main tok args lines old) = old /\
      (length (Outcome.stderr (main tok args lines old)) <= 1)%nat /\
      (forall msg, 0 <= Args.verbosity_level args -> e = ParseError msg ->
         Outcome.stderr (main tok args lines old)
           = [Logged (syntax_error_line msg)]) /\
      (forall msg, 0 <= Args.verbosity_level args -> e = SemanticError msg ->
         Outcome.stderr (main tok args lines old)
           = [Logged (semantic_error_line msg)])
  | Ok f =>
      (Outcome.exit_status (main tok args lines old) = 0 <->
       snd (write_output f (Args.file args) "") = Ok tt) /\
      (Outcome.exit_status (main tok args lines old) = 0 ->
       Outcome.output_file (main tok args lines old)
         = Some (fst (write_output f (Args.file args) "")) /\
       Outcome.stderr (main tok args lines old) = [])
  end.
Proof.
  unfold main. destruct (NpeFunction_init tok (NpeFileReader.init lines)) as [f|e].
  - destruct (write_output f (Args.file args) "") as [text [[]|e]]; cbn [fst snd].
    + split; [split; reflexivity|]. intros _. split; reflexivity.
    + rewrite handle_status. split; [split|]; discriminate.
  - split; [apply handle_status|]. split; [apply handle_output|].
    split; [apply handle_at_most_one|]. split.
    + intros msg Hv ->. cbn. apply log_error_printed. exact Hv.
    + intros msg Hv ->. cbn. apply log_error_printed. exact Hv.
Qed.

(** At [Examples.one_mixed], with a file already at the output path: the
    status is 1, one line is printed and the file is as it was. *)
Example rejected_input_leaves_output :
  main Scanner.tokenize Examples.args (Scanner.text Examples.one_mixed)
       (Some "old text")
  = Outcome.mk 1
      [Logged (semantic_error_line
         "Input Variable x (line 1) has a mix of sparse and dense types.")]
      (Some "old text").
Proof. vm_compute; reflexivity. Qed.

(** ** C8: blank lines and comment lines *)

(** C8 fails as stated at [Examples.commented_binding]: a comment line
    before the binding's name is kept in the preamble, and reaches the
    generated text. *)
Lemma C8_counterexample :
  is_comment (Examples.comment_line +:+ Py.nl) = true /\
  _preamble (Examples.parsed_binding Examples.commented_binding)
    = Examples.comment_line +:+ Py.nl /\
  _preamble (Examples.parsed_binding Examples.scalar_binding) = "" /\
  _parse Scanner.tokenize empty (Examples.reader Examples.commented_binding)
    <> _parse Scanner.tokenize empty (Examples.reader Examples.scalar_binding).
Proof.
  split; [vm_compute; reflexivity|].
  split; [vm_compute; reflexivity|].
  split; [vm_compute; reflexivity|].
  vm_compute. intros H. discriminate H.
Qed.

(** C8, amended: before the binding's name a blank line is passed over
    and a comment line is added to the preamble like any line that is no
    statement; between the binding's name and the begin-code statement a
    blank line or a comment line is passed over, unless a documentation
    statement is being read, whose text it then joins.  A line that is
    passed over leaves the rest of the parse as it is without the
    line. *)
Theorem C8_skipped_lines
    (tok : string -> string -> Z -> result (list string)) (ln : Z)
    (st : NpeFunction.t) (doc_lines b : string) (rest : list string) :
  b <> "" ->
  (is_blank b = true ->
   parse_seek tok ln st (b :: rest) = parse_seek tok ln st rest) /\
  (is_comment b = true ->
   parse_seek tok ln st (b :: rest)
   = parse_seek tok ln (set_preamble (_preamble st +:+ b) st) rest) /\
  (is_blank b = true \/ is_comment b = true ->
   parse_declare tok ln st false doc_lines (b :: rest)
   = parse_declare tok ln st false doc_lines rest) /\
  (is_blank b = true \/ is_comment b = true ->
   parse_declare tok ln st true doc_lines (b :: rest)
   = parse_declare tok ln st true (doc_lines +:+ b) rest).
Proof.
  intros Hne. split; [|split; [|split]].
  - apply parse_seek_blank. exact Hne.
  - apply parse_seek_comment.
  - apply parse_declare_skip. exact Hne.
  - apply parse_declare_doc_pending. exact Hne.
Qed.

(** C8 at a comment line met between the binding's name and the
    begin-code statement. *)
Lemma C8_witness :
  Examples.comment_line +:+ Py.nl <> "" /\
  is_comment (Examples.comment_line +:+ Py.nl) = true /\
  parse_declare Scanner.tokenize 0 empty false ""
    ((Examples.comment_line +:+ Py.nl) :: Scanner.text ["npe_begin_code()"])
  = parse_declare Scanner.tokenize 0 empty false ""
      (Scanner.text ["npe_begin_code()"]).
Proof.
  assert (Hne : Examples.comment_line +:+ Py.nl <> "") by discriminate.
  assert (Hc : is_comment (Examples.comment_line +:+ Py.nl) = true)
    by (vm_compute; reflexivity).
  split; [exact Hne|]. split; [exact Hc|].
  exact (proj1 (proj2 (proj2
           (C8_skipped_lines Scanner.tokenize 0 empty ""
              (Examples.comment_line +:+ Py.nl)
              (Scanner.text ["npe_begin_code()"]) Hne)))
         (or_intror Hc)).
Defined.

(** ** C9: the same text, the same output *)

(** C9, at the input [Examples.file_macro], whose default value is the
    macro [__FILE__].  [tokenize_npe_line] hands every statement to the
    C preprocessor in a temporary file with a fresh name, and the
    preprocessor puts the name of that file in the place of the macro.
    Two runs on the same text, whose temporary files are named
    [/tmp/tmpa.cc] and [/tmp/tmpb.cc], both end with status 0 and leave
    different texts in the output file: each holds the name of its
    temporary file as the default value of [s]. *)
Theorem C9_temporary_file_name_in_output :
  cpp_tokenizer (Cpp.run "/tmp/tmpa.cc") 64 DEFAULT_ARG_TOKEN
    "npe_default_arg(s, std::string, __FILE__)" 1
    = Ok ["s"; "std::string"; Py.dq +:+ "/tmp/tmpa.cc" +:+ Py.dq] /\
  Outcome.exit_status (Examples.run_at "/tmp/tmpa.cc" Examples.file_macro) = 0 /\
  Outcome.exit_status (Examples.run_at "/tmp/tmpb.cc" Examples.file_macro) = 0 /\
  (exists text,
     Outcome.output_file (Examples.run_at "/tmp/tmpa.cc" Examples.file_macro)
       = Some text /\
     occurrences ("pybind11::arg(" +:+ Py.dq +:+ "s" +:+ Py.dq +:+ ")="
                  +:+ Py.dq +:+ "/tmp/tmpa.cc" +:+ Py.dq) text = 1%nat) /\
  (exists text,
     Outcome.output_file (Examples.run_at "/tmp/tmpb.cc" Examples.file_macro)
       = Some text /\
     occurrences ("pybind11::arg(" +:+ Py.dq +:+ "s" +:+ Py.dq +:+ ")="
                  +:+ Py.dq +:+ "/tmp/tmpb.cc" +:+ Py.dq) text = 1%nat) /\
  Outcome.output_file (Examples.run_at "/tmp/tmpa.cc" Examples.file_macro)
  <> Outcome.output_file (Examples.run_at "/tmp/tmpb.cc" Examples.file_macro).
Proof.
  split; [vm_compute; reflexivity|].
  split; [vm_compute; reflexivity|].
  split; [vm_compute; reflexivity|].
  split; [eexists; split; vm_compute; reflexivity|].
  split; [eexists; split; vm_compute; reflexivity|].
  vm_compute. intros H. discriminate H.
Qed.

(** On a text without such a macro the preprocessor of the examples
    gives the tokens of the scanner, and the run leaves the same text
    whatever the temporary files are called. *)
Example file_name_not_in_output :
  Examples.run_at "/tmp/tmpa.cc" Examples.shared_group
    = Examples.run Examples.args Examples.shared_group /\
  Examples.run_at "/tmp/tmpb.cc" Examples.shared_group
    = Examples.run Examples.args Examples.shared_group.
Proof. split; vm_compute; reflexivity. Qed.

(** The output also carries the base name of the input file, in the
    name of the registration function: the same text read from [a.cpp]
    and from [b.cpp] compiles to two different texts. *)
Example base_name_in_output :
  Outcome.exit_status
    (Examples.run (Args.mk "a.cpp" "out.cpp" 1) Examples.scalar_binding) = 0 /\
  Outcome.exit_status
    (Examples.run (Args.mk "b.cpp" "out.cpp" 1) Examples.scalar_binding) = 0 /\
  Outcome.output_file
    (Examples.run (Args.mk "a.cpp" "out.cpp" 1) Examples.scalar_binding)
  <> Outcome.output_file
       (Examples.run (Args.mk "b.cpp" "out.cpp" 1) Examples.scalar_binding).
Proof.
  split; [vm_compute; reflexivity|].
  split; [vm_compute; reflexivity|].
  vm_compute. intros H. discriminate H.
Qed.

(** ** C10: array types in any case *)

(** C10: [is_numpy_type] holds of a token exactly when the token in
    lower case is a key of the catalog; and an argument statement whose
    type tokens all pass that test, for a name that no matches() has
    mentioned, is accepted: the binding gets a new group whose candidate
    types are the tokens as they were written and whose member is the
    argument, the name is registered with the index of that group, and
    the argument record carries the same tokens. *)
Theorem C10_array_types_case_insensitive :
  (forall t, is_numpy_type t = true <-> In (Py.lower t) NUMPY_ARRAY_TYPES) /\
  (forall (tok : string -> string -> Z -> result (list string))
          (self : NpeFunction.t) (line : string) (ln : Z)
          (var_name : string) (var_types : list string),
     tok ARG_TOKEN (Py.strip line) ln = Ok (var_name :: var_types) ->
     var_types <> [] ->
     Forall (fun t => is_numpy_type t = true) var_types ->
     _argument_name_to_group self !! var_name = None ->
     exists self',
       _parse_arg_statement tok self line ln false
         = Ok (self', (var_name, var_types, None)) /\
       _input_type_groups self'
         = _input_type_groups self ++ [NpeArgumentGroup.mk [var_name] var_types] /\
       _argument_name_to_group self' !! var_name
         = Some (Z.of_nat (length (_input_type_groups self))) /\
       exists arg, _arguments self' !! var_name = Some arg /\
                   NpeArgument.name_or_type arg = var_types).
Proof.
  split.
  - intros t. unfold is_numpy_type. apply str_in_In.
  - intros tok self line ln var_name var_types Htok Hne Hall Hnew.
    unfold _parse_arg_statement. rewrite Htok. cbn [rbind tail first].
    destruct var_types as [|t0 r]; [congruence|].
    assert (Ht0 : is_numpy_type t0 = true) by (inversion Hall; assumption).
    cbn [length Nat.eqb hd]. rewrite Ht0.
    replace ((1 <? S (length r))%nat || ((length r =? 0)%nat && true)) with true
      by (destruct r; reflexivity).
    unfold declare_array_types.
    assert (Hck : check_numpy_types ARG_TOKEN ln (t0 :: r) = Ok tt).
    { clear - Hall. induction Hall as [|t l Ht _ IH]; cbn [check_numpy_types];
        [reflexivity|]. rewrite Ht. exact IH. }
    rewrite Hck. cbn [rbind]. rewrite Hnew.
    unfold update_group, get_group.
    cbn [_input_type_groups set_groups set_name_to_group].
    rewrite index_last. cbn [rbind]. rewrite set_index_last. cbn [rbind].
    cbn [_input_type_groups set_groups _argument_name_to_group NpeArgumentGroup.types].
    rewrite length_app. cbn [length].
    replace (Z.of_nat (length (_input_type_groups self) + 1) - 1)
      with (Z.of_nat (length (_input_type_groups self))) by lia.
    rewrite (proj2 (Z.leb_le _ _)) by lia.
    rewrite index_app_here. cbn [rbind].
    eexists. split; [reflexivity|].
    cbn [_input_type_groups set_arguments set_argument_names
         _argument_name_to_group _arguments].
    split; [reflexivity|]. split; [apply lookup_insert_eq|].
    eexists. split; [apply lookup_insert_eq|]. reflexivity.
Qed.

(** C10 at the statement [npe_arg(x, DENSE_F32)], the first of a
    binding. *)
Lemma C10_witness :
  is_numpy_type "DENSE_F32" = true /\
  exists self',
    _parse_arg_statement Scanner.tokenize empty
      ("npe_arg(x, DENSE_F32)" +:+ Py.nl) 1 false
      = Ok (self', ("x", ["DENSE_F32"], None)) /\
    _input_type_groups self' = [NpeArgumentGroup.mk ["x"] ["DENSE_F32"]].
Proof.
  assert (Hn : is_numpy_type "DENSE_F32" = true) by (vm_compute; reflexivity).
  split; [exact Hn|].
  destruct (proj2 C10_array_types_case_insensitive Scanner.tokenize empty
              ("npe_arg(x, DENSE_F32)" +:+ Py.nl) 1 "x" ["DENSE_F32"])
    as (self' & H1 & H2 & _).
  - vm_compute; reflexivity.
  - discriminate.
  - constructor; [exact Hn|constructor].
  - apply lookup_empty.
  - exists self'. split; [exact H1|exact H2].
Defined.

(** * Further properties *)

(** ** Consuming a token *)

Lemma prefix_drop p : forall s,
  String.prefix p s = true -> s = p +:+ Py.drop (String.length p) s.
Proof.
  induction p as [|a p IH]; intros s H; [reflexivity|].
  destruct s as [|b s]; [discriminate H|].
  rewrite prefix_cons in H. apply andb_prop in H as [Hab Hp].
  apply Ascii.eqb_eq in Hab. subst b.
  change (String a s = String a (p +:+ Py.drop (String.length p) s)).
  f_equal. apply IH. exact Hp.
Qed.

Lemma prefix_append p r : String.prefix p (p +:+ r) = true.
Proof.
  induction p as [|a p IH]; [destruct r; reflexivity|].
  change (String.prefix (String a p) (String a (p +:+ r)) = true).
  rewrite prefix_cons, Ascii.eqb_refl. exact IH.
Qed.

Lemma drop_append p r : Py.drop (String.length p) (p +:+ r) = r.
Proof.
  induction p as [|a p IH]; [destruct r; reflexivity|]. exact IH.
Qed.

Lemma append_inv_l p r r' : p +:+ r = p +:+ r' -> r = r'.
Proof.
  intros H. rewrite <- (drop_append p r), H. apply drop_append.
Qed.

Lemma lower_append a b : Py.lower (a +:+ b) = Py.lower a +:+ Py.lower b.
Proof.
  induction a as [|x a IH]; [reflexivity|].
  change (String (Py.lower_ascii x) (Py.lower (a +:+ b))
          = String (Py.lower_ascii x) (Py.lower a +:+ Py.lower b)).
  f_equal. exact IH.
Qed.

Lemma lower_length a : String.length (Py.lower a) = String.length a.
Proof. induction a as [|x a IH]; [reflexivity|]. cbn. f_equal. exact IH. Qed.

Lemma lower_prefix t : forall l,
  String.prefix (Py.lower t) (Py.lower l) = true ->
  exists p, l = p +:+ Py.drop (String.length t) l /\ Py.lower p = Py.lower t.
Proof.
  induction t as [|a t IH]; intros l H.
  - exists "". split; reflexivity.
  - destruct l as [|b l]; [discriminate H|].
    cbn [Py.lower] in H. rewrite prefix_cons in H. apply andb_prop in H as [Hab Hp].
    apply Ascii.eqb_eq in Hab. destruct (IH l Hp) as (p & E & Hl).
    exists (String b p). split.
    + change (String b l = String b (p +:+ Py.drop (String.length t) l)).
      f_equal. exact E.
    + cbn [Py.lower]. rewrite Hl, Hab. reflexivity.
Qed.

Lemma length_append a b :
  String.length (a +:+ b) = (String.length a + String.length b)%nat.
Proof.
  induction a as [|x a IH]; [reflexivity|].
  change (S (String.length (a +:+ b)) = S (String.length a + String.length b)).
  f_equal. exact IH.
Qed.

(** The lines that [consume_token] accepts. *)
Lemma consume_token_exact line token ln r :
  consume_token line token ln true = Ok r <-> line = token +:+ r.
Proof.
  unfold consume_token, Py.startswith. split.
  - destruct (String.prefix token line) eqn:E; cbn [negb]; [|discriminate].
    intros H. inversion H; subst r. apply prefix_drop. exact E.
  - intros ->. rewrite prefix_append. cbn [negb]. rewrite drop_append. reflexivity.
Qed.

Lemma consume_token_nocase line token ln r :
  consume_token line token ln false = Ok r <->
  exists p, line = p +:+ r /\ Py.lower p = Py.lower token.
Proof.
  unfold consume_token, Py.startswith. split.
  - destruct (String.prefix (Py.lower token) (Py.lower line)) eqn:E; cbn [negb];
      [|discriminate].
    intros H. inversion H; subst r.
    destruct (lower_prefix _ _ E) as (p & Hp & Hl). exists p. split; assumption.
  - intros (p & -> & Hl). rewrite lower_append, Hl, prefix_append. cbn [negb].
    replace (String.length token) with (String.length p).
    + rewrite drop_append. reflexivity.
    + rewrite <- (lower_length p), Hl. apply lower_length.
Qed.

(** The error of [consume_token]. *)
Lemma consume_token_error line token ln cs e :
  consume_token line token ln cs = Raise e ->
  e = ParseError ("Missing '" +:+ token +:+ "' at line " +:+ Py.str_of_int ln).
Proof.
  unfold consume_token. destruct (negb _); intros H; inversion H. reflexivity.
Qed.

(** X1: [consume_token] with case sensitivity accepts exactly the lines
    that start with the token and returns what follows it; without, it
    accepts the lines that start with the token written in any case.  It
    does not strip the line.  Its only error is the missing-token error
    with the token and the line number. *)
Theorem X1_consume_token (line token : string) (ln : Z) :
  (forall r, consume_token line token ln true = Ok r <-> line = token +:+ r) /\
  (forall r, consume_token line token ln false = Ok r <->
             exists p, line = p +:+ r /\ Py.lower p = Py.lower token) /\
  (forall cs e, consume_token line token ln cs = Raise e ->
     e = ParseError ("Missing '" +:+ token +:+ "' at line " +:+ Py.str_of_int ln)).
Proof.
  split; [|split].
  - intros r. apply consume_token_exact.
  - intros r. apply consume_token_nocase.
  - intros cs e. apply consume_token_error.
Qed.

(** ** Call statements *)

Lemma consume_call_Some token line ln throw r :
  consume_call_statement token line ln throw = Ok (Some r) <->
  Py.strip line = token +:+ r /\ Py.startswith (Py.strip r) "(" = true.
Proof.
  unfold consume_call_statement, consume_token. split.
  - destruct (Py.startswith (Py.strip line) token) eqn:E1; cbn [negb rbind].
    + destruct (Py.startswith (Py.strip (Py.drop _ _)) "(") eqn:E2; cbn [negb rbind].
      * intros H. inversion H; subst r. split; [|exact E2].
        apply prefix_drop. exact E1.
      * destruct throw; discriminate.
    + destruct throw; discriminate.
  - intros [E1 E2]. rewrite E1. unfold Py.startswith at 1. rewrite prefix_append.
    cbn [negb rbind]. rewrite drop_append, E2. reflexivity.
Qed.

(** X2: [consume_call_statement] returns a remainder exactly when the
    stripped line is the statement name, written as in [token], followed
    by a remainder whose first non-blank character is an opening
    parenthesis.  Without [throw] any other line gives [None] and never
    an error; with [throw] it gives the invalid-token error that names
    the line number and the expected name.  A returned remainder is never
    empty, so that the truth value that the parser takes of the result
    tells a statement from another line. *)
Theorem X2_consume_call_statement (token line : string) (ln : Z) :
  (forall throw r,
     consume_call_statement token line ln throw = Ok (Some r) <->
     Py.strip line = token +:+ r /\ Py.startswith (Py.strip r) "(" = true) /\
  (consume_call_statement token line ln false = Ok None \/
   exists r, consume_call_statement token line ln false = Ok (Some r) /\ r <> "") /\
  (consume_call_statement token line ln true
     = Raise (ParseError ("Got invalid token at line " +:+ Py.str_of_int ln
                          +:+ ". Expected `" +:+ token +:+ "`")) \/
   exists r, consume_call_statement token line ln true = Ok (Some r)) /\
  (is_call token line ln = true <->
   exists r, consume_call_statement token line ln false = Ok (Some r)).
Proof.
  split; [intros throw r; apply consume_call_Some|].
  split; [|split].
  - unfold consume_call_statement, consume_token.
    destruct (Py.startswith (Py.strip line) token); cbn [negb rbind]; [|left; reflexivity].
    destruct (Py.startswith (Py.strip (Py.drop _ _)) "(") eqn:E2; cbn [negb rbind];
      [|left; reflexivity].
    right. eexists. split; [reflexivity|]. intros E. rewrite E in E2. discriminate E2.
  - unfold consume_call_statement, consume_token.
    destruct (Py.startswith (Py.strip line) token); cbn [negb rbind]; [|left; reflexivity].
    destruct (Py.startswith (Py.strip (Py.drop _ _)) "("); cbn [negb rbind];
      [right; eauto|left; reflexivity].
  - unfold is_call. split.
    + destruct (consume_call_statement token line ln false) as [[r|]|]; try discriminate.
      eauto.
    + intros [r Hr]. rewrite Hr. apply (consume_call_Some token line ln false r) in Hr as [_ H].
      destruct r; [discriminate H|reflexivity].
Qed.

(** Two prefixes of one string: one is a prefix of the other. *)
Lemma prefix_total p : forall q s,
  String.prefix p s = true -> String.prefix q s = true ->
  String.prefix p q = true \/ String.prefix q p = true.
Proof.
  induction p as [|a p IH]; intros q s Hp Hq; [left; destruct q; reflexivity|].
  destruct q as [|b q]; [right; reflexivity|].
  destruct s as [|c s]; [discriminate Hp|].
  rewrite prefix_cons in Hp, Hq.
  apply andb_prop in Hp as [Ha Hp]. apply andb_prop in Hq as [Hb Hq].
  apply Ascii.eqb_eq in Ha, Hb. subst a b.
  rewrite !prefix_cons, Ascii.eqb_refl. cbn [andb]. eapply IH; eauto.
Qed.

Lemma is_call_prefix token line ln :
  is_call token line ln = true -> String.prefix token (Py.strip line) = true.
Proof.
  rewrite is_call_spec. intros H. apply andb_prop in H as [H _].
  apply andb_prop in H as [H _]. exact H.
Qed.

(** A line is a call statement of one statement name at most. *)
Lemma statement_kinds_exclusive (t1 t2 line : string) (ln1 ln2 : Z) :
  In t1 npe_tokens -> In t2 npe_tokens ->
  is_call t1 line ln1 = true -> is_call t2 line ln2 = true ->
  t1 = t2 /\ is_blank line = false /\ is_comment line = false.
Proof.
  intros H1 H2 C1 C2. split; [|split].
  - pose proof (is_call_prefix _ _ _ C1) as P1.
    pose proof (is_call_prefix _ _ _ C2) as P2.
    destruct (prefix_total _ _ _ P1 P2) as [H|H]; revert H;
      cbn in H1, H2;
      repeat (destruct H1 as [<-|H1]; [|]); try destruct H1;
      repeat (destruct H2 as [<-|H2]; [|]); try destruct H2;
      first [reflexivity | (vm_compute; discriminate)].
  - destruct (is_blank line) eqn:E; [|reflexivity].
    rewrite (no_call_on_skipped t1 line ln1) in C1 by auto. discriminate.
  - destruct (is_comment line) eqn:E; [|reflexivity].
    rewrite (no_call_on_skipped t1 line ln1) in C1 by auto. discriminate.
Qed.

(** X3: a line is a call statement of at most one of the seven statement
    names, at whatever line numbers the tests are made, and such a line
    is neither blank nor a comment. *)
Theorem X3_statement_kinds_exclusive (t1 t2 line : string) (ln1 ln2 : Z) :
  In t1 npe_tokens -> In t2 npe_tokens ->
  is_call t1 line ln1 = true -> is_call t2 line ln2 = true ->
  t1 = t2 /\ is_blank line = false /\ is_comment line = false.
Proof. apply statement_kinds_exclusive. Qed.

(** X3 at the line [npe_arg(x, int)]. *)
Lemma X3_witness :
  In ARG_TOKEN npe_tokens /\ is_call ARG_TOKEN Samples.arg_x 1 = true /\
  is_blank Samples.arg_x = false /\ is_comment Samples.arg_x = false.
Proof.
  assert (Hin : In ARG_TOKEN npe_tokens) by (vm_compute; tauto).
  assert (Hc : is_call ARG_TOKEN Samples.arg_x 1 = true) by (vm_compute; reflexivity).
  split; [exact Hin|]. split; [exact Hc|].
  exact (proj2 (X3_statement_kinds_exclusive ARG_TOKEN ARG_TOKEN Samples.arg_x 1 1
                  Hin Hin Hc Hc)).
Defined.

(** ** Type names *)

Lemma assoc_None {V} k (l : list (string * V)) :
  assoc k l = None <-> ~ In k (map fst l).
Proof.
  induction l as [|[k' v] l IH]; cbn [assoc map fst In]; [tauto|].
  destruct (String.eqb k k') eqn:E.
  - apply String.eqb_eq in E. subst. split; [discriminate|tauto].
  - apply String.eqb_neq in E. rewrite IH. split; [intros H [H'|H']; congruence|tauto].
Qed.

Lemma catalog_keys :
  forallb (fun k => xorb (is_sparse_type k) (is_dense_type k)
                    && String.eqb (Py.lower k) k
                    && match assoc k NUMPY_ARRAY_TYPES_TO_CPP with
                       | Some _ => true
                       | None => false
                       end) NUMPY_ARRAY_TYPES = true.
Proof. vm_compute. reflexivity. Qed.

(** X4: the kinds of type names.  No name is both sparse and dense, and
    a sparse or dense name is an array type.  A name of the catalog is
    sparse or dense (one of the two), is in lower case and has a catalog
    entry.  An array type that is neither sparse nor dense is a catalog
    name written with a capital letter somewhere; a name outside the
    catalog has no catalog entry and looking it up raises KeyError on
    that name. *)
Theorem X4_type_kinds (t : string) :
  (is_sparse_type t = true -> is_dense_type t = false) /\
  (is_sparse_type t = true \/ is_dense_type t = true -> is_numpy_type t = true) /\
  (In t NUMPY_ARRAY_TYPES ->
     xorb (is_sparse_type t) (is_dense_type t) = true /\
     Py.lower t = t /\ exists e, catalog t = Ok e) /\
  (is_numpy_type t = true -> is_sparse_type t = false -> is_dense_type t = false ->
     Py.lower t <> t) /\
  (~ In t NUMPY_ARRAY_TYPES -> catalog t = Raise (KeyError t)).
Proof.
  assert (Hkeys : In t NUMPY_ARRAY_TYPES ->
     xorb (is_sparse_type t) (is_dense_type t) = true /\
     Py.lower t = t /\ exists e, catalog t = Ok e).
  { intros Hin. pose proof catalog_keys as H. rewrite forallb_forall in H.
    specialize (H t Hin). apply andb_prop in H as [H H3]. apply andb_prop in H as [H1 H2].
    split; [exact H1|]. split; [apply String.eqb_eq; exact H2|].
    unfold catalog. destruct (assoc t NUMPY_ARRAY_TYPES_TO_CPP); [eauto|discriminate]. }
  split; [|split; [|split; [exact Hkeys|split]]].
  - intros Hs. destruct (is_dense_type t) eqn:Hd; [|reflexivity].
    destruct (sparse_dense_exclusive t Hs Hd).
  - unfold is_sparse_type, is_dense_type. intros [H|H]; apply andb_prop in H as [H _]; exact H.
  - intros Hn Hs Hd E. unfold is_numpy_type in Hn. apply str_in_In in Hn.
    rewrite E in Hn. destruct (Hkeys Hn) as [Hx _]. rewrite Hs, Hd in Hx. discriminate.
  - intros Hn. unfold catalog.
    destruct (assoc t NUMPY_ARRAY_TYPES_TO_CPP) eqn:E; [|reflexivity].
    exfalso. apply Hn. unfold NUMPY_ARRAY_TYPES.
    destruct (In_dec string_dec t (map fst NUMPY_ARRAY_TYPES_TO_CPP)) as [Hi|Hi]; [exact Hi|].
    apply assoc_None in Hi. congruence.
Qed.

(** Facts about [strip]. *)
Lemma lstrip_head s :
  Py.lstrip s = "" \/ exists c r, Py.lstrip s = String c r /\ Py.isspace c = false.
Proof.
  induction s as [|c r IH]; [left; reflexivity|].
  cbn [Py.lstrip]. destruct (Py.isspace c) eqn:E; [exact IH|right; eauto].
Qed.

Lemma lstrip_nospace c r : Py.isspace c = false -> Py.lstrip (String c r) = String c r.
Proof. intros H. cbn [Py.lstrip]. rewrite H. reflexivity. Qed.

Lemma rstrip_idem s : Py.rstrip (Py.rstrip s) = Py.rstrip s.
Proof.
  induction s as [|c r IH]; [reflexivity|].
  cbn [Py.rstrip]. destruct (Py.rstrip r) as [|c' r'] eqn:E.
  - destruct (Py.isspace c) eqn:Ec; [reflexivity|].
    cbn [Py.rstrip]. rewrite Ec. reflexivity.
  - cbn [Py.rstrip]. cbn [Py.rstrip] in IH. 
    destruct (Py.rstrip r') as [|c'' r''] eqn:E'.
    + destruct (Py.isspace c') eqn:Ec'; [discriminate IH|]. rewrite IH. reflexivity.
    + rewrite IH. reflexivity.
Qed.

Lemma rstrip_head c r :
  Py.isspace c = false -> exists r', Py.rstrip (String c r) = String c r'.
Proof.
  intros H. cbn [Py.rstrip]. destruct (Py.rstrip r); [rewrite H|]; eauto.
Qed.

Lemma strip_idem s : Py.strip (Py.strip s) = Py.strip s.
Proof.
  unfold Py.strip. destruct (lstrip_head s) as [E|(c & r & E & Hc)]; rewrite E.
  - reflexivity.
  - destruct (rstrip_head c r Hc) as [r' Hr]. rewrite Hr.
    rewrite (lstrip_nospace c r' Hc), <- Hr. apply rstrip_idem.
Qed.

Lemma strip_head s :
  Py.strip s = "" \/ exists c r, Py.strip s = String c r /\ Py.isspace c = false.
Proof.
  unfold Py.strip. destruct (lstrip_head s) as [E|(c & r & E & Hc)]; rewrite E.
  - left. reflexivity.
  - right. destruct (rstrip_head c r Hc) as [r' Hr]. rewrite Hr. eauto.
Qed.

(** ** The matches() statement *)

Lemma rstrip_end s c :
  Py.isspace c = false ->
  Py.rstrip (s +:+ String c "") = s +:+ String c "".
Proof.
  intros Hc. induction s as [|x s IH].
  - change (Py.rstrip (String c "") = String c ""). cbn [Py.rstrip]. rewrite Hc. reflexivity.
  - change (Py.rstrip (String x (s +:+ String c "")) = String x (s +:+ String c "")).
    cbn [Py.rstrip]. rewrite IH.
    destruct s; reflexivity.
Qed.

Lemma lstrip_app s c t :
  Py.isspace c = false ->
  Py.lstrip (s +:+ String c t) = Py.lstrip s +:+ String c t.
Proof.
  intros Hc. induction s as [|x s IH].
  - change (Py.lstrip (String c t) = String c t). apply lstrip_nospace. exact Hc.
  - change (Py.lstrip (String x (s +:+ String c t)) = Py.lstrip (String x s) +:+ String c t).
    cbn [Py.lstrip]. destruct (Py.isspace x); [exact IH|reflexivity].
Qed.

Lemma strip_framed c s d :
  Py.isspace c = false -> Py.isspace d = false ->
  Py.strip (String c (s +:+ String d "")) = String c (s +:+ String d "").
Proof.
  intros Hc Hd. unfold Py.strip. rewrite (lstrip_nospace c _ Hc).
  apply (rstrip_end (String c s) d Hd).
Qed.

Lemma rev_acc_app s : forall acc c,
  Py.rev_acc (s +:+ String c "") acc = String c (Py.rev_acc s acc).
Proof.
  induction s as [|x s IH]; intros acc c; [reflexivity|].
  change (Py.rev_acc (s +:+ String c "") (String x acc) = String c (Py.rev_acc s (String x acc))).
  apply IH.
Qed.

Lemma endswith_end s c : Py.endswith (s +:+ String c "") (String c "") = true.
Proof.
  unfold Py.endswith, Py.rev. rewrite rev_acc_app. cbn [Py.rev_acc].
  rewrite prefix_cons, Ascii.eqb_refl. destruct (Py.rev_acc s ""); reflexivity.
Qed.

Lemma drop_last_end s c : Py.drop_last (s +:+ String c "") = s.
Proof.
  induction s as [|x s IH]; [reflexivity|].
  change (Py.drop_last (String x (s +:+ String c "")) = String x s).
  cbn [Py.drop_last]. rewrite IH. destruct s; reflexivity.
Qed.

Lemma lower_n_nospace c : Py.lower_ascii c = "n"%char -> Py.isspace c = false.
Proof.
  destruct c as [[] [] [] [] [] [] [] []]; vm_compute; intros H; congruence.
Qed.

(** X7: [_parse_matches_statement] on the keyword in any case, an opening
    parenthesis, a name and a closing parenthesis returns the name
    without its leading blanks; the trailing blanks of the name are
    kept. *)
Theorem X7_parse_matches_statement (kw n : string) (ln : Z) :
  Py.lower kw = Py.lower MATCHES_TOKEN ->
  _parse_matches_statement (kw +:+ "(" +:+ n +:+ ")") ln = Ok (Py.lstrip n).
Proof.
  intros Hkw. unfold _parse_matches_statement.
  assert (Hlp : Py.isspace "(" = false) by reflexivity.
  assert (Hrp : Py.isspace ")" = false) by reflexivity.
  destruct kw as [|c kw]; [discriminate Hkw|].
  assert (Hc : Py.isspace c = false).
  { apply lower_n_nospace. cbn [Py.lower] in Hkw. inversion Hkw as [[Hn Hr]]. exact Hn. }
  replace (String c kw +:+ "(" +:+ n +:+ ")")
    with (String c ((kw +:+ "(" +:+ n) +:+ ")"))
    by (change (String c kw +:+ "(" +:+ n +:+ ")")
          with (String c (kw +:+ "(" +:+ n +:+ ")"));
        rewrite !app_assoc_str; reflexivity).
  rewrite (strip_framed c _ ")" Hc Hrp).
  assert (E1 : consume_token (String c ((kw +:+ "(" +:+ n) +:+ ")")) MATCHES_TOKEN ln false
               = Ok ("(" +:+ n +:+ ")")).
  { apply consume_token_nocase.
    exists (String c kw). split; [|exact Hkw].
    change (String c kw +:+ "(" +:+ n +:+ ")") with (String c (kw +:+ "(" +:+ n +:+ ")")).
    rewrite !app_assoc_str. reflexivity. }
  rewrite E1. cbn [rbind].
  change ("(" +:+ n +:+ ")") with (String "(" (n +:+ ")")).
  rewrite (strip_framed "(" n ")" Hlp Hrp).
  assert (E2 : consume_token (String "(" (n +:+ ")")) "(" ln true = Ok (n +:+ ")")).
  { apply consume_token_exact. reflexivity. }
  rewrite E2. cbn [rbind].
  unfold Py.strip. rewrite (lstrip_app n ")" "" Hrp), (rstrip_end _ ")" Hrp).
  rewrite endswith_end. cbn [negb]. rewrite drop_last_end. reflexivity.
Qed.

(** X7 at the text [NPE_Matches( a )]: the name returned is [a] followed
    by a blank. *)
Lemma X7_witness :
  Py.lower "NPE_Matches" = Py.lower MATCHES_TOKEN /\
  _parse_matches_statement "NPE_Matches( a )" 1 = Ok "a ".
Proof.
  assert (H : Py.lower "NPE_Matches" = Py.lower MATCHES_TOKEN) by reflexivity.
  split; [exact H|]. exact (X7_parse_matches_statement "NPE_Matches" " a " 1 H).
Defined.

(** ** The tokenizer over the preprocessor *)

Lemma split_go_nonempty sep s : forall skip cur, Py.split_go sep skip cur s <> [].
Proof.
  induction s as [|c r IH]; intros skip cur; cbn [Py.split_go]; [discriminate|].
  destruct skip; [|apply IH]. destruct (String.prefix sep _); [discriminate|apply IH].
Qed.

Lemma last_token_ok l : l <> [] -> exists t, last_token l = Ok t.
Proof.
  intros H. unfold last_token.
  destruct (Py.index l (-1)) as [t|] eqn:E; [eauto|].
  exfalso. assert (Hs : is_Some (Py.index l (-1))).
  { apply index_is_Some. destruct l; [congruence|]. cbn [length]. lia. }
  rewrite E in Hs. destruct Hs as [? Hs]. discriminate Hs.
Qed.

Lemma list_pop_ok l : l <> [] -> exists x r, list_pop l = Ok (x, r) /\ l = r ++ [x].
Proof.
  intros H. unfold list_pop. destruct (rev l) as [|x r] eqn:E.
  - apply (f_equal (@rev _)) in E. rewrite rev_involutive in E. cbn in E. congruence.
  - exists x, (rev r). split; [reflexivity|].
    apply (f_equal (@rev _)) in E. rewrite rev_involutive in E. cbn in E. exact E.
Qed.

Section TokenizerOutcomes.
Variable run_cpp : string -> string * string.

Lemma tokenize_loop_outcomes iters stmt ln max : forall input,
  match tokenize_loop run_cpp iters stmt ln max input with
  | Ok tokens => Forall (fun t => Py.strip t = t) tokens
  | Raise e => e = depth_error ln max \/ e = extra_error stmt ln \/
               exists err, err <> "" /\ e = cpp_error ln err
  end.
Proof.
  induction iters as [|k IH]; intros input; cbn [tokenize_loop].
  - left. reflexivity.
  - destruct (run_cpp input) as [output err].
    destruct (String.eqb err "") eqn:Ee; cbn [negb].
    2:{ right. right. exists err. split; [|reflexivity].
        apply String.eqb_neq. exact Ee. }
    set (ps := parsed_lines _ _).
    assert (Hne : Py.split ps split_token <> []) by apply split_go_nonempty.
    destruct (last_token_ok _ Hne) as [t Ht]. rewrite Ht. cbn [rbind].
    destruct (_ && _); [right; left; reflexivity|].
    destruct (String.eqb (Py.strip t) _); [|apply IH].
    destruct (list_pop_ok _ Hne) as (x & r & Hp & _). rewrite Hp. cbn [rbind].
    apply Forall_map. apply Forall_forall. intros y _. apply strip_idem.
Qed.

(** The tokens and the errors of [tokenize_npe_line]. *)
Lemma tokenize_outcomes stmt line ln max :
  match tokenize_npe_line run_cpp stmt line ln max with
  | Ok tokens => Forall (fun t => Py.strip t = t) tokens
  | Raise e => e = depth_error ln max \/ e = extra_error stmt ln \/
               exists err, err <> "" /\ e = cpp_error ln err
  end.
Proof. apply tokenize_loop_outcomes. Qed.

(** X5: the outcomes of [tokenize_npe_line].  The tokens it returns carry
    no blanks around them.  It raises one of three errors only: the
    expansion-depth error, the extra-tokens error, or the error that
    carries a non-empty error text of the preprocessor.  With a maximum
    of zero iterations it raises the depth error without running the
    preprocessor, and an error text of the first run is raised as it
    is. *)
Theorem X5_tokenizer_outcomes (stmt line : string) (ln : Z) (max : nat) :
  match tokenize_npe_line run_cpp stmt line ln max with
  | Ok tokens => Forall (fun t => Py.strip t = t) tokens
  | Raise e => e = depth_error ln max \/ e = extra_error stmt ln \/
               exists err, err <> "" /\ e = cpp_error ln err
  end /\
  tokenize_npe_line run_cpp stmt line ln 0 = Raise (depth_error ln 0) /\
  (forall out err,
     run_cpp (cpp_str stmt +:+ Py.nl +:+ line +:+ Py.nl) = (out, err) -> err <> "" ->
     tokenize_npe_line run_cpp stmt line ln (S max) = Raise (cpp_error ln err)).
Proof.
  split; [apply tokenize_loop_outcomes|]. split; [reflexivity|].
  intros out err Hr He. unfold tokenize_npe_line. cbn [tokenize_loop]. rewrite Hr.
  apply String.eqb_neq in He. rewrite He. reflexivity.
Qed.

End TokenizerOutcomes.

(** ** Argument statements *)

Section ArgumentStatement.
Variable tok : string -> string -> Z -> result (list string).

(** X8: the edges of [_parse_arg_statement].  An error of the tokenizer
    is passed on.  A statement with no token raises IndexError.  An
    argument statement with a name and no type raises the no-type error;
    a default-argument statement with a name only raises IndexError, and
    with a name and one more token (which is taken for the default value)
    raises the no-type error. *)
Theorem X8_arg_statement_edges (self : NpeFunction.t) (line : string) (ln : Z) :
  (forall (d : bool) e, tok (if d then DEFAULT_ARG_TOKEN else ARG_TOKEN) (Py.strip line) ln = Raise e ->
     _parse_arg_statement tok self line ln d = Raise e) /\
  (forall (d : bool), tok (if d then DEFAULT_ARG_TOKEN else ARG_TOKEN) (Py.strip line) ln = Ok [] ->
     _parse_arg_statement tok self line ln d = Raise IndexError) /\
  (forall v, tok ARG_TOKEN (Py.strip line) ln = Ok [v] ->
     _parse_arg_statement tok self line ln false = Raise (no_types_error ARG_TOKEN v)) /\
  (forall v, tok DEFAULT_ARG_TOKEN (Py.strip line) ln = Ok [v] ->
     _parse_arg_statement tok self line ln true = Raise IndexError) /\
  (forall v x, tok DEFAULT_ARG_TOKEN (Py.strip line) ln = Ok [v; x] ->
     _parse_arg_statement tok self line ln true
       = Raise (no_types_error DEFAULT_ARG_TOKEN v)).
Proof.
  unfold _parse_arg_statement, no_types_error.
  split; [|split; [|split; [|split]]].
  - intros d e H. rewrite H. reflexivity.
  - intros d H. rewrite H. reflexivity.
  - intros v H. rewrite H. reflexivity.
  - intros v H. rewrite H. reflexivity.
  - intros v x H. rewrite H. reflexivity.
Qed.

Lemma check_numpy_types_first_bad stmt ln pre t post :
  Forall (fun x => is_numpy_type x = true) pre -> is_numpy_type t = false ->
  check_numpy_types stmt ln (pre ++ t :: post) = Raise (invalid_type_error t stmt ln).
Proof.
  intros Hpre Ht. induction Hpre as [|x pre Hx _ IH]; cbn [app check_numpy_types].
  - rewrite Ht. reflexivity.
  - rewrite Hx. cbn [negb]. exact IH.
Qed.

Lemma check_numpy_types_ok stmt ln l :
  check_numpy_types stmt ln l = Ok tt <-> Forall (fun x => is_numpy_type x = true) l.
Proof.
  induction l as [|x l IH]; cbn [check_numpy_types].
  - split; [constructor|reflexivity].
  - destruct (is_numpy_type x) eqn:E; cbn [negb].
    + rewrite IH. split; [constructor; assumption|]. intros H. inversion H; assumption.
    + split; [discriminate|]. intros H. inversion H; congruence.
Qed.

(** X9: in an argument statement with two or more types, the first type
    that is not an array type is reported by the invalid-type error, with
    the line number and the list of the array types. *)
Theorem X9_invalid_array_type (self : NpeFunction.t) (line : string) (ln : Z)
    (v : string) (pre post : list string) (t : string) :
  tok ARG_TOKEN (Py.strip line) ln = Ok (v :: pre ++ t :: post) ->
  (2 <= length (pre ++ t :: post))%nat ->
  Forall (fun x => is_numpy_type x = true) pre ->
  is_numpy_type t = false ->
  _parse_arg_statement tok self line ln false
    = Raise (invalid_type_error t ARG_TOKEN ln).
Proof.
  intros Htok Hlen Hpre Ht. unfold _parse_arg_statement. rewrite Htok.
  cbn [rbind tail first].
  destruct (pre ++ t :: post) as [|t0 [|t1 r]] eqn:E; cbn [length] in Hlen; try lia.
  cbn [length Nat.eqb Nat.ltb Nat.leb orb]. rewrite <- E.
  unfold declare_array_types.
  rewrite (check_numpy_types_first_bad _ _ _ _ _ Hpre Ht). reflexivity.
Qed.

Lemma matches_not_numpy t :
  Py.startswith t MATCHES_TOKEN = true -> is_numpy_type t = false.
Proof.
  unfold Py.startswith, MATCHES_TOKEN. intros H.
  destruct t as [|c r]; [discriminate H|].
  rewrite prefix_cons in H. apply andb_prop in H as [H _].
  apply Ascii.eqb_eq in H. subst c. reflexivity.
Qed.

(** X10: an argument statement with a single type that is neither an
    array type nor a matches() records a scalar argument: the name is
    appended to the argument names, the record is stored under the name
    with the type, the line number and the default value of the
    statement, and the groups and the name-to-group table are left as
    they were. *)
Theorem X10_scalar_argument (self : NpeFunction.t) (line : string) (ln : Z)
    (v t : string) :
  is_numpy_type t = false -> Py.startswith t MATCHES_TOKEN = false ->
  (tok ARG_TOKEN (Py.strip line) ln = Ok [v; t] ->
   _parse_arg_statement tok self line ln false
   = Ok (set_arguments (<[v := NpeArgument.init v false [t] ln None]> (_arguments self))
           (set_argument_names (_argument_names self ++ [v]) self),
         (v, [t], None))) /\
  (forall x, tok DEFAULT_ARG_TOKEN (Py.strip line) ln = Ok [v; t; x] ->
   _parse_arg_statement tok self line ln true
   = Ok (set_arguments (<[v := NpeArgument.init v false [t] ln (Some x)]> (_arguments self))
           (set_argument_names (_argument_names self ++ [v]) self),
         (v, [t], Some x))).
Proof.
  intros Hn Hm. unfold _parse_arg_statement, declare_single_type. split.
  - intros H. rewrite H. cbn [rbind tail first length Nat.eqb Nat.ltb Nat.leb hd orb andb py_assert].
    rewrite Hn, Hm. reflexivity.
  - intros x H. rewrite H.
    cbn [rbind tail first list_pop rev app length Nat.eqb Nat.ltb Nat.leb hd orb andb py_assert].
    rewrite Hn, Hm. reflexivity.
Qed.

(** X11: an argument declared by matches() of a name that has a group
    joins that group: the table maps the new argument to the group index
    of the named one, the new name is appended to the members of that
    group, whose candidate types are kept, and no group is added. *)
Theorem X11_matches_joins_group (self : NpeFunction.t) (line : string) (ln : Z)
    (v t other : string) (gid : Z) (g : NpeArgumentGroup.t) :
  tok ARG_TOKEN (Py.strip line) ln = Ok [v; t] ->
  Py.startswith t MATCHES_TOKEN = true ->
  _parse_matches_statement t ln = Ok other ->
  _argument_name_to_group self !! other = Some gid ->
  Py.index (_input_type_groups self) gid = Some g ->
  exists self',
    _parse_arg_statement tok self line ln false = Ok (self', (v, [t], None)) /\
    _argument_name_to_group self' = <[v := gid]> (_argument_name_to_group self) /\
    Py.index (_input_type_groups self') gid
      = Some (NpeArgumentGroup.mk (NpeArgumentGroup.arguments g ++ [v])
                                  (NpeArgumentGroup.types g)) /\
    length (_input_type_groups self') = length (_input_type_groups self) /\
    _argument_names self' = _argument_names self ++ [v] /\
    _arguments self' !! v
      = Some (NpeArgument.mk v true [t] ln false false None
                (if 0 <=? gid then Some gid else None) "").
Proof.
  intros Htok Hs Hp Hm Hi. unfold _parse_arg_statement. rewrite Htok.
  cbn [rbind tail first length Nat.eqb Nat.ltb Nat.leb hd orb andb].
  rewrite (matches_not_numpy t Hs).
  unfold declare_single_type. cbn [length Nat.eqb py_assert rbind hd].
  rewrite Hs, Hp. cbn [rbind]. rewrite Hm.
  unfold group_append, update_group, get_group.
  cbn [_input_type_groups set_name_to_group]. rewrite Hi. cbn [rbind].
  destruct (index_set_index _ gid g
              (NpeArgumentGroup.mk (NpeArgumentGroup.arguments g ++ [v])
                                   (NpeArgumentGroup.types g)) Hi)
    as (l' & Hs' & Hi' & Hl').
  rewrite Hs'. cbn [rbind _input_type_groups set_groups].
  destruct (0 <=? gid) eqn:Eg.
  - rewrite Hi'. cbn [rbind]. eexists. split; [reflexivity|].
    cbn. split; [reflexivity|]. split; [exact Hi'|]. split; [exact Hl'|].
    split; [reflexivity|]. apply lookup_insert_eq.
  - cbn [rbind]. eexists. split; [reflexivity|].
    cbn. split; [reflexivity|]. split; [exact Hi'|]. split; [exact Hl'|].
    split; [reflexivity|]. apply lookup_insert_eq.
Qed.

End ArgumentStatement.

(** X9 at the statement [npe_arg(x, dense_f32, int)]. *)
Lemma X9_witness :
  Scanner.tokenize ARG_TOKEN (Py.strip "npe_arg(x, dense_f32, int)") 1
    = Ok ("x" :: ["dense_f32"] ++ "int" :: []) /\
  is_numpy_type "int" = false /\
  _parse_arg_statement Scanner.tokenize empty "npe_arg(x, dense_f32, int)" 1 false
    = Raise (invalid_type_error "int" ARG_TOKEN 1).
Proof.
  assert (Ht : Scanner.tokenize ARG_TOKEN (Py.strip "npe_arg(x, dense_f32, int)") 1
    = Ok ("x" :: ["dense_f32"] ++ "int" :: [])) by (vm_compute; reflexivity).
  assert (Hn : is_numpy_type "int" = false) by (vm_compute; reflexivity).
  split; [exact Ht|]. split; [exact Hn|].
  apply (X9_invalid_array_type Scanner.tokenize empty _ 1 "x" ["dense_f32"] [] "int" Ht).
  - simpl. lia.
  - constructor; [vm_compute; reflexivity|constructor].
  - exact Hn.
Defined.

(** X10 at the statement [npe_arg(n, int)], the first of a binding. *)
Lemma X10_witness :
  is_numpy_type "int" = false /\ Py.startswith "int" MATCHES_TOKEN = false /\
  _parse_arg_statement Scanner.tokenize empty "npe_arg(n, int)" 1 false
  = Ok (set_arguments (<["n" := NpeArgument.init "n" false ["int"] 1 None]> (_arguments empty))
          (set_argument_names (_argument_names empty ++ ["n"]) empty),
        ("n", ["int"], None)).
Proof.
  assert (Hn : is_numpy_type "int" = false) by (vm_compute; reflexivity).
  assert (Hm : Py.startswith "int" MATCHES_TOKEN = false) by (vm_compute; reflexivity).
  split; [exact Hn|]. split; [exact Hm|].
  apply (proj1 (X10_scalar_argument Scanner.tokenize empty "npe_arg(n, int)" 1 "n" "int" Hn Hm)).
  vm_compute; reflexivity.
Defined.

(** X11 at the statement [npe_arg(b, npe_matches(a))] after
    [npe_arg(a, dense_f32)]: [b] joins group 0. *)
Lemma X11_witness :
  _argument_name_to_group Samples.after_a !! "a" = Some 0 /\
  Py.index (_input_type_groups Samples.after_a) 0
    = Some (NpeArgumentGroup.mk ["a"] ["dense_f32"]) /\
  exists self',
    _parse_arg_statement Scanner.tokenize Samples.after_a
      "npe_arg(b, npe_matches(a))" 1 false
      = Ok (self', ("b", ["npe_matches(a)"], None)) /\
    _argument_name_to_group self' !! "b" = Some 0 /\
    Py.index (_input_type_groups self') 0
      = Some (NpeArgumentGroup.mk ["a"; "b"] ["dense_f32"]).
Proof.
  assert (H1 : _argument_name_to_group Samples.after_a !! "a" = Some 0)
    by (vm_compute; reflexivity).
  assert (H2 : Py.index (_input_type_groups Samples.after_a) 0
    = Some (NpeArgumentGroup.mk ["a"] ["dense_f32"])) by (vm_compute; reflexivity).
  split; [exact H1|]. split; [exact H2|].
  destruct (X11_matches_joins_group Scanner.tokenize Samples.after_a
              "npe_arg(b, npe_matches(a))" 1 "b" "npe_matches(a)" "a" 0
              (NpeArgumentGroup.mk ["a"] ["dense_f32"]))
    as (self' & E1 & E2 & E3 & _).
  - vm_compute; reflexivity.
  - vm_compute; reflexivity.
  - vm_compute; reflexivity.
  - exact H1.
  - exact H2.
  - exists self'. split; [exact E1|]. split; [|exact E3].
    rewrite E2. apply lookup_insert_eq.
Defined.

(** ** A rule for invariants of the parser *)

Section Invariant.
Variable tok : string -> string -> Z -> result (list string).
Variable ln : Z.
Variable P : NpeFunction.t -> Prop.
Hypothesis P_texts : forall st nm src pre doc, P st ->
  P (NpeFunction.mk nm (_input_type_groups st) (_argument_name_to_group st)
       (_argument_names st) (_arguments st) src pre doc).
Hypothesis P_arg : forall st line d st' r, P st ->
  _parse_arg_statement tok st line (ln + 1) d = Ok (st', r) -> P st'.

Lemma parse_doc_inv self doc k skip self' :
  P self -> _parse_doc_statement tok self doc k skip = Ok self' -> P self'.
Proof.
  intros Inv H. unfold _parse_doc_statement in H.
  destruct (negb skip); [inversion H; subst; exact Inv|].
  destruct (tok _ _ _) as [[|t [|]]|]; cbn [rbind] in H; try discriminate.
  inversion H; subst. apply P_texts. exact Inv.
Qed.

Lemma parse_seek_inv lines : forall self self' b rest,
  P self -> parse_seek tok ln self lines = Ok (self', b, rest) -> P self'.
Proof.
  induction lines as [|line lines IH]; intros self self' b rest Inv H; cbn [parse_seek] in H.
  - inversion H; subst. exact Inv.
  - repeat match type of H with
    | (if ?c then _ else _) = _ => destruct c
    end; try discriminate; try (inversion H; subst; exact Inv);
      try (eapply IH; [|exact H]; first [exact Inv | apply P_texts; exact Inv]).
    destruct (_parse_npe_function_statement _ _ _); cbn [rbind] in H; [|discriminate].
    inversion H; subst. apply P_texts. exact Inv.
Qed.

Lemma parse_declare_inv lines : forall self pd doc self' b rest,
  P self -> parse_declare tok ln self pd doc lines = Ok (self', b, rest) -> P self'.
Proof.
  induction lines as [|line lines IH]; intros self pd doc self' b rest Inv H;
    cbn [parse_declare] in H.
  - inversion H; subst. exact Inv.
  - destruct (Py.len line =? 0); [inversion H; subst; exact Inv|].
    destruct (is_call ARG_TOKEN line (ln + 1)).
    { destruct (_parse_arg_statement _ _ _ _ _) as [[s1 r1]|] eqn:Ea; cbn [rbind] in H; [|discriminate].
      destruct (_parse_doc_statement _ _ _ _ _) as [s2|] eqn:Ed; cbn [rbind] in H; [|discriminate].
      eapply IH; [|exact H]. eapply parse_doc_inv; [|exact Ed].
      eapply P_arg; eauto. }
    destruct (is_call DEFAULT_ARG_TOKEN line (ln + 1)).
    { destruct (_parse_arg_statement _ _ _ _ _) as [[s1 r1]|] eqn:Ea; cbn [rbind] in H; [|discriminate].
      destruct (_parse_doc_statement _ _ _ _ _) as [s2|] eqn:Ed; cbn [rbind] in H; [|discriminate].
      eapply IH; [|exact H]. eapply parse_doc_inv; [|exact Ed].
      eapply P_arg; eauto. }
    destruct (is_call DOC_TOKEN line (ln + 1)).
    { destruct (negb _); [discriminate|]. eapply IH; eauto. }
    destruct (is_call BEGIN_CODE_TOKEN line (ln + 1)).
    { destruct (_parse_begin_code_statement _ _); cbn [rbind] in H; [|discriminate].
      destruct (_parse_doc_statement _ _ _ _ _) as [s2|] eqn:Ed; cbn [rbind] in H; [|discriminate].
      inversion H; subst. eapply parse_doc_inv; eauto. }
    destruct pd; [eapply IH; eauto|].
    destruct (Py.len (Py.strip line) =? 0); [eapply IH; eauto|].
    destruct (Py.startswith _ _); [eapply IH; eauto|discriminate].
Qed.

Lemma parse_body_inv lines : forall self reached self' b,
  P self -> parse_body ln self reached lines = Ok (self', b) -> P self'.
Proof.
  induction lines as [|line lines IH]; intros self reached self' b Inv H;
    cbn [parse_body] in H.
  - inversion H; subst. exact Inv.
  - destruct (Py.len line =? 0); [inversion H; subst; exact Inv|].
    destruct (is_call END_CODE_TOKEN line (ln + 1)).
    { destruct (_parse_end_code_statement _ _); cbn [rbind] in H; [|discriminate].
      eapply IH; eauto. }
    destruct (negb reached).
    { eapply IH; [|exact H]. apply P_texts. exact Inv. }
    destruct (_ && _); [discriminate|]. eapply IH; eauto.
Qed.

(** A property kept by the setters of the texts and by every argument
    statement holds of the binding that [_parse] returns. *)
Lemma _parse_inv st0 lines st :
  P st0 -> _parse tok st0 (NpeFileReader.mk lines ln) = Ok st -> P st.
Proof.
  unfold _parse. cbn [NpeFileReader.line_number NpeFileReader.lines]. intros H0 H.
  destruct (parse_seek _ _ _ _) as [[[s1 b1] r1]|] eqn:E1; cbn [rbind] in H; [|discriminate].
  destruct (b1 <? 0); [discriminate|].
  destruct (parse_declare _ _ _ _ _ _) as [[[s2 b2] r2]|] eqn:E2; cbn [rbind] in H; [|discriminate].
  destruct (b2 <? 0); [discriminate|].
  destruct (parse_body _ _ _ _) as [[s3 b3]|] eqn:E3; cbn [rbind] in H; [|discriminate].
  destruct (negb b3); [discriminate|]. inversion H; subst.
  eapply parse_body_inv; [|exact E3].
  eapply parse_declare_inv; [|exact E2].
  eapply parse_seek_inv; [|exact E1]. exact H0.
Qed.

End Invariant.

(** ** The shapes of the records *)

Lemma update_group_Forall (Q : NpeArgumentGroup.t -> Prop) self gid f self' :
  update_group self gid f = Ok self' ->
  Forall Q (_input_type_groups self) -> (forall g, Q g -> Q (f g)) ->
  Forall Q (_input_type_groups self').
Proof.
  intros H HF Hf. apply update_group_spec in H as (k & g & Hg & Hk & ->).
  cbn. apply Forall_insert; [exact HF|]. apply Hf.
  rewrite Forall_forall in HF. apply HF. apply list_elem_of_In.
  eapply index_In. exact Hg.
Qed.

Lemma declare_array_types_groups self stmt ln v tys self' gid names' :
  declare_array_types self stmt ln v tys = Ok (self', gid) ->
  In v names' ->
  Forall (group_ok names') (_input_type_groups self) ->
  Forall (group_ok names') (_input_type_groups self') /\
  Forall (fun t => is_numpy_type t = true) tys.
Proof.
  unfold declare_array_types. intros H Hv HF.
  destruct (check_numpy_types stmt ln tys) as [[]|] eqn:Hc; cbn [rbind] in H; [|discriminate].
  apply check_numpy_types_ok in Hc. split; [|exact Hc].
  destruct (_argument_name_to_group self !! v) as [g0|] eqn:Hm.
  - destruct (get_group self g0) as [g|] eqn:Hg; cbn [rbind] in H; [|discriminate].
    destruct (py_assert _); cbn [rbind] in H; [|discriminate].
    destruct (update_group self g0 _) as [s1|] eqn:Hu; cbn [rbind] in H; [|discriminate].
    destruct (group_append s1 g0 v) as [s2|] eqn:Ha; cbn [rbind] in H; [|discriminate].
    inversion H; subst; clear H.
    unfold group_append in Ha.
    eapply update_group_Forall; [exact Ha| |].
    + eapply update_group_Forall; [exact Hu|exact HF|].
      intros x [Hx1 Hx2]. split; [exact Hx1|exact Hc].
    + intros x [Hx1 Hx2]. split; [|exact Hx2]. cbn.
      apply Forall_app. split; [exact Hx1|]. constructor; [exact Hv|constructor].
  - destruct (update_group _ _ _) as [s1|] eqn:Hu; cbn [rbind] in H; [|discriminate].
    inversion H; subst; clear H.
    eapply update_group_Forall; [exact Hu| |].
    + cbn. apply Forall_app. split; [exact HF|].
      constructor; [|constructor]. split; [constructor|exact Hc].
    + intros x [Hx1 Hx2]. split; [|exact Hx2]. cbn. constructor; [exact Hv|constructor].
Qed.

Lemma declare_single_type_shape self ln v tys meta self' meta' gid names' :
  declare_single_type self ln v tys meta = Ok (self', meta', gid) ->
  In v names' ->
  Forall (group_ok names') (_input_type_groups self) ->
  Forall (group_ok names') (_input_type_groups self') /\
  NpeArgument.is_sparse meta' = NpeArgument.is_sparse meta /\
  NpeArgument.is_dense meta' = NpeArgument.is_dense meta /\
  exists t, tys = [t] /\
    ((Py.startswith t MATCHES_TOKEN = true /\ NpeArgument.is_matches meta' = true) \/
     (Py.startswith t MATCHES_TOKEN = false /\ meta' = meta)).
Proof.
  unfold declare_single_type. intros H Hv HF.
  destruct tys as [|t [|t' tys]]; cbn [length Nat.eqb py_assert rbind hd] in H;
    try discriminate.
  destruct (Py.startswith t MATCHES_TOKEN) eqn:Es.
  2:{ inversion H; subst. split; [exact HF|]. split; [reflexivity|]. split; [reflexivity|].
      exists t. split; [reflexivity|]. right. split; [exact Es|reflexivity]. }
  destruct (_parse_matches_statement _ _) as [mn|]; cbn [rbind] in H; [|discriminate].
  destruct (_argument_name_to_group self !! mn) as [g0|] eqn:Hm.
  - destruct (group_append _ g0 v) as [s1|] eqn:Ha; cbn [rbind] in H; [|discriminate].
    inversion H; subst; clear H. split.
    + unfold group_append in Ha. eapply update_group_Forall; [exact Ha|exact HF|].
      intros x [Hx1 Hx2]. split; [|exact Hx2]. cbn.
      apply Forall_app. split; [exact Hx1|]. constructor; [exact Hv|constructor].
    + split; [reflexivity|]. split; [reflexivity|].
      exists t. split; [reflexivity|]. left. split; [exact Es|reflexivity].
  - inversion H; subst; clear H. split.
    + cbn. apply Forall_app. split; [exact HF|].
      constructor; [|constructor]. split; [|constructor]. cbn.
      constructor; [exact Hv|constructor].
    + split; [reflexivity|]. split; [reflexivity|].
      exists t. split; [reflexivity|]. left. split; [exact Es|reflexivity].
Qed.

Lemma group_ok_mono names names' g :
  (forall m, In m names -> In m names') -> group_ok names g -> group_ok names' g.
Proof.
  intros Hs [H1 H2]. split; [|exact H2].
  eapply Forall_impl; [exact H1|]. intros m Hm. apply Hs. exact Hm.
Qed.

Lemma shaped_groups st :
  shaped st <->
  (forall n, is_Some (_arguments st !! n) <-> In n (_argument_names st)) /\
  (forall n a, _arguments st !! n = Some a ->
      matches_shape a \/ array_shape a \/ scalar_shape a) /\
  (forall n a, _arguments st !! n = Some a ->
      NpeArgument.is_sparse a = false /\ NpeArgument.is_dense a = false) /\
  Forall (group_ok (_argument_names st)) (_input_type_groups st).
Proof.
  split.
  - intros [H1 H2 H3 H4 H5]. split; [exact H1|]. split; [exact H2|]. split; [exact H3|].
    rewrite Forall_forall in H4, H5. apply Forall_forall. intros g Hg. split; auto.
  - intros (H1 & H2 & H3 & H4). constructor; auto.
    + eapply Forall_impl; [exact H4|]. intros g [Hg _]. exact Hg.
    + eapply Forall_impl; [exact H4|]. intros g [_ Hg]. exact Hg.
Qed.

Section Shapes.
Variable tok : string -> string -> Z -> result (list string).

Lemma parse_arg_shaped self line ln d self' r :
  shaped self -> _parse_arg_statement tok self line ln d = Ok (self', r) ->
  shaped self'.
Proof.
  intros Inv H. apply shaped_groups in Inv as (I1 & I2 & I3 & I4).
  unfold _parse_arg_statement in H.
  destruct (tok _ _ _) as [tokens|] eqn:Etok; cbn [rbind] in H; [|discriminate].
  destruct tokens as [|var_name toks]; cbn [rbind tail first] in H; [discriminate|].
  set (stmt := if d then DEFAULT_ARG_TOKEN else ARG_TOKEN) in *.
  destruct (if d then _ else _) as [[var_value var_types]|] eqn:Ev in H;
    cbn [rbind] in H; [|discriminate].
  destruct (length var_types =? 0)%nat eqn:Elen; [discriminate|].
  assert (Hty : var_types <> []) by (destruct var_types; [discriminate|congruence]).
  set (meta := NpeArgument.init var_name false var_types ln var_value) in *.
  set (names' := _argument_names self ++ [var_name]).
  assert (Hv : In var_name names') by (apply in_or_app; right; left; reflexivity).
  assert (HF : Forall (group_ok names') (_input_type_groups self)).
  { eapply Forall_impl; [exact I4|]. intros g. apply group_ok_mono.
    intros m Hm. apply in_or_app. left. exact Hm. }
  assert (exists s1 meta1 gid,
    same_decl self s1 /\ Forall (group_ok names') (_input_type_groups s1) /\
    (matches_shape meta1 \/ array_shape meta1 \/ scalar_shape meta1) /\
    NpeArgument.is_sparse meta1 = false /\ NpeArgument.is_dense meta1 = false /\
    (let* grp := (if 0 <=? gid then do* get_group s1 gid in Ok (Some gid) else Ok None) in
     Ok (NpeFunction.set_arguments
           (<[var_name := NpeArgument.set_group grp meta1]> (NpeFunction._arguments s1))
           (NpeFunction.set_argument_names
              (NpeFunction._argument_names s1 ++ [var_name]) s1),
         (var_name, var_types, var_value))) = Ok (self', r))
    as (s1 & meta1 & gid & Hsd & HF1 & Hsh & Hsp & Hde & H').
  { destruct (_ || _) eqn:Eor.
    - destruct (declare_array_types _ _ _ _ _) as [[s1 gid]|] eqn:Ed;
        cbn [rbind] in H; [|discriminate].
      exists s1, meta, gid.
      pose proof (declare_array_types_spec _ _ _ _ _ _ _ Ed) as (Hsd & _).
      destruct (declare_array_types_groups _ _ _ _ _ _ _ names' Ed Hv HF) as [HF1 Hnum].
      split; [exact Hsd|]. split; [exact HF1|].
      split; [right; left; split; [reflexivity|split; [exact Hty|exact Hnum]]|].
      split; [reflexivity|]. split; [reflexivity|exact H].
    - destruct (declare_single_type _ _ _ _ _) as [[[s1 meta1] gid]|] eqn:Ed;
        cbn [rbind] in H; [|discriminate].
      exists s1, meta1, gid.
      pose proof (declare_single_type_spec _ _ _ _ _ _ _ _ Ed) as (Hsd & _ & _ & _ & E2 & _).
      destruct (declare_single_type_shape _ _ _ _ _ _ _ _ names' Ed Hv HF)
        as (HF1 & Es & Edn & t & Et & Hcase).
      split; [exact Hsd|]. split; [exact HF1|]. split.
      + destruct Hcase as [[Hm1 Hm2]|[Hm1 ->]].
        * left. split; [exact Hm2|]. exists t. rewrite E2. split; [exact Et|exact Hm1].
        * right. right. split; [reflexivity|]. exists t. split; [exact Et|].
          split; [|exact Hm1]. subst var_types. cbn [length Nat.eqb Nat.ltb Nat.leb hd orb andb] in Eor.
          exact Eor.
      + split; [rewrite Es; reflexivity|]. split; [rewrite Edn; reflexivity|exact H]. }
  clear H. destruct (if 0 <=? gid then _ else _) as [grp|]; cbn [rbind] in H'; [|discriminate].
  inversion H'; subst self' r; clear H'.
  destruct Hsd as (_ & En & Ea & _).
  apply shaped_groups. cbn. split; [|split; [|split]].
  - intros n. rewrite Ea, En. destruct (decide (var_name = n)) as [->|Hd].
    + rewrite lookup_insert_eq. split; [intros _; apply in_or_app; right; left; reflexivity|eauto].
    + rewrite lookup_insert_ne by assumption. rewrite I1. split.
      * intros Hn. apply in_or_app. left. exact Hn.
      * intros Hn. apply in_app_or in Hn as [Hn|[Hn|[]]]; [exact Hn|congruence].
  - intros n a Ha. rewrite Ea in Ha. destruct (decide (var_name = n)) as [->|Hd].
    + rewrite lookup_insert_eq in Ha. inversion Ha; subst a.
      destruct Hsh as [[H1 H2]|[[H1 H2]|[H1 H2]]]; [left|right; left|right; right];
        split; assumption.
    + rewrite lookup_insert_ne in Ha by assumption. eapply I2; eauto.
  - intros n a Ha. rewrite Ea in Ha. destruct (decide (var_name = n)) as [->|Hd].
    + rewrite lookup_insert_eq in Ha. inversion Ha; subst a. cbn. auto.
    + rewrite lookup_insert_ne in Ha by assumption. eapply I3; eauto.
  - rewrite En. exact HF1.
Qed.

Lemma shaped_empty : shaped empty.
Proof.
  constructor; cbn.
  - intros n. rewrite lookup_empty. split; [intros [? H]; discriminate H|intros []].
  - intros n a H. rewrite lookup_empty in H. discriminate.
  - intros n a H. rewrite lookup_empty in H. discriminate.
  - constructor.
  - constructor.
Qed.

Lemma shaped_texts st nm src pre doc :
  shaped st ->
  shaped (NpeFunction.mk nm (_input_type_groups st) (_argument_name_to_group st)
            (_argument_names st) (_arguments st) src pre doc).
Proof. intros [H1 H2 H3 H4 H5]. constructor; assumption. Qed.

(** The parser returns a binding with shaped records. *)
Lemma _parse_shaped rd st : _parse tok empty rd = Ok st -> shaped st.
Proof.
  destruct rd as [lines ln]. intros H.
  eapply (_parse_inv tok ln shaped); [| |apply shaped_empty|exact H].
  - intros. apply shaped_texts. assumption.
  - intros s line d s' r Hs Hp. eapply parse_arg_shaped; eauto.
Qed.

End Shapes.

(** ** Seeking the function statement *)

Lemma is_statement_false line t ln :
  is_statement line = false -> In t npe_tokens -> is_call t line ln = false.
Proof.
  unfold is_statement. intros H Ht.
  destruct (is_call t line ln) eqn:E; [|reflexivity].
  rewrite (is_call_line_number t line ln 0) in E.
  assert (Hex : existsb (fun t => is_call t line 0) npe_tokens = true).
  { apply existsb_exists. exists t. split; assumption. }
  congruence.
Qed.

Lemma is_call_nonempty t line ln : In t npe_tokens -> is_call t line ln = true -> line <> "".
Proof.
  intros Ht H ->. rewrite is_call_blank in H; [discriminate| |reflexivity].
  cbn in Ht. repeat (destruct Ht as [<-|Ht]; [discriminate|]). destruct Ht.
Qed.

Lemma is_call_other t t' line ln ln' :
  In t npe_tokens -> In t' npe_tokens -> t <> t' ->
  is_call t line ln = true -> is_call t' line ln' = false.
Proof.
  intros Ht Ht' Hne H. destruct (is_call t' line ln') eqn:E; [|reflexivity].
  destruct (statement_kinds_exclusive t t' line ln ln' Ht Ht' H E) as [E' _]. congruence.
Qed.

Ltac other_calls H :=
  try rewrite (H ARG_TOKEN) by first [discriminate | simpl; tauto];
  try rewrite (H DEFAULT_ARG_TOKEN) by first [discriminate | simpl; tauto];
  try rewrite (H BEGIN_CODE_TOKEN) by first [discriminate | simpl; tauto];
  try rewrite (H END_CODE_TOKEN) by first [discriminate | simpl; tauto];
  try rewrite (H DTYPE_TOKEN) by first [discriminate | simpl; tauto];
  try rewrite (H DOC_TOKEN) by first [discriminate | simpl; tauto];
  try rewrite (H FUNCTION_TOKEN) by first [discriminate | simpl; tauto].

Section Seeking.
Variable tok : string -> string -> Z -> result (list string).

Lemma parse_seek_plain ln pre : forall st rest,
  Forall plain pre ->
  parse_seek tok ln st (pre ++ rest)
  = parse_seek tok ln (set_preamble (_preamble st +:+ kept_lines pre) st) rest.
Proof.
  unfold kept_lines.
  induction pre as [|l pre IH]; intros st rest Hp.
  - cbn [app List.filter concat_str fold_right]. rewrite app_nil_r_str. destruct st; reflexivity.
  - inversion Hp as [|x xs [Hne Hs] Hp']; subst. cbn [app parse_seek].
    destruct (Py.len l =? 0) eqn:E; [apply len_0 in E; congruence|].
    cbn [List.filter]. unfold is_blank at 1.
    destruct (Py.len (Py.strip l) =? 0) eqn:Eb; cbn [negb].
    + apply IH. exact Hp'.
    + rewrite !(is_statement_false l _ (ln + 1) Hs) by (simpl; tauto).
      rewrite IH by exact Hp'. cbn [_preamble set_preamble concat_str fold_right].
      rewrite app_assoc_str. reflexivity.
Qed.

Lemma parse_seek_none ln lines : forall st,
  Forall (fun l => is_statement l = false) lines ->
  exists st' rest, parse_seek tok ln st lines = Ok (st', -1, rest).
Proof.
  induction lines as [|l lines IH]; intros st Hp; cbn [parse_seek]; [eauto|].
  inversion Hp as [|x xs Hs Hp']; subst.
  destruct (Py.len l =? 0); [eauto|].
  destruct (Py.len (Py.strip l) =? 0); [apply IH; exact Hp'|].
  rewrite !(is_statement_false l _ (ln + 1) Hs) by (simpl; tauto).
  apply IH. exact Hp'.
Qed.

Lemma parse_seek_statement ln st l rest t :
  In t npe_tokens -> t <> FUNCTION_TOKEN -> is_call t l (ln + 1) = true ->
  parse_seek tok ln st (l :: rest) = Raise (before_function t (ln + 1)).
Proof.
  intros Ht Hf Hc. cbn [parse_seek].
  pose proof (is_call_nonempty _ _ _ Ht Hc) as Hne.
  destruct (Py.len l =? 0) eqn:E; [apply len_0 in E; congruence|].
  destruct (statement_kinds_exclusive t t l (ln + 1) (ln + 1) Ht Ht Hc Hc) as (_ & Hb & _).
  unfold is_blank in Hb. rewrite Hb.
  assert (Hoth : forall t', In t' npe_tokens -> t <> t' -> is_call t' l (ln + 1) = false).
  { intros t' Ht' Hd. eapply is_call_other; [exact Ht|exact Ht'|exact Hd|exact Hc]. }
  cbn in Ht.
  repeat (destruct Ht as [<-|Ht]; [other_calls Hoth; rewrite ?Hc; first [reflexivity|congruence]|]).
  destruct Ht.
Qed.

Lemma parse_seek_function ln st f rest :
  is_call FUNCTION_TOKEN f (ln + 1) = true ->
  parse_seek tok ln st (f :: rest)
  = let* binding_name := _parse_npe_function_statement tok f (ln + 1) in
    Ok (set_name binding_name st, ln + 1, rest).
Proof.
  intros Hc. cbn [parse_seek].
  assert (Ht : In FUNCTION_TOKEN npe_tokens) by (simpl; tauto).
  pose proof (is_call_nonempty _ _ _ Ht Hc) as Hne.
  destruct (Py.len f =? 0) eqn:E; [apply len_0 in E; congruence|].
  destruct (statement_kinds_exclusive _ _ f (ln + 1) (ln + 1) Ht Ht Hc Hc) as (_ & Hb & _).
  unfold is_blank in Hb. rewrite Hb.
  assert (Hoth : forall t', In t' npe_tokens -> FUNCTION_TOKEN <> t' ->
                            is_call t' f (ln + 1) = false).
  { intros t' Ht' Hd. eapply is_call_other; [exact Ht|exact Ht'|exact Hd|exact Hc]. }
  other_calls Hoth. rewrite Hc. reflexivity.
Qed.

End Seeking.

(** ** What validation establishes *)

Lemma args_sim_trans m1 m2 m3 : args_sim m1 m2 -> args_sim m2 m3 -> args_sim m1 m3.
Proof.
  intros H1 H2 k. specialize (H1 k). specialize (H2 k).
  destruct (m1 !! k), (m2 !! k), (m3 !! k); try tauto.
  eapply arg_sim_trans; eauto.
Qed.

Lemma mix_checked_again self a a' a'' :
  mix_checked self a a' -> mix_checked self a' a'' -> mix_checked self a a''.
Proof.
  intros [H1 ->] [H2 ->]. split; [exact H1|]. 
  destruct (_argument_name_to_group self !! NpeArgument.name a) eqn:E; cbn; rewrite E; reflexivity.
Qed.

Lemma validate_mix_inv names : forall self self',
  validate_mix self names = Ok self' ->
  exists args', self' = set_arguments args' self /\
    (forall k, ~ In k names -> args' !! k = _arguments self !! k) /\
    (forall n, In n names -> exists a a', _arguments self !! n = Some a /\
        args' !! n = Some a' /\ mix_checked self a a').
Proof.
  induction names as [|m names IH]; intros self self' H; cbn [validate_mix] in H.
  - inversion H; subst. exists (_arguments self').
    split; [destruct self'; reflexivity|]. split; [reflexivity|]. intros n [].
  - unfold get_argument in H.
    destruct (_arguments self !! m) as [b|] eqn:Hb; cbn [rbind] in H; [|discriminate].
    destruct (NpeArgument.name_or_type b) as [|t0 r] eqn:Et; cbn [first rbind] in H;
      [discriminate|].
    rewrite check_uniform_spec in H.
    destruct (forallb (same_kind t0) (t0 :: r)) eqn:Hu; cbn [rbind] in H; [|discriminate].
    set (b' := NpeArgument.set_layout _ _ _) in H.
    assert (Hbb : mix_checked self b b').
    { split; [rewrite Et; exact Hu|]. subst b'. rewrite Et. reflexivity. }
    apply IH in H as (args' & -> & Hfr & Hin).
    cbn [_arguments set_arguments _argument_name_to_group] in *.
    exists args'. split; [reflexivity|]. split.
    + intros k Hk. rewrite Hfr by (intros Hk'; apply Hk; right; exact Hk').
      apply lookup_insert_ne. intros ->. apply Hk. left. reflexivity.
    + intros n Hn.
      destruct (In_dec string_dec n names) as [Hr|Hr].
      * destruct (Hin n Hr) as (a1 & a' & Ha1 & Ha' & Hc).
        destruct (decide (m = n)) as [->|Hd].
        -- rewrite lookup_insert_eq in Ha1. inversion Ha1; subst a1.
           exists b, a'. split; [exact Hb|]. split; [exact Ha'|].
           eapply mix_checked_again; [exact Hbb|exact Hc].
        -- rewrite lookup_insert_ne in Ha1 by assumption. eauto.
      * destruct Hn as [->|Hn]; [|contradiction].
        exists b, b'. split; [exact Hb|]. split; [|exact Hbb].
        rewrite Hfr by exact Hr. apply lookup_insert_eq.
Qed.

Lemma match_checked_again self a a' a'' :
  match_checked self a a' -> match_checked self a' a'' -> match_checked self a a''.
Proof.
  unfold match_checked. destruct (NpeArgument.is_matches a) eqn:Ea.
  - intros (gid & g & t0 & r & H1 & H2 & H3 & ->) H.
    cbn [NpeArgument.is_matches NpeArgument.set_layout NpeArgument.name] in H.
    rewrite Ea in H. destruct H as (gid' & g' & t0' & r' & H1' & H2' & H3' & ->).
    rewrite H1 in H1'. inversion H1'; subst gid'. rewrite H2 in H2'. inversion H2'; subst g'.
    rewrite H3 in H3'. inversion H3'; subst t0' r'.
    exists gid, g, t0, r. repeat split; assumption.
  - intros ->. rewrite Ea. auto.
Qed.

Lemma validate_matches_inv names : forall self self',
  validate_matches self names = Ok self' ->
  exists args', self' = set_arguments args' self /\
    (forall k, ~ In k names -> args' !! k = _arguments self !! k) /\
    (forall n, In n names -> exists a a', _arguments self !! n = Some a /\
        args' !! n = Some a' /\ match_checked self a a').
Proof.
  induction names as [|m names IH]; intros self self' H; cbn [validate_matches] in H.
  - inversion H; subst. exists (_arguments self').
    split; [destruct self'; reflexivity|]. split; [reflexivity|]. intros n [].
  - unfold get_argument in H.
    destruct (_arguments self !! m) as [b|] eqn:Hb; cbn [rbind] in H; [|discriminate].
    assert (exists b' args', self' = set_arguments args' self /\
              match_checked self b b' /\
              (forall k, ~ In k names -> args' !! k = <[m := b']> (_arguments self) !! k) /\
              (forall n, In n names -> exists a a',
                  <[m := b']> (_arguments self) !! n = Some a /\
                  args' !! n = Some a' /\ match_checked self a a'))
      as (b' & args' & -> & Hbb & Hfr & Hin).
    { destruct (NpeArgument.is_matches b) eqn:Eb.
      - destruct (_argument_name_to_group self !! NpeArgument.name b) as [gid|] eqn:Hg;
          cbn [rbind] in H; [|discriminate].
        destruct (NpeArgument.name_or_type b) as [|mn r] eqn:Et; cbn [first rbind] in H;
          [discriminate|].
        unfold get_group in H.
        destruct (Py.index (_input_type_groups self) gid) as [g|] eqn:Hi; cbn [rbind] in H;
          [|discriminate].
        destruct (NpeArgumentGroup.types g) as [|t0 ts] eqn:Ety;
          cbn [length Nat.eqb first rbind] in H; [discriminate|].
        apply IH in H as (args' & -> & Hfr & Hin).
        cbn [_arguments set_arguments _argument_name_to_group _input_type_groups] in *.
        eexists _, args'. split; [reflexivity|]. split; [|split; [exact Hfr|exact Hin]].
        unfold match_checked. rewrite Eb. exists gid, g, t0, ts. repeat split; assumption.
      - apply IH in H as (args' & -> & Hfr & Hin).
        exists b, args'. split; [reflexivity|]. split; [unfold match_checked; rewrite Eb; reflexivity|].
        rewrite insert_id by exact Hb. split; assumption. }
    exists args'. split; [reflexivity|]. split.
    + intros k Hk. rewrite Hfr by (intros Hk'; apply Hk; right; exact Hk').
      apply lookup_insert_ne. intros ->. apply Hk. left. reflexivity.
    + intros n Hn.
      destruct (In_dec string_dec n names) as [Hr|Hr].
      * destruct (Hin n Hr) as (a1 & a' & Ha1 & Ha' & Hc).
        destruct (decide (m = n)) as [->|Hd].
        -- rewrite lookup_insert_eq in Ha1. inversion Ha1; subst a1.
           exists b, a'. split; [exact Hb|]. split; [exact Ha'|].
           eapply match_checked_again; [exact Hbb|exact Hc].
        -- rewrite lookup_insert_ne in Ha1 by assumption. eauto.
      * destruct Hn as [->|Hn]; [|contradiction].
        exists b, b'. split; [exact Hb|]. split; [|exact Hbb].
        rewrite Hfr by exact Hr. apply lookup_insert_eq.
Qed.

(** What [_validate] leaves in the record of an argument whose record
    was [a]: the record after the two passes. *)
Lemma _validate_inv st st' :
  _validate st = Ok st' ->
  exists args', st' = set_arguments args' st /\
    (forall k, ~ In k (_argument_names st) -> args' !! k = _arguments st !! k) /\
    (forall n, In n (_argument_names st) -> exists a a1 a',
        _arguments st !! n = Some a /\ args' !! n = Some a' /\
        mix_checked st a a1 /\ match_checked st a1 a').
Proof.
  unfold _validate. intros H.
  destruct (validate_mix st (_argument_names st)) as [s1|] eqn:H1; cbn [rbind] in H;
    [|discriminate].
  apply validate_mix_inv in H1 as (args1 & -> & Hfr1 & Hin1).
  cbn [_argument_names set_arguments] in H.
  apply validate_matches_inv in H as (args' & -> & Hfr & Hin).
  cbn [_arguments set_arguments _argument_name_to_group _input_type_groups] in *.
  exists args'. split; [destruct st; reflexivity|]. split.
  - intros k Hk. rewrite Hfr, Hfr1 by exact Hk. reflexivity.
  - intros n Hn. destruct (Hin1 n Hn) as (a & a1 & Ha & Ha1 & Hc1).
    destruct (Hin n Hn) as (a1' & a' & Ha1' & Ha' & Hc).
    rewrite Ha1 in Ha1'. inversion Ha1'; subst a1'.
    exists a, a1, a'. split; [exact Ha|]. split; [exact Ha'|].
    split; [exact Hc1|exact Hc].
Qed.

Lemma uniform_no_mix l : uniform_types l = true -> mixes l = false.
Proof.
  intros H. destruct (mixes l) eqn:E; [|reflexivity].
  apply mixes_not_uniform in E as [E _]. congruence.
Qed.

Lemma layout_exclusive t : is_sparse_type t && is_dense_type t = false.
Proof.
  destruct (is_sparse_type t) eqn:Es, (is_dense_type t) eqn:Ed; try reflexivity.
  destruct (sparse_dense_exclusive t Es Ed).
Qed.

(** X22: what a successful [_validate] establishes.  Every argument name
    of the binding has a record with at least one type token; every
    token of the record passes the tests [is_sparse_type] and
    [is_dense_type] like the first one, so that no token passes the one
    test while another passes the other; and the record of a matches()
    argument is registered in a group that has a candidate type.  (The
    two tests look at the tokens as they are written: a token in
    capitals passes neither.) *)
Theorem X22_validate_sound (st st' : NpeFunction.t) (n : string) :
  _validate st = Ok st' -> In n (_argument_names st) ->
  exists a t0 r,
    _arguments st !! n = Some a /\
    NpeArgument.name_or_type a = t0 :: r /\
    Forall (fun t => is_sparse_type t = is_sparse_type t0 /\
                     is_dense_type t = is_dense_type t0) (t0 :: r) /\
    (forall t t', In t (t0 :: r) -> In t' (t0 :: r) ->
                  is_sparse_type t = true -> is_dense_type t' = false) /\
    matched st a.
Proof.
  intros H Hn. apply _validate_inv in H as (args' & -> & _ & Hin).
  destruct (Hin n Hn) as (a & a1 & a' & Ha & _ & [Hu Ha1] & Hm).
  unfold uniform_types in Hu.
  destruct (NpeArgument.name_or_type a) as [|t0 r] eqn:Et; [discriminate|].
  assert (Hall : Forall (fun t => is_sparse_type t = is_sparse_type t0 /\
                                  is_dense_type t = is_dense_type t0) (t0 :: r)).
  { apply Forall_forall. intros t Ht. apply list_elem_of_In in Ht.
    rewrite forallb_forall in Hu. specialize (Hu t Ht). unfold same_kind in Hu.
    apply andb_prop in Hu as [H1 H2]. split; apply Bool.eqb_prop; assumption. }
  exists a, t0, r. split; [exact Ha|]. split; [exact Et|]. split; [exact Hall|].
  split.
  - intros t t' Ht Ht' Hs. rewrite Forall_forall in Hall.
    destruct (Hall t (proj2 (list_elem_of_In _ _) Ht)) as [E1 _].
    destruct (Hall t' (proj2 (list_elem_of_In _ _) Ht')) as [_ E2].
    rewrite E2. rewrite Hs in E1.
    pose proof (layout_exclusive t0) as Hx. rewrite <- E1 in Hx. exact Hx.
  - intros Hma. unfold match_checked in Hm.
    assert (E1 : NpeArgument.is_matches a1 = true /\ NpeArgument.name a1 = NpeArgument.name a).
    { subst a1. destruct (_argument_name_to_group st !! NpeArgument.name a); cbn; auto. }
    destruct E1 as [E1 E2]. rewrite E1, E2 in Hm.
    destruct Hm as (gid & g & t1 & r1 & H1 & H2 & H3 & _).
    exists gid, g. split; [exact H1|]. split; [exact H2|]. rewrite H3. discriminate.
Qed.

(** X23: what [_validate] changes.  The name, the groups, the table, the
    argument names and the texts of the binding are kept, and so are the
    records stored under other keys than the argument names.  In the
    record of an argument only [group], [is_sparse] and [is_dense] change:
    [group] becomes the table entry of the argument where there is one;
    the flags are those of the first type of the argument, or for a
    matches() argument those of the first candidate type of its group;
    the two flags are never both set. *)
Theorem X23_validate_result (st st' : NpeFunction.t) :
  _validate st = Ok st' ->
  (name st' = name st /\ _input_type_groups st' = _input_type_groups st /\
   _argument_name_to_group st' = _argument_name_to_group st /\
   _argument_names st' = _argument_names st /\
   _source_code st' = _source_code st /\ _preamble st' = _preamble st /\
   _docstr st' = _docstr st) /\
  (forall k, ~ In k (_argument_names st) -> _arguments st' !! k = _arguments st !! k) /\
  (forall n, In n (_argument_names st) ->
   exists a a', _arguments st !! n = Some a /\ _arguments st' !! n = Some a' /\
     (NpeArgument.name a' = NpeArgument.name a /\
      NpeArgument.is_matches a' = NpeArgument.is_matches a /\
      NpeArgument.name_or_type a' = NpeArgument.name_or_type a /\
      NpeArgument.line_number a' = NpeArgument.line_number a /\
      NpeArgument.default_value a' = NpeArgument.default_value a /\
      NpeArgument.matches_name a' = NpeArgument.matches_name a) /\
     NpeArgument.group a'
       = match _argument_name_to_group st !! NpeArgument.name a with
         | Some g => Some g
         | None => NpeArgument.group a
         end /\
     NpeArgument.is_sparse a' && NpeArgument.is_dense a' = false /\
     (NpeArgument.is_matches a = false ->
        NpeArgument.is_sparse a' = is_sparse_type (hd "" (NpeArgument.name_or_type a)) /\
        NpeArgument.is_dense a' = is_dense_type (hd "" (NpeArgument.name_or_type a))) /\
     (NpeArgument.is_matches a = true ->
        exists gid g t0 r,
          _argument_name_to_group st !! NpeArgument.name a = Some gid /\
          Py.index (_input_type_groups st) gid = Some g /\
          NpeArgumentGroup.types g = t0 :: r /\
          NpeArgument.is_sparse a' = is_sparse_type t0 /\
          NpeArgument.is_dense a' = is_dense_type t0)).
Proof.
  intros H. apply _validate_inv in H as (args' & -> & Hfr & Hin).
  split; [repeat split|]. split; [exact Hfr|].
  intros n Hn. destruct (Hin n Hn) as (a & a1 & a' & Ha & Ha' & [Hu Ha1] & Hm).
  exists a, a'. split; [exact Ha|]. split; [exact Ha'|].
  unfold match_checked in Hm.
  assert (E1 : NpeArgument.is_matches a1 = NpeArgument.is_matches a /\
               NpeArgument.name a1 = NpeArgument.name a).
  { subst a1. destruct (_argument_name_to_group st !! NpeArgument.name a); cbn; auto. }
  destruct E1 as [E1 E2]. rewrite E1, E2 in Hm.
  destruct (NpeArgument.is_matches a) eqn:Ema.
  - destruct Hm as (gid & g & t0 & r & H1 & H2 & H3 & ->). subst a1. rewrite H1.
    cbn. rewrite Ema. split; [repeat split|]. split; [reflexivity|].
    split; [apply layout_exclusive|]. split; [discriminate|].
    intros _. exists gid, g, t0, r. repeat split; assumption.
  - subst a' a1.
    destruct (_argument_name_to_group st !! NpeArgument.name a); cbn; rewrite Ema;
      (split; [repeat split|]); (split; [reflexivity|]);
      (split; [apply layout_exclusive|]); (split; [auto|discriminate]).
Qed.

(** X22 at [Examples.shared_group] and its argument [b]. *)
Lemma X22_witness :
  _validate (Examples.parsed_binding Examples.shared_group)
    = Ok (Examples.binding Examples.shared_group) /\
  exists b, _arguments (Examples.parsed_binding Examples.shared_group) !! "b" = Some b /\
    matched (Examples.parsed_binding Examples.shared_group) b.
Proof.
  assert (Hv : _validate (Examples.parsed_binding Examples.shared_group)
    = Ok (Examples.binding Examples.shared_group)) by (vm_compute; reflexivity).
  split; [exact Hv|].
  destruct (X22_validate_sound _ _ "b" Hv) as (b & t0 & r & Hb & _ & _ & _ & Hm).
  - vm_compute; tauto.
  - exists b. split; [exact Hb|exact Hm].
Defined.

(** X23 at [Examples.shared_group]. *)
Lemma X23_witness :
  _validate (Examples.parsed_binding Examples.shared_group)
    = Ok (Examples.binding Examples.shared_group) /\
  _input_type_groups (Examples.binding Examples.shared_group)
    = _input_type_groups (Examples.parsed_binding Examples.shared_group).
Proof.
  assert (Hv : _validate (Examples.parsed_binding Examples.shared_group)
    = Ok (Examples.binding Examples.shared_group)) by (vm_compute; reflexivity).
  split; [exact Hv|].
  exact (proj1 (proj2 (proj1 (X23_validate_result _ _ Hv)))).
Defined.

(** ** Completion of the generator *)

Section Completion.
Variable fn : NpeFunction.t.
Variable input_file_name : string.

Lemma fold_arguments_total (body : string -> NpeArgument.t -> result string) names :
  (forall n a acc, In n names -> _arguments fn !! n = Some a ->
                   exists s, body acc a = Ok s) ->
  (forall n, In n names -> is_Some (_arguments fn !! n)) ->
  forall acc, exists s, fold_arguments fn body acc names = Ok s.
Proof.
  induction names as [|n names IH]; intros Hb Hn acc; cbn [fold_arguments].
  - eauto.
  - destruct (Hn n (or_introl eq_refl)) as [a Ha]. unfold get_argument. rewrite Ha.
    cbn [rbind]. destruct (Hb n a acc (or_introl eq_refl) Ha) as [s Hs]. rewrite Hs.
    cbn [rbind]. apply IH.
    + intros m b acc' Hm. apply Hb. right. exact Hm.
    + intros m Hm. apply Hn. right. exact Hm.
Qed.

Lemma wfor_arguments_total (body : Z -> NpeArgument.t -> W unit) names :
  (forall n a i out, In n names -> _arguments fn !! n = Some a ->
                     exists out', body i a out = (out', Ok tt)) ->
  (forall n, In n names -> is_Some (_arguments fn !! n)) ->
  forall i out, exists out', wfor_arguments fn body i names out = (out', Ok tt).
Proof.
  induction names as [|n names IH]; intros Hb Hn i out; cbn [wfor_arguments].
  - eexists. reflexivity.
  - destruct (Hn n (or_introl eq_refl)) as [a Ha]. unfold wbind, lift, get_argument.
    rewrite Ha. destruct (Hb n a i out (or_introl eq_refl) Ha) as [o1 H1]. rewrite H1.
    apply IH.
    + intros m b j o Hm. apply Hb. right. exact Hm.
    + intros m Hm. apply Hn. right. exact Hm.
Qed.

Lemma has_array_loop_total names :
  (forall n, In n names -> exists a, _arguments fn !! n = Some a /\
                                     NpeArgument.name_or_type a <> []) ->
  exists b, has_array_loop fn names = Ok b.
Proof.
  induction names as [|n names IH]; intros Hn; cbn [has_array_loop]; [eauto|].
  destruct (Hn n (or_introl eq_refl)) as (a & Ha & Hne). unfold get_argument. rewrite Ha.
  cbn [rbind]. destruct (NpeArgument.name_or_type a) as [|t0 r]; [congruence|].
  cbn [first rbind]. destruct (_ || _); [eauto|].
  apply IH. intros m Hm. apply Hn. right. exact Hm.
Qed.

Lemma pretty_types_total l :
  Forall (fun ty => is_Some (assoc ty NUMPY_ARRAY_TYPES_TO_CPP)) l ->
  exists p, pretty_types l = Ok p /\ length p = length l.
Proof.
  induction 1 as [|t l [e He] _ (p & Hp & Hl)]; cbn [pretty_types]; [eauto|].
  unfold catalog. rewrite He. cbn [rbind]. rewrite Hp. cbn [rbind].
  eexists. split; [reflexivity|]. cbn. f_equal. exact Hl.
Qed.

Lemma type_guard_total members l : forall n i s,
  members <> [] ->
  Forall (fun ty => is_Some (assoc ty NUMPY_ARRAY_TYPES_TO_CPP)) l ->
  exists s', type_guard members n i l s = Ok s'.
Proof.
  induction l as [|t l IH]; intros n i s Hm Hl; cbn [type_guard]; [eauto|].
  inversion Hl as [|x xs [e He] Hl']; subst.
  destruct members as [|v0 vs]; [congruence|]. cbn [first rbind].
  unfold type_char_for_numpy_type, catalog. rewrite He. cbn [rbind].
  apply IH; [discriminate|exact Hl'].
Qed.

Lemma write_group_guards_total g out :
  expandable g -> NpeArgumentGroup.types g <> [] ->
  exists out', write_group_guards g out = (out', Ok tt).
Proof.
  intros [Hm Hc] Ht. unfold write_group_guards.
  destruct (pretty_types_total _ Hc) as (p & Hp & Hl).
  destruct (type_guard_total (NpeArgumentGroup.arguments g) (NpeArgumentGroup.types g)
              (Z.of_nat (length (NpeArgumentGroup.types g))) 0 "if (" Hm Hc) as [s Hs].
  unfold wbind, lift. rewrite Hp, Hs.
  destruct p as [|p0 ps]; [destruct (NpeArgumentGroup.types g); [congruence|discriminate Hl]|].
  cbn [first]. destruct (NpeArgumentGroup.arguments g) as [|v0 vs] eqn:Ev; [congruence|].
  cbn [first write length py_assert Nat.leb]. 
  destruct (_ =? _)%nat; unfold wret, write; eauto.
Qed.

Lemma write_code_function_definition_total out :
  generable fn -> exists out', write_code_function_definition fn out = (out', Ok tt).
Proof.
  intros [Hn _ _]. unfold write_code_function_definition.
  assert (Hdom : forall n, In n (_argument_names fn) -> is_Some (_arguments fn !! n)).
  { intros n Hin. destruct (Hn n Hin) as (a & Ha & _). eauto. }
  match goal with |- context [fold_arguments fn ?b "template <" _] =>
    destruct (fold_arguments_total b (_argument_names fn)) with (acc := "template <")
      as [s1 H1]; [|exact Hdom|] end.
  { intros n a acc _ _. destruct (NpeArgument.is_numpy_type a); eauto. }
  unfold wbind at 1. unfold lift at 1. rewrite H1.
  destruct (has_array_loop_total (_argument_names fn)) as [b Hb].
  { intros n Hin. destruct (Hn n Hin) as (a & Ha & Hne & _). eauto. }
  unfold wbind at 1. unfold lift at 1. unfold has_array_arguments. rewrite Hb.
  match goal with |- context [fold_arguments fn ?b "" _] =>
    destruct (fold_arguments_total b (_argument_names fn)) with (acc := "")
      as [s2 H2]; [|exact Hdom|] end.
  { intros n a acc Hin Ha. destruct (NpeArgument.is_numpy_type a); [eauto|].
    destruct (Hn n Hin) as (a' & Ha' & Hne & _). rewrite Ha in Ha'. inversion Ha'; subst a'.
    destruct (NpeArgument.name_or_type a); [congruence|]. cbn. eauto. }
  unfold wbind, lift, write, wret. rewrite H2. destruct b; eauto.
Qed.

Lemma write_declaration_total out :
  generable fn -> exists out', write_declaration fn input_file_name out = (out', Ok tt).
Proof.
  intros Hg. pose proof Hg as [Hn Hgr _]. unfold write_declaration.
  assert (Hdom : forall n, In n (_argument_names fn) -> is_Some (_arguments fn !! n)).
  { intros n Hin. destruct (Hn n Hin) as (a & Ha & _). eauto. }
  unfold wbind at 1. unfold write at 1.
  destruct (write_code_function_definition_total (out +:+ (_preamble fn +:+ Py.nl)) Hg)
    as [o1 H1].
  unfold wbind at 1. rewrite H1.
  do 4 (unfold wbind at 1; unfold write at 1).
  unfold wbind at 1.
  match goal with |- context [wfor_arguments fn ?b 0 _ ?o] =>
    destruct (wfor_arguments_total b (_argument_names fn)) with (i := 0) (out := o)
      as [o2 H2]; [|exact Hdom|] end.
  { intros n a i o Hin Ha.
    destruct (Hn n Hin) as (a' & Ha' & Hne & Hlen). rewrite Ha in Ha'. inversion Ha'; subst a'.
    unfold wbind, write, lift.
    destruct (NpeArgument.is_sparse a) eqn:Es; [eauto|].
    destruct (NpeArgument.is_dense a) eqn:Ed; [eauto|].
    rewrite Hlen by (unfold NpeArgument.is_numpy_type; rewrite Es, Ed; reflexivity).
    cbn [Nat.eqb py_assert]. destruct (NpeArgument.name_or_type a); [congruence|].
    cbn [first]. eauto. }
  rewrite H2. unfold wbind at 1.
  match goal with |- context [wfor_arguments fn ?b 0 _ ?o] =>
    destruct (wfor_arguments_total b (_argument_names fn)) with (i := 0) (out := o)
      as [o3 H3]; [|exact Hdom|] end.
  { intros n a i o _ _. destruct (NpeArgument.is_numpy_type a).
    - unfold write_probes, write_flags_getter, write_type_id_getter, wbind, write. eauto.
    - unfold wret. eauto. }
  rewrite H3.
  apply wfor_ok. intros g o Hin. rewrite Forall_forall in Hgr.
  destruct (Hgr g (proj2 (list_elem_of_In _ _) Hin)) as [He Ht].
  apply write_group_guards_total; assumption.
Qed.

Lemma generable_has : generable fn -> exists b, has_array_arguments fn = Ok b.
Proof.
  intros [Hn _ _]. apply has_array_loop_total.
  intros n Hin. destruct (Hn n Hin) as (a & Ha & Hne & _). eauto.
Qed.


Lemma write_body_total out :
  generable fn -> exists out', write_body fn out = (out', Ok tt).
Proof.
  intros Hg. destruct (generable_has Hg) as [b Hb]. pose proof Hg as [Hn Hgr Hsc].
  destruct b.
  - assert (Hd : dispatchable fn).
    { constructor; [exact Hb| |].
      - intros n Hin. destruct (Hn n Hin) as (a & Ha & _). eauto.
      - eapply Forall_impl; [exact Hgr|]. intros g [He _]. exact He. }
    destruct (write_body_text fn out Hd) as (call & _ & H). eauto.
  - unfold write_body. unfold wbind at 1. unfold lift at 1. rewrite Hb.
    unfold group_combos. rewrite (Hsc Hb). cbn [map product_n length Nat.eqb py_assert].
    unfold wbind, lift, write, wret, wfor. cbn. eauto.
Qed.

Lemma write_end_total out :
  generable fn -> exists out', write_end fn out = (out', Ok tt).
Proof.
  intros [Hn _ _]. unfold write_end.
  match goal with |- context [fold_arguments fn ?b "" _] =>
    destruct (fold_arguments_total b (_argument_names fn)) with (acc := "")
      as [s1 H1] end.
  { intros n a acc _ _. eauto. }
  { intros n Hin. destruct (Hn n Hin) as (a & Ha & _). eauto. }
  unfold wbind, lift, write, wret. rewrite H1.
  destruct (0 <? Py.len (docstring fn)); eauto.
Qed.


(** The generator completes on a generable binding. *)
Lemma codegen_ast_total (out : string) :
  generable fn -> exists out', codegen_ast fn input_file_name out = (out', Ok tt).
Proof.
  intros Hg. unfold codegen_ast.
  destruct (write_declaration_total out Hg) as [o1 H1].
  unfold wbind at 1. rewrite H1.
  destruct (write_body_total o1 Hg) as [o2 H2].
  unfold wbind at 1. rewrite H2.
  apply write_end_total. exact Hg.
Qed.

End Completion.



(** ** Steps of the groups *)

Lemma index_position {A} (l : list A) i x :
  Py.index l i = Some x ->
  l !! position l i = Some x /\
  forall y, Py.set_index l i y = Some (<[position l i := y]> l).
Proof.
  unfold Py.index, Py.set_index, position. intros H.
  destruct (0 <=? i) eqn:E0; cbn [andb] in *.
  - destruct (i <? Z.of_nat (length l)); [auto|].
    destruct (- Z.of_nat (length l) <=? i), (i <? 0) eqn:E1; cbn [andb] in H;
      try discriminate. zbool. lia.
  - destruct (_ && _); [auto|discriminate].
Qed.

Lemma update_group_position self gid f self' :
  update_group self gid f = Ok self' ->
  exists g, Py.index (_input_type_groups self) gid = Some g /\
    _input_type_groups self !! position (_input_type_groups self) gid = Some g /\
    self' = set_groups
              (<[position (_input_type_groups self) gid := f g]> (_input_type_groups self))
              self.
Proof.
  unfold update_group, get_group. intros H.
  destruct (Py.index _ gid) as [g|] eqn:Hg; [|discriminate]. cbn [rbind] in H.
  destruct (index_position _ _ _ Hg) as (Hk & Hs). rewrite Hs in H.
  inversion H; subst. eauto.
Qed.

Lemma position_length {A} (l l' : list A) i :
  length l' = length l -> position l' i = position l i.
Proof. unfold position. intros ->. reflexivity. Qed.

Lemma declare_array_types_step self stmt ln v tys self' gid :
  declare_array_types self stmt ln v tys = Ok (self', gid) ->
  array_step v tys (_input_type_groups self) (_input_type_groups self').
Proof.
  unfold declare_array_types. intros H.
  destruct (check_numpy_types stmt ln tys); cbn [rbind] in H; [|discriminate].
  destruct (_argument_name_to_group self !! v) as [g0|] eqn:Hm.
  - destruct (get_group self g0) as [g|] eqn:Hg; cbn [rbind] in H; [|discriminate].
    destruct (length (NpeArgumentGroup.types g) =? 0)%nat eqn:El;
      cbn [py_assert rbind] in H; [|discriminate].
    destruct (update_group self g0 _) as [s1|] eqn:Hu; cbn [rbind] in H; [|discriminate].
    destruct (group_append s1 g0 v) as [s2|] eqn:Ha; cbn [rbind] in H; [|discriminate].
    inversion H; subst; clear H.
    apply update_group_position in Hu as (g1 & Hi1 & Hk1 & ->).
    unfold get_group in Hg. rewrite Hi1 in Hg. inversion Hg; subst g1.
    unfold group_append in Ha.
    apply update_group_position in Ha as (g2 & Hi2 & Hk2 & ->).
    cbn [_input_type_groups set_groups] in *.
    rewrite (position_length (_input_type_groups self)) in * by apply length_insert.
    rewrite list_lookup_insert_eq in Hk2 by (eapply lookup_lt_Some; exact Hk1).
    inversion Hk2; subst g2. cbn [NpeArgumentGroup.arguments NpeArgumentGroup.types].
    left. exists (position (_input_type_groups self) gid), g.
    split; [exact Hk1|]. split; [destruct (NpeArgumentGroup.types g); [reflexivity|discriminate]|].
    apply list_insert_insert_eq.
  - cbn [NpeFunction._input_type_groups NpeFunction.set_groups
         NpeFunction._argument_name_to_group NpeFunction.set_name_to_group] in H.
    unfold update_group, get_group in H.
    cbn [NpeFunction._input_type_groups NpeFunction.set_groups
         NpeFunction._argument_name_to_group NpeFunction.set_name_to_group] in H.
    rewrite index_last in H. cbn [rbind] in H. rewrite set_index_last in H.
    inversion H; subst; clear H. right. reflexivity.
Qed.

Lemma declare_single_type_step self ln v tys meta self' meta' gid :
  declare_single_type self ln v tys meta = Ok (self', meta', gid) ->
  exists t, tys = [t] /\
    ((Py.startswith t MATCHES_TOKEN = true /\
      matches_step v (_input_type_groups self) (_input_type_groups self')) \/
     (Py.startswith t MATCHES_TOKEN = false /\
      _input_type_groups self' = _input_type_groups self)).
Proof.
  unfold declare_single_type. intros H.
  destruct tys as [|t [|t' tys]]; cbn [length Nat.eqb py_assert rbind hd] in H;
    try discriminate.
  exists t. split; [reflexivity|].
  destruct (Py.startswith t MATCHES_TOKEN) eqn:Es.
  2:{ inversion H; subst. right. split; reflexivity. }
  left. split; [reflexivity|].
  destruct (_parse_matches_statement _ _) as [mn|]; cbn [rbind] in H; [|discriminate].
  destruct (_argument_name_to_group self !! mn) as [g0|] eqn:Hm.
  - destruct (group_append _ g0 v) as [s1|] eqn:Ha; cbn [rbind] in H; [|discriminate].
    inversion H; subst; clear H. unfold group_append in Ha.
    apply update_group_position in Ha as (g2 & Hi2 & Hk2 & ->).
    cbn [_input_type_groups set_groups set_name_to_group] in *.
    left. eauto.
  - inversion H; subst; clear H. right. reflexivity.
Qed.

Lemma In_insert_inv {A} (l : list A) k x y : In y (<[k := x]> l) -> y = x \/ In y l.
Proof.
  revert k. induction l as [|a l IH]; intros k H; [destruct H|].
  destruct k as [|k]; cbn in H.
  - destruct H as [<-|H]; [left; reflexivity|right; right; exact H].
  - destruct H as [<-|H]; [right; left; reflexivity|].
    destruct (IH k H) as [E|Hin]; [left; exact E|right; right; exact Hin].
Qed.

Lemma In_insert_other {A} (l : list A) k g x g0 :
  l !! k = Some g -> In g0 l -> g0 = g \/ In g0 (<[k := x]> l).
Proof.
  revert k. induction l as [|a l IH]; intros k Hk H; [destruct H|].
  destruct k as [|k]; cbn in Hk |- *.
  - inversion Hk; subst a. destruct H as [<-|H]; [left; reflexivity|right; right; exact H].
  - destruct H as [<-|H]; [right; left; reflexivity|].
    destruct (IH k Hk H) as [E|Hin]; [left; exact E|right; right; exact Hin].
Qed.

Lemma In_insert_new {A} (l : list A) k g x : l !! k = Some g -> In x (<[k := x]> l).
Proof.
  intros Hk. apply list_elem_of_In. apply list_elem_of_insert.
  eapply lookup_lt_Some. exact Hk.
Qed.

Lemma lookup_In {A} (l : list A) k g : l !! k = Some g -> In g l.
Proof. intros H. apply list_elem_of_In. eapply list_elem_of_lookup_2. exact H. Qed.

Lemma array_step_types v tys l l' g0 :
  array_step v tys l l' -> In g0 l -> NpeArgumentGroup.types g0 <> [] ->
  In g0 l'.
Proof.
  intros [(k & g & Hk & Ht & ->)| ->] Hin Hne.
  - destruct (In_insert_other l k g
                (NpeArgumentGroup.mk (NpeArgumentGroup.arguments g ++ [v]) tys)
                g0 Hk Hin) as [->|H]; [congruence|exact H].
  - apply in_or_app. left. exact Hin.
Qed.

Lemma array_step_new v tys l l' :
  array_step v tys l l' -> exists g, In g l' /\ NpeArgumentGroup.types g = tys.
Proof.
  intros [(k & g & Hk & Ht & ->)| ->].
  - eexists. split; [eapply In_insert_new; exact Hk|reflexivity].
  - eexists. split; [apply in_or_app; right; left; reflexivity|reflexivity].
Qed.

Lemma array_step_members v tys l l' g' m :
  array_step v tys l l' -> In g' l' -> In m (NpeArgumentGroup.arguments g') ->
  m = v \/ exists g, In g l /\ In m (NpeArgumentGroup.arguments g).
Proof.
  intros [(k & g & Hk & Ht & ->)| ->] Hin Hm.
  - apply In_insert_inv in Hin as [->|Hin]; [|right; eauto].
    cbn in Hm. apply in_app_or in Hm as [Hm|[<-|[]]]; [right|left; reflexivity].
    exists g. split; [eapply lookup_In; exact Hk|exact Hm].
  - apply in_app_or in Hin as [Hin|[<-|[]]]; [right; eauto|].
    cbn in Hm. destruct Hm as [<-|[]]. left. reflexivity.
Qed.

Lemma matches_step_types v l l' g0 :
  matches_step v l l' -> In g0 l ->
  exists g', In g' l' /\ NpeArgumentGroup.types g' = NpeArgumentGroup.types g0.
Proof.
  intros [(k & g & Hk & ->)| ->] Hin.
  - destruct (In_insert_other l k g
                (NpeArgumentGroup.mk (NpeArgumentGroup.arguments g ++ [v])
                                     (NpeArgumentGroup.types g)) g0 Hk Hin) as [->|H].
    + eexists. split; [eapply In_insert_new; exact Hk|reflexivity].
    + eauto.
  - exists g0. split; [apply in_or_app; left; exact Hin|reflexivity].
Qed.

Lemma matches_step_members v l l' g' m :
  matches_step v l l' -> In g' l' -> In m (NpeArgumentGroup.arguments g') ->
  m = v \/ exists g, In g l /\ In m (NpeArgumentGroup.arguments g).
Proof.
  intros [(k & g & Hk & ->)| ->] Hin Hm.
  - apply In_insert_inv in Hin as [->|Hin]; [|right; eauto].
    cbn in Hm. apply in_app_or in Hm as [Hm|[<-|[]]]; [right|left; reflexivity].
    exists g. split; [eapply lookup_In; exact Hk|exact Hm].
  - apply in_app_or in Hin as [Hin|[<-|[]]]; [right; eauto|].
    cbn in Hm. destruct Hm as [<-|[]]. left. reflexivity.
Qed.

(** ** Records and groups of a parsed binding *)

Lemma declare_single_type_meta self ln v t meta self' meta' gid :
  declare_single_type self ln v [t] meta = Ok (self', meta', gid) ->
  NpeArgument.name_or_type meta' = NpeArgument.name_or_type meta /\
  (Py.startswith t MATCHES_TOKEN = true -> NpeArgument.is_matches meta' = true) /\
  (Py.startswith t MATCHES_TOKEN = false -> meta' = meta).
Proof.
  unfold declare_single_type. intros H.
  cbn [length Nat.eqb py_assert rbind hd] in H.
  destruct (Py.startswith t MATCHES_TOKEN) eqn:Es.
  2:{ inversion H; subst. split; [reflexivity|]. split; [discriminate|reflexivity]. }
  destruct (_parse_matches_statement _ _) as [mn|]; cbn [rbind] in H; [|discriminate].
  destruct (_argument_name_to_group self !! mn) as [g0|] eqn:Hm.
  - destruct (group_append _ g0 v) as [s1|] eqn:Ha; cbn [rbind] in H; [|discriminate].
    inversion H; subst; clear H. split; [reflexivity|]. split; [reflexivity|discriminate].
  - inversion H; subst; clear H. split; [reflexivity|]. split; [reflexivity|discriminate].
Qed.

Section Links.
Variable tok : string -> string -> Z -> result (list string).

(** What one argument statement does to the binding. *)
Lemma parse_arg_step self line ln d self' r :
  _parse_arg_statement tok self line ln d = Ok (self', r) ->
  exists v a,
    _argument_names self' = _argument_names self ++ [v] /\
    _arguments self' = <[v := a]> (_arguments self) /\
    ((array_shape a /\
      array_step v (NpeArgument.name_or_type a)
                 (_input_type_groups self) (_input_type_groups self')) \/
     (matches_shape a /\
      matches_step v (_input_type_groups self) (_input_type_groups self')) \/
     (scalar_shape a /\ _input_type_groups self' = _input_type_groups self)).
Proof.
  intros H. unfold _parse_arg_statement in H.
  destruct (tok _ _ _) as [tokens|] eqn:Etok; cbn [rbind] in H; [|discriminate].
  destruct tokens as [|var_name toks]; cbn [rbind tail first] in H; [discriminate|].
  set (stmt := if d then DEFAULT_ARG_TOKEN else ARG_TOKEN) in *.
  destruct (if d then _ else _) as [[var_value var_types]|] eqn:Ev in H;
    cbn [rbind] in H; [|discriminate].
  destruct (length var_types =? 0)%nat eqn:Elen; [discriminate|].
  assert (Hty : var_types <> []) by (destruct var_types; [discriminate|congruence]).
  set (meta := NpeArgument.init var_name false var_types ln var_value) in *.
  exists var_name.
  destruct (_ || _) eqn:Eor.
  - destruct (declare_array_types _ _ _ _ _) as [[s1 gid]|] eqn:Ed;
      cbn [rbind] in H; [|discriminate].
    destruct (if 0 <=? gid then _ else _) as [grp|]; cbn [rbind] in H; [|discriminate].
    inversion H; subst self' r; clear H.
    pose proof (declare_array_types_spec _ _ _ _ _ _ _ Ed) as ((_ & En & Ea & _) & _).
    pose proof (declare_array_types_step _ _ _ _ _ _ _ Ed) as Hstep.
    assert (Hnum : Forall (fun t => is_numpy_type t = true) var_types).
    { unfold declare_array_types in Ed.
      destruct (check_numpy_types stmt ln var_types) as [[]|] eqn:Hc; [|discriminate Ed].
      apply check_numpy_types_ok in Hc. exact Hc. }
    eexists. cbn [_argument_names _arguments set_arguments set_argument_names _input_type_groups].
    rewrite En, Ea. split; [reflexivity|]. split; [reflexivity|].
    left. split; [|exact Hstep]. split; [reflexivity|]. split; [exact Hty|exact Hnum].
  - destruct (declare_single_type _ _ _ _ _) as [[[s1 meta1] gid]|] eqn:Ed;
      cbn [rbind] in H; [|discriminate].
    destruct (if 0 <=? gid then _ else _) as [grp|]; cbn [rbind] in H; [|discriminate].
    inversion H; subst self' r; clear H.
    pose proof (declare_single_type_spec _ _ _ _ _ _ _ _ Ed) as ((_ & En & Ea & _) & _).
    destruct (declare_single_type_step _ _ _ _ _ _ _ _ Ed) as (t & Et & Hstep).
    subst var_types.
    destruct (declare_single_type_meta _ _ _ _ _ _ _ _ Ed) as (Hnt & Hm1 & Hm2).
    eexists. cbn [_argument_names _arguments set_arguments set_argument_names _input_type_groups].
    rewrite En, Ea. split; [reflexivity|]. split; [reflexivity|].
    destruct Hstep as [[Es Hstep]|[Es Hg]].
    + right. left. split; [|exact Hstep]. split; [cbn; apply Hm1; exact Es|].
      exists t. split; [cbn; rewrite Hnt; reflexivity|exact Es].
    + right. right. split; [|exact Hg]. rewrite (Hm2 Es). split; [reflexivity|].
      exists t. split; [reflexivity|]. split; [|exact Es].
      cbn [length Nat.eqb Nat.ltb Nat.leb hd orb andb] in Eor. exact Eor.
Qed.

Lemma shape_exclusive a :
  array_shape a -> ~ matches_shape a /\ ~ scalar_shape a.
Proof.
  intros (Hm & Hne & Hall). split.
  - intros [Hm' _]. congruence.
  - intros (_ & t & Et & Hn & _). rewrite Et in Hall. inversion Hall; congruence.
Qed.

Lemma parse_arg_linked self line ln d self' r :
  shaped self -> linked self ->
  _parse_arg_statement tok self line ln d = Ok (self', r) -> linked self'.
Proof.
  intros Hs [L1 L2] H.
  destruct (parse_arg_step _ _ _ _ _ _ H) as (v & a & En & Ea & Hcase).
  constructor.
  - intros n a0 Ha0 Hsh. rewrite Ea in Ha0.
    destruct (decide (v = n)) as [->|Hd].
    + rewrite lookup_insert_eq in Ha0. inversion Ha0; subst a0.
      destruct (shape_exclusive a Hsh) as [N1 N2].
      destruct Hcase as [[_ Hstep]|[[Hx _]|[Hx _]]]; [|contradiction|contradiction].
      apply array_step_new in Hstep. exact Hstep.
    + rewrite lookup_insert_ne in Ha0 by assumption.
      destruct (L1 n a0 Ha0 Hsh) as (g & Hg & Ht).
      assert (Hne : NpeArgumentGroup.types g <> []).
      { rewrite Ht. destruct Hsh as (_ & Hne & _). exact Hne. }
      destruct Hcase as [[_ Hstep]|[[_ Hstep]|[_ Hg']]].
      * exists g. split; [eapply array_step_types; eauto|exact Ht].
      * destruct (matches_step_types _ _ _ g Hstep Hg) as (g' & Hg' & Ht').
        exists g'. split; [exact Hg'|congruence].
      * exists g. rewrite Hg'. split; assumption.
  - rewrite En. intros Hnd g' m Hg' Hm.
    apply NoDup_app in Hnd as (Hnd & Hdisj & _).
    assert (Hv : ~ In v (_argument_names self)).
    { intros Hin. apply (Hdisj v); [apply list_elem_of_In; exact Hin|].
      apply list_elem_of_In. left. reflexivity. }
    assert (Hold : forall g, In g (_input_type_groups self) ->
                   In m (NpeArgumentGroup.arguments g) ->
                   exists a0, _arguments self' !! m = Some a0 /\
                              (array_shape a0 \/ matches_shape a0)).
    { intros g Hg Hmg. destruct (L2 Hnd g m Hg Hmg) as (a0 & Ha0 & Hsh).
      exists a0. split; [|exact Hsh]. rewrite Ea.
      rewrite lookup_insert_ne; [exact Ha0|]. intros ->. apply Hv.
      pose proof (shaped_members _ Hs) as HM. rewrite Forall_forall in HM.
      specialize (HM g (proj2 (list_elem_of_In _ _) Hg)).
      rewrite Forall_forall in HM. apply HM. apply list_elem_of_In. exact Hmg. }
    assert (Hnew : array_shape a \/ matches_shape a -> m = v ->
                   exists a0, _arguments self' !! m = Some a0 /\
                              (array_shape a0 \/ matches_shape a0)).
    { intros Hsh ->. exists a. split; [rewrite Ea; apply lookup_insert_eq|exact Hsh]. }
    destruct Hcase as [[Hsh Hstep]|[[Hsh Hstep]|[_ Hg]]].
    + destruct (array_step_members _ _ _ _ _ _ Hstep Hg' Hm) as [E|(g & Hg & Hmg)];
        [apply Hnew; auto|eapply Hold; eauto].
    + destruct (matches_step_members _ _ _ _ _ Hstep Hg' Hm) as [E|(g & Hg & Hmg)];
        [apply Hnew; auto|eapply Hold; eauto].
    + rewrite Hg in Hg'. eapply Hold; eauto.
Qed.

Lemma linked_empty : linked empty.
Proof.
  constructor; cbn.
  - intros n a H. rewrite lookup_empty in H. discriminate.
  - intros _ g m [].
Qed.

(** The parser returns a binding whose records and groups are linked. *)
Lemma _parse_linked rd st : _parse tok empty rd = Ok st -> shaped st /\ linked st.
Proof.
  destruct rd as [lines ln]. intros H.
  eapply (_parse_inv tok ln (fun s => shaped s /\ linked s)); [| | |exact H].
  - intros s nm src pre doc [Hs [L1 L2]]. split; [apply shaped_texts; exact Hs|].
    constructor; assumption.
  - intros s line d s' r [Hs Hl] Hp. split.
    + eapply parse_arg_shaped; eauto.
    + eapply parse_arg_linked; eauto.
  - split; [apply shaped_empty|apply linked_empty].
Qed.

End Links.

(** X19: every argument record of a parsed binding carries the line
    number that the reader had when parsing began, plus one, whatever
    line its statement stands on: iterating over the reader does not
    advance its line number. *)
Theorem X19_recorded_line_number (tok : string -> string -> Z -> result (list string))
    (rd : NpeFileReader.t) (st : NpeFunction.t) (n : string) (a : NpeArgument.t) :
  _parse tok empty rd = Ok st -> _arguments st !! n = Some a ->
  NpeArgument.line_number a = NpeFileReader.line_number rd + 1.
Proof.
  intros Hp Ha.
  destruct (parsed_arg _ _ (_parse_parsed tok rd st Hp) n a Ha) as (_ & _ & Hl).
  exact Hl.
Qed.

(** X19 at [Examples.shared_group]: [b] is declared on the third line
    and recorded with line number 1. *)
Lemma X19_witness :
  _parse Scanner.tokenize empty (Examples.reader Examples.shared_group)
    = Ok (Examples.parsed_binding Examples.shared_group) /\
  exists b, _arguments (Examples.parsed_binding Examples.shared_group) !! "b" = Some b /\
            NpeArgument.line_number b = 1.
Proof.
  assert (Hp : _parse Scanner.tokenize empty (Examples.reader Examples.shared_group)
    = Ok (Examples.parsed_binding Examples.shared_group)) by (vm_compute; reflexivity).
  split; [exact Hp|].
  destruct (_arguments (Examples.parsed_binding Examples.shared_group) !! "b")
    as [b|] eqn:Eb; [|vm_compute in Eb; discriminate].
  exists b. split; [reflexivity|].
  exact (X19_recorded_line_number Scanner.tokenize _ _ "b" b Hp Eb).
Defined.

(** X20: the tables of a parsed binding.  Every argument record is stored
    under its own name; an argument declared by matches() has an entry in
    the name-to-group table; every entry of the table is an index that
    the list of groups accepts; and every group has a member. *)
Theorem X20_parsed_binding_tables (tok : string -> string -> Z -> result (list string))
    (rd : NpeFileReader.t) (st : NpeFunction.t) :
  _parse tok empty rd = Ok st ->
  (forall n a, _arguments st !! n = Some a ->
     NpeArgument.name a = n /\
     (NpeArgument.is_matches a = true -> is_Some (_argument_name_to_group st !! n))) /\
  (forall n gid, _argument_name_to_group st !! n = Some gid ->
     is_Some (Py.index (_input_type_groups st) gid)) /\
  Forall (fun g => NpeArgumentGroup.arguments g <> []) (_input_type_groups st).
Proof.
  intros Hp. pose proof (_parse_parsed tok rd st Hp) as Inv.
  split; [|split].
  - intros n a Ha. split.
    + exact (proj1 (parsed_arg _ _ Inv n a Ha)).
    + exact (parsed_matches _ _ Inv n a Ha).
  - exact (parsed_index _ _ Inv).
  - exact (parsed_members _ _ Inv).
Qed.

(** X20 at [Examples.shared_group]. *)
Lemma X20_witness :
  _parse Scanner.tokenize empty (Examples.reader Examples.shared_group)
    = Ok (Examples.parsed_binding Examples.shared_group) /\
  Forall (fun g => NpeArgumentGroup.arguments g <> [])
         (_input_type_groups (Examples.parsed_binding Examples.shared_group)).
Proof.
  assert (Hp : _parse Scanner.tokenize empty (Examples.reader Examples.shared_group)
    = Ok (Examples.parsed_binding Examples.shared_group)) by (vm_compute; reflexivity).
  split; [exact Hp|].
  exact (proj2 (proj2 (X20_parsed_binding_tables Scanner.tokenize _ _ Hp))).
Defined.

(** X21: the records of a parsed binding.  The names with a record are
    the argument names; every record is a matches() record, an array
    record (one or more array types) or a scalar record (one type that is
    no array type), with the sparse and dense flags not yet set; the
    members of the groups are argument names and their candidate types
    are array types; the types of an array record are the candidate types
    of a group; and when the argument names are pairwise different, a
    member of a group is declared with array types or by matches(). *)
Theorem X21_parsed_binding_records (tok : string -> string -> Z -> result (list string))
    (rd : NpeFileReader.t) (st : NpeFunction.t) :
  _parse tok empty rd = Ok st -> shaped st /\ linked st.
Proof. apply _parse_linked. Qed.

(** X21 at [Examples.shared_group]. *)
Lemma X21_witness :
  _parse Scanner.tokenize empty (Examples.reader Examples.shared_group)
    = Ok (Examples.parsed_binding Examples.shared_group) /\
  shaped (Examples.parsed_binding Examples.shared_group) /\
  linked (Examples.parsed_binding Examples.shared_group).
Proof.
  assert (Hp : _parse Scanner.tokenize empty (Examples.reader Examples.shared_group)
    = Ok (Examples.parsed_binding Examples.shared_group)) by (vm_compute; reflexivity).
  split; [exact Hp|].
  exact (X21_parsed_binding_records Scanner.tokenize _ _ Hp).
Defined.

(** ** From the text to the output file *)

Lemma has_array_loop_false fn names :
  has_array_loop fn names = Ok false ->
  forall n, In n names -> exists a t0 r,
    _arguments fn !! n = Some a /\ NpeArgument.name_or_type a = t0 :: r /\
    is_numpy_type t0 = false /\ NpeArgument.is_matches a = false.
Proof.
  induction names as [|m names IH]; intros H n Hn; [destruct Hn|].
  cbn [has_array_loop] in H. unfold get_argument in H.
  destruct (_arguments fn !! m) as [b|] eqn:Hb; cbn [rbind] in H; [|discriminate].
  destruct (NpeArgument.name_or_type b) as [|t0 r] eqn:Et; cbn [first rbind] in H;
    [discriminate|].
  destruct (is_numpy_type t0 || NpeArgument.is_matches b) eqn:E; [discriminate|].
  apply orb_false_elim in E as [E1 E2].
  destruct Hn as [<-|Hn]; [|apply IH; assumption].
  exists b, t0, r. repeat split; assumption.
Qed.

Lemma catalog_key_kind t :
  In t NUMPY_ARRAY_TYPES ->
  is_numpy_type t = true /\ is_sparse_type t || is_dense_type t = true /\
  is_Some (assoc t NUMPY_ARRAY_TYPES_TO_CPP).
Proof.
  intros Hin. pose proof catalog_keys as H. rewrite forallb_forall in H.
  specialize (H t Hin). apply andb_prop in H as [H H3]. apply andb_prop in H as [H1 H2].
  apply String.eqb_eq in H2.
  split; [unfold is_numpy_type; rewrite H2; apply str_in_In; exact Hin|].
  split; [destruct (is_sparse_type t), (is_dense_type t); try reflexivity; discriminate H1|].
  destruct (assoc t NUMPY_ARRAY_TYPES_TO_CPP); [eauto|discriminate].
Qed.

Section Compilation.
Variable tok : string -> string -> Z -> result (list string).

(** A parsed and validated binding with pairwise different argument
    names and catalog types is generable. *)
Lemma validated_generable rd st f :
  _parse tok empty rd = Ok st -> _validate st = Ok f ->
  NoDup (_argument_names f) -> catalog_groups f -> generable f.
Proof.
  intros Hp Hv Hnd Hcat.
  pose proof (_parse_parsed tok _ _ Hp) as [I1 I2 I3 I4 I5].
  destruct (_parse_linked tok _ _ Hp) as [Hs [L1 L2]].
  apply _validate_inv in Hv as (args' & -> & Hfr & Hin).
  unfold catalog_groups, argument_groups in Hcat.
  cbn [_input_type_groups _argument_names set_arguments] in *.
  assert (Hrec : forall n, In n (_argument_names st) -> exists a a',
            _arguments st !! n = Some a /\ args' !! n = Some a' /\
            NpeArgument.name_or_type a' = NpeArgument.name_or_type a /\
            NpeArgument.is_matches a' = NpeArgument.is_matches a /\
            (NpeArgument.is_matches a = false ->
             NpeArgument.is_sparse a' = is_sparse_type (hd "" (NpeArgument.name_or_type a)) /\
             NpeArgument.is_dense a' = is_dense_type (hd "" (NpeArgument.name_or_type a)))).
  { intros n Hn. destruct (Hin n Hn) as (a & a1 & a' & Ha & Ha' & [Hu Ha1] & Hm).
    exists a, a'. split; [exact Ha|]. split; [exact Ha'|].
    unfold match_checked in Hm.
    assert (E1 : NpeArgument.is_matches a1 = NpeArgument.is_matches a).
    { subst a1. destruct (_argument_name_to_group st !! NpeArgument.name a); reflexivity. }
    rewrite E1 in Hm. destruct (NpeArgument.is_matches a) eqn:Ema.
    - destruct Hm as (gid & g & t0 & r & _ & _ & _ & ->). subst a1.
      destruct (_argument_name_to_group st !! NpeArgument.name a); cbn; rewrite Ema;
        (split; [reflexivity|]); (split; [reflexivity|discriminate]).
    - subst a' a1.
      destruct (_argument_name_to_group st !! NpeArgument.name a); cbn; rewrite Ema; auto. }
  constructor; cbn [_argument_names _arguments set_arguments argument_groups
                    _input_type_groups].
  - intros n Hn. destruct (Hrec n Hn) as (a & a' & Ha & Ha' & Et & Em & Hlay).
    exists a'. split; [exact Ha'|]. rewrite Et.
    destruct (I2 n a Ha) as (_ & Hne & _). split; [exact Hne|].
    intros Hnot. destruct (shaped_arg _ Hs n a Ha) as [Hsh|[Hsh|Hsh]].
    + destruct Hsh as (_ & t & -> & _). reflexivity.
    + exfalso. destruct (L1 n a Ha Hsh) as (g & Hg & Ht).
      rewrite Forall_forall in Hcat.
      destruct (Hcat g (proj2 (list_elem_of_In _ _) Hg)) as [_ Hkeys].
      rewrite Ht in Hkeys. destruct Hsh as (Hm & _ & _).
      destruct (NpeArgument.name_or_type a) as [|t0 r]; [congruence|].
      inversion Hkeys as [|x xs Hk _]; subst.
      destruct (catalog_key_kind t0 Hk) as (_ & Hkind & _).
      destruct (Hlay Hm) as [E1 E2]. cbn [hd] in E1, E2.
      unfold NpeArgument.is_numpy_type in Hnot. rewrite E1, E2 in Hnot. congruence.
    + destruct Hsh as (_ & t & -> & _). reflexivity.
  - unfold nonempty_groups in I5. rewrite Forall_forall in I5, Hcat.
    apply Forall_forall. intros g Hg. destruct (Hcat g Hg) as [Hne Hkeys].
    split; [|exact Hne]. split; [apply I5; exact Hg|].
    eapply Forall_impl; [exact Hkeys|]. intros t Ht.
    apply catalog_key_kind. exact Ht.
  - intros Hfalse. unfold has_array_arguments in Hfalse.
    cbn [_argument_names set_arguments] in Hfalse.
    unfold nonempty_groups in I5.
    destruct (_input_type_groups st) as [|g gs] eqn:Eg; [reflexivity|exfalso].
    inversion I5 as [|x xs Hmem _]; subst.
    destruct (NpeArgumentGroup.arguments g) as [|m ms] eqn:Em; [congruence|].
    assert (Hgin : In g (g :: gs)) by (left; reflexivity).
    assert (Hmin : In m (NpeArgumentGroup.arguments g)) by (rewrite Em; left; reflexivity).
    destruct (L2 Hnd g m Hgin Hmin) as (a & Ha & Hsh).
    assert (Hmn : In m (_argument_names st)).
    { apply (shaped_dom _ Hs). eauto. }
    destruct (Hrec m Hmn) as (a0 & a' & Ha0 & Ha' & Et & Ema & _).
    rewrite Ha in Ha0. inversion Ha0; subst a0.
    destruct (has_array_loop_false _ _ Hfalse m Hmn) as (b & t0 & r & Hb & Hbt & Hn0 & Hbm).
    cbn [_arguments set_arguments] in Hb. rewrite Ha' in Hb. inversion Hb; subst b.
    destruct Hsh as [(Hm1 & _ & Hall)|(Hm1 & _)].
    + rewrite <- Et, Hbt in Hall. inversion Hall; congruence.
    + congruence.
Qed.


End Compilation.


(** ** The three phases *)

Section PhaseLaws.
Variable tok : string -> string -> Z -> result (list string).

(** X13: phase 1 of [_parse].  The lines before the function statement
    that are no statements go to the preamble, blank lines left out; the
    function statement with one token gives the binding its name.  With
    no token IndexError is raised, and with more than one token TypeError
    (the message of the intended error indexes a list with a tuple). *)
Theorem X13_preamble_and_function_statement (ln : Z) (st : NpeFunction.t) (pre : list string) (f : string)
    (rest : list string) :
  Forall plain pre -> is_call FUNCTION_TOKEN f (ln + 1) = true ->
  parse_seek tok ln st (pre ++ f :: rest)
  = match tok FUNCTION_TOKEN f (ln + 1) with
    | Ok [binding_name] =>
        Ok (set_name binding_name
              (set_preamble (_preamble st +:+ kept_lines pre) st), ln + 1, rest)
    | Ok [] => Raise IndexError
    | Ok (_ :: _ :: _) => Raise TypeError
    | Raise e => Raise e
    end.
Proof.
  intros Hp Hc. rewrite parse_seek_plain by exact Hp.
  rewrite parse_seek_function by exact Hc.
  unfold _parse_npe_function_statement.
  destruct (tok FUNCTION_TOKEN f (ln + 1)) as [[|n [|n' l]]|e]; reflexivity.
Qed.

(** X14: a file that holds no statement line at all is refused with the
    error that asks for the function statement. *)
Theorem X14_no_function_statement (st : NpeFunction.t) (lines : list string) (ln : Z) :
  Forall (fun l => is_statement l = false) lines ->
  _parse tok st (NpeFileReader.mk lines ln)
  = Raise (ParseError ("Invalid binding file. Must begin with "
                       +:+ FUNCTION_TOKEN +:+ "(<function_name>).")).
Proof.
  intros H. unfold _parse. cbn [NpeFileReader.lines NpeFileReader.line_number].
  destruct (parse_seek_none tok ln lines st H) as (st' & rest & E). rewrite E. reflexivity.
Qed.

(** X15: a statement other than the function statement that comes first
    in the file is refused with the error that names the statement and
    the line number. *)
Theorem X15_statement_before_function (st : NpeFunction.t) (pre : list string)
    (l : string) (rest : list string) (ln : Z) (t : string) :
  Forall plain pre -> In t npe_tokens -> t <> FUNCTION_TOKEN ->
  is_call t l (ln + 1) = true ->
  _parse tok st (NpeFileReader.mk (pre ++ l :: rest) ln)
  = Raise (before_function t (ln + 1)).
Proof.
  intros Hp Ht Hf Hc. unfold _parse. cbn [NpeFileReader.lines NpeFileReader.line_number].
  rewrite parse_seek_plain by exact Hp.
  rewrite (parse_seek_statement tok ln _ l rest t Ht Hf Hc). reflexivity.
Qed.

Lemma parse_declare_skipped ln st doc_lines skip : forall rest,
  Forall skipped skip ->
  parse_declare tok ln st false doc_lines (skip ++ rest)
  = parse_declare tok ln st false doc_lines rest.
Proof.
  induction skip as [|b skip IH]; intros rest Hs; [reflexivity|].
  inversion Hs as [|x xs [Hne Hb] Hs']; subst. cbn [app].
  rewrite parse_declare_skip by assumption. apply IH. exact Hs'.
Qed.

Lemma parse_declare_unexpected ln st doc_lines l rest :
  plain l -> is_blank l = false -> is_comment l = false ->
  parse_declare tok ln st false doc_lines (l :: rest)
  = Raise (ParseError ("Unexpected tokens at line "
                       +:+ Py.str_of_int (ln + 1) +:+ ": " +:+ l)).
Proof.
  intros [Hne Hs] Hb Hc. cbn [parse_declare].
  destruct (Py.len l =? 0) eqn:E; [apply len_0 in E; congruence|].
  rewrite !(is_statement_false l _ (ln + 1) Hs) by (simpl; tauto).
  unfold is_blank in Hb. unfold is_comment in Hc. rewrite Hb, Hc. reflexivity.
Qed.

(** X17: phase 2 of [_parse] on a file that ends after the function
    statement and lines that are blank or comments raises the error of
    the missing begin-code statement; a line there that is neither blank,
    nor a comment, nor a statement raises the unexpected-tokens error
    with the text of that line. *)
Theorem X17_declarations_without_begin (st : NpeFunction.t) (pre : list string) (f name : string)
    (skip : list string) (ln : Z) :
  0 <= ln ->
  Forall plain pre -> is_call FUNCTION_TOKEN f (ln + 1) = true ->
  tok FUNCTION_TOKEN f (ln + 1) = Ok [name] ->
  Forall skipped skip ->
  _parse tok st (NpeFileReader.mk (pre ++ f :: skip) ln)
  = Raise (ParseError ("Invalid binding file. Must does not contain a "
                       +:+ BEGIN_CODE_TOKEN +:+ "() statement.")) /\
  forall l rest, plain l -> is_blank l = false -> is_comment l = false ->
    _parse tok st (NpeFileReader.mk (pre ++ f :: skip ++ l :: rest) ln)
    = Raise (ParseError ("Unexpected tokens at line "
                         +:+ Py.str_of_int (ln + 1) +:+ ": " +:+ l)).
Proof.
  intros Hln Hp Hc Ht Hs. unfold _parse.
  cbn [NpeFileReader.lines NpeFileReader.line_number].
  assert (Hseek : forall rest,
    parse_seek tok ln st (pre ++ f :: rest)
    = Ok (set_name name (set_preamble (_preamble st +:+ kept_lines pre) st),
          ln + 1, rest)).
  { intros rest. rewrite parse_seek_plain by exact Hp.
    rewrite parse_seek_function by exact Hc.
    unfold _parse_npe_function_statement. rewrite Ht. reflexivity. }
  assert (Hb : (ln + 1 <? 0) = false) by (apply Z.ltb_ge; lia).
  split.
  - rewrite Hseek. cbn [rbind]. rewrite Hb.
    rewrite <- (app_nil_r skip), parse_declare_skipped by exact Hs.
    reflexivity.
  - intros l rest Hl Hbl Hcm. rewrite Hseek. cbn [rbind]. rewrite Hb.
    rewrite parse_declare_skipped by exact Hs.
    rewrite parse_declare_unexpected by assumption. reflexivity.
Qed.

End PhaseLaws.

Lemma parse_body_trail ln st trail :
  Forall (fun l => l <> "" /\
            (is_blank l = true \/
             (is_call END_CODE_TOKEN l (ln + 1) = true /\
              _parse_end_code_statement l (ln + 1) = Ok tt))) trail ->
  parse_body ln st true trail = Ok (st, true).
Proof.
  induction 1 as [|l trail [Hne Hl] _ IH]; [reflexivity|].
  cbn [parse_body].
  destruct (Py.len l =? 0) eqn:E; [apply len_0 in E; congruence|].
  destruct Hl as [Hb|[Hc He]].
  - rewrite (no_call_on_skipped END_CODE_TOKEN l (ln + 1)) by (simpl; tauto).
    unfold is_blank in Hb. rewrite Hb. cbn [negb andb]. exact IH.
  - rewrite Hc, He. cbn [rbind]. exact IH.
Qed.

(** X18: phase 3 of [_parse].  The lines up to the first end-code
    statement are appended to the source code as they are; after it,
    blank lines and further well-formed end-code statements are
    accepted. *)
Theorem X18_body_and_end (ln : Z) (body : list string) (e : string)
    (trail : list string) (st : NpeFunction.t) :
  Forall (fun l => l <> "" /\ is_call END_CODE_TOKEN l (ln + 1) = false) body ->
  is_call END_CODE_TOKEN e (ln + 1) = true ->
  _parse_end_code_statement e (ln + 1) = Ok tt ->
  Forall (fun l => l <> "" /\
            (is_blank l = true \/
             (is_call END_CODE_TOKEN l (ln + 1) = true /\
              _parse_end_code_statement l (ln + 1) = Ok tt))) trail ->
  parse_body ln st false (body ++ e :: trail)
  = Ok (set_source_code (_source_code st +:+ concat_str body) st, true).
Proof.
  intros Hb Hc He Ht. revert st.
  induction Hb as [|l body [Hne Hl] _ IH]; intros st.
  - cbn [app concat_str fold_right parse_body]. rewrite app_nil_r_str.
    destruct (Py.len e =? 0) eqn:E.
    { apply len_0 in E. subst e. vm_compute in Hc. discriminate. }
    rewrite Hc, He. cbn [rbind]. rewrite parse_body_trail by exact Ht.
    destruct st; reflexivity.
  - cbn [app parse_body].
    destruct (Py.len l =? 0) eqn:E; [apply len_0 in E; congruence|].
    rewrite Hl. cbn [negb]. rewrite IH.
    cbn [_source_code set_source_code concat_str fold_right].
    rewrite app_assoc_str. reflexivity.
Qed.

(** X13 at a comment line and a blank line before [npe_function(f)]: the
    comment line is the preamble. *)
Lemma X13_witness :
  Forall plain [Samples.comment; Samples.blank] /\
  is_call FUNCTION_TOKEN Samples.function_f (0 + 1) = true /\
  parse_seek Scanner.tokenize 0 empty
    ([Samples.comment; Samples.blank] ++ Samples.function_f :: [Samples.code])
  = Ok (set_name "f" (set_preamble Samples.comment empty), 1, [Samples.code]).
Proof.
  assert (Hp : Forall plain [Samples.comment; Samples.blank]).
  { repeat constructor; try discriminate; vm_compute; reflexivity. }
  assert (Hc : is_call FUNCTION_TOKEN Samples.function_f (0 + 1) = true)
    by (vm_compute; reflexivity).
  split; [exact Hp|]. split; [exact Hc|].
  etransitivity;
    [exact (X13_preamble_and_function_statement Scanner.tokenize 0 empty _ _
              [Samples.code] Hp Hc)|].
  vm_compute; reflexivity.
Defined.

(** X14 at a file of a comment line and a line of code. *)
Lemma X14_witness :
  Forall (fun l => is_statement l = false) [Samples.comment; Samples.code] /\
  _parse Scanner.tokenize empty (NpeFileReader.mk [Samples.comment; Samples.code] 0)
  = Raise (ParseError ("Invalid binding file. Must begin with "
                       +:+ FUNCTION_TOKEN +:+ "(<function_name>).")).
Proof.
  assert (H : Forall (fun l => is_statement l = false) [Samples.comment; Samples.code]).
  { repeat constructor; vm_compute; reflexivity. }
  split; [exact H|].
  exact (X14_no_function_statement Scanner.tokenize empty _ 0 H).
Defined.

(** X15 at an argument statement that comes before the function
    statement. *)
Lemma X15_witness :
  Forall plain [Samples.comment] /\ In ARG_TOKEN npe_tokens /\
  is_call ARG_TOKEN Samples.arg_x (0 + 1) = true /\
  _parse Scanner.tokenize empty
    (NpeFileReader.mk ([Samples.comment] ++ Samples.arg_x :: [Samples.function_f]) 0)
  = Raise (before_function ARG_TOKEN (0 + 1)).
Proof.
  assert (Hp : Forall plain [Samples.comment]).
  { repeat constructor; try discriminate; vm_compute; reflexivity. }
  assert (Hin : In ARG_TOKEN npe_tokens) by (vm_compute; tauto).
  assert (Hc : is_call ARG_TOKEN Samples.arg_x (0 + 1) = true) by (vm_compute; reflexivity).
  split; [exact Hp|]. split; [exact Hin|]. split; [exact Hc|].
  apply (X15_statement_before_function Scanner.tokenize empty _ _ _ 0 ARG_TOKEN Hp Hin);
    [discriminate|exact Hc].
Defined.

(** X17 at a file that ends after the function statement, a blank line
    and a comment line. *)
Lemma X17_witness :
  Forall plain [Samples.comment] /\ Forall skipped [Samples.blank; Samples.comment] /\
  Scanner.tokenize FUNCTION_TOKEN Samples.function_f (0 + 1) = Ok ["f"] /\
  _parse Scanner.tokenize empty
    (NpeFileReader.mk
       ([Samples.comment] ++ Samples.function_f :: [Samples.blank; Samples.comment]) 0)
  = Raise (ParseError ("Invalid binding file. Must does not contain a "
                       +:+ BEGIN_CODE_TOKEN +:+ "() statement.")).
Proof.
  assert (Hp : Forall plain [Samples.comment]).
  { repeat constructor; try discriminate; vm_compute; reflexivity. }
  assert (Hs : Forall skipped [Samples.blank; Samples.comment]).
  { constructor; [split; [discriminate|left; vm_compute; reflexivity]|].
    constructor; [split; [discriminate|right; vm_compute; reflexivity]|constructor]. }
  assert (Ht : Scanner.tokenize FUNCTION_TOKEN Samples.function_f (0 + 1) = Ok ["f"])
    by (vm_compute; reflexivity).
  split; [exact Hp|]. split; [exact Hs|]. split; [exact Ht|].
  refine (proj1 (X17_declarations_without_begin Scanner.tokenize empty _ _ "f" _ 0
                   _ Hp _ Ht Hs)).
  - lia.
  - vm_compute; reflexivity.
Defined.

(** X18 at a body of a line of code and a blank line, with a blank line
    and a second end-code statement after the first. *)
Lemma X18_witness :
  is_call END_CODE_TOKEN Samples.end_code (0 + 1) = true /\
  parse_body 0 empty false ([Samples.code; Samples.blank] ++ Samples.end_code
                              :: [Samples.blank; Samples.end_code])
  = Ok (set_source_code (_source_code empty +:+ concat_str [Samples.code; Samples.blank])
          empty, true).
Proof.
  assert (Hc : is_call END_CODE_TOKEN Samples.end_code (0 + 1) = true)
    by (vm_compute; reflexivity).
  split; [exact Hc|].
  apply X18_body_and_end; [| exact Hc | vm_compute; reflexivity |].
  - repeat constructor; try discriminate; vm_compute; reflexivity.
  - constructor; [split; [discriminate|left; vm_compute; reflexivity]|].
    constructor; [|constructor].
    split; [discriminate|right; split; vm_compute; reflexivity].
Defined.

(** ** Code statements, choices and layouts *)

Lemma consume_eol_ok line ln r :
  consume_eol line ln = Ok r <-> Py.strip line = "" /\ r = "".
Proof.
  unfold consume_eol. destruct (Py.len (Py.strip line) =? 0) eqn:E; cbn [negb].
  - apply len_0 in E. rewrite E. split; [intros H; inversion H; auto|intros [_ ->]; reflexivity].
  - split; [discriminate|]. intros [H _]. apply len_0 in H. congruence.
Qed.

Lemma code_statement_spec token line ln :
  (let* line1 := consume_token (Py.strip line) token ln false in
   let* line2 := consume_token (Py.strip line1) "(" ln true in
   let* line3 := consume_token (Py.strip line2) ")" ln true in
   do* consume_eol (Py.strip line3) ln in Ok tt) = Ok tt
  <-> code_statement token line.
Proof.
  unfold code_statement. split.
  - intros H.
    destruct (consume_token (Py.strip line) token ln false) as [l1|] eqn:E1;
      cbn [rbind] in H; [|discriminate].
    destruct (consume_token (Py.strip l1) "(" ln true) as [l2|] eqn:E2;
      cbn [rbind] in H; [|discriminate].
    destruct (consume_token (Py.strip l2) ")" ln true) as [l3|] eqn:E3;
      cbn [rbind] in H; [|discriminate].
    destruct (consume_eol (Py.strip l3) ln) as [r|] eqn:E4; cbn [rbind] in H; [|discriminate].
    apply consume_token_nocase in E1 as (kw & E1 & Hkw).
    apply consume_token_exact in E2, E3. apply consume_eol_ok in E4 as [E4 _].
    rewrite strip_idem in E4. exists kw, l1, l2, l3. auto.
  - intros (kw & a & b & c & E1 & Hkw & E2 & E3 & E4).
    assert (H1 : consume_token (Py.strip line) token ln false = Ok a)
      by (apply consume_token_nocase; eauto).
    assert (H2 : consume_token (Py.strip a) "(" ln true = Ok b)
      by (apply consume_token_exact; exact E2).
    assert (H3 : consume_token (Py.strip b) ")" ln true = Ok c)
      by (apply consume_token_exact; exact E3).
    assert (H4 : consume_eol (Py.strip c) ln = Ok "")
      by (apply consume_eol_ok; rewrite strip_idem; auto).
    rewrite H1. cbn [rbind]. rewrite H2. cbn [rbind]. rewrite H3. cbn [rbind].
    rewrite H4. reflexivity.
Qed.

(** X12: the begin-code and end-code statements accept exactly the lines
    made of the keyword in any case, an opening and a closing
    parenthesis, with blanks allowed around and between the three. *)
Theorem X12_code_statement_grammar (line : string) (ln : Z) :
  (_parse_begin_code_statement line ln = Ok tt
   <-> code_statement BEGIN_CODE_TOKEN line) /\
  (_parse_end_code_statement line ln = Ok tt
   <-> code_statement END_CODE_TOKEN line).
Proof. split; apply code_statement_spec. Qed.

(** The enumeration [group_combos]. *)
Lemma product_n_In {A} (ls : list (list A)) combo :
  Forall2 (fun c l => In c l) combo ls -> In combo (product_n ls).
Proof.
  induction 1 as [|c l combo ls Hc _ IH]; cbn [product_n]; [left; reflexivity|].
  apply in_flat_map. exists c. split; [exact Hc|]. apply in_map. exact IH.
Qed.

Lemma Forall2_map_r_inv {A B C} (P : A -> C -> Prop) (f : B -> C) l l' :
  Forall2 (fun x y => P x (f y)) l l' -> Forall2 P l (map f l').
Proof. induction 1; constructor; auto. Qed.

Lemma product_n_length {A} (ls : list (list A)) :
  Z.of_nat (length (product_n ls))
  = fold_right Z.mul 1 (map (fun l => Z.of_nat (length l)) ls).
Proof.
  induction ls as [|l ls IH]; [reflexivity|].
  cbn [product_n map fold_right]. rewrite <- IH. clear IH.
  induction l as [|c l IHl]; [cbn; lia|].
  cbn [flat_map length]. rewrite length_app, length_map, Nat2Z.inj_add, IHl. lia.
Qed.

Lemma product2_length {A B} (l1 : list A) (l2 : list B) :
  length (product2 l1 l2) = (length l1 * length l2)%nat.
Proof.
  unfold product2. induction l1 as [|a l1 IH]; [reflexivity|].
  cbn [flat_map length]. rewrite length_app, length_map, IH. lia.
Qed.

(** X24: [group_combos] enumerates exactly the lists that choose, for
    every group in order, one of its candidate types and one of the three
    layouts; there are as many as the product over the groups of three
    times the number of candidate types, and the number of those that
    [write_body] keeps is the product of the branch-count law. *)
Theorem X24_group_combos (fn : NpeFunction.t) :
  (forall combo, In combo (group_combos fn)
     <-> Forall2 choice_of combo (argument_groups fn)) /\
  Z.of_nat (length (group_combos fn))
  = fold_right Z.mul 1
      (map (fun g => 3 * Z.of_nat (length (NpeArgumentGroup.types g)))
           (argument_groups fn)) /\
  Z.of_nat (length (List.filter kept (group_combos fn)))
  = branch_product (argument_groups fn).
Proof.
  split; [|split].
  - intros combo. split; [apply group_combos_choices|].
    intros H. unfold group_combos. apply product_n_In.
    apply Forall2_map_r_inv. exact H.
  - unfold group_combos. rewrite product_n_length, map_map. f_equal.
    apply map_ext. intros g. rewrite product2_length. cbn [STORAGE_ORDER_SUFFIXES length]. lia.
  - apply kept_combos_count.
Qed.

Lemma storage_order_inv suffix s :
  storage_order_for_suffix suffix = Ok s ->
  (suffix = STORAGE_ORDER_SUFFIX_CM /\ s = "npe::detail::StorageOrder::ColMajor") \/
  (suffix = STORAGE_ORDER_SUFFIX_RM /\ s = "npe::detail::StorageOrder::RowMajor") \/
  (suffix = STORAGE_ORDER_SUFFIX_XM /\ s = "npe::detail::StorageOrder::NoOrder").
Proof.
  unfold storage_order_for_suffix.
  destruct (String.eqb suffix STORAGE_ORDER_SUFFIX_CM) eqn:E1.
  { intros H. inversion H. apply String.eqb_eq in E1. left. split; [exact E1|reflexivity]. }
  destruct (String.eqb suffix STORAGE_ORDER_SUFFIX_RM) eqn:E2.
  { intros H. inversion H. apply String.eqb_eq in E2. right. left.
    split; [exact E2|reflexivity]. }
  destruct (String.eqb suffix STORAGE_ORDER_SUFFIX_XM) eqn:E3; [|discriminate].
  intros H. inversion H. apply String.eqb_eq in E3. right. right.
  split; [exact E3|reflexivity].
Qed.

(** X25: the layout suffixes.  [storage_order_for_suffix] and
    [aligned_enum_for_suffix] answer on the three suffixes of
    [STORAGE_ORDER_SUFFIXES] and fail their assertion on any other text;
    different suffixes have different storage orders. *)
Theorem X25_layout_suffixes (suffix : string) :
  (In suffix STORAGE_ORDER_SUFFIXES ->
   exists s a, storage_order_for_suffix suffix = Ok s /\
               aligned_enum_for_suffix suffix = Ok a) /\
  (~ In suffix STORAGE_ORDER_SUFFIXES ->
   storage_order_for_suffix suffix = Raise AssertionError /\
   aligned_enum_for_suffix suffix = Raise AssertionError) /\
  (forall suffix' s, storage_order_for_suffix suffix = Ok s ->
     storage_order_for_suffix suffix' = Ok s -> suffix = suffix').
Proof.
  split; [|split].
  - intros H. cbn in H. destruct H as [<-|[<-|[<-|[]]]]; eexists _, _; split; reflexivity.
  - intros H. unfold storage_order_for_suffix, aligned_enum_for_suffix.
    destruct (String.eqb suffix STORAGE_ORDER_SUFFIX_CM) eqn:E1.
    { apply String.eqb_eq in E1. exfalso. apply H. cbn. auto. }
    destruct (String.eqb suffix STORAGE_ORDER_SUFFIX_RM) eqn:E2.
    { apply String.eqb_eq in E2. exfalso. apply H. cbn. auto. }
    destruct (String.eqb suffix STORAGE_ORDER_SUFFIX_XM) eqn:E3.
    { apply String.eqb_eq in E3. exfalso. apply H. cbn. auto. }
    split; reflexivity.
  - intros suffix' s H1 H2.
    apply storage_order_inv in H1 as [[-> E1]|[[-> E1]|[-> E1]]];
      apply storage_order_inv in H2 as [[-> E2]|[[-> E2]|[-> E2]]];
      try reflexivity; subst s; discriminate E2.
Qed.

(** ** The generated text *)

Section Appending.
Variable fn : NpeFunction.t.
Variable input_file_name : string.

Lemma appending_wfor_arguments (body : Z -> NpeArgument.t -> W unit) names :
  (forall i a, appending (body i a)) ->
  forall i, appending (wfor_arguments fn body i names).
Proof.
  intros Hb. induction names as [|n names IH]; intros i; cbn [wfor_arguments].
  - apply appending_wret.
  - apply appending_wbind; [apply appending_lift|]. intros a.
    apply appending_wbind; [apply Hb|]. intros _. apply IH.
Qed.

Lemma appending_write_group_typedefs combo :
  forall gid, appending (write_group_typedefs fn gid combo).
Proof.
  induction combo as [|[ty so] combo IH]; intros gid; cbn [write_group_typedefs].
  - apply appending_wret.
  - apply appending_wbind; [apply appending_lift|]. intros g.
    apply appending_wbind.
    + apply appending_wfor. intros m. apply appending_write_typedefs.
    + intros _. apply IH.
Qed.

Lemma appending_write_code_block combo : appending (write_code_block fn combo).
Proof.
  unfold write_code_block.
  apply appending_wbind; [apply appending_write|]. intros _.
  apply appending_wbind; [apply appending_write_group_typedefs|]. intros _.
  appending.
Qed.

Lemma appending_write_branches combos :
  forall bc, appending (write_branches fn combos bc).
Proof.
  induction combos as [|combo combos IH]; intros bc; cbn [write_branches].
  - apply appending_wret.
  - apply appending_wbind; [apply appending_lift|]. intros [g|]; [|apply IH].
    apply appending_wbind; [apply appending_write|]. intros _.
    apply appending_wbind; [apply appending_write_code_block|]. intros _.
    apply appending_wbind; [apply appending_write|]. intros _. apply IH.
Qed.

Lemma appending_write_body : appending (write_body fn).
Proof.
  unfold write_body.
  apply appending_wbind; [apply appending_lift|]. intros has.
  apply appending_wbind; [|intros ?; appending].
  destruct has.
  - apply appending_wbind; [apply appending_write_branches|]. intros ?. appending.
  - appending.
Qed.

Lemma appending_write_end : appending (write_end fn).
Proof. unfold write_end. appending. Qed.

Lemma appending_write_code_function_definition :
  appending (write_code_function_definition fn).
Proof. unfold write_code_function_definition. appending. Qed.

Lemma appending_write_group_guards g : appending (write_group_guards g).
Proof. unfold write_group_guards. appending. Qed.

Lemma appending_write_probes a : appending (write_probes a).
Proof.
  unfold write_probes, write_flags_getter, write_type_id_getter. appending.
Qed.

Lemma appending_declaration_arguments i names :
  appending (wfor_arguments fn (fun i arg =>
         do* (if NpeArgument.is_sparse arg then
                do* write "npe::sparse_array " in write (NpeArgument.name arg)
              else if NpeArgument.is_dense arg then
                do* write "pybind11::array " in write (NpeArgument.name arg)
              else
                do* lift (py_assert (length (NpeArgument.name_or_type arg) =? 1)%nat) in
                let* var_type := lift (first (NpeArgument.name_or_type arg)) in
                do* write (var_type +:+ " ") in write (NpeArgument.name arg)) in
         let next_token := if i <? num_args fn - 1 then ", " else ") {" +:+ Py.nl in
         write next_token)%W i names).
Proof. apply appending_wfor_arguments. intros j a. appending. Qed.

Lemma appending_declaration_probes i names :
  appending (wfor_arguments fn (fun _ arg =>
         if NpeArgument.is_numpy_type arg then write_probes arg else wret tt) i names).
Proof.
  apply appending_wfor_arguments. intros j a.
  apply appending_if; [apply appending_write_probes|apply appending_wret].
Qed.

Lemma writes_first {A} s (k : unit -> W A) :
  (forall a, appending (k a)) ->
  forall out, fst (wbind (write s) k out) = (out +:+ s) +:+ output_of (k tt).
Proof.
  intros Hk out. unfold wbind, write. rewrite (Hk tt). reflexivity.
Qed.

Lemma output_wbind {A B} (m : W A) (k : A -> W B) :
  appending m -> (forall a, appending (k a)) ->
  exists rest, output_of (wbind m k) = output_of m +:+ rest.
Proof.
  intros Hm Hk. unfold output_of at 1. unfold wbind.
  rewrite (Hm ""). rewrite app_nil_l_str.
  destruct (result_of m) as [a|e].
  - rewrite (Hk a). cbn [fst]. eauto.
  - cbn [fst]. exists "". rewrite app_nil_r_str. reflexivity.
Qed.

Lemma write_declaration_output :
  appending (write_declaration fn input_file_name) /\
  exists rest, output_of (write_declaration fn input_file_name)
               = (_preamble fn +:+ Py.nl) +:+ rest.
Proof.
  unfold write_declaration.
  assert (Hk : appending
    (do* write_code_function_definition fn in
     let func_name := "pybind_output_fun_"
         +:+ Py.replace_char "."%char "_" (Py.basename input_file_name) in
     do* write ("void " +:+ func_name +:+ "(pybind11::module& m) {" +:+ Py.nl) in
     do* write "m.def(" in
     do* write (Py.dq +:+ name fn +:+ Py.dq) in
     do* write ", [](" in
     do* wfor_arguments fn (fun i arg =>
         do* (if NpeArgument.is_sparse arg then
                do* write "npe::sparse_array " in write (NpeArgument.name arg)
              else if NpeArgument.is_dense arg then
                do* write "pybind11::array " in write (NpeArgument.name arg)
              else
                do* lift (py_assert (length (NpeArgument.name_or_type arg) =? 1)%nat) in
                let* var_type := lift (first (NpeArgument.name_or_type arg)) in
                do* write (var_type +:+ " ") in write (NpeArgument.name arg)) in
         let next_token := if i <? num_args fn - 1 then ", " else ") {" +:+ Py.nl in
         write next_token) 0 (_argument_names fn) in
     do* wfor_arguments fn (fun _ arg =>
         if NpeArgument.is_numpy_type arg then write_probes arg else wret tt)
       0 (_argument_names fn) in
     wfor (argument_groups fn) write_group_guards)%W).
  { apply appending_wbind; [apply appending_write_code_function_definition|]. intros _.
    cbv zeta.
    do 4 (apply appending_wbind; [apply appending_write|]; intros _).
    apply appending_wbind; [apply appending_declaration_arguments|]. intros _.
    apply appending_wbind; [apply appending_declaration_probes|]. intros _.
    apply appending_wfor. intros g. apply appending_write_group_guards. }
  split.
  - apply appending_wbind; [apply appending_write|]. intros _. exact Hk.
  - eexists. unfold output_of at 1. rewrite writes_first by (intros _; exact Hk).
    rewrite app_nil_l_str. reflexivity.
Qed.

Lemma appending_codegen_ast : appending (codegen_ast fn input_file_name).
Proof.
  unfold codegen_ast.
  apply appending_wbind; [apply write_declaration_output|]. intros _.
  apply appending_wbind; [apply appending_write_body|]. intros _.
  apply appending_write_end.
Qed.

(** X28: the generator only appends to the output: whatever it is given
    as the text written so far is a prefix of what it leaves, also when
    it raises.  What [write_output] leaves starts with the definition of
    [__NPE_FOR_REAL__], the inclusion of [npe.h] and the preamble of the
    binding. *)
Theorem X28_generated_text :
  appending (codegen_ast fn input_file_name) /\
  exists rest,
    output_of (write_output fn input_file_name)
    = ("#define __NPE_FOR_REAL__" +:+ Py.nl) +:+ ("#include <npe.h>" +:+ Py.nl)
      +:+ (_preamble fn +:+ Py.nl) +:+ rest.
Proof.
  split; [apply appending_codegen_ast|].
  unfold write_output. cbv zeta. unfold output_of at 1.
  assert (Hc : exists rest, output_of (codegen_ast fn input_file_name)
                            = (_preamble fn +:+ Py.nl) +:+ rest).
  { unfold codegen_ast.
    destruct write_declaration_output as [Hd [r1 Hr1]].
    destruct (output_wbind (write_declaration fn input_file_name)
                (fun _ => (do* write_body fn in write_end fn)%W) Hd) as [r2 Hr2].
    { intros _. apply appending_wbind; [apply appending_write_body|]. intros _.
      apply appending_write_end. }
    rewrite Hr2, Hr1. exists (r1 +:+ r2). rewrite !app_assoc_str. reflexivity. }
  destruct Hc as [rest Hc]. exists rest.
  rewrite writes_first.
  2:{ intros _. apply appending_wbind; [apply appending_write|]. intros _.
      apply appending_codegen_ast. }
  unfold output_of at 1. rewrite writes_first by (intros _; apply appending_codegen_ast).
  rewrite Hc. rewrite !app_nil_l_str, !app_assoc_str. reflexivity.
Qed.

End Appending.

(** ** The branches in the generated text *)

Section GeneratedBranches.
Variable fn : NpeFunction.t.
Variable input_file_name : string.

Lemma generable_dispatchable :
  generable fn -> has_array_arguments fn = Ok true -> dispatchable fn.
Proof.
  intros [Hn Hgr _] Hb. constructor; [exact Hb| |].
  - intros n Hin. destruct (Hn n Hin) as (a & Ha & _). eauto.
  - eapply Forall_impl; [exact Hgr|]. intros g [He _]. exact He.
Qed.

(** The text of [write_body] on a generable binding. *)
Lemma write_body_generable out :
  generable fn ->
  exists call dispatch,
    has_array_arguments fn = Ok dispatch /\
    (dispatch = true -> call_text fn = Ok call) /\
    write_body fn out = (out +:+ body_text fn call dispatch, Ok tt).
Proof.
  intros Hg. destruct (generable_has fn Hg) as [b Hb].
  destruct b.
  - destruct (write_body_text fn out (generable_dispatchable Hg Hb))
      as (call & Hcall & H).
    exists call, true. split; [exact Hb|]. split; [intros _; exact Hcall|].
    rewrite H. unfold body_text. f_equal. strings.
  - exists "", false. split; [exact Hb|]. split; [discriminate|].
    unfold write_body. unfold wbind at 1. unfold lift at 1. rewrite Hb.
    unfold group_combos. rewrite (gen_scalar _ Hg Hb).
    cbn [map product_n length Nat.eqb py_assert].
    unfold wbind, lift, write, wret, wfor, body_text. cbn [fst snd].
    f_equal. strings.
Qed.

(** The text of [codegen_ast] on a generable binding: the declaration,
    the body and the end. *)
Lemma codegen_ast_text out :
  generable fn ->
  exists call dispatch,
    has_array_arguments fn = Ok dispatch /\
    (dispatch = true -> call_text fn = Ok call) /\
    codegen_ast fn input_file_name out
    = (out +:+ output_of (write_declaration fn input_file_name)
           +:+ body_text fn call dispatch
           +:+ output_of (write_end fn), Ok tt).
Proof.
  intros Hg. destruct (write_declaration_total fn input_file_name out Hg) as [o1 H1].
  pose proof (proj1 (write_declaration_output fn input_file_name) out) as A1.
  rewrite H1 in A1. inversion A1 as [[E1 R1]].
  destruct (write_body_generable o1 Hg) as (call & b & Hb & Hcall & H2).
  destruct (write_end_total fn (o1 +:+ body_text fn call b) Hg) as [o3 H3].
  pose proof (appending_write_end fn (o1 +:+ body_text fn call b)) as A3.
  rewrite H3 in A3. inversion A3 as [[E3 R3]].
  exists call, b. split; [exact Hb|]. split; [exact Hcall|].
  unfold codegen_ast. unfold wbind at 1. rewrite H1.
  unfold wbind at 1. rewrite H2. rewrite H3.
  f_equal. rewrite E3 at 1. rewrite E1 at 1. strings.
Qed.

End GeneratedBranches.

(** X26: the branch-count law, on the text.  On a binding with array
    arguments whose argument names have records and whose groups have a
    member and candidate types that are keys of the catalog,
    [write_body] completes, whatever was written before, and what it
    writes is the branches of the combinations that are kept, one after
    the other, then the branch for no match and the end of the
    function.  The branches are as many as the product over the groups
    of three times the number of candidate types minus the number of
    sparse ones. *)
Theorem X26_branch_count_law (fn : NpeFunction.t) (out : string) :
  dispatchable fn ->
  exists call branches,
    call_text fn = Ok call /\
    branches = branch_texts (argument_groups fn) call
                            (List.filter kept (group_combos fn)) /\
    write_body fn out
    = (out +:+ concat_str branches +:+ no_branch_text +:+ Py.nl +:+ "}", Ok tt) /\
    Z.of_nat (length branches) = branch_product (argument_groups fn).
Proof. apply write_body_branch_count. Qed.

(** X26 at [Examples.sparse_and_dense]: (3 * 2 - 2) * 3 = 12 branches. *)
Lemma X26_witness :
  dispatchable (Examples.binding Examples.sparse_and_dense) /\
  exists call branches,
    branches = branch_texts (argument_groups (Examples.binding Examples.sparse_and_dense))
                 call
                 (List.filter kept (group_combos (Examples.binding Examples.sparse_and_dense))) /\
    write_body (Examples.binding Examples.sparse_and_dense) ""
    = (concat_str branches +:+ no_branch_text +:+ Py.nl +:+ "}", Ok tt) /\
    length branches = 12%nat.
Proof.
  assert (Hd : dispatchable (Examples.binding Examples.sparse_and_dense)).
  { constructor.
    - vm_compute; reflexivity.
    - intros n Hn. vm_compute in Hn.
      destruct Hn as [<-|[<-|[]]]; vm_compute; eauto.
    - repeat constructor; try discriminate; vm_compute; eauto. }
  split; [exact Hd|].
  destruct (X26_branch_count_law _ "" Hd) as (call & branches & _ & Eb & Hw & Hl).
  exists call, branches. split; [exact Eb|]. split; [exact Hw|].
  apply Nat2Z.inj. rewrite Hl. vm_compute; reflexivity.
Defined.

(** X27: on a binding whose argument names have records with a type (one
    type only, for an argument that is no array), whose groups have a
    member and at least one candidate type, all keys of the catalog, and
    which has no group when it has no array argument, the generator
    completes without an error, and what it writes is the text of the
    declaration, the text of the body and the text of the end.  With
    array arguments the body is the branches of the combinations that
    are kept, as many as the product of the branch-count law, and the
    branch for no match; without, it is the source code of the binding
    in a block. *)
Theorem X27_generable_completes (fn : NpeFunction.t) (input_file_name out : string) :
  generable fn ->
  exists call dispatch,
    has_array_arguments fn = Ok dispatch /\
    (dispatch = true -> call_text fn = Ok call) /\
    codegen_ast fn input_file_name out
    = (out +:+ output_of (write_declaration fn input_file_name)
           +:+ body_text fn call dispatch
           +:+ output_of (write_end fn), Ok tt) /\
    (dispatch = true ->
     Z.of_nat (length (branch_texts (argument_groups fn) call
                         (List.filter kept (group_combos fn))))
     = branch_product (argument_groups fn)).
Proof.
  intros Hg.
  destruct (codegen_ast_text fn input_file_name out Hg) as (call & b & Hb & Hcall & H).
  exists call, b. split; [exact Hb|]. split; [exact Hcall|]. split; [exact H|].
  intros _. rewrite branch_texts_length. apply kept_combos_count.
Qed.

(** X27 at [Examples.scalar_binding]: the body is the source code in a
    block. *)
Lemma X27_witness :
  generable (Examples.binding Examples.scalar_binding) /\
  exists call,
    codegen_ast (Examples.binding Examples.scalar_binding) "src/foo.cpp" ""
    = (output_of (write_declaration (Examples.binding Examples.scalar_binding) "src/foo.cpp")
       +:+ body_text (Examples.binding Examples.scalar_binding) call false
       +:+ output_of (write_end (Examples.binding Examples.scalar_binding)), Ok tt).
Proof.
  assert (Hg : generable (Examples.binding Examples.scalar_binding)).
  { constructor.
    - intros n Hn. vm_compute in Hn. destruct Hn as [<-|[]].
      eexists. split; [vm_compute; reflexivity|].
      split; [discriminate|]. intros _. reflexivity.
    - vm_compute. constructor.
    - intros _. vm_compute; reflexivity. }
  split; [exact Hg|].
  destruct (X27_generable_completes _ "src/foo.cpp" "" Hg)
    as (call & b & Hb & _ & H & _).
  assert (Eb : b = false).
  { assert (Hf : has_array_arguments (Examples.binding Examples.scalar_binding) = Ok false)
      by (vm_compute; reflexivity).
    rewrite Hf in Hb. inversion Hb. reflexivity. }
  subst b. exists call. exact H.
Defined.

(** X29: a binding that parses and validates, whose argument names are
    pairwise different and whose candidate types are spelled as in the
    catalog, compiles: the driver exits with status 0 and no error line
    and leaves in the output file the two header lines, the text of the
    declaration, the text of the body and the text of the end.  With
    array arguments the body holds the branches of the combinations that
    are kept, as many as the product of the branch-count law. *)
Theorem X29_catalog_bindings_compile
    (tok : string -> string -> Z -> result (list string))
    (args : Args.t) (lines : list string) (old : option string) (f : NpeFunction.t) :
  NpeFunction_init tok (NpeFileReader.init lines) = Ok f ->
  NoDup (_argument_names f) -> catalog_groups f ->
  exists call dispatch,
    has_array_arguments f = Ok dispatch /\
    (dispatch = true -> call_text f = Ok call) /\
    main tok args lines old
    = Outcome.mk 0 []
        (Some (("#define __NPE_FOR_REAL__" +:+ Py.nl) +:+ ("#include <npe.h>" +:+ Py.nl)
               +:+ output_of (write_declaration f (Args.file args))
               +:+ body_text f call dispatch
               +:+ output_of (write_end f))) /\
    (dispatch = true ->
     Z.of_nat (length (branch_texts (argument_groups f) call
                         (List.filter kept (group_combos f))))
     = branch_product (argument_groups f)).
Proof.
  intros Hi Hnd Hcat. pose proof Hi as Hi'. unfold NpeFunction_init in Hi'.
  destruct (_parse tok empty _) as [st|] eqn:Hp; cbn [rbind] in Hi'; [|discriminate].
  pose proof (validated_generable tok _ _ _ Hp Hi' Hnd Hcat) as Hg.
  destruct (codegen_ast_text f (Args.file args)
              (("" +:+ ("#define " +:+ "__NPE_FOR_REAL__" +:+ Py.nl))
               +:+ ("#include <npe.h>" +:+ Py.nl)) Hg)
    as (call & b & Hb & Hcall & Hc).
  exists call, b. split; [exact Hb|]. split; [exact Hcall|]. split.
  - assert (Hw : write_output f (Args.file args) ""
                 = (("#define __NPE_FOR_REAL__" +:+ Py.nl) +:+ ("#include <npe.h>" +:+ Py.nl)
                    +:+ output_of (write_declaration f (Args.file args))
                    +:+ body_text f call b +:+ output_of (write_end f), Ok tt)).
    { unfold write_output, wbind, write. rewrite Hc. f_equal; strings. }
    unfold main. rewrite Hi, Hw. reflexivity.
  - intros _. rewrite branch_texts_length. apply kept_combos_count.
Qed.

(** X29 at [Examples.shared_group]: the output file holds 6 branches. *)
Lemma X29_witness :
  NpeFunction_init Scanner.tokenize (NpeFileReader.init (Scanner.text Examples.shared_group))
    = Ok (Examples.binding Examples.shared_group) /\
  NoDup (_argument_names (Examples.binding Examples.shared_group)) /\
  catalog_groups (Examples.binding Examples.shared_group) /\
  exists call,
    main Scanner.tokenize Examples.args (Scanner.text Examples.shared_group) None
    = Outcome.mk 0 []
        (Some (("#define __NPE_FOR_REAL__" +:+ Py.nl) +:+ ("#include <npe.h>" +:+ Py.nl)
               +:+ output_of (write_declaration (Examples.binding Examples.shared_group)
                                                "src/foo.cpp")
               +:+ body_text (Examples.binding Examples.shared_group) call true
               +:+ output_of (write_end (Examples.binding Examples.shared_group)))) /\
    length (branch_texts (argument_groups (Examples.binding Examples.shared_group)) call
              (List.filter kept (group_combos (Examples.binding Examples.shared_group))))
    = 6%nat.
Proof.
  assert (Hi : NpeFunction_init Scanner.tokenize
                 (NpeFileReader.init (Scanner.text Examples.shared_group))
    = Ok (Examples.binding Examples.shared_group)) by (vm_compute; reflexivity).
  assert (Hn : NoDup (_argument_names (Examples.binding Examples.shared_group))).
  { change (NoDup ["a"; "b"]).
    apply NoDup_cons_2; [|apply NoDup_cons_2; [|apply NoDup_nil_2]];
      intros H; repeat (apply elem_of_cons in H as [H|H]; [discriminate|]);
      apply elem_of_nil in H; exact H. }
  assert (Hc : catalog_groups (Examples.binding Examples.shared_group)).
  { unfold catalog_groups.
    change (argument_groups (Examples.binding Examples.shared_group))
      with [NpeArgumentGroup.mk ["a"; "b"] ["dense_f32"; "dense_f64"]].
    constructor; [|constructor]. split; [discriminate|].
    constructor; [vm_compute; tauto|]. constructor; [vm_compute; tauto|constructor]. }
  split; [exact Hi|]. split; [exact Hn|]. split; [exact Hc|].
  destruct (X29_catalog_bindings_compile Scanner.tokenize Examples.args _ None _ Hi Hn Hc)
    as (call & b & Hb & _ & Hm & Hl).
  assert (Eb : b = true).
  { assert (Ht : has_array_arguments (Examples.binding Examples.shared_group) = Ok true)
      by (vm_compute; reflexivity).
    rewrite Ht in Hb. inversion Hb. reflexivity. }
  subst b. exists call. split; [exact Hm|].
  apply Nat2Z.inj. rewrite (Hl eq_refl). vm_compute; reflexivity.
Defined.

(** ** Tokens and documentation *)

Lemma list_pop_In l x r : list_pop l = Ok (x, r) -> In x l /\ forall y, In y r -> In y l.
Proof.
  unfold list_pop. destruct (rev l) as [|x' r'] eqn:E; [discriminate|].
  intros H. inversion H; subst x' r. 
  assert (El : l = rev r' ++ [x]).
  { rewrite <- (rev_involutive l), E. reflexivity. }
  rewrite El. split; [apply in_or_app; right; left; reflexivity|].
  intros y Hy. apply in_or_app. left. exact Hy.
Qed.

Section Tokens.
Variable tok : string -> string -> Z -> result (list string).

Lemma parse_arg_tokens self line ln d self' r :
  _parse_arg_statement tok self line ln d = Ok (self', r) ->
  exists tokens v a,
    tok (if d then DEFAULT_ARG_TOKEN else ARG_TOKEN) (Py.strip line) ln = Ok tokens /\
    _arguments self' = <[v := a]> (_arguments self) /\ made_of tokens v a.
Proof.
  intros H. unfold _parse_arg_statement in H.
  destruct (tok _ _ _) as [tokens|] eqn:Etok; cbn [rbind] in H; [|discriminate].
  exists tokens.
  destruct tokens as [|var_name toks]; cbn [rbind tail first] in H; [discriminate|].
  set (stmt := if d then DEFAULT_ARG_TOKEN else ARG_TOKEN) in *.
  destruct (if d then _ else _) as [[var_value var_types]|] eqn:Ev in H;
    cbn [rbind] in H; [|discriminate].
  assert (Hty : (forall y, In y var_types -> In y toks) /\
                (forall x, var_value = Some x -> In x toks)).
  { destruct d.
    - destruct (list_pop toks) as [[x l]|] eqn:Ep; cbn [rbind] in Ev; [|discriminate].
      inversion Ev; subst var_value var_types. apply list_pop_In in Ep as [H1 H2].
      split; [exact H2|]. intros y Hy. inversion Hy; subst. exact H1.
    - inversion Ev; subst. split; [auto|discriminate]. }
  destruct Hty as [Hty Hval].
  destruct (length var_types =? 0)%nat eqn:Elen; [discriminate|].
  set (meta := NpeArgument.init var_name false var_types ln var_value) in *.
  assert (exists s1 meta1 gid,
    same_decl self s1 /\ NpeArgument.name meta1 = var_name /\
    NpeArgument.name_or_type meta1 = var_types /\
    NpeArgument.default_value meta1 = var_value /\
    (let* grp := (if 0 <=? gid then do* get_group s1 gid in Ok (Some gid) else Ok None) in
     Ok (NpeFunction.set_arguments
           (<[var_name := NpeArgument.set_group grp meta1]> (NpeFunction._arguments s1))
           (NpeFunction.set_argument_names
              (NpeFunction._argument_names s1 ++ [var_name]) s1),
         (var_name, var_types, var_value))) = Ok (self', r))
    as (s1 & meta1 & gid & Hsd & Hn & Ht & Hdv & H').
  { destruct (_ || _).
    - destruct (declare_array_types _ _ _ _ _) as [[s1 gid]|] eqn:Ed;
        cbn [rbind] in H; [|discriminate].
      exists s1, meta, gid.
      apply declare_array_types_spec in Ed as (Hsd & _). auto.
    - destruct (declare_single_type _ _ _ _ _) as [[[s1 meta1] gid]|] eqn:Ed;
        cbn [rbind] in H; [|discriminate].
      exists s1, meta1, gid.
      assert (Hdv : NpeArgument.default_value meta1 = var_value).
      { revert Ed. unfold declare_single_type.
        destruct (py_assert _); cbn [rbind]; [|discriminate].
        destruct (Py.startswith _ _); [|intros Ed; inversion Ed; reflexivity].
        destruct (_parse_matches_statement _ _); cbn [rbind]; [|discriminate].
        destruct (_argument_name_to_group self !! _).
        - destruct (group_append _ _ _); cbn [rbind]; [|discriminate].
          intros Ed; inversion Ed; reflexivity.
        - intros Ed; inversion Ed; reflexivity. }
      apply declare_single_type_spec in Ed as (Hsd & _ & _ & E1 & E2 & _). auto. }
  destruct (if 0 <=? gid then _ else _) as [grp|]; cbn [rbind] in H'; [|discriminate].
  inversion H'; subst self' r; clear H'.
  destruct Hsd as (_ & _ & Ea & _).
  exists var_name, (NpeArgument.set_group grp meta1).
  split; [reflexivity|]. split; [cbn; rewrite Ea; reflexivity|].
  split; [left; reflexivity|]. split; [exact Hn|]. cbn. rewrite Ht, Hdv. split.
  - apply Forall_forall. intros y Hy. right. apply Hty. apply list_elem_of_In. exact Hy.
  - intros x Hx. right. apply Hval. exact Hx.
Qed.

End Tokens.

Section Composition.
Variable run_cpp : string -> string * string.
Variable max_iters : nat.

(** X6: the parser over the preprocessor tokenizer.  In a binding parsed
    with [tokenize_npe_line], every argument record is stored under its
    own name, and its name, its types and its default value carry no
    blanks around them. *)
Theorem X6_tokens_stripped (rd : NpeFileReader.t) (st : NpeFunction.t) (n : string)
    (a : NpeArgument.t) :
  _parse (cpp_tokenizer run_cpp max_iters) empty rd = Ok st ->
  _arguments st !! n = Some a -> stripped_record n a.
Proof.
  intros Hp. revert n a. destruct rd as [lines ln].
  eapply (_parse_inv (cpp_tokenizer run_cpp max_iters) ln
            (fun s => forall n a, _arguments s !! n = Some a -> stripped_record n a));
    [| | |exact Hp].
  - intros s nm src pre doc H. exact H.
  - intros s line d s' r H Ha n a Hn.
    destruct (parse_arg_tokens _ _ _ _ _ _ _ Ha) as (tokens & v & a0 & Htok & Ea & Hmade).
    rewrite Ea in Hn. destruct (decide (v = n)) as [->|Hd].
    + rewrite lookup_insert_eq in Hn. inversion Hn; subst a0.
      pose proof (tokenize_outcomes run_cpp
                    (if d then DEFAULT_ARG_TOKEN else ARG_TOKEN) (Py.strip line)
                    (ln + 1) max_iters) as Hout.
      unfold cpp_tokenizer in Htok. rewrite Htok in Hout.
      rewrite Forall_forall in Hout.
      destruct Hmade as (H1 & H2 & H3 & H4).
      split; [apply Hout; apply list_elem_of_In; exact H1|]. split; [exact H2|].
      split.
      * eapply Forall_impl; [exact H3|]. intros t Ht. apply Hout.
        apply list_elem_of_In. exact Ht.
      * intros x Hx. apply Hout. apply list_elem_of_In. apply H4. exact Hx.
    + rewrite lookup_insert_ne in Hn by assumption. apply H. exact Hn.
  - intros n a Hn. cbn in Hn. rewrite lookup_empty in Hn. discriminate.
Qed.

End Composition.

Section Documentation.
Variable tok : string -> string -> Z -> result (list string).

Lemma parse_declare_doc_lines ln st cont : forall doc_lines rest,
  Forall (continues_doc ln) cont ->
  parse_declare tok ln st true doc_lines (cont ++ rest)
  = parse_declare tok ln st true (doc_lines +:+ concat_str cont) rest.
Proof.
  induction cont as [|l cont IH]; intros doc_lines rest Hc.
  - cbn [app concat_str fold_right]. rewrite app_nil_r_str. reflexivity.
  - inversion Hc as [|x xs (Hne & H1 & H2 & H3 & H4) Hc']; subst.
    cbn [app parse_declare].
    destruct (Py.len l =? 0) eqn:E; [apply len_0 in E; congruence|].
    rewrite H1, H2, H3, H4. rewrite IH by exact Hc'.
    cbn [concat_str fold_right]. rewrite app_assoc_str. reflexivity.
Qed.

(** X16: when the binding has no documentation text yet, a documentation
    statement and the lines that follow it, up to the next argument,
    default-argument, documentation or begin-code statement, are
    collected as documentation lines; when it has one, the statement
    raises the multiple-statements error. *)
Theorem X16_documentation_lines (ln : Z) (st : NpeFunction.t) (pd : bool)
    (doc_lines d : string) (cont rest : list string) :
  is_call DOC_TOKEN d (ln + 1) = true ->
  Forall (continues_doc ln) cont ->
  parse_declare tok ln st pd doc_lines (d :: cont ++ rest)
  = if String.eqb (_docstr st) "" then
      parse_declare tok ln st true (doc_lines +:+ d +:+ concat_str cont) rest
    else
      Raise (ParseError ("Multiple `" +:+ DOC_TOKEN
            +:+ "` statements for one function at line "
            +:+ Py.str_of_int (ln + 1) +:+ ".")).
Proof.
  intros Hd Hc. cbn [parse_declare].
  assert (Ht : In DOC_TOKEN npe_tokens) by (simpl; tauto).
  pose proof (is_call_nonempty _ _ _ Ht Hd) as Hne.
  destruct (Py.len d =? 0) eqn:E; [apply len_0 in E; congruence|].
  rewrite (is_call_other DOC_TOKEN ARG_TOKEN d (ln + 1) (ln + 1))
    by (first [exact Hd | discriminate | simpl; tauto]).
  rewrite (is_call_other DOC_TOKEN DEFAULT_ARG_TOKEN d (ln + 1) (ln + 1))
    by (first [exact Hd | discriminate | simpl; tauto]).
  rewrite Hd. destruct (String.eqb (_docstr st) ""); cbn [negb]; [|reflexivity].
  rewrite parse_declare_doc_lines by exact Hc. rewrite app_assoc_str. reflexivity.
Qed.

End Documentation.

(** X6 at [Examples.scalar_binding], tokenized by [Samples.run_cpp]. *)
Lemma X6_witness :
  _parse (cpp_tokenizer Samples.run_cpp 64) empty
         (Examples.reader Examples.scalar_binding) = Ok Samples.scalar_parsed /\
  _arguments Samples.scalar_parsed !! "n" = Some Samples.scalar_n /\
  stripped_record "n" Samples.scalar_n.
Proof.
  assert (Hp : _parse (cpp_tokenizer Samples.run_cpp 64) empty
         (Examples.reader Examples.scalar_binding) = Ok Samples.scalar_parsed)
    by (vm_compute; reflexivity).
  assert (Ha : _arguments Samples.scalar_parsed !! "n" = Some Samples.scalar_n)
    by (vm_compute; reflexivity).
  split; [exact Hp|]. split; [exact Ha|].
  exact (X6_tokens_stripped Samples.run_cpp 64 _ _ _ _ Hp Ha).
Defined.

(** X16 at a documentation statement followed by a line of code and a
    blank line, before an argument statement. *)
Lemma X16_witness :
  is_call DOC_TOKEN Samples.doc (0 + 1) = true /\
  Forall (continues_doc 0) [Samples.code; Samples.blank] /\
  parse_declare Scanner.tokenize 0 empty false ""
    (Samples.doc :: [Samples.code; Samples.blank] ++ [Samples.arg_x])
  = parse_declare Scanner.tokenize 0 empty true
      ("" +:+ Samples.doc +:+ concat_str [Samples.code; Samples.blank]) [Samples.arg_x].
Proof.
  assert (Hc : is_call DOC_TOKEN Samples.doc (0 + 1) = true) by (vm_compute; reflexivity).
  assert (Hk : Forall (continues_doc 0) [Samples.code; Samples.blank]).
  { repeat constructor; try discriminate; vm_compute; reflexivity. }
  split; [exact Hc|]. split; [exact Hk|].
  exact (X16_documentation_lines Scanner.tokenize 0 empty false "" _ _ [Samples.arg_x] Hc Hk).
Defined.
